(* ===== verification/_CoqProject ===== *)
-Q . S2P
Prelude.v
GoStrings.v
Utf8.v
Regex.v
Uuid.v
Json.v
JsonCodec.v
JsonRoundtrip.v
Errors.v
GoTime.v
Sha256.v
Domain.v
JsonStruct.v
TimeRoundtrip.v
JsonRaw.v
WsEvents.v
Hub.v
HubTheorems.v
Metrics.v
World.v
Repository.v
PgMessages.v
PgChats.v
PgUsers.v
Rows.v
Guarantee.v
Invariant.v
Evolution.v
Laws.v
Calls.v
Membership.v
Scenario.v
Timeline.v
WriterTheorems.v
MessageService.v
MessageTheorems.v
Journal.v
ChatService.v
ChatTheorems.v
Credentials.v
AuthService.v
Redis.v
Toys.v
Broadcaster.v
Kafka.v
Relay.v
EventRoundtrip.v
RelayTheorems.v
BroadcastTheorems.v
WsService.v
AuthTheorems.v
RedisTheorems.v
UserService.v
UserTheorems.v
WsTheorems.v
Conn.v
HttpJson.v
DtoJson.v
Http.v
Handlers.v
RateLimit.v
Router.v
RateLimitTheorems.v
Steps.v
SiteTheorems.v
Config.v
Wiring.v
Server.v
ConfigTheorems.v
Migration.v
Main.v
MigrationTheorems.v
Validator.v
ServerTheorems.v
Delivery.v
HttpTheorems.v
MainTheorems.v
