(* ===== verification/Prelude.v ===== *)
(** * gomsg (GoFlow messenger backend): verification development

    The program is a chat backend in Go (src/backend): an HTTP API and a
    WebSocket endpoint over PostgreSQL, Redis and Kafka.  This library is a
    shallow embedding of its packages under internal/, with the theorems
    that make it correct.  This file is the root: the guide below, and the
    prelude every other file uses.  Paths are relative to
    src/backend/internal.

    ** How the program is modelled

    A Go function that returns [(T, error)] is a computation of the monad
    [eff] (this file): it passes a state and yields a value or an error.
    The state is almost everywhere the [World] (World.v): the tables [DB],
    the Redis keyspace and the channels, the Kafka topic, the hub of
    WebSocket connections, the samples of the collectors, the clock, the sources of UUIDs
    and of random bytes; [M A] abbreviates [eff World error A].

    - _The database_ is shared.  The schedule [w_sched] of the world says,
      for each call to come, how much time passes before it, what the other
      processes do to the tables meanwhile, and whether the call fails before
      its effect, after it (the reply is lost), or not at all.  [call] and
      [tx_call] run one SQL statement, which is atomic; [transaction] runs
      its statements at the commit, or rolls back.  That is READ COMMITTED
      for this program, whose transactions lock every row they use
      (World.v), but for one effect: an outbox id is drawn before the
      commit, so events can become visible out of the order of their ids;
      the schedule says when ([ev_drawn], PgMessages.can_have_drawn).
      Theorems quantify over the schedule: "under any failures" means any
      [w_sched]; [env R w] restricts what the others do to steps of [R],
      [undisturbed w] says the others do not write, [quiet w] that nothing
      fails either.
    - _Interfaces_ of internal/repository are type classes (Repository.v).
      Services are written and proved against them; Laws.v discharges their
      laws for the PostgreSQL instances (PgMessages.v, PgChats.v, PgUsers.v).
    - _Third-party code_ is a class of its operations with a class of laws,
      its documented behaviour: bcrypt, golang-jwt and crypto/rand
      (Credentials.v: signing, decoding and verifying of JWTs are parameters,
      the rules by which ParseWithClaims accepts are its documented ones), Redis (Redis.v), the Kafka broker (Kafka.v),
      x/time/rate (RateLimit.v), the gorilla upgrader (Router.v), the
      Prometheus client (Metrics.v), the rows of pgx (Rows.v), the UUID
      generator (World.v).  Toys.v, RateLimitTheorems.v and Scenario.v have
      concrete instances with the laws proved, at which the witnesses
      evaluate.
    - _The Go standard library_ is modelled where the program uses it: strings
      and net (GoStrings.v), UTF-8 (Utf8.v), regexp (Regex.v), encoding/json
      (Json.v, JsonCodec.v, JsonStruct.v, JsonRaw.v), time (GoTime.v),
      sha256 (Sha256.v), http.ServeMux's choice of a route (Router.v).

    ** Files, from the bottom up

    - Language and library: Prelude, GoStrings, Utf8, Regex, Uuid (the text
      of ids and the ::uuid cast), Json, JsonCodec, JsonRoundtrip, JsonStruct,
      JsonRaw, GoTime, TimeRoundtrip, Sha256, Errors (pkg/errors,
      pkg/response), Validator (pkg/validator).
    - Data and state: Domain (domain/), WsEvents (transport/ws/events.go),
      Hub (transport/ws/hub.go, the queue of client.go), Metrics
      (observability/metrics: the collectors and the registry), World.
    - Storage: Repository (repository/), PgMessages, PgChats, PgUsers
      (repository/postgres/), Rows (the schema of the SQL files, the SELECT
      lists and the scan functions), Redis (repository/redis/ and the presence and
      ticket services), Kafka (kafka/), Migration (migration/runner.go).
    - Reasoning about storage: Guarantee ([guar R m]: what a computation does
      to the tables whatever the schedule), Invariant ([wf], the invariant of
      the tables; [evolves], what never changes in a row), Evolution and Laws
      (every statement and method keeps them), Journal ([journaled]: the
      events written follow the messages), Calls, Membership, Timeline,
      WriterTheorems.
    - Services: MessageService, ChatService, Credentials (pkg/auth),
      AuthService, UserService, WsService (service/ws_service.go, the read
      loop of transport/ws/client.go, transport/ws/handler.go), Conn (the
      same client.go in time: both pumps, deadlines, pings and pongs, as a
      step relation), Broadcaster (transport/ws/broadcaster.go), Relay
      (worker/).
    - HTTP: HttpJson (bodies and queries), DtoJson (dto/, answers), Http
      (requests, replies, middleware/auth.go and recovery.go), Handlers
      (transport/http/handler), RateLimit (middleware/ratelimit.go), Router
      (router.go, docs.go, logging.go, the middleware of metrics.go).
    - The process: Config (config/, pkg/logger); Wiring (container.go and
      the part of app.go New that builds the services, the handlers, the
      site and the workers from the pieces); Server (app/): the wiring at the container a
      successful start fills, and the state machine [act] of the
      goroutines it starts; Steps and SiteTheorems, what each step keeps;
      Main (cmd/app/main.go, New and Run of app.go): the start step by
      step, the shutdown and the exit code.
    - Theorems: the files named ...Theorems, with EventRoundtrip and
      Delivery, which composes the services, the relay and the hub.

    ** What the theorems show

    Each property carries its id in the comment above it.

    - Storage.  C1: the four writes of the message writer are atomic with
      their outbox event.  C8: the pages of a chat, followed with the cursor,
      give every live message once, newest first.
    - Messages.  C2 to C5: what a successful post, edit, deletion and read
      receipt did, and who made it.  C6: a request that fails changes nothing
      or is a 500.  C14: the outbox is a journal of the messages: the events
      that appeared since any moment, replayed in the order of their ids,
      give the live messages of now, although they do not appear in that
      order.  C32: end to end,
      a message posted reaches the connections of the chat's members and no
      other.
    - Chats.  C10 to C12: adding and removing members, creating groups.
      C13: direct chats, one for each spelling of the pair's identifiers.
      C15: strangers get nothing of a chat or a message.
    - Accounts.  C16: access tokens, which are accepted and until when.
      C17 to C21: registration, login, single-use refresh tokens, logout.
      C22: what the answers to bad logins tell apart (a disabled account,
      nothing else).  C23: profiles.
    - Redis.  C25: a ticket works once and for its lifetime.  C26: presence
      holds for its window.
    - Events.  C27: a domain event survives the trip through Kafka.  C28: the
      Kafka path and the local path deliver the same envelope.  C29: the
      relay loses nothing whatever fails.  C30: it drains the outbox when
      nothing fails.
    - Storage and code agree.  C31: every row the schema allows is scanned
      into the entity whose columns it has.
    - Connections.  C7: how long each goroutine of a connection waits: a
      silent peer ends the read it waits in within 60 s, a live one is
      kept, and closing ends the waits of both.  C34: typing events go to
      the members only, through Redis or not.  C35: who may open a
      connection, and what a refusal changes.
    - HTTP.  C9: every request is answered and counted once.  C36: what a
      rate limit lets through.  C37: no access without a valid token.  C38:
      which bodies are accepted.
    - The process.  C24: when main serves, which connections a shutdown
      closes, and what a failed start leaves alone (the tables, not the
      migrations).  C33: the invariants of the whole server
      under any interleaving of its actions.  C39: a loaded configuration
      is sound, and what exactly New builds from it.  C40: migrations
      are applied in order, once each.

    The examples named in the comments of RelayTheorems, ChatTheorems,
    HubTheorems, ConfigTheorems, Conn and HttpTheorems exhibit behaviour the code
    or its documents do not intend, among them [no_upgrade_through_chain]:
    behind the middleware of the server, no WebSocket upgrade succeeds.

    ** Bounds and fuel

    JSON values of length L are read with fuel 2 L + 1, which JsonRoundtrip
    proves enough for what the program writes; strings are read with fuel
    L + 1.  The subscription to Redis and the read loop are recursive on the
    messages received; the relay's run on the number of ticks.  CreateDirect
    retries three times as the code does.  int and time.Duration values
    are wrapped to 64 bits where the code multiplies them ([wrap64]);
    elsewhere they are within their range by the checks the code makes.

    ** Not modelled

    - The nesting limit of encoding/json (10000) and JSON numbers that are
      not integers inside [any] values (kept as text, not as float64).
    - Log lines, and components that are nil only when the program is wired
      otherwise (a nil logger, handlers without a user in the context).
    - The network: net/http's parsing of a request, redirects of paths that
      are not clean, time-outs, the encoding of WebSocket frames, the
      ticker of the relay, Kafka's offsets, contexts and their
      cancellation; whether the workers stop in time and whether Shutdown
      succeeds are parameters of Run.
    - Panics: Recovery and the panic of the metrics middleware are modelled;
      no modelled handler panics.
    - The exposition of metrics (promhttp) and the buckets and sums of the
      histograms, the connection pool of pgx, the indexes of the SQL files;
      the schema the migrations build and the tables of the world are
      separate states. *)

From stdpp Require Import base strings gmap list sorting.

(** ** Results and effects

    A Go function that returns [(T, error)] is a computation that either
    yields a value or an error; the state it reads and writes is passed
    explicitly.  [eff S E A] is the state-and-error monad every operation
    of the development lives in; it plugs into stdpp's monad notations. *)

Inductive result (E A : Type) : Type :=
| Ok (a : A)
| Err (e : E).
Arguments Ok {E A} a.
Arguments Err {E A} e.

Definition is_ok {E A} (r : result E A) : bool :=
  match r with Ok _ => true | Err _ => false end.

Definition eff (S E A : Type) : Type := S → result E A * S.

#[export] Instance eff_ret {S E} : MRet (eff S E) := λ A a s, (Ok a, s).

#[export] Instance eff_bind {S E} : MBind (eff S E) := λ A B k m s,
  match m s with
  | (Ok a, s1) => k a s1
  | (Err e, s1) => (Err e, s1)
  end.

(** [throw e] is [return ..., e]. *)
Definition throw {S E A} (e : E) : eff S E A := λ s, (Err e, s).

(** [map_err f m] is [if err != nil { return f(err) }] after the call [m]. *)
Definition map_err {S E A} (f : E → E) (m : eff S E A) : eff S E A := λ s,
  match m s with
  | (Ok a, s1) => (Ok a, s1)
  | (Err e, s1) => (Err (f e), s1)
  end.

(** [attempt m] reifies the error of [m] as a value: [x, err := m]. *)
Definition attempt {S E A} (m : eff S E A) : eff S E (result E A) := λ s,
  match m s with (r, s1) => (Ok r, s1) end.

(** [of_result r] lifts a pure fallible computation. *)
Definition of_result {S E A} (r : result E A) : eff S E A := λ s, (r, s).

Definition get_state {S E} : eff S E S := λ s, (Ok s, s).
Definition modify_state {S E} (f : S → S) : eff S E () := λ s, (Ok (), f s).

(** [fail_when b e] is the early return [if b { return e }]. *)
Definition fail_when {S E} (b : bool) (e : E) : eff S E () :=
  if b then throw e else mret ().

Declare Scope go_scope.
Delimit Scope go_scope with go.
Notation "m ?! f" := (map_err f m) (at level 62, left associativity) : go_scope.
Open Scope go_scope.

(** Two computations are equivalent when they agree on every state. *)
#[export] Instance eff_equiv {S E A} : Equiv (eff S E A) := λ m1 m2, ∀ s, m1 s = m2 s.

#[export] Instance eff_equivalence {S E A} : Equivalence (≡@{eff S E A}).
Proof.
  split; [done| |]; unfold equiv, eff_equiv; intros ?; [done|].
  intros m2 m3 H1 H2 s. by rewrite H1.
Qed.

#[export] Instance mbind_proper {S E A B} :
  Proper (pointwise_relation A (≡) ==> (≡) ==> (≡@{eff S E B})) mbind.
Proof.
  intros k1 k2 Hk m1 m2 Hm s. unfold mbind, eff_bind. rewrite Hm.
  destruct (m2 s) as [[a|e] s1]; [apply Hk|done].
Qed.

#[export] Instance map_err_proper {S E A} (f : E → E) :
  Proper ((≡) ==> (≡@{eff S E A})) (map_err f).
Proof. intros m1 m2 Hm s. unfold map_err. by rewrite Hm. Qed.

(** *** Inversion and evaluation of the primitives *)

Section eff_lemmas.
Context {S E A B : Type}.
Implicit Types (m : eff S E A) (k : A → eff S E B) (s : S).

Lemma bind_ok m k s a s1 :
  m s = (Ok a, s1) → (m ≫= k) s = k a s1.
Proof. intros H. unfold mbind, eff_bind. by rewrite H. Qed.

Lemma bind_err m k s e s1 :
  m s = (Err e, s1) → (m ≫= k) s = (Err e, s1).
Proof. intros H. unfold mbind, eff_bind. by rewrite H. Qed.

Lemma bind_inv m k s r s' :
  (m ≫= k) s = (r, s') →
  (∃ a s1, m s = (Ok a, s1) ∧ k a s1 = (r, s')) ∨
  (∃ e, m s = (Err e, s') ∧ r = Err e).
Proof.
  unfold mbind, eff_bind. destruct (m s) as [[a|e] s1]; intros H.
  - left. eauto.
  - right. exists e. by simplify_eq.
Qed.

Lemma bind_Ok_inv m k s b s' :
  (m ≫= k) s = (Ok b, s') →
  ∃ a s1, m s = (Ok a, s1) ∧ k a s1 = (Ok b, s').
Proof. intros [?|(e & ? & ?)]%bind_inv; [done|by simplify_eq]. Qed.

Lemma map_err_Ok_inv m f s a s' :
  map_err f m s = (Ok a, s') → m s = (Ok a, s').
Proof. unfold map_err. destruct (m s) as [[?|?] ?]; congruence. Qed.

Lemma map_err_inv m f s r s' :
  map_err f m s = (r, s') →
  (∃ a, r = Ok a ∧ m s = (Ok a, s')) ∨
  (∃ e, r = Err (f e) ∧ m s = (Err e, s')).
Proof.
  unfold map_err. destruct (m s) as [[a|e] s1]; intros [= <- <-]; eauto.
Qed.
End eff_lemmas.

Lemma bind_assoc {S E A B C} (m : eff S E A) (k : A → eff S E B) (h : B → eff S E C) :
  ((m ≫= k) ≫= h) ≡ (m ≫= λ a, k a ≫= h).
Proof. intros s. unfold mbind, eff_bind. by destruct (m s) as [[a|e] s1]. Qed.

Lemma fail_when_inv {S E} (b : bool) (e : E) (s s' : S) r :
  fail_when b e s = (r, s') → s' = s ∧ (b = false ∧ r = Ok () ∨ b = true ∧ r = Err e).
Proof. unfold fail_when. destruct b; intros [= <- <-]; eauto. Qed.

Lemma fail_when_Ok_inv {S E} (b : bool) (e : E) (s s' : S) u :
  fail_when b e s = (Ok u, s') → b = false ∧ s' = s.
Proof. intros [-> [[-> _]|[_ ?]]]%fail_when_inv; [done|discriminate]. Qed.

(** [go_inv H] takes a successful run of a sequence of calls apart: one
    hypothesis per call, early returns becoming facts about their guards. *)
Ltac go_inv_step :=
  match goal with
  | H : (_ ≫= _) _ = (Ok _, _) |- _ =>
      apply bind_Ok_inv in H; destruct H as (? & ? & ? & H)
  | H : map_err _ _ _ = (Ok _, _) |- _ => apply map_err_Ok_inv in H
  | H : fail_when _ _ _ = (Ok _, _) |- _ =>
      apply fail_when_Ok_inv in H; destruct H as [? ->]
  | H : mret _ _ = (_, _) |- _ => injection H as <- <-
  | H : throw _ _ = (Ok _, _) |- _ => discriminate H
  | H : of_result _ _ = (_, _) |- _ => injection H as ? <-
  | H : get_state _ = (_, _) |- _ => injection H as <- <-
  | H : modify_state _ _ = (_, _) |- _ => injection H as ? <-
  end.
Ltac go_inv := repeat go_inv_step.

(** ** Sorted lists *)
Lemma StronglySorted_filter {A} (R : relation A) (P : A → Prop) `{∀ x, Decision (P x)} l :
  StronglySorted R l → StronglySorted R (filter P l).
Proof.
  induction 1 as [|x l Hl IH Hx]; [constructor|].
  rewrite filter_cons. destruct (decide (P x)); [|done].
  constructor; [done|]. rewrite Forall_forall in *. intros y [_ Hy]%list_elem_of_filter. auto.
Qed.

(** ** Lemma database of the development *)
Create HintDb goflow.
#[export] Hint Resolve bind_ok bind_err : goflow.
