(* ===== verification/GoStrings.v ===== *)
(** * Go strings

    A Go [string] is a sequence of bytes; here it is a [string] of
    [ascii] characters, one per byte.  The file models the functions of
    the packages strings, strconv, net and encoding/hex the backend calls,
    as they are documented and implemented in the Go standard library. *)

From Stdlib Require Import Ascii.
From stdpp Require Import base strings list pretty.
From S2P Require Import Prelude.

Notation byte_of := Ascii.nat_of_ascii.

Definition byte_in (lo hi : nat) (c : ascii) : bool :=
  (lo <=? byte_of c)%nat && (byte_of c <=? hi)%nat.

Definition is_digit : ascii → bool := byte_in 48 57.
Definition is_upper : ascii → bool := byte_in 65 90.
Definition is_lower : ascii → bool := byte_in 97 122.
Definition is_alpha (c : ascii) : bool := is_upper c || is_lower c.
(** the class [[0-9a-fA-F]] *)
Definition is_hex (c : ascii) : bool :=
  is_digit c || byte_in 97 102 c || byte_in 65 70 c.

Fixpoint str_forall (p : ascii → bool) (s : string) : bool :=
  match s with
  | EmptyString => true
  | String c r => p c && str_forall p r
  end.

Notation str_empty s := (String.eqb s "").

(** [s > t] on Go strings: bytewise lexicographic order. *)
Definition str_gtb (s t : string) : bool := String.ltb t s.

(** ** strings.TrimSpace

    [space_len s] is the number of bytes of the Unicode white-space rune
    [s] begins with (0 when it begins with none): ASCII tab, newline,
    vertical tab, form feed, carriage return and blank, and the UTF-8
    encodings of U+0085, U+00A0, U+1680, U+2000-200A, U+2028, U+2029,
    U+202F, U+205F and U+3000. *)
Definition space1 (a : nat) : bool := ((9 <=? a) && (a <=? 13) || (a =? 32))%nat.
Definition space2 (a b : nat) : bool :=
  ((a =? 194) && ((b =? 133) || (b =? 160)))%nat.
Definition space3 (a b c : nat) : bool :=
  ((a =? 225) && (b =? 154) && (c =? 128)
   || (a =? 226) && (b =? 128)
      && ((128 <=? c) && (c <=? 138) || (c =? 168) || (c =? 169) || (c =? 175))
   || (a =? 226) && (b =? 129) && (c =? 159)
   || (a =? 227) && (b =? 128) && (c =? 128))%nat.

Definition space_len (s : string) : nat :=
  match s with
  | EmptyString => 0
  | String c1 r1 =>
      if space1 (byte_of c1) then 1 else
      match r1 with
      | EmptyString => 0
      | String c2 r2 =>
          if space2 (byte_of c1) (byte_of c2) then 2 else
          match r2 with
          | EmptyString => 0
          | String c3 _ =>
              if space3 (byte_of c1) (byte_of c2) (byte_of c3) then 3 else 0
          end
      end
  end.

(** The same for the last rune, on the reversed byte sequence. *)
Definition space_len_rev (s : string) : nat :=
  match s with
  | EmptyString => 0
  | String c1 r1 =>
      if space1 (byte_of c1) then 1 else
      match r1 with
      | EmptyString => 0
      | String c2 r2 =>
          if space2 (byte_of c2) (byte_of c1) then 2 else
          match r2 with
          | EmptyString => 0
          | String c3 _ =>
              if space3 (byte_of c3) (byte_of c2) (byte_of c1) then 3 else 0
          end
      end
  end.

(** [trim_by len skip s] drops [skip] bytes and then runes [len] accepts. *)
Fixpoint trim_by (len : string → nat) (skip : nat) (s : string) : string :=
  match s with
  | EmptyString => EmptyString
  | String c r =>
      match skip with
      | S k => trim_by len k r
      | O => match len s with
             | O => s
             | S k => trim_by len k r
             end
      end
  end.

Definition trim_left (s : string) : string := trim_by space_len 0 s.
Definition trim_right (s : string) : string :=
  String.rev (trim_by space_len_rev 0 (String.rev s)).
Definition TrimSpace (s : string) : string := trim_right (trim_left s).

(** ** ASCII case *)
Definition lower_byte (c : ascii) : ascii :=
  if is_upper c then Ascii.ascii_of_nat (byte_of c + 32) else c.
Fixpoint ascii_lower (s : string) : string :=
  match s with
  | EmptyString => EmptyString
  | String c r => String (lower_byte c) (ascii_lower r)
  end.
Definition is_ascii (s : string) : bool := str_forall (byte_in 0 127) s.

(** [strings.EqualFold s t] for a [t] with no letter that folds outside
    ASCII (no k and no s), the only way the backend calls it. *)
Definition EqualFold (s t : string) : bool :=
  String.eqb (ascii_lower s) (ascii_lower t).

(** ** strings.Split, strings.TrimPrefix *)
Fixpoint split_go (sep : ascii) (cur : string) (s : string) : list string :=
  match s with
  | EmptyString => [String.rev cur]
  | String c r =>
      if Ascii.eqb c sep then String.rev cur :: split_go sep "" r
      else split_go sep (String c cur) r
  end.
Definition Split (s : string) (sep : ascii) : list string := split_go sep "" s.

Fixpoint str_drop (n : nat) (s : string) : string :=
  match n, s with
  | O, _ => s
  | S _, EmptyString => EmptyString
  | S k, String _ r => str_drop k r
  end.
Fixpoint str_take (n : nat) (s : string) : string :=
  match n, s with
  | O, _ => EmptyString
  | S _, EmptyString => EmptyString
  | S k, String c r => String c (str_take k r)
  end.
Definition HasPrefix (s p : string) : bool := String.prefix p s.
Definition TrimPrefix (s p : string) : string :=
  if HasPrefix s p then str_drop (String.length p) s else s.
Definition HasSuffix (s p : string) : bool :=
  String.prefix (String.rev p) (String.rev s).

(** ** strconv.Atoi: an optional sign and decimal digits, in the range of
    a 64-bit [int] *)
Fixpoint digits_val (acc : Z) (s : string) : option Z :=
  match s with
  | EmptyString => Some acc
  | String c r =>
      if is_digit c then digits_val (acc * 10 + (Z.of_nat (byte_of c) - 48))%Z r
      else None
  end.
Definition min_int64 : Z := (- 2 ^ 63)%Z.
Definition max_int64 : Z := (2 ^ 63 - 1)%Z.
Definition in_int64 (z : Z) : bool := ((min_int64 <=? z) && (z <=? max_int64))%Z.
Definition Atoi (s : string) : option Z :=
  let '(neg, d) :=
    match s with
    | String "-"%char r => (true, r)
    | String "+"%char r => (false, r)
    | _ => (false, s)
    end in
  if str_empty d then None else
  match digits_val 0 d with
  | Some n => let z := if neg then (- n)%Z else n in
              if in_int64 z then Some z else None
  | None => None
  end.

(** ** encoding/hex *)
Definition hex_digit (n : nat) : ascii :=
  Ascii.ascii_of_nat (if (n <? 10)%nat then 48 + n else 87 + n).
Fixpoint hex_encode (bs : list nat) : string :=
  match bs with
  | [] => EmptyString
  | b :: r => String (hex_digit (b / 16 mod 16)) (String (hex_digit (b mod 16)) (hex_encode r))
  end.

(** ** net.SplitHostPort *)
Fixpoint index_byte (c : ascii) (s : string) : option nat :=
  match s with
  | EmptyString => None
  | String d r => if Ascii.eqb d c then Some 0 else S <$> index_byte c r
  end.
Fixpoint last_index_byte (c : ascii) (s : string) : option nat :=
  match s with
  | EmptyString => None
  | String d r =>
      match last_index_byte c r with
      | Some i => Some (S i)
      | None => if Ascii.eqb d c then Some 0 else None
      end
  end.
Definition has_byte (c : ascii) (s : string) : bool :=
  match index_byte c s with Some _ => true | None => false end.

Definition SplitHostPort (hostport : string) : option (string * string) :=
  match last_index_byte ":" hostport with
  | None => None
  | Some i =>
      let port := str_drop (S i) hostport in
      match hostport with
      | String "["%char inner =>
          match index_byte "]" hostport with
          | None => None
          | Some e =>
              if negb (S e =? i)%nat then None else
              if has_byte "[" inner then None else
              if has_byte "]" (str_drop (S e) hostport) then None else
              Some (str_take (e - 1) inner, port)
          end
      | _ =>
          let host := str_take i hostport in
          if has_byte ":" host then None else
          if has_byte "[" hostport then None else
          if has_byte "]" hostport then None else
          Some (host, port)
      end
  end.

(** ** Facts *)

Lemma str_app_cons c s t : String c s +:+ t = String c (s +:+ t).
Proof. done. Qed.

Lemma str_length_app s t : String.length (s +:+ t) = String.length s + String.length t.
Proof. induction s as [|c s IH]; [done|]. rewrite str_app_cons. simpl. by rewrite IH. Qed.

Lemma str_app_nil_r s : s +:+ "" = s.
Proof. induction s as [|c s IH]; [done|]. by rewrite str_app_cons, IH. Qed.

Lemma str_app_assoc s t u : s +:+ (t +:+ u) = (s +:+ t) +:+ u.
Proof. induction s as [|c s IH]; [done|]. by rewrite !str_app_cons, IH. Qed.

Lemma str_app_inj_r s t u : t +:+ s = u +:+ s → t = u.
Proof.
  revert u. induction t as [|c t IH]; intros [|d u] H; [done| | |].
  - apply (f_equal String.length) in H. rewrite !str_length_app in H. simpl in H. lia.
  - apply (f_equal String.length) in H. rewrite !str_length_app in H. simpl in H. lia.
  - rewrite !str_app_cons in H. simplify_eq. f_equal. by apply IH.
Qed.

Lemma rev_app_spec s t u : String.rev_app s (t +:+ u) = String.rev_app s t +:+ u.
Proof. revert t. induction s as [|c s IH]; intros t; [done|]. apply (IH (String c t)). Qed.

Lemma rev_app_rev s t : String.rev_app s t = String.rev s +:+ t.
Proof. unfold String.rev. apply (rev_app_spec s "" t). Qed.

Lemma str_rev_cons c s : String.rev (String c s) = String.rev s +:+ String c "".
Proof. unfold String.rev. simpl. by rewrite rev_app_rev. Qed.

Lemma str_rev_app s t : String.rev (s +:+ t) = String.rev t +:+ String.rev s.
Proof.
  induction s as [|c s IH]; [by rewrite str_app_nil_r|].
  by rewrite str_app_cons, !str_rev_cons, IH, str_app_assoc.
Qed.

Lemma str_rev_involutive s : String.rev (String.rev s) = s.
Proof.
  induction s as [|c s IH]; [done|].
  by rewrite str_rev_cons, str_rev_app, IH.
Qed.

Lemma str_rev_length s : String.length (String.rev s) = String.length s.
Proof.
  induction s as [|c s IH]; [done|].
  rewrite str_rev_cons, str_length_app, IH. simpl. lia.
Qed.

Lemma str_forall_app p s t : str_forall p (s +:+ t) = str_forall p s && str_forall p t.
Proof.
  induction s as [|c s IH]; [done|]. rewrite str_app_cons. simpl.
  by rewrite IH, andb_assoc.
Qed.

Lemma str_forall_rev p s : str_forall p (String.rev s) = str_forall p s.
Proof.
  induction s as [|c s IH]; [done|].
  rewrite str_rev_cons, str_forall_app, IH. simpl.
  by rewrite andb_true_r, andb_comm.
Qed.

Lemma str_forall_impl (p q : ascii → bool) s :
  (∀ c, p c = true → q c = true) → str_forall p s = true → str_forall q s = true.
Proof.
  intros Hpq. induction s as [|c s IH]; simpl; [done|].
  rewrite !andb_true_iff. intros [? ?]. auto.
Qed.

Lemma trim_by_suffix len k s : ∃ p, s = p +:+ trim_by len k s.
Proof.
  revert k. induction s as [|c s IH]; intros k; simpl; [by exists ""|].
  destruct k as [|k].
  - destruct (len (String c s)) as [|k]; [by exists ""|].
    destruct (IH k) as [p Hp]. exists (String c p). by rewrite str_app_cons, <- Hp.
  - destruct (IH k) as [p Hp]. exists (String c p). by rewrite str_app_cons, <- Hp.
Qed.

Lemma trim_by_done len k s : len "" = 0 → len (trim_by len k s) = 0.
Proof.
  intros H0. revert k. induction s as [|c s IH]; intros k; simpl; [done|].
  destruct k as [|k]; [|apply IH].
  destruct (len (String c s)) eqn:E; [done|apply IH].
Qed.

Lemma trim_by_id len s : len s = 0 → trim_by len 0 s = s.
Proof. destruct s as [|c s]; [done|]. simpl. by intros ->. Qed.

(** A rune that begins a prefix begins the whole string. *)
Lemma space_len_prefix s t : space_len (s +:+ t) = 0 → space_len s = 0.
Proof.
  destruct s as [|c1 [|c2 [|c3 s]]]; rewrite ?str_app_cons; [done| | |done];
    cbn [space_len].
  - by destruct (space1 _).
  - by destruct (space1 (byte_of c1)), (space2 (byte_of c1) (byte_of c2)).
Qed.

Lemma trim_left_no_lead s : space_len (trim_left s) = 0.
Proof. by apply trim_by_done. Qed.

Lemma trim_right_no_trail s : space_len_rev (String.rev (trim_right s)) = 0.
Proof. unfold trim_right. rewrite str_rev_involutive. by apply trim_by_done. Qed.

Lemma trim_right_prefix s : ∃ q, s = trim_right s +:+ q.
Proof.
  destruct (trim_by_suffix space_len_rev 0 (String.rev s)) as [p Hp].
  exists (String.rev p). unfold trim_right.
  rewrite <- str_rev_app, <- Hp. by rewrite str_rev_involutive.
Qed.

(** [TrimSpace] leaves a string that neither starts nor ends with white
    space unchanged, and its result is such a string. *)
Definition trimmed (s : string) : Prop :=
  space_len s = 0 ∧ space_len_rev (String.rev s) = 0.

Lemma trim_space_trimmed s : trimmed (TrimSpace s).
Proof.
  split; [|apply trim_right_no_trail].
  destruct (trim_right_prefix (trim_left s)) as [q Hq].
  apply (space_len_prefix _ q). unfold TrimSpace. rewrite <- Hq.
  apply trim_left_no_lead.
Qed.

Lemma trim_space_id s : trimmed s → TrimSpace s = s.
Proof.
  intros [Hl Hr]. unfold TrimSpace, trim_left, trim_right.
  rewrite (trim_by_id _ _ Hl), (trim_by_id _ _ Hr). apply str_rev_involutive.
Qed.

Lemma trim_space_idem s : TrimSpace (TrimSpace s) = TrimSpace s.
Proof. apply trim_space_id, trim_space_trimmed. Qed.

Lemma trim_space_length s : String.length (TrimSpace s) ≤ String.length s.
Proof.
  unfold TrimSpace.
  destruct (trim_right_prefix (trim_left s)) as [q Hq].
  destruct (trim_by_suffix space_len 0 s) as [p Hp].
  apply (f_equal String.length) in Hq, Hp. unfold trim_left in *.
  rewrite str_length_app in Hq, Hp. lia.
Qed.

(** Visible ASCII characters are never trimmed. *)
Definition is_visible : ascii → bool := byte_in 33 126.

Lemma space_len_visible c r : is_visible c = true → space_len (String c r) = 0.
Proof.
  unfold is_visible, byte_in, space_len. rewrite andb_true_iff, !Nat.leb_le. intros [? ?].
  assert (space1 (byte_of c) = false) as ->.
  { unfold space1. destruct (Nat.leb_spec 9 (byte_of c)), (Nat.leb_spec (byte_of c) 13),
      (Nat.eqb_spec (byte_of c) 32); simpl; done || lia. }
  destruct r as [|c2 [|c3 r]]; [done| |]; unfold space2, space3;
  repeat match goal with |- context [(byte_of c =? ?n)%nat] =>
    replace (byte_of c =? n)%nat with false by (symmetry; apply Nat.eqb_neq; lia) end; done.
Qed.

Lemma space_len_rev_visible c r : is_visible c = true → space_len_rev (String c r) = 0.
Proof.
  unfold is_visible, byte_in, space_len_rev. rewrite andb_true_iff, !Nat.leb_le. intros [? ?].
  assert (space1 (byte_of c) = false) as ->.
  { unfold space1. destruct (Nat.leb_spec 9 (byte_of c)), (Nat.leb_spec (byte_of c) 13),
      (Nat.eqb_spec (byte_of c) 32); simpl; done || lia. }
  assert (∀ n, 127 ≤ n → (byte_of c =? n)%nat = false) as Hn by (intros; apply Nat.eqb_neq; lia).
  assert (∀ n, 127 ≤ n → (n <=? byte_of c)%nat = false) as Hn' by (intros; apply Nat.leb_gt; lia).
  destruct r as [|c2 [|c3 r]]; [done| |]; unfold space2, space3;
  rewrite !Hn, ?Hn' by lia; simpl; by rewrite ?andb_false_r.
Qed.

Lemma trimmed_visible s : str_forall is_visible s = true → trimmed s.
Proof.
  intros H. split.
  - destruct s; [done|]. simpl in H. apply andb_true_iff in H as [? _].
    by apply space_len_visible.
  - rewrite <- str_forall_rev in H. destruct (String.rev s); [done|].
    simpl in H. apply andb_true_iff in H as [? _]. by apply space_len_rev_visible.
Qed.

Lemma ascii_lower_length s : String.length (ascii_lower s) = String.length s.
Proof. induction s as [|c s IH]; simpl; [done|]. by rewrite IH. Qed.

Lemma lower_byte_idem c : lower_byte (lower_byte c) = lower_byte c.
Proof. destruct c as [[] [] [] [] [] [] [] []]; reflexivity. Qed.

Lemma ascii_lower_idem s : ascii_lower (ascii_lower s) = ascii_lower s.
Proof. induction s; simpl; [done|]. by rewrite lower_byte_idem, IHs. Qed.

Lemma ascii_lower_app s t : ascii_lower (s +:+ t) = ascii_lower s +:+ ascii_lower t.
Proof.
  induction s as [|c s IH]; [done|]. rewrite str_app_cons. simpl.
  by rewrite IH, str_app_cons.
Qed.

Lemma str_take_length n s : String.length (str_take n s) ≤ n.
Proof. revert s. induction n; intros [|c s]; simpl; try lia. apply le_n_S, IHn. Qed.

Lemma str_take_drop n s : str_take n s +:+ str_drop n s = s.
Proof.
  revert s. induction n as [|n IH]; intros [|c s]; try done. simpl.
  by rewrite str_app_cons, IH.
Qed.

Lemma hex_encode_length bs : String.length (hex_encode bs) = 2 * length bs.
Proof. induction bs; simpl; lia. Qed.

Lemma hex_digit_hex n : (n < 16)%nat → is_hex (hex_digit n) = true.
Proof.
  intros Hn. do 16 (destruct n as [|n]; [reflexivity|]). lia.
Qed.
Lemma hex_encode_hex bs : str_forall is_hex (hex_encode bs) = true.
Proof.
  induction bs as [|b bs IH]; [done|]. cbn [hex_encode str_forall].
  rewrite !hex_digit_hex by (apply Nat.mod_upper_bound; lia). by rewrite IH.
Qed.

Lemma eqb_string_dec (s t : string) : String.eqb s t = bool_decide (s = t).
Proof.
  destruct (String.eqb_spec s t); [by rewrite bool_decide_true|by rewrite bool_decide_false].
Qed.

#[export] Hint Resolve trim_space_trimmed trimmed_visible : goflow.
#[export] Hint Rewrite trim_space_idem ascii_lower_idem ascii_lower_length : goflow.
