(* ===== verification/Utf8.v ===== *)
(** * UTF-8

    Runes and their encoding (package unicode/utf8), [strings.ToLower], and
    what PostgreSQL checks of a text parameter.  A rune is a code point as
    a [Z]; a byte that starts no valid encoding decodes to U+FFFD. *)

From Stdlib Require Import Ascii.
From stdpp Require Import base strings list.
From S2P Require Import Prelude GoStrings.

Local Open Scope Z_scope.

Definition byte_z (c : ascii) : Z := Z.of_nat (byte_of c).
Definition z_byte (z : Z) : ascii := ascii_of_nat (Z.to_nat (z mod 256)).

Definition RuneError : Z := 65533.

Definition btw (lo hi x : Z) : bool := (lo <=? x) && (x <=? hi).
Definition cont (x : Z) : Z := Z.land x 63.

(** ** Decoding

    [decode_rune s] is the rune the nonempty [s] begins with and its
    width; [None] when its first byte begins no valid encoding: overlong
    forms, surrogates and values above U+10FFFF are not valid. *)
Definition decode_rune (s : string) : option (Z * nat) :=
  match s with
  | EmptyString => None
  | String a r1 =>
      let a := byte_z a in
      if a <? 128 then Some (a, 1%nat)
      else match r1 with
      | EmptyString => None
      | String b r2 =>
          let b := byte_z b in
          if btw 194 223 a then
            if btw 128 191 b then Some (Z.land a 31 * 64 + cont b, 2%nat) else None
          else match r2 with
          | EmptyString => None
          | String c r3 =>
              let c := byte_z c in
              if btw 224 239 a then
                let lo := if a =? 224 then 160 else 128 in
                let hi := if a =? 237 then 159 else 191 in
                if btw lo hi b && btw 128 191 c
                then Some (Z.land a 15 * 4096 + cont b * 64 + cont c, 3%nat) else None
              else match r3 with
              | EmptyString => None
              | String e _ =>
                  let e := byte_z e in
                  let lo := if a =? 240 then 144 else 128 in
                  let hi := if a =? 244 then 143 else 191 in
                  if btw 240 244 a && btw lo hi b && btw 128 191 c && btw 128 191 e
                  then Some (Z.land a 7 * 262144 + cont b * 4096 + cont c * 64 + cont e, 4%nat)
                  else None
              end
          end
      end
  end.

(** [runes_from k s] skips [k] bytes and decodes the rest: [None] marks an
    invalid byte. *)
Fixpoint runes_from (skip : nat) (s : string) : list (option Z) :=
  match s with
  | EmptyString => []
  | String _ r =>
      match skip with
      | S k => runes_from k r
      | O => match decode_rune s with
             | Some (rn, w) => Some rn :: runes_from (pred w) r
             | None => None :: runes_from 0 r
             end
      end
  end.

(** [for _, r := range s] *)
Definition runes (s : string) : list Z := default RuneError <$> runes_from 0 s.
(** utf8.ValidString, utf8.RuneCountInString *)
Definition ValidString (s : string) : bool := forallb (λ x, bool_decide (is_Some x)) (runes_from 0 s).
Definition RuneCount (s : string) : nat := length (runes_from 0 s).

(** ** Encoding *)
Definition encode_rune (r : Z) : string :=
  let r := if btw 0 1114111 r && negb (btw 55296 57343 r) then r else RuneError in
  if r <? 128 then String (z_byte r) ""
  else if r <? 2048 then String (z_byte (192 + r / 64)) (String (z_byte (128 + r mod 64)) "")
  else if r <? 65536 then
    String (z_byte (224 + r / 4096)) (String (z_byte (128 + r / 64 mod 64))
      (String (z_byte (128 + r mod 64)) ""))
  else
    String (z_byte (240 + r / 262144)) (String (z_byte (128 + r / 4096 mod 64))
      (String (z_byte (128 + r / 64 mod 64)) (String (z_byte (128 + r mod 64)) ""))).

Definition encode_runes (rs : list Z) : string := String.concat "" (map encode_rune rs).

(** ** strings.ToLower

    unicode.ToLower outside ASCII: the ranges [(first, last, stride,
    delta)] of the simple lower-case mapping of the Unicode database. *)
Definition lower_ranges : list (Z * Z * Z * Z) :=
  [(192,214,1,32); (216,222,1,32); (256,302,2,1); (304,304,1,(-199)); (306,310,2,1); (313,327,2,1);
   (330,374,2,1); (376,376,1,(-121)); (377,381,2,1); (385,385,1,210); (386,388,2,1); (390,390,1,206);
   (391,391,1,1); (393,394,1,205); (395,395,1,1); (398,398,1,79); (399,399,1,202); (400,400,1,203);
   (401,401,1,1); (403,403,1,205); (404,404,1,207); (406,406,1,211); (407,407,1,209); (408,408,1,1);
   (412,412,1,211); (413,413,1,213); (415,415,1,214); (416,420,2,1); (422,422,1,218); (423,423,1,1);
   (425,425,1,218); (428,428,1,1); (430,430,1,218); (431,431,1,1); (433,434,1,217); (435,437,2,1);
   (439,439,1,219); (440,440,1,1); (444,444,1,1); (452,452,1,2); (453,453,1,1); (455,455,1,2);
   (456,456,1,1); (458,458,1,2); (459,475,2,1); (478,494,2,1); (497,497,1,2); (498,500,2,1);
   (502,502,1,(-97)); (503,503,1,(-56)); (504,542,2,1); (544,544,1,(-130)); (546,562,2,1); (570,570,1,10795);
   (571,571,1,1); (573,573,1,(-163)); (574,574,1,10792); (577,577,1,1); (579,579,1,(-195)); (580,580,1,69);
   (581,581,1,71); (582,590,2,1); (880,882,2,1); (886,886,1,1); (895,895,1,116); (902,902,1,38);
   (904,906,1,37); (908,908,1,64); (910,911,1,63); (913,929,1,32); (931,939,1,32); (975,975,1,8);
   (984,1006,2,1); (1012,1012,1,(-60)); (1015,1015,1,1); (1017,1017,1,(-7)); (1018,1018,1,1); (1021,1023,1,(-130));
   (1024,1039,1,80); (1040,1071,1,32); (1120,1152,2,1); (1162,1214,2,1); (1216,1216,1,15); (1217,1229,2,1);
   (1232,1326,2,1); (1329,1366,1,48); (4256,4293,1,7264); (4295,4295,1,7264); (4301,4301,1,7264); (5024,5103,1,38864);
   (5104,5109,1,8); (7312,7354,1,(-3008)); (7357,7359,1,(-3008)); (7680,7828,2,1); (7838,7838,1,(-7615)); (7840,7934,2,1);
   (7944,7951,1,(-8)); (7960,7965,1,(-8)); (7976,7983,1,(-8)); (7992,7999,1,(-8)); (8008,8013,1,(-8)); (8025,8031,2,(-8));
   (8040,8047,1,(-8)); (8072,8079,1,(-8)); (8088,8095,1,(-8)); (8104,8111,1,(-8)); (8120,8121,1,(-8)); (8122,8123,1,(-74));
   (8124,8124,1,(-9)); (8136,8139,1,(-86)); (8140,8140,1,(-9)); (8152,8153,1,(-8)); (8154,8155,1,(-100)); (8168,8169,1,(-8));
   (8170,8171,1,(-112)); (8172,8172,1,(-7)); (8184,8185,1,(-128)); (8186,8187,1,(-126)); (8188,8188,1,(-9)); (8486,8486,1,(-7517));
   (8490,8490,1,(-8383)); (8491,8491,1,(-8262)); (8498,8498,1,28); (8544,8559,1,16); (8579,8579,1,1); (9398,9423,1,26);
   (11264,11311,1,48); (11360,11360,1,1); (11362,11362,1,(-10743)); (11363,11363,1,(-3814)); (11364,11364,1,(-10727)); (11367,11371,2,1);
   (11373,11373,1,(-10780)); (11374,11374,1,(-10749)); (11375,11375,1,(-10783)); (11376,11376,1,(-10782)); (11378,11378,1,1); (11381,11381,1,1);
   (11390,11391,1,(-10815)); (11392,11490,2,1); (11499,11501,2,1); (11506,11506,1,1); (42560,42604,2,1); (42624,42650,2,1);
   (42786,42798,2,1); (42802,42862,2,1); (42873,42875,2,1); (42877,42877,1,(-35332)); (42878,42886,2,1); (42891,42891,1,1);
   (42893,42893,1,(-42280)); (42896,42898,2,1); (42902,42920,2,1); (42922,42922,1,(-42308)); (42923,42923,1,(-42319)); (42924,42924,1,(-42315));
   (42925,42925,1,(-42305)); (42926,42926,1,(-42308)); (42928,42928,1,(-42258)); (42929,42929,1,(-42282)); (42930,42930,1,(-42261)); (42931,42931,1,928);
   (42932,42946,2,1); (42948,42948,1,(-48)); (42949,42949,1,(-42307)); (42950,42950,1,(-35384)); (42951,42953,2,1); (42960,42960,1,1);
   (42966,42968,2,1); (42997,42997,1,1); (65313,65338,1,32); (66560,66599,1,40); (66736,66771,1,40); (66928,66938,1,39);
   (66940,66954,1,39); (66956,66962,1,39); (66964,66965,1,39); (68736,68786,1,64); (71840,71871,1,32); (93760,93791,1,32);
   (125184,125217,1,34)].

Definition in_range (r : Z) (e : Z * Z * Z * Z) : bool :=
  let '(lo, hi, stride, _) := e in btw lo hi r && ((r - lo) mod stride =? 0).

Definition rune_lower (r : Z) : Z :=
  if r <? 128 then (if btw 65 90 r then r + 32 else r)
  else match filter (λ e, in_range r e = true) lower_ranges with
       | (_, _, _, delta) :: _ => r + delta
       | [] => r
       end.

Definition ToLower (s : string) : string :=
  if is_ascii s then ascii_lower s else encode_runes (rune_lower <$> runes s).

(** ** Text parameters of a statement

    PostgreSQL rejects a NUL byte and a byte sequence that is not UTF-8;
    varchar(n) counts characters. *)
Definition no_nul (s : string) : bool := str_forall (λ c, negb (Ascii.eqb c zero)) s.
Definition text_ok (s : string) : bool := no_nul s && ValidString s.
Definition varchar_ok (n : nat) (s : string) : bool := text_ok s && (RuneCount s <=? n)%nat.

Definition opt_ok (ok : string → bool) (s : option string) : bool :=
  match s with Some s => ok s | None => true end.

(** ** Facts *)

Lemma is_ascii_cons c s : is_ascii (String c s) = true ↔ byte_z c < 128 ∧ is_ascii s = true.
Proof.
  unfold is_ascii, byte_in, byte_z. simpl. rewrite !andb_true_iff, Nat.leb_le.
  pose proof (nat_ascii_bounded c). split; intros [? ?]; split; try done; try lia.
Qed.

Lemma decode_rune_ascii c s : byte_z c < 128 → decode_rune (String c s) = Some (byte_z c, 1%nat).
Proof. intros H. unfold decode_rune. by rewrite (proj2 (Z.ltb_lt _ _) H). Qed.

Lemma runes_from_ascii_cons c s :
  byte_z c < 128 → runes_from 0 (String c s) = Some (byte_z c) :: runes_from 0 s.
Proof. intros H. cbn [runes_from]. by rewrite decode_rune_ascii. Qed.

Lemma ascii_ValidString s : is_ascii s = true → ValidString s = true.
Proof.
  induction s as [|c s IH]; [done|]. intros [Hc Hs]%is_ascii_cons.
  unfold ValidString. rewrite runes_from_ascii_cons by done. by apply IH.
Qed.

Lemma ascii_RuneCount s : is_ascii s = true → RuneCount s = String.length s.
Proof.
  induction s as [|c s IH]; [done|]. intros [Hc Hs]%is_ascii_cons.
  unfold RuneCount. rewrite runes_from_ascii_cons by done. simpl. by rewrite <- IH.
Qed.

Lemma ToLower_ascii s : is_ascii s = true → ToLower s = ascii_lower s.
Proof. unfold ToLower. by intros ->. Qed.

Example ToLower_kelvin : ToLower (encode_runes [8490; 65; 304]) = "kai".
Proof. vm_compute. reflexivity. Qed.
Example runes_cyrillic : RuneCount (encode_runes [1040; 1103; 128512]) = 3%nat.
Proof. vm_compute. reflexivity. Qed.
Example ToLower_cyrillic : ToLower (encode_runes [1040; 1071]) = encode_runes [1072; 1103].
Proof. vm_compute. reflexivity. Qed.
