(* ===== verification/Regex.v ===== *)
(** * Regular expressions

    The part of Go's package regexp the backend uses: anchored expressions
    built from byte classes, concatenation, repetition and alternation,
    compiled once and applied with [MatchString].  [MatchString] is an
    executable derivative matcher; [re_in] is the language an expression
    denotes, and [MatchString_spec] says the two agree. *)

From Stdlib Require Import Ascii.
From stdpp Require Import base strings list.
From S2P Require Import Prelude GoStrings.

Inductive regexp : Type :=
| Void
| Eps
| Cls (p : ascii → bool)
| Cat (r1 r2 : regexp)
| Alt (r1 r2 : regexp)
| Star (r : regexp).

(** The language of an expression. *)
Inductive re_in : regexp → string → Prop :=
| in_eps : re_in Eps ""
| in_cls p c : p c = true → re_in (Cls p) (String c "")
| in_cat r1 r2 s1 s2 : re_in r1 s1 → re_in r2 s2 → re_in (Cat r1 r2) (s1 +:+ s2)
| in_alt_l r1 r2 s : re_in r1 s → re_in (Alt r1 r2) s
| in_alt_r r1 r2 s : re_in r2 s → re_in (Alt r1 r2) s
| in_star_nil r : re_in (Star r) ""
| in_star_cons r s1 s2 : re_in r s1 → re_in (Star r) s2 → re_in (Star r) (s1 +:+ s2).
#[export] Hint Constructors re_in : goflow.

Fixpoint nullable (r : regexp) : bool :=
  match r with
  | Void | Cls _ => false
  | Eps | Star _ => true
  | Cat r1 r2 => nullable r1 && nullable r2
  | Alt r1 r2 => nullable r1 || nullable r2
  end.

(** Smart constructors that keep derivatives small. *)
Definition cat (r1 r2 : regexp) : regexp :=
  match r1 with Void => Void | Eps => r2 | _ => Cat r1 r2 end.
Definition alt (r1 r2 : regexp) : regexp :=
  match r1, r2 with Void, _ => r2 | _, Void => r1 | _, _ => Alt r1 r2 end.

Fixpoint deriv (c : ascii) (r : regexp) : regexp :=
  match r with
  | Void | Eps => Void
  | Cls p => if p c then Eps else Void
  | Cat r1 r2 =>
      if nullable r1 then alt (cat (deriv c r1) r2) (deriv c r2)
      else cat (deriv c r1) r2
  | Alt r1 r2 => alt (deriv c r1) (deriv c r2)
  | Star r1 => cat (deriv c r1) (Star r1)
  end.

(** [re.MatchString(s)] for [re] of the form [^r$]. *)
Fixpoint MatchString (r : regexp) (s : string) : bool :=
  match s with
  | EmptyString => nullable r
  | String c s' => MatchString (deriv c r) s'
  end.

(** Repetition: [r{n}], [r{n,}], [r{n,n+m}], [r+]. *)
Fixpoint rep_then (n : nat) (r k : regexp) : regexp :=
  match n with O => k | S n => Cat r (rep_then n r k) end.
Definition rep (n : nat) (r : regexp) : regexp := rep_then n r Eps.
Definition rep_at_least (n : nat) (r : regexp) : regexp := rep_then n r (Star r).
Fixpoint rep_up_to (m : nat) (r : regexp) : regexp :=
  match m with O => Eps | S m => Alt Eps (Cat r (rep_up_to m r)) end.
Definition rep_between (n m : nat) (r : regexp) : regexp :=
  rep_then n r (rep_up_to (m - n) r).
Definition plus (r : regexp) : regexp := Cat r (Star r).
Definition lit (c : ascii) : regexp := Cls (Ascii.eqb c).

(** ** Agreement with the language *)

Lemma re_in_cat_inv r1 r2 s :
  re_in (Cat r1 r2) s → ∃ s1 s2, s = s1 +:+ s2 ∧ re_in r1 s1 ∧ re_in r2 s2.
Proof. inversion 1; subst; eauto. Qed.

Lemma cat_spec r1 r2 s : re_in (cat r1 r2) s ↔ re_in (Cat r1 r2) s.
Proof.
  destruct r1; try done; simpl; split.
  - inversion 1.
  - intros (? & ? & _ & H & _)%re_in_cat_inv. inversion H.
  - intros H. change s with ("" +:+ s). by repeat constructor.
  - intros (? & ? & -> & H & ?)%re_in_cat_inv. inversion H; subst. done.
Qed.

Lemma alt_spec r1 r2 s : re_in (alt r1 r2) s ↔ re_in (Alt r1 r2) s.
Proof.
  assert (∀ r, re_in (Alt Void r) s ↔ re_in r s) as Hl.
  { intros r. split; [|by constructor]. inversion 1 as [| | |? ? ? H'| | |]; subst; [inversion H'|done]. }
  assert (∀ r, re_in (Alt r Void) s ↔ re_in r s) as Hr.
  { intros r. split; [|by constructor]. inversion 1 as [| | | |? ? ? H'| |]; subst; [done|inversion H']. }
  destruct r1; simpl; rewrite ?Hl; try done; destruct r2; by rewrite ?Hr.
Qed.

Lemma nullable_spec r : nullable r = true ↔ re_in r "".
Proof.
  induction r as [| |p|r1 IH1 r2 IH2|r1 IH1 r2 IH2|r IH]; simpl.
  - split; [done|inversion 1].
  - split; [by constructor|done].
  - split; [done|inversion 1].
  - rewrite andb_true_iff, IH1, IH2. split.
    + intros [H1 H2]. change "" with ("" +:+ ""). by constructor.
    + intros (s1 & s2 & Hs & H1 & H2)%re_in_cat_inv.
      destruct s1; [|done]. by destruct s2.
  - rewrite orb_true_iff, IH1, IH2. split.
    + intros [?|?]; [by apply in_alt_l|by apply in_alt_r].
    + inversion 1; subst; auto.
  - split; [by constructor|done].
Qed.

Lemma star_cons_inv r c s :
  re_in (Star r) (String c s) →
  ∃ s1 s2, s = s1 +:+ s2 ∧ re_in r (String c s1) ∧ re_in (Star r) s2.
Proof.
  remember (Star r) as rs eqn:Er. remember (String c s) as cs eqn:Es.
  intros H. revert c s Es. induction H as [| ? ? _| | | | |r' s1 s2 H1 _ H2 IH]; intros c' s' Es; try done.
  simplify_eq. destruct s1 as [|c1 s1].
  - by apply (IH eq_refl).
  - rewrite str_app_cons in Es. simplify_eq. eauto.
Qed.

Lemma deriv_spec r c s : re_in (deriv c r) s ↔ re_in r (String c s).
Proof.
  revert s. induction r as [| |p|r1 IH1 r2 IH2|r1 IH1 r2 IH2|r IH]; intros s; simpl.
  - split; inversion 1.
  - split; inversion 1.
  - destruct (p c) eqn:Hp.
    + split; inversion 1; subst; by constructor.
    + split; inversion 1; congruence.
  - assert (re_in (cat (deriv c r1) r2) s ↔
            ∃ s1 s2, s = s1 +:+ s2 ∧ re_in r1 (String c s1) ∧ re_in r2 s2) as Hcat.
    { rewrite cat_spec. split.
      - intros (s1 & s2 & -> & ?%IH1 & ?)%re_in_cat_inv. eauto.
      - intros (s1 & s2 & -> & ?%IH1 & ?). by constructor. }
    assert (re_in (Cat r1 r2) (String c s) ↔
            re_in (cat (deriv c r1) r2) s ∨ (re_in r1 "" ∧ re_in r2 (String c s))) as ->.
    { rewrite Hcat. split.
      - intros ([|c1 s1] & s2 & Hs & H1 & H2)%re_in_cat_inv.
        + right. rewrite Hs. done.
        + left. rewrite str_app_cons in Hs. simplify_eq. eauto.
      - intros [(s1 & s2 & -> & H1 & H2)|[H1 H2]].
        + rewrite <- str_app_cons. by constructor.
        + change (String c s) with ("" +:+ String c s). by constructor. }
    destruct (nullable r1) eqn:Hn.
    + rewrite alt_spec. apply nullable_spec in Hn. rewrite <- IH2. split.
      * inversion 1; subst; auto.
      * intros [?|[_ ?]]; [by apply in_alt_l|by apply in_alt_r].
    + split; [by left|]. intros [?|[H1 _]]; [done|].
      apply nullable_spec in H1. congruence.
  - rewrite alt_spec. split.
    + inversion 1; subst; [apply in_alt_l; by apply IH1|apply in_alt_r; by apply IH2].
    + inversion 1; subst; [apply in_alt_l; by apply IH1|apply in_alt_r; by apply IH2].
  - rewrite cat_spec. split.
    + intros (s1 & s2 & -> & ?%IH & ?)%re_in_cat_inv. rewrite <- str_app_cons. by constructor.
    + intros (s1 & s2 & -> & ?%IH & ?)%star_cons_inv. by constructor.
Qed.

Theorem MatchString_spec r s : MatchString r s = true ↔ re_in r s.
Proof.
  revert r. induction s as [|c s IH]; intros r; simpl; [apply nullable_spec|].
  by rewrite IH, deriv_spec.
Qed.

(** ** Expressions that are a sequence of classes

    Such an expression matches exactly the strings of the same length
    whose bytes belong to the classes one by one. *)
Fixpoint seq_cls (ps : list (ascii → bool)) : regexp :=
  match ps with [] => Eps | p :: ps => Cat (Cls p) (seq_cls ps) end.

Fixpoint fits (ps : list (ascii → bool)) (s : string) : bool :=
  match ps, s with
  | [], EmptyString => true
  | p :: ps, String c s => p c && fits ps s
  | _, _ => false
  end.

Lemma seq_cls_spec ps s : MatchString (seq_cls ps) s = fits ps s.
Proof.
  apply eq_bool_prop_intro. rewrite !Is_true_true, MatchString_spec.
  revert s. induction ps as [|p ps IH]; intros s; simpl.
  - split; [by inversion 1|]. destruct s; [by constructor|done].
  - split.
    + intros (s1 & s2 & -> & H1 & H2)%re_in_cat_inv.
      inversion H1; subst. rewrite str_app_cons. simpl. apply andb_true_iff.
      split; [done|]. by apply IH.
    + destruct s as [|c s]; [done|]. rewrite andb_true_iff, <- IH. intros [? ?].
      change (String c s) with (String c "" +:+ s). by repeat constructor.
Qed.

Lemma fits_length ps s : fits ps s = true → String.length s = length ps.
Proof.
  revert s. induction ps as [|p ps IH]; intros [|c s]; simpl; try done.
  rewrite andb_true_iff. intros [_ ?]. f_equal. auto.
Qed.

Lemma fits_forall (q : ascii → bool) ps s :
  Forall (λ p, ∀ c : ascii, p c = true → q c = true) ps → fits ps s = true → str_forall q s = true.
Proof.
  intros Hps. revert s. induction Hps as [|p ps Hp _ IH]; intros [|c s]; simpl; try done.
  rewrite !andb_true_iff. intros [? ?]. auto.
Qed.

(** A language bound: every byte of a match satisfies [q] when every
    class of the expression does. *)
Fixpoint re_within (q : ascii → bool) (r : regexp) : Prop :=
  match r with
  | Void | Eps => True
  | Cls p => ∀ c, p c = true → q c = true
  | Cat r1 r2 | Alt r1 r2 => re_within q r1 ∧ re_within q r2
  | Star r => re_within q r
  end.

Lemma re_within_sound q r s : re_within q r → re_in r s → str_forall q s = true.
Proof.
  intros Hw H. induction H as [|p c Hp|r1 r2 s1 s2 _ IH1 _ IH2|r1 r2 s _ IH|r1 r2 s _ IH| |r s1 s2 _ IH1 _ IH2];
    simpl in *; rewrite ?str_forall_app; rewrite ?andb_true_iff; try tauto.
  split; [by apply Hw|done].
Qed.
