(* ===== verification/Uuid.v ===== *)
(** * Identifiers

    [domain.ID] is the text of a UUID.  The services check identifiers that
    come from a client with a regular expression that accepts either case;
    PostgreSQL's [::uuid] cast reads the text and [::text] prints the
    canonical lower-case form.  The difference between the two is what the
    comparisons [==] the services make on [domain.ID] can observe. *)

From Stdlib Require Import Ascii.
From stdpp Require Import base strings list.
From S2P Require Import Prelude GoStrings Regex.

Definition dash : ascii → bool := Ascii.eqb "-".

(** The classes of
    [^[0-9a-fA-F]{8}-[0-9a-fA-F]{4}-[0-9a-fA-F]{4}-[0-9a-fA-F]{4}-[0-9a-fA-F]{12}$]. *)
Definition uuid_classes : list (ascii → bool) :=
  replicate 8 is_hex ++ [dash] ++ replicate 4 is_hex ++ [dash]
  ++ replicate 4 is_hex ++ [dash] ++ replicate 4 is_hex ++ [dash]
  ++ replicate 12 is_hex.

(** msgUUIDRe, chatUUIDRe and userUUIDRe are the same expression. *)
Definition msgUUIDRe : regexp := seq_cls uuid_classes.
Definition chatUUIDRe : regexp := seq_cls uuid_classes.
Definition userUUIDRe : regexp := seq_cls uuid_classes.

(** Text accepted by the [::uuid] cast: 32 hexadecimal digits of either
    case, a hyphen allowed after every fourth of them but the last, the
    whole optionally in braces. *)
Fixpoint uuid_digits (n : nat) (s : string) : option (string * string) :=
  match n with
  | O => Some (EmptyString, s)
  | S k =>
      match s with
      | String a (String b r) =>
          if is_hex a && is_hex b then
            let i := (16 - n)%nat in
            let r' := match r with
                      | String "-"%char r0 =>
                          if Nat.odd i && (i <? 15)%nat then r0 else r
                      | _ => r
                      end in
            '(ds, rest) ← uuid_digits k r';
            Some (String (lower_byte a) (String (lower_byte b) ds), rest)
          else None
      | _ => None
      end
  end.

(** The canonical form of 32 digits: groups of 8, 4, 4, 4 and 12. *)
Definition uuid_format (ds : string) : string :=
  str_take 8 ds +:+ "-" +:+ str_take 4 (str_drop 8 ds) +:+ "-"
  +:+ str_take 4 (str_drop 12 ds) +:+ "-" +:+ str_take 4 (str_drop 16 ds)
  +:+ "-" +:+ str_drop 20 ds.

Definition uuid_in (s : string) : option string :=
  let '(braces, body) := match s with
                         | String "{"%char r => (true, r)
                         | _ => (false, s)
                         end in
  '(ds, rest) ← uuid_digits 16 body;
  if String.eqb rest (if braces then "}" else "") then Some (uuid_format ds) else None.

(** The text of a stored identifier. *)
Definition canonical (s : string) : Prop :=
  fits uuid_classes s = true ∧ ascii_lower s = s.

#[export] Instance canonical_dec s : Decision (canonical s).
Proof. unfold canonical. apply _. Defined.

(** ** Facts *)

Lemma uuid_re_fits s : MatchString msgUUIDRe s = fits uuid_classes s.
Proof. apply seq_cls_spec. Qed.

Lemma is_hex_visible c : is_hex c = true → is_visible c = true.
Proof. by destruct c as [[] [] [] [] [] [] [] []]. Qed.

Lemma dash_visible c : dash c = true → is_visible c = true.
Proof. by destruct c as [[] [] [] [] [] [] [] []]. Qed.

Lemma is_hex_lower c : is_hex (lower_byte c) = is_hex c.
Proof. by destruct c as [[] [] [] [] [] [] [] []]. Qed.

Lemma dash_lower c : dash (lower_byte c) = dash c.
Proof. by destruct c as [[] [] [] [] [] [] [] []]. Qed.

Lemma fits_uuid_lower s : fits uuid_classes (ascii_lower s) = fits uuid_classes s.
Proof.
  assert (Forall (λ p : ascii → bool, ∀ c, p (lower_byte c) = p c) uuid_classes) as H.
  { unfold uuid_classes. rewrite !Forall_app.
    repeat split; try apply Forall_replicate; try apply Forall_singleton;
      auto using is_hex_lower, dash_lower. }
  revert s. induction H as [|p ps Hp _ IH]; intros [|c s]; simpl; try done.
  by rewrite Hp, IH.
Qed.

Lemma fits_uuid_visible s : fits uuid_classes s = true → str_forall is_visible s = true.
Proof.
  apply fits_forall. unfold uuid_classes. rewrite !Forall_app.
  repeat split; try apply Forall_replicate; try apply Forall_singleton;
    auto using is_hex_visible, dash_visible.
Qed.

Lemma fits_uuid_trim s : fits uuid_classes s = true → TrimSpace s = s.
Proof. intros ?%fits_uuid_visible. auto using trim_space_id with goflow. Qed.

Lemma uuid_re_length s : MatchString msgUUIDRe s = true → String.length s = 36.
Proof. rewrite uuid_re_fits. apply fits_length. Qed.

Lemma uuid_re_nonempty s : MatchString msgUUIDRe s = true → s ≠ "".
Proof. by intros H ->. Qed.

Lemma dash_eq c : dash c = true → c = "-"%char.
Proof. unfold dash. intros H%Ascii.eqb_eq. done. Qed.

Lemma hex_not_brace c : is_hex c = true → c ≠ "{"%char.
Proof. by intros H ->. Qed.

Lemma hex_not_dash c : is_hex c = true → c ≠ "-"%char.
Proof. by intros H ->. Qed.

(** One step of the cast on a pair of digits, the next byte not a hyphen
    (or a hyphen where the format has one). *)
Lemma uuid_digits_step k a b r ds rest :
  is_hex a = true → is_hex b = true →
  uuid_digits k (match r with
                 | String "-"%char r0 =>
                     if Nat.odd (16 - S k) && (16 - S k <? 15)%nat then r0 else r
                 | _ => r end) = Some (ds, rest) →
  uuid_digits (S k) (String a (String b r)) =
  Some (String (lower_byte a) (String (lower_byte b) ds), rest).
Proof. intros Ha Hb H. cbn [uuid_digits]. rewrite Ha, Hb. cbn [andb]. by rewrite H. Qed.

(** Text the services' expression accepts is accepted by the cast, and is
    stored in lower case. *)
Lemma uuid_in_fits s : fits uuid_classes s = true → uuid_in s = Some (ascii_lower s).
Proof.
  intros H. assert (Hl := fits_length _ _ H).
  do 36 (destruct s as [|? s]; [discriminate Hl|]).
  destruct s; [clear Hl|discriminate Hl].
  cbn [fits uuid_classes replicate app] in H.
  rewrite !andb_true_iff in H. destruct_and!.
  repeat match goal with
  | H : dash ?c = true |- _ => apply dash_eq in H; subst c
  end.
  unfold uuid_in.
  assert (∀ (c : ascii) (r : string), is_hex c = true →
    match String c r with
    | String "{"%char r' => (true, r')
    | _ => (false, String c r) end = (false, String c r)) as Hb.
  { intros c r Hc. by destruct c as [[] [] [] [] [] [] [] []]. }
  rewrite Hb by done.
  assert (∀ (c : ascii) (r : string) (b : bool), is_hex c = true →
    match String c r with
    | String "-"%char r0 => if b then r0 else String c r
    | _ => String c r end = String c r) as Hd.
  { intros c r b Hc. by destruct c as [[] [] [] [] [] [] [] []]. }
  erewrite uuid_digits_step;
    [|done|done|rewrite ?Hd by done; cbn -[uuid_digits lower_byte]].
  2: repeat first [ apply uuid_digits_step; [done|done|rewrite ?Hd by done; cbn -[uuid_digits lower_byte]]
                  | reflexivity ].
  reflexivity.
Qed.

Lemma uuid_in_canonical s : canonical s → uuid_in s = Some s.
Proof. intros [Hf Hl]. rewrite (uuid_in_fits _ Hf). by rewrite Hl. Qed.

Lemma canonical_lower s : fits uuid_classes s = true → canonical (ascii_lower s).
Proof. intros H. split; [by rewrite fits_uuid_lower|apply ascii_lower_idem]. Qed.

Lemma canonical_nonempty s : canonical s → s ≠ "".
Proof. by intros [H _] ->. Qed.

(** The cast always yields a canonical text. *)
Definition lower_hex (c : ascii) : bool := is_hex c && Ascii.eqb (lower_byte c) c.

Lemma lower_hex_lower c : is_hex c = true → lower_hex (lower_byte c) = true.
Proof. by destruct c as [[] [] [] [] [] [] [] []]. Qed.

Lemma uuid_digits_lower n s ds rest :
  uuid_digits n s = Some (ds, rest) →
  String.length ds = (2 * n)%nat ∧ str_forall lower_hex ds = true.
Proof.
  revert s ds rest. induction n as [|n IH]; intros s ds rest; [by intros [= <- <-]|].
  cbn [uuid_digits]. destruct s as [|a [|b r]]; [done..|].
  destruct (is_hex a) eqn:Ha, (is_hex b) eqn:Hb; try done. cbn [andb].
  intros ([ds0 rest0] & H & [= <- <-])%bind_Some. apply IH in H as [Hl Hf].
  split; [simpl; lia|]. cbn [str_forall].
  by rewrite !lower_hex_lower, Hf by done.
Qed.

Lemma uuid_format_canonical ds :
  String.length ds = 32%nat → str_forall lower_hex ds = true → canonical (uuid_format ds).
Proof.
  intros Hl Hf. do 32 (destruct ds as [|? ds]; [discriminate Hl|]).
  destruct ds; [clear Hl|discriminate Hl]. cbn [str_forall] in Hf.
  unfold lower_hex in Hf. rewrite !andb_true_iff, !Ascii.eqb_eq in Hf. destruct_and!.
  unfold uuid_format. cbn [str_take str_drop].
  assert (∀ x, "" +:+ x = x) as Hnil by done. rewrite ?str_app_cons, ?Hnil, ?str_app_cons, ?Hnil.
  repeat rewrite ?str_app_cons, ?Hnil.
  split; cbn [fits uuid_classes replicate app ascii_lower].
  - repeat match goal with H : is_hex ?c = true |- _ => rewrite H; clear H end. done.
  - by repeat match goal with H : lower_byte ?c = ?c |- _ => rewrite H; clear H end.
Qed.

Lemma uuid_in_is_canonical s u : uuid_in s = Some u → canonical u.
Proof.
  unfold uuid_in. destruct (match s with String "{"%char r => _ | _ => _ end) as [braces body].
  intros ([ds rest] & [Hl Hf]%uuid_digits_lower & H)%bind_Some.
  destruct (String.eqb _ _); [|done]. injection H as <-.
  by apply uuid_format_canonical.
Qed.

Lemma uuid_in_idem s u v : uuid_in s = Some u → uuid_in u = Some v → v = u.
Proof. intros Hu%uuid_in_is_canonical. rewrite uuid_in_canonical by done. congruence. Qed.

#[export] Hint Resolve canonical_lower uuid_in_canonical uuid_in_is_canonical : goflow.
