(* ===== verification/Json.v ===== *)
(** * JSON values

    [json.RawMessage], [any] values and jsonb columns hold a JSON value;
    it is represented by its tree.  Object members keep their order, so a
    struct is encoded in declaration order, and [to_any] is the decoding
    into [map[string]any] followed by the re-encoding, which keeps the last
    of the members with the same key and sorts the members by key.  Every
    number the program writes is an integer; [JLit] is the text of any
    other number a client sends. *)

From stdpp Require Import base strings list.
From S2P Require Import Prelude GoStrings.

Inductive json : Type :=
| JNull
| JBool (b : bool)
| JNum (n : Z)
| JLit (text : string)
| JStr (s : string)
| JArr (l : list json)
| JObj (kvs : list (string * json)).

Section json_ind.
Variable P : json → Prop.
Hypothesis Hnull : P JNull.
Hypothesis Hbool : ∀ b, P (JBool b).
Hypothesis Hnum : ∀ n, P (JNum n).
Hypothesis Hlit : ∀ t, P (JLit t).
Hypothesis Hstr : ∀ s, P (JStr s).
Hypothesis Harr : ∀ l, Forall P l → P (JArr l).
Hypothesis Hobj : ∀ kvs, Forall (λ kv, P kv.2) kvs → P (JObj kvs).

Fixpoint json_ind' (j : json) : P j :=
  match j with
  | JNull => Hnull
  | JBool b => Hbool b
  | JNum n => Hnum n
  | JLit t => Hlit t
  | JStr s => Hstr s
  | JArr l =>
      Harr l ((fix go l : Forall P l :=
                 match l with
                 | [] => Forall_nil_2 P
                 | j :: l => Forall_cons_2 P j l (json_ind' j) (go l)
                 end) l)
  | JObj kvs =>
      Hobj kvs ((fix go kvs : Forall (λ kv, P kv.2) kvs :=
                   match kvs with
                   | [] => Forall_nil_2 _
                   | kv :: kvs => Forall_cons_2 (λ kv, P kv.2) kv kvs (json_ind' kv.2) (go kvs)
                   end) kvs)
  end.
End json_ind.

(** Lookup of a member: the last one with the key, as the decoder. *)
Fixpoint json_field (k : string) (kvs : list (string * json)) : option json :=
  match kvs with
  | [] => None
  | (k', v) :: r =>
      match json_field k r with
      | Some w => Some w
      | None => if String.eqb k k' then Some v else None
      end
  end.

(** Insertion into a member list sorted by [lt], replacing an equal key. *)
Fixpoint kv_insert (lt : string → string → bool) (k : string) (v : json)
    (l : list (string * json)) : list (string * json) :=
  match l with
  | [] => [(k, v)]
  | (k', v') :: r =>
      if String.eqb k k' then (k, v) :: r
      else if lt k k' then (k, v) :: l
      else (k', v') :: kv_insert lt k v r
  end.
Definition kv_sort (lt : string → string → bool) (kvs : list (string * json))
    : list (string * json) :=
  foldl (λ acc kv, kv_insert lt kv.1 kv.2 acc) [] kvs.

Fixpoint sort_keys (lt : string → string → bool) (j : json) : json :=
  match j with
  | JArr l => JArr (map (sort_keys lt) l)
  | JObj kvs => JObj (kv_sort lt (map (λ kv, (kv.1, sort_keys lt kv.2)) kvs))
  | _ => j
  end.

(** [json.Unmarshal] into [any], then [json.Marshal]: keys in byte order. *)
Definition to_any : json → json := sort_keys String.ltb.

(** Storage as jsonb: keys by length, then in byte order. *)
Definition jsonb_ltb (k k' : string) : bool :=
  (String.length k <? String.length k')%nat
  || ((String.length k =? String.length k')%nat && String.ltb k k').
Definition to_jsonb : json → json := sort_keys jsonb_ltb.

Definition JEmpty : json := JObj [].

(** [*string] with [omitempty]: absent when nil. *)
Definition opt_field (k : string) (v : option string) : list (string * json) :=
  match v with Some s => [(k, JStr s)] | None => [] end.
Definition opt_str (v : option string) : json :=
  match v with Some s => JStr s | None => JNull end.
