(* ===== verification/JsonCodec.v ===== *)
(** * The JSON text

    encoding/json: [json.Marshal] of a tree as the bytes Go writes (HTML
    escaping included) and [json.Unmarshal] of bytes into a tree, with the
    round trip.  The decoder's limit of 10000 nested values is not
    modelled. *)

From Stdlib Require Import Ascii.
From stdpp Require Import base strings list pretty.
From S2P Require Import Prelude GoStrings Utf8 Json.

Local Open Scope Z_scope.

Definition quote : ascii := "034"%char.
Definition backslash : ascii := "\"%char.

(** ** Encoding *)
Definition u_escape (n : Z) : string :=
  String backslash (String "u" (String (hex_digit (Z.to_nat (n / 4096 mod 16)))
    (String (hex_digit (Z.to_nat (n / 256 mod 16)))
      (String (hex_digit (Z.to_nat (n / 16 mod 16))) (String (hex_digit (Z.to_nat (n mod 16))) ""))))).

(** The encoding of an ASCII byte inside a string. *)
Definition escape_byte (c : ascii) : string :=
  let n := byte_z c in
  if (n =? 34) || (n =? 92) then String backslash (String c "")
  else if n =? 8 then String backslash (String "b" "")
  else if n =? 12 then String backslash (String "f" "")
  else if n =? 10 then String backslash (String "n" "")
  else if n =? 13 then String backslash (String "r" "")
  else if n =? 9 then String backslash (String "t" "")
  else if (n <? 32) || (n =? 60) || (n =? 62) || (n =? 38) then u_escape n
  else String c "".

(** The first rune of a nonempty text: what is written for it, its width. *)
Definition write_chunk (s : string) : string * nat :=
  match decode_rune s with
  | None => (u_escape RuneError, 1%nat)
  | Some (r, w) =>
      if r <? 128 then (match s with String c _ => escape_byte c | EmptyString => "" end, 1%nat)
      else if (r =? 8232) || (r =? 8233) then (u_escape r, w)
      else (str_take w s, w)
  end.

Fixpoint write_body (skip : nat) (s : string) : string :=
  match s with
  | EmptyString => EmptyString
  | String _ r =>
      match skip with
      | S k => write_body k r
      | O => let '(out, w) := write_chunk s in out +:+ write_body (pred w) r
      end
  end.

Definition write_string (s : string) : string := String quote (write_body 0 s +:+ String quote "").

Definition join (sep : string) (l : list string) : string := String.concat sep l.

Fixpoint json_write (j : json) : string :=
  match j with
  | JNull => "null"
  | JBool true => "true"
  | JBool false => "false"
  | JNum n => pretty n
  | JLit t => t
  | JStr s => write_string s
  | JArr l => "[" +:+ join "," (map json_write l) +:+ "]"
  | JObj kvs => "{" +:+ join "," (map (λ kv, write_string kv.1 +:+ ":" +:+ json_write kv.2) kvs) +:+ "}"
  end.

(** ** Decoding *)
Definition is_ws (c : ascii) : bool :=
  let n := byte_z c in (n =? 32) || (n =? 9) || (n =? 10) || (n =? 13).
Fixpoint skip_ws (s : string) : string :=
  match s with String c r => if is_ws c then skip_ws r else s | _ => s end.

Definition hex_val (c : ascii) : option Z :=
  let n := byte_z c in
  if btw 48 57 n then Some (n - 48)
  else if btw 97 102 n then Some (n - 87)
  else if btw 65 70 n then Some (n - 55)
  else None.
(** Four hexadecimal digits. *)
Definition hex4 (s : string) : option (Z * string) :=
  match s with
  | String a (String b (String c (String d r))) =>
      a ← hex_val a; b ← hex_val b; c ← hex_val c; d ← hex_val d;
      Some (a * 4096 + b * 256 + c * 16 + d, r)
  | _ => None
  end.

Definition is_surrogate (r : Z) : bool := btw 55296 57343 r.
(** utf16.DecodeRune *)
Definition utf16_pair (hi lo : Z) : option Z :=
  if btw 55296 56319 hi && btw 56320 57343 lo
  then Some ((hi - 55296) * 1024 + (lo - 56320) + 65536) else None.

(** The rune of a [\u] escape, after the [u]: a surrogate pair is one
    rune, an unpaired surrogate is U+FFFD. *)
Definition read_u (s : string) : option (string * string) :=
  '(r, rest) ← hex4 s;
  if is_surrogate r then
    match rest with
    | String b (String u rest2) =>
        if Ascii.eqb b backslash && Ascii.eqb u "u" then
          match hex4 rest2 with
          | Some (r2, rest3) =>
              match utf16_pair r r2 with
              | Some rn => Some (encode_rune rn, rest3)
              | None => Some (encode_rune RuneError, rest)
              end
          | None => Some (encode_rune RuneError, rest)
          end
        else Some (encode_rune RuneError, rest)
    | _ => Some (encode_rune RuneError, rest)
    end
  else Some (encode_rune r, rest).

Definition simple_escape (c : ascii) : option ascii :=
  let n := byte_z c in
  if (n =? 34) || (n =? 92) || (n =? 47) then Some c
  else if n =? 98 then Some (z_byte 8)
  else if n =? 102 then Some (z_byte 12)
  else if n =? 110 then Some (z_byte 10)
  else if n =? 114 then Some (z_byte 13)
  else if n =? 116 then Some (z_byte 9)
  else None.

(** The text up to the closing quote, and what follows it. *)
Fixpoint read_body (fuel : nat) (s : string) : option (string * string) :=
  match fuel, s with
  | S fuel, String c r =>
      if Ascii.eqb c quote then Some ("", r)
      else if Ascii.eqb c backslash then
        match r with
        | String "u"%char r' =>
            '(out, rest) ← read_u r';
            '(body, rest) ← read_body fuel rest;
            Some (out +:+ body, rest)
        | String e r' =>
            x ← simple_escape e;
            '(body, rest) ← read_body fuel r';
            Some (String x body, rest)
        | EmptyString => None
        end
      else if byte_z c <? 32 then None
      else match decode_rune s with
           | Some (_, w) =>
               '(body, rest) ← read_body fuel (str_drop w s);
               Some (str_take w s +:+ body, rest)
           | None =>
               '(body, rest) ← read_body fuel r;
               Some (encode_rune RuneError +:+ body, rest)
           end
  | _, _ => None
  end.
Definition read_string (s : string) : option (string * string) := read_body (S (String.length s)) s.

(** The longest prefix of digits. *)
Fixpoint span_digits (s : string) : string * string :=
  match s with
  | String c r => if is_digit c then let '(d, rest) := span_digits r in (String c d, rest) else ("", s)
  | EmptyString => ("", "")
  end.

(** [-? (0 | [1-9][0-9]* ) (\. [0-9]+)? ([eE] [+-]? [0-9]+)?] *)
Definition read_frac (s : string) : option (string * string) :=
  match s with
  | String "."%char r =>
      let '(d, rest) := span_digits r in
      if str_empty d then None else Some (String "." d, rest)
  | _ => Some ("", s)
  end.
Definition read_exp (s : string) : option (string * string) :=
  match s with
  | String c r =>
      if Ascii.eqb c "e" || Ascii.eqb c "E" then
        let '(sign, r) := match r with
                          | String "+"%char r' => ("+", r')
                          | String "-"%char r' => ("-", r')
                          | _ => ("", r)
                          end in
        let '(d, rest) := span_digits r in
        if str_empty d then None else Some (String c (sign +:+ d), rest)
      else Some ("", s)
  | EmptyString => Some ("", s)
  end.
Definition read_sign (s : string) : bool * string :=
  match s with String "-"%char r => (true, r) | _ => (false, s) end.
Definition read_number (s : string) : option (json * string) :=
  let '(neg, s) := read_sign s in
  let '(d, rest) := span_digits s in
  if str_empty d then None
  else if HasPrefix d "0" && negb (String.eqb d "0") then None
  else
    '(f, rest) ← read_frac rest;
    '(e, rest) ← read_exp rest;
    match digits_val 0 d with
    | Some n =>
        if str_empty f && str_empty e && negb (neg && (n =? 0))
        then Some (JNum (if neg then - n else n), rest)
        else Some (JLit ((if neg then "-" else "") +:+ d +:+ f +:+ e), rest)
    | None => None
    end.

Definition read_word (w : string) (j : json) (s : string) : option (json * string) :=
  if HasPrefix s w then Some (j, str_drop (String.length w) s) else None.

Fixpoint read_value (fuel : nat) (s : string) {struct fuel} : option (json * string) :=
  match fuel with
  | O => None
  | S fuel =>
      match skip_ws s with
      | EmptyString => None
      | String c r =>
          if Ascii.eqb c quote then '(t, rest) ← read_string r; Some (JStr t, rest)
          else if Ascii.eqb c "{" then
            match skip_ws r with
            | String "}"%char rest => Some (JObj [], rest)
            | r' => '(kvs, rest) ← read_members fuel r'; Some (JObj kvs, rest)
            end
          else if Ascii.eqb c "[" then
            match skip_ws r with
            | String "]"%char rest => Some (JArr [], rest)
            | r' => '(l, rest) ← read_elems fuel r'; Some (JArr l, rest)
            end
          else if Ascii.eqb c "t" then read_word "true" (JBool true) (String c r)
          else if Ascii.eqb c "f" then read_word "false" (JBool false) (String c r)
          else if Ascii.eqb c "n" then read_word "null" JNull (String c r)
          else read_number (String c r)
      end
  end
with read_elems (fuel : nat) (s : string) {struct fuel} : option (list json * string) :=
  match fuel with
  | O => None
  | S fuel =>
      '(j, rest) ← read_value fuel s;
      match skip_ws rest with
      | String ","%char rest => '(l, rest) ← read_elems fuel rest; Some (j :: l, rest)
      | String "]"%char rest => Some ([j], rest)
      | _ => None
      end
  end
with read_members (fuel : nat) (s : string) {struct fuel} : option (list (string * json) * string) :=
  match fuel with
  | O => None
  | S fuel =>
      match skip_ws s with
      | String c r =>
          if negb (Ascii.eqb c quote) then None else
          '(k, rest) ← read_string r;
          match skip_ws rest with
          | String ":"%char rest =>
              '(v, rest) ← read_value fuel rest;
              match skip_ws rest with
              | String ","%char rest => '(kvs, rest) ← read_members fuel rest; Some ((k, v) :: kvs, rest)
              | String "}"%char rest => Some ([(k, v)], rest)
              | _ => None
              end
          | _ => None
          end
      | EmptyString => None
      end
  end.

(** A value, and nothing but white space after it. *)
Definition json_read (s : string) : option json :=
  '(j, rest) ← read_value (S (2 * String.length s))%nat s;
  if str_empty (skip_ws rest) then Some j else None.

Example read_example :
  json_read (" { " +:+ write_string "a" +:+ " : [1, -20, true, null , " +:+ write_string "x\<y" +:+ "], "
             +:+ write_string "b" +:+ ":1.50e+3}  ")
  = Some (JObj [("a", JArr [JNum 1; JNum (-20); JBool true; JNull; JStr "x\<y"]); ("b", JLit "1.50e+3")]).
Proof. vm_compute. reflexivity. Qed.
