(* ===== verification/JsonRoundtrip.v ===== *)
(** * The round trip of the JSON codec

    The bytes of a rune and its value determine each other ([rune_at],
    [encode_rune2] to [encode_rune4]); what [write_body] writes for a rune
    is read back as that rune ([reads_rune]); the digits of a number are
    read back ([read_number_pretty]); and, by induction on the value, so is
    every value that needs no literal ([json_read_write]).  A value of
    length L is read with fuel 2 L, and [json_read] gives more. *)

From Stdlib Require Import Ascii.
From stdpp Require Import base strings list pretty.
From S2P Require Import Prelude GoStrings Utf8 Json JsonCodec.
Local Open Scope Z_scope.
Lemma byte_z_range c : 0 <= byte_z c < 256.
Proof. unfold byte_z, byte_of. pose proof (nat_ascii_bounded c) as H. split; [lia|]. apply (Nat2Z.inj_lt _ 256) in H. exact H. Qed.

Lemma cont_mod x : cont x = x mod 64.
Proof. unfold cont. change 63 with (Z.ones 6). by rewrite Z.land_ones by lia. Qed.
Lemma land_31 x : Z.land x 31 = x mod 32.
Proof. change 31 with (Z.ones 5). by rewrite Z.land_ones by lia. Qed.
Lemma land_15 x : Z.land x 15 = x mod 16.
Proof. change 15 with (Z.ones 4). by rewrite Z.land_ones by lia. Qed.
Lemma land_7 x : Z.land x 7 = x mod 8.
Proof. change 7 with (Z.ones 3). by rewrite Z.land_ones by lia. Qed.

Lemma btw_true lo hi x : btw lo hi x = true ↔ lo <= x <= hi.
Proof. unfold btw. rewrite andb_true_iff, !Z.leb_le. done. Qed.

Lemma rune2_bound a b : 194 <= a <= 223 → 128 <= a mod 32 * 64 + b mod 64.
Proof. intros. Z.div_mod_to_equations. lia. Qed.
Lemma rune3_bound a b c : 224 <= a <= 239 → (if a =? 224 then 160 else 128) <= b <= 191 →
  128 <= a mod 16 * 4096 + b mod 64 * 64 + c mod 64.
Proof. intros ??. destruct (Z.eqb_spec a 224); Z.div_mod_to_equations; lia. Qed.
Lemma rune4_bound a b c e : 240 <= a <= 244 → (if a =? 240 then 144 else 128) <= b <= 191 →
  128 <= a mod 8 * 262144 + b mod 64 * 4096 + c mod 64 * 64 + e mod 64.
Proof. intros ??. destruct (Z.eqb_spec a 240); Z.div_mod_to_equations; lia. Qed.

Lemma z_byte_z c : z_byte (byte_z c) = c.
Proof.
  unfold z_byte. rewrite Z.mod_small by apply byte_z_range. unfold byte_z. rewrite Nat2Z.id.
  apply ascii_nat_embedding.
Qed.
Lemma z_byte_eq z c : z = byte_z c → z_byte z = c.
Proof. intros ->. apply z_byte_z. Qed.

(** The bytes and the value of a rune determine each other. *)
Lemma encode_rune2 a b r :
  194 <= byte_z a <= 223 → 128 <= byte_z b <= 191 → r = byte_z a mod 32 * 64 + byte_z b mod 64 →
  encode_rune r = String a (String b "").
Proof.
  generalize (z_byte_eq (192 + r / 64) a), (z_byte_eq (128 + r mod 64) b).
  generalize (byte_z a), (byte_z b). intros x y Ha Hb Hx Hy Hr.
  assert (r / 64 = x mod 32 ∧ r mod 64 = y mod 64) as [H1 H2] by (Z.div_mod_to_equations; lia).
  assert (128 <= r < 2048) by (Z.div_mod_to_equations; lia).
  unfold encode_rune, btw.
  replace (_ && _) with true by (symmetry; rewrite andb_true_iff, negb_true_iff; lia).
  rewrite (proj2 (Z.ltb_ge _ _)), (proj2 (Z.ltb_lt _ _)) by lia.
  by rewrite Ha, Hb by (Z.div_mod_to_equations; lia).
Qed.
Lemma encode_rune3 a b c r :
  224 <= byte_z a <= 239 → (if byte_z a =? 224 then 160 else 128) <= byte_z b <= (if byte_z a =? 237 then 159 else 191) →
  128 <= byte_z c <= 191 →
  r = byte_z a mod 16 * 4096 + byte_z b mod 64 * 64 + byte_z c mod 64 →
  encode_rune r = String a (String b (String c "")).
Proof.
  generalize (z_byte_eq (224 + r / 4096) a), (z_byte_eq (128 + r / 64 mod 64) b), (z_byte_eq (128 + r mod 64) c).
  generalize (byte_z a), (byte_z b), (byte_z c). intros x y z Ha Hb Hc Hx Hy Hz Hr.
  assert (x mod 16 = x - 224) as E1 by (Z.div_mod_to_equations; lia).
  assert (y mod 64 = y - 128) as E2 by (destruct (x =? 224), (x =? 237); Z.div_mod_to_equations; lia).
  assert (z mod 64 = z - 128) as E3 by (Z.div_mod_to_equations; lia).
  rewrite E1, E2, E3 in Hr.
  assert (128 <= y <= 191) by (destruct (x =? 224), (x =? 237); lia).
  assert (2048 <= r < 65536 ∧ ¬ (55296 <= r <= 57343)) as [? ?].
  { destruct (Z.eqb_spec x 224), (Z.eqb_spec x 237); lia. }
  unfold encode_rune, btw.
  replace (_ && _) with true by (symmetry; rewrite andb_true_iff, negb_true_iff; lia).
  rewrite (proj2 (Z.ltb_ge _ _)), (proj2 (Z.ltb_ge _ _)), (proj2 (Z.ltb_lt _ _)) by lia.
  clear E1 E2 E3. by rewrite Ha, Hb, Hc by (Z.div_mod_to_equations; lia).
Qed.
Lemma encode_rune4 a b c d r :
  240 <= byte_z a <= 244 → (if byte_z a =? 240 then 144 else 128) <= byte_z b <= (if byte_z a =? 244 then 143 else 191) →
  128 <= byte_z c <= 191 → 128 <= byte_z d <= 191 →
  r = byte_z a mod 8 * 262144 + byte_z b mod 64 * 4096 + byte_z c mod 64 * 64 + byte_z d mod 64 →
  encode_rune r = String a (String b (String c (String d ""))).
Proof.
  generalize (z_byte_eq (240 + r / 262144) a), (z_byte_eq (128 + r / 4096 mod 64) b),
    (z_byte_eq (128 + r / 64 mod 64) c), (z_byte_eq (128 + r mod 64) d).
  generalize (byte_z a), (byte_z b), (byte_z c), (byte_z d). intros x y z t Ha Hb Hc Hd Hx Hy Hz Ht Hr.
  assert (x mod 8 = x - 240) as E1 by (Z.div_mod_to_equations; lia).
  assert (128 <= y <= 191) by (destruct (x =? 240), (x =? 244); lia).
  assert (y mod 64 = y - 128) as E2 by (Z.div_mod_to_equations; lia).
  assert (z mod 64 = z - 128) as E3 by (Z.div_mod_to_equations; lia).
  assert (t mod 64 = t - 128) as E4 by (Z.div_mod_to_equations; lia).
  rewrite E1, E2, E3, E4 in Hr. clear E1 E2 E3 E4.
  assert (65536 <= r <= 1114111) by (destruct (Z.eqb_spec x 240), (Z.eqb_spec x 244); lia).
  unfold encode_rune, btw.
  replace (_ && _) with true by (symmetry; rewrite andb_true_iff, negb_true_iff; lia).
  rewrite !(proj2 (Z.ltb_ge _ _)) by lia.
  by rewrite Ha, Hb, Hc, Hd by (Z.div_mod_to_equations; lia).
Qed.

(** [p] is the encoding of the rune [r], [w] bytes long. *)
Inductive rune_at : string → Z → nat → Prop :=
| rune_at1 a : byte_z a < 128 → rune_at (String a "") (byte_z a) 1
| rune_at_multi p r w c p' : p = String c p' → 128 <= byte_z c → 128 <= r → 
    String.length p = w → encode_rune r = p → (∀ X, decode_rune (p +:+ X) = Some (r, w)) → rune_at p r w.

Lemma decode_rune_inv s r w :
  decode_rune s = Some (r, w) → ∃ p s', s = p +:+ s' ∧ rune_at p r w.
Proof.
  unfold decode_rune. intros H.
  destruct s as [|a s]; [done|]. pose proof (byte_z_range a).
  destruct (byte_z a <? 128) eqn:Ea.
  { simplify_eq. exists (String a ""), s. split; [done|]. constructor. lia. }
  destruct s as [|b s]; [done|]. pose proof (byte_z_range b).
  destruct (btw 194 223 (byte_z a)) eqn:E2.
  { destruct (btw 128 191 (byte_z b)) eqn:Eb; [|done]. simplify_eq.
    exists (String a (String b "")), s. split; [done|]. econstructor; [done|lia| |done| |].
    - rewrite land_31, cont_mod. apply rune2_bound. by apply btw_true.
    - rewrite land_31, cont_mod. by apply encode_rune2; [apply btw_true..|].
    - intros X. simpl. by rewrite Ea, E2, Eb. }
  destruct s as [|c s]; [done|]. pose proof (byte_z_range c).
  destruct (btw 224 239 (byte_z a)) eqn:E3.
  { destruct (btw _ _ (byte_z b) && btw 128 191 (byte_z c)) eqn:Eb in H; [|done]. simplify_eq.
    exists (String a (String b (String c ""))), s. split; [done|]. econstructor; [done|lia| |done| |].
    - rewrite land_15, !cont_mod. apply btw_true in E3. rewrite andb_true_iff, !btw_true in Eb.
      apply rune3_bound; [done|]. destruct (byte_z a =? 224), (byte_z a =? 237); lia.
    - rewrite land_15, !cont_mod. apply btw_true in E3. rewrite andb_true_iff, !btw_true in Eb.
      by apply encode_rune3; [|apply Eb..|].
    - intros X. lazy beta iota zeta delta [decode_rune String.append]. by rewrite Ea, E2, E3, Eb. }
  destruct s as [|e s]; [done|]. pose proof (byte_z_range e).
  destruct (_ && _) eqn:Eb in H; [|done]. simplify_eq.
  exists (String a (String b (String c (String e "")))), s. split; [done|].
  econstructor; [done|lia| |done| |].
  - rewrite land_7, !cont_mod. rewrite !andb_true_iff, !btw_true in Eb.
    apply rune4_bound; [lia|]. destruct (byte_z a =? 240), (byte_z a =? 244); lia.
  - rewrite land_7, !cont_mod. rewrite !andb_true_iff, !btw_true in Eb.
    by apply encode_rune4; [apply Eb..|].
  - intros X. lazy beta iota zeta delta [decode_rune String.append]. by rewrite Ea, E2, E3, Eb.
Qed.

Lemma rune_at_width p r w : rune_at p r w → String.length p = w ∧ (0 < w)%nat.
Proof. intros [a|q r' w' c q' -> ? ? <- ? ?]; simpl; split; (done || lia). Qed.
Lemma str_take_app p s : str_take (String.length p) (p +:+ s) = p.
Proof. induction p as [|c p IH]; [by destruct s|]. rewrite str_app_cons. simpl. by rewrite IH. Qed.
Lemma str_drop_app p s : str_drop (String.length p) (p +:+ s) = s.
Proof. induction p as [|c p IH]; [by destruct s|]. rewrite str_app_cons. simpl. by rewrite IH. Qed.
Lemma rune_at_decode p r w X : rune_at p r w → decode_rune (p +:+ X) = Some (r, w).
Proof.
  intros [a Ha|q r' w' c q' -> ? ? <- ? Hq]; [|done]. rewrite str_app_cons. by apply decode_rune_ascii.
Qed.

Lemma runes_from_drop k s : runes_from k s = runes_from 0 (str_drop k s).
Proof.
  revert k. induction s as [|c s IH]; intros [|k]; try done. cbn [str_drop]. rewrite <- IH. done.
Qed.
Lemma write_body_drop k s : write_body k s = write_body 0 (str_drop k s).
Proof.
  revert k. induction s as [|c s IH]; intros [|k]; try done. cbn [str_drop]. rewrite <- IH. done.
Qed.
(** Valid UTF-8 as a sequence of runes. *)
Inductive valid_text : string → Prop :=
| valid_nil : valid_text ""
| valid_cons p r w s : rune_at p r w → valid_text s → valid_text (p +:+ s).
Lemma ValidString_valid s : ValidString s = true → valid_text s.
Proof.
  remember (String.length s) as n eqn:Hn. revert s Hn.
  induction n as [n IH] using lt_wf_ind. intros s -> Hv. destruct s as [|c s]; [constructor|]. unfold ValidString in Hv. cbn [runes_from] in Hv.
  destruct (decode_rune (String c s)) as [[r w]|] eqn:E; [|done].
  apply decode_rune_inv in E as (p & s' & Heq & Hp). pose proof (rune_at_width _ _ _ Hp) as [Hl Hw].
  rewrite Heq. econstructor; [done|]. eapply (IH (String.length s')); [|done|].
  - rewrite Heq, str_length_app. lia.
  - destruct w as [|w]; [lia|]. cbn [pred] in Hv. rewrite runes_from_drop in Hv.
    assert (str_drop w s = s') as <-; [|done].
    change (str_drop w s) with (str_drop (S w) (String c s)). rewrite Heq, <- Hl. apply str_drop_app.
Qed.

(** ** Strings *)
Lemma str_app_nil_l (s : string) : "" +:+ s = s.
Proof. done. Qed.
Definition chunk (p : string) (r : Z) : string :=
  if r <? 128 then match p with String c _ => escape_byte c | "" => "" end
  else if (r =? 8232) || (r =? 8233) then u_escape r else p.

Lemma write_body_rune p r w s :
  rune_at p r w → write_body 0 (p +:+ s) = chunk p r +:+ write_body 0 s.
Proof.
  intros Hp. pose proof (rune_at_decode _ _ _ s Hp) as Hd. pose proof (rune_at_width _ _ _ Hp) as [Hl Hw].
  assert (write_chunk (p +:+ s) = (chunk p r, w)) as Hc.
  { unfold write_chunk, chunk. rewrite Hd. destruct Hp as [a Ha|q r w c q' -> Hc Hr <- ? ?].
    - by rewrite (proj2 (Z.ltb_lt _ _) Ha).
    - rewrite (proj2 (Z.ltb_ge _ _)) by lia. destruct (_ || _); [done|]. by rewrite str_take_app. }
  destruct p as [|c p]; [simpl in Hl; lia|]. rewrite str_app_cons in Hc |- *. cbn [write_body].
  rewrite Hc. f_equal. rewrite write_body_drop. destruct w as [|w]; [lia|]. injection Hl as <-.
  cbn [pred]. by rewrite str_drop_app.
Qed.

(** What reading [x] adds to the text read from what follows. *)
Definition reads_as (x p : string) : Prop :=
  ∀ fuel X body rest, read_body fuel X = Some (body, rest) →
    read_body (S fuel) (x +:+ X) = Some (p +:+ body, rest).

Lemma hex_val_digit z : 0 <= z < 16 → hex_val (hex_digit (Z.to_nat z)) = Some z.
Proof.
  intros Hz. assert (z ∈ seqZ 0 16) as H by (apply elem_of_seqZ; lia).
  change (seqZ 0 16) with [0;1;2;3;4;5;6;7;8;9;10;11;12;13;14;15] in H.
  rewrite !elem_of_cons in H.
  destruct H as [->|[->|[->|[->|[->|[->|[->|[->|[->|[->|[->|[->|[->|[->|[->|[->|H]]]]]]]]]]]]]]]];
    try reflexivity. by apply elem_of_nil in H.
Qed.
Lemma reads_u n p :
  0 <= n < 65536 → is_surrogate n = false → encode_rune n = p → reads_as (u_escape n) p.
Proof.
  intros Hn Hs He fuel X body rest HX. unfold u_escape. rewrite !str_app_cons, str_app_nil_l.
  cbn [read_body]. change (Ascii.eqb backslash quote) with false.
  change (Ascii.eqb backslash backslash) with true. cbv iota. unfold read_u, hex4.
  rewrite !hex_val_digit by (Z.div_mod_to_equations; lia). simpl.
  replace (_ + _) with n by (Z.div_mod_to_equations; lia).
  rewrite Hs, He. cbn [mbind option_bind]. by rewrite HX.
Qed.
Lemma reads_simple e x : e ≠ "u"%char → simple_escape e = Some x →
  reads_as (String backslash (String e "")) (String x "").
Proof.
  intros Hu He fuel X body rest HX. rewrite !str_app_cons, str_app_nil_l.
  cbn [read_body]. change (Ascii.eqb backslash quote) with false.
  change (Ascii.eqb backslash backslash) with true. cbv iota.
  destruct e as [[] [] [] [] [] [] [] []]; try done; rewrite He; simpl; by rewrite HX.
Qed.
Lemma reads_plain c : c ≠ quote → c ≠ backslash → 32 <= byte_z c < 128 →
  reads_as (String c "") (String c "").
Proof.
  intros Hq Hb Hc fuel X body rest HX. rewrite !str_app_cons, str_app_nil_l. cbn [read_body].
  rewrite (proj2 (Ascii.eqb_neq _ _) Hq), (proj2 (Ascii.eqb_neq _ _) Hb), (proj2 (Z.ltb_ge _ _)) by lia.
  rewrite decode_rune_ascii by lia. simpl. rewrite HX. by destruct X.
Qed.
Lemma reads_byte a : byte_z a < 128 → reads_as (escape_byte a) (String a "").
Proof.
  intros Ha. pose proof (byte_z_range a). unfold escape_byte.
  repeat match goal with
         | |- context [false || _] => cbn [orb]
         | |- context [(byte_z a =? ?n) || _] => destruct (Z.eqb_spec (byte_z a) n)
         | |- context [if byte_z a =? ?n then _ else _] => destruct (Z.eqb_spec (byte_z a) n)
         | H : byte_z a = _ |- _ =>
             apply (f_equal z_byte) in H; rewrite z_byte_z in H; subst a; by apply reads_simple
         end.
  - destruct (_ || _) eqn:E.
    + apply reads_u; [lia| |]; [unfold is_surrogate, btw; apply andb_false_iff; lia|].
      unfold encode_rune, btw. replace (_ && _) with true by (symmetry; rewrite andb_true_iff, negb_true_iff; lia).
      rewrite (proj2 (Z.ltb_lt _ _)) by lia. by rewrite z_byte_z.
    + rewrite !orb_false_iff in E. apply reads_plain; [intros ->; done|intros ->; done|lia].
Qed.
Lemma reads_separator r p :
  r = 8232 ∨ r = 8233 → encode_rune r = p → reads_as (u_escape r) p.
Proof. intros [-> | ->]; by apply reads_u. Qed.
Lemma reads_multi p r w c p' :
  p = String c p' → 128 <= byte_z c → String.length p = w →
  (∀ X, decode_rune (p +:+ X) = Some (r, w)) → reads_as p p.
Proof.
  intros Hp Hc Hl Hd fuel X body rest HX. specialize (Hd X). subst w.
  pose proof (str_drop_app p X) as Hdrop. pose proof (str_take_app p X) as Htake.
  rewrite Hp in Hd, Hdrop, Htake |- *. rewrite str_app_cons in Hd, Hdrop, Htake |- *.
  cbn [read_body].
  assert (Ascii.eqb c quote = false) as ->
    by (apply Ascii.eqb_neq; intros ->; vm_compute in Hc; by apply Hc).
  assert (Ascii.eqb c backslash = false) as ->
    by (apply Ascii.eqb_neq; intros ->; vm_compute in Hc; by apply Hc).
  rewrite (proj2 (Z.ltb_ge _ _)) by lia.
  rewrite Hd, Hdrop, Htake, HX. done.
Qed.
Lemma reads_rune p r w : rune_at p r w → reads_as (chunk p r) p.
Proof.
  intros [a Ha|q r' w' c q' Hq Hc Hr Hl He Hd]; unfold chunk.
  - rewrite (proj2 (Z.ltb_lt _ _) Ha). by apply reads_byte.
  - rewrite (proj2 (Z.ltb_ge _ _)) by lia.
    destruct (Z.eqb_spec r' 8232); [apply reads_separator; auto|].
    destruct (Z.eqb_spec r' 8233); [apply reads_separator; auto|]. simpl. by eapply reads_multi.
Qed.
Lemma chunk_nonempty p r w : rune_at p r w → (0 < String.length (chunk p r))%nat.
Proof.
  intros [a Ha|q r' w' c q' -> Hc Hr Hl He Hd]; unfold chunk; repeat case_match; simpl; try lia.
  unfold escape_byte. repeat case_match; simpl; lia.
Qed.

Lemma read_body_fuel_app s rest :
  valid_text s → ∀ fuel, (String.length (write_body 0 s) < fuel)%nat →
  read_body fuel (write_body 0 s +:+ String quote rest) = Some (s, rest).
Proof.
  induction 1 as [|p r w s Hp Hs IH]; intros fuel Hf.
  - destruct fuel; [simpl in Hf; lia|]. done.
  - rewrite (write_body_rune _ _ _ _ Hp) in Hf |- *. rewrite str_length_app in Hf.
    pose proof (chunk_nonempty _ _ _ Hp). destruct fuel as [|fuel]; [lia|].
    rewrite <- str_app_assoc. apply (reads_rune _ _ _ Hp). apply IH. lia.
Qed.

(** A valid text written is read back, whatever follows the closing quote. *)
Lemma read_write_string s rest :
  ValidString s = true →
  read_string (write_body 0 s +:+ String quote rest) = Some (s, rest).
Proof.
  intros Hs. apply read_body_fuel_app; [by apply ValidString_valid|]. rewrite str_length_app. lia.
Qed.

(** ** Numbers *)
Lemma digits_val_snoc d c acc :
  is_digit c = true →
  digits_val acc (d +:+ String c "") = (λ v, v * 10 + (byte_z c - 48)) <$> digits_val acc d.
Proof.
  intros Hc. revert acc. induction d as [|c' d IH]; intros acc.
  - simpl. by rewrite Hc.
  - rewrite str_app_cons. simpl. destruct (is_digit c'); [apply IH|done].
Qed.
Lemma pretty_N_char_digit x :
  (x < 10)%N → is_digit (pretty_N_char x) = true ∧ byte_z (pretty_N_char x) = 48 + Z.of_N x
    ∧ (x ≠ 0%N → pretty_N_char x ≠ "0"%char).
Proof.
  intros Hx. assert (x = 0 ∨ x = 1 ∨ x = 2 ∨ x = 3 ∨ x = 4 ∨ x = 5 ∨ x = 6 ∨ x = 7 ∨ x = 8 ∨ x = 9)%N by lia.
  naive_solver.
Qed.

(** The digits of a positive number, the most significant not 0. *)
Lemma pretty_N_go_digits x : (0 < x)%N → ∀ s, ∃ c d,
  pretty_N_go x s = String c d +:+ s ∧ c ≠ "0"%char ∧ str_forall is_digit (String c d) = true ∧
  digits_val 0 (String c d) = Some (Z.of_N x).
Proof.
  induction (N.lt_wf_0 x) as [x _ IH]; intros Hx s. rewrite pretty_N_go_step by done.
  pose proof (pretty_N_char_digit (x mod 10) (N.mod_lt x 10 ltac:(done))) as (Hd & Hv & Hz).
  destruct (decide (x < 10)%N) as [Hlt|Hge].
  - rewrite N.mod_small in * by done. rewrite N.div_small, pretty_N_go_0 by done.
    exists (pretty_N_char x), "". split; [done|]. split; [apply Hz; lia|]. split; [simpl; by rewrite Hd|].
    simpl. rewrite Hd. unfold byte_z in Hv. f_equal. lia.
  - destruct (IH (x / 10)%N (N.div_lt x 10 Hx ltac:(done)) ltac:(apply N.div_str_pos; lia)
                (String (pretty_N_char (x mod 10)) s)) as (c & d & -> & Hc & Hds & Hval).
    exists c, (d +:+ String (pretty_N_char (x mod 10)) ""). split; [|split; [done|split]].
    + rewrite !str_app_cons, <- str_app_assoc. done.
    + rewrite <- str_app_cons, str_forall_app, Hds. simpl. by rewrite Hd.
    + rewrite <- str_app_cons, digits_val_snoc by done. rewrite Hval. simpl. f_equal.
      rewrite Hv. pose proof (N.div_mod x 10 ltac:(done)). lia.
Qed.

(** What may follow a number. *)
Definition stops (X : string) : bool :=
  match X with
  | String c _ => negb (is_digit c || Ascii.eqb c "." || Ascii.eqb c "e" || Ascii.eqb c "E")
  | "" => true
  end.

Lemma span_digits_app d X :
  str_forall is_digit d = true → stops X = true → span_digits (d +:+ X) = (d, X).
Proof.
  induction d as [|c d IH]; intros Hd HX.
  - destruct X as [|c X]; [done|]. simpl in HX. rewrite str_app_nil_l. simpl. by destruct (is_digit c).
  - rewrite str_app_cons. simpl in *. apply andb_true_iff in Hd as [-> Hd]. by rewrite IH.
Qed.
Lemma read_frac_stops X : stops X = true → read_frac X = Some ("", X).
Proof. destruct X as [|[[] [] [] [] [] [] [] []] X]; done. Qed.
Lemma read_exp_stops X : stops X = true → read_exp X = Some ("", X).
Proof.
  destruct X as [|c X]; [done|]. simpl. intros H.
  destruct (Ascii.eqb c "e"), (Ascii.eqb c "E"); rewrite ?orb_true_r in H; done.
Qed.

Lemma read_number_digits neg c d X n :
  str_forall is_digit (String c d) = true → (c ≠ "0"%char ∨ d = "") →
  digits_val 0 (String c d) = Some n → stops X = true → negb (neg && (n =? 0)) = true →
  read_number ((if neg : bool then "-" else "") +:+ String c d +:+ X)
  = Some (JNum (if neg then - n else n), X).
Proof.
  intros Hd Hc Hn HX Hz. unfold read_number.
  assert (read_sign ((if neg then "-" else "") +:+ String c d +:+ X) = (neg, String c d +:+ X)) as ->.
  { destruct neg; [done|]. rewrite str_app_nil_l, str_app_cons. simpl in Hd.
    destruct c as [[] [] [] [] [] [] [] []]; done. }
  rewrite span_digits_app by done. change (String.eqb (String c d) "") with false. cbv iota.
  assert (HasPrefix (String c d) "0" && negb (String.eqb (String c d) "0") = false) as ->.
  { destruct Hc as [Hc| ->].
    - destruct c as [[] [] [] [] [] [] [] []]; done.
    - destruct c as [[] [] [] [] [] [] [] []]; done. }
  rewrite read_frac_stops by done. cbn [mbind option_bind]. rewrite read_exp_stops by done.
  cbn [mbind option_bind]. rewrite Hn. by rewrite Hz.
Qed.

Lemma read_number_pretty n X : stops X = true → read_number (pretty n +:+ X) = Some (JNum n, X).
Proof.
  intros HX. destruct n as [|p|p].
  - apply (read_number_digits false "0" "" X 0); auto.
  - destruct (pretty_N_go_digits (Npos p) ltac:(lia) "") as (c & d & Hp & Hc & Hd & Hv).
    change (pretty (Z.pos p)) with (pretty_N_go (Npos p) ""). rewrite Hp, str_app_nil_r.
    apply (read_number_digits false c d X (Z.pos p)); auto.
  - destruct (pretty_N_go_digits (Npos p) ltac:(lia) "") as (c & d & Hp & Hc & Hd & Hv).
    change (pretty (Z.neg p)) with ("-" +:+ pretty_N_go (Npos p) ""). rewrite Hp, str_app_nil_r.
    rewrite <- str_app_assoc. apply (read_number_digits true c d X (Z.pos p)); auto.
Qed.

(** ** Values *)
Fixpoint json_valid (j : json) : bool :=
  match j with
  | JLit _ => false
  | JStr s => ValidString s
  | JArr l => forallb json_valid l
  | JObj kvs => forallb (λ kv, ValidString kv.1 && json_valid kv.2) kvs
  | _ => true
  end.

Lemma pretty_Z_head (n : Z) : ∃ c s, pretty n = String c s ∧ (c = "-"%char ∨ is_digit c = true).
Proof.
  destruct n as [|p|p]; [by eexists _, _; split; [reflexivity|right]| |].
  - destruct (pretty_N_go_digits (Npos p) ltac:(lia) "") as (c & d & Hp & Hc & Hd & Hv).
    exists c, (d +:+ ""). split; [done|]. right. simpl in Hd. by destruct (is_digit c).
  - by eexists _, _; split; [reflexivity|left].
Qed.

Definition head_ok (c : ascii) : bool :=
  negb (is_ws c) && negb (Ascii.eqb c "]") && negb (Ascii.eqb c "}").
Lemma json_write_head j : json_valid j = true → ∃ c s, json_write j = String c s ∧ head_ok c = true.
Proof.
  destruct j as [|[]|n|t|s|l|kvs]; intros Hv; try done; try by eexists _, _; split; [reflexivity|].
  destruct (pretty_Z_head n) as (c & s & Hs & Hc). exists c, s. split; [done|].
  destruct Hc as [-> |Hc]; [done|]. by destruct c as [[] [] [] [] [] [] [] []].
Qed.

Lemma skip_ws_head c s : is_ws c = false → skip_ws (String c s) = String c s.
Proof. simpl. by intros ->. Qed.

Lemma match_bracket {A} c s (x y : string → A) :
  Ascii.eqb c "]" = false →
  match String c s with String "]"%char rest => x rest | r => y r end = y (String c s).
Proof. by destruct c as [[] [] [] [] [] [] [] []]. Qed.
Lemma read_value_open_array fuel c s :
  head_ok c = true →
  read_value (S fuel) (String "[" (String c s)) = '(l, rest) ← read_elems fuel (String c s); Some (JArr l, rest).
Proof.
  unfold head_ok. intros [[Hw Ha]%andb_true_iff Ho]%andb_true_iff.
  apply negb_true_iff in Hw, Ha. cbn [read_value]. rewrite (skip_ws_head "[") by done.
  rewrite (skip_ws_head c) by done.
  exact (match_bracket c s (λ rest, Some (JArr [], rest))
           (λ r, '(l, rest) ← read_elems fuel r; Some (JArr l, rest)) Ha).
Qed.
Lemma read_value_open_object fuel s :
  read_value (S fuel) (String "{" (String quote s))
  = '(kvs, rest) ← read_members fuel (String quote s); Some (JObj kvs, rest).
Proof. reflexivity. Qed.

Lemma write_string_app s X : write_string s +:+ X = String quote (write_body 0 s +:+ String quote X).
Proof. unfold write_string. by rewrite str_app_cons, <- str_app_assoc. Qed.

(** The promise of a value: it is read, whatever stops it. *)
Definition value_reads (j : json) : Prop :=
  ∀ fuel X, (2 * String.length (json_write j) ≤ fuel)%nat → stops X = true →
    read_value fuel (json_write j +:+ X) = Some (j, X).

Lemma value_reads_num n : value_reads (JNum n).
Proof.
  intros fuel X Hf HX. cbn [json_write]. destruct (pretty_Z_head n) as (c & s & Hs & Hc).
  destruct fuel as [|fuel]; [cbn [json_write] in Hf; rewrite Hs in Hf; simpl in Hf; lia|].
  rewrite <- (read_number_pretty n X HX). rewrite Hs, str_app_cons.
  cbn [read_value]. rewrite skip_ws_head by (destruct Hc as [-> |Hc]; [done|];
    by destruct c as [[] [] [] [] [] [] [] []]).
  destruct Hc as [-> |Hc]; [done|]. destruct c as [[] [] [] [] [] [] [] []]; done.
Qed.
Lemma value_reads_str s : ValidString s = true → value_reads (JStr s).
Proof.
  intros Hs fuel X Hf HX. destruct fuel as [|fuel]; [simpl in Hf; lia|]. cbn [json_write].
  rewrite write_string_app. cbn [read_value]. rewrite skip_ws_head by done.
  change (Ascii.eqb quote quote) with true. cbv iota. by rewrite read_write_string.
Qed.

Lemma join_cons2 x y l : join "," (x :: y :: l) = x +:+ String "," (join "," (y :: l)).
Proof. done. Qed.

Lemma elems_read l : Forall value_reads l → l ≠ [] →
  ∀ fuel X, (2 * String.length (join "," (map json_write l)) + 1 ≤ fuel)%nat →
    read_elems fuel (join "," (map json_write l) +:+ String "]" X) = Some (l, X).
Proof.
  induction 1 as [|j l Hj Hl IH]; [done|]. intros _ fuel X Hf.
  destruct fuel as [|fuel]; [lia|]. destruct l as [|j' l].
  - cbn [map join String.concat] in Hf |- *. cbn [read_elems]. by rewrite Hj by (done || lia).
  - cbn [map] in Hf |- *. rewrite join_cons2, str_length_app in Hf. rewrite join_cons2.
    simpl String.length in Hf at 2. rewrite <- str_app_assoc, str_app_cons. cbn [read_elems].
    rewrite Hj by (done || lia). cbn [mbind option_bind]. rewrite skip_ws_head by done.
    rewrite (IH ltac:(done)); [done|]. cbn [map]. simpl in Hf |- *. lia.
Qed.

Definition write_member (kv : string * json) : string := write_string kv.1 +:+ ":" +:+ json_write kv.2.

Lemma read_member_value fuel k j X :
  ValidString k = true → value_reads j → (2 * String.length (json_write j) ≤ fuel)%nat → stops X = true →
  read_members (S fuel) (write_member (k, j) +:+ X)
  = match skip_ws X with
    | String ","%char rest => '(kvs, rest) ← read_members fuel rest; Some ((k, j) :: kvs, rest)
    | String "}"%char rest => Some ([(k, j)], rest)
    | _ => None
    end.
Proof.
  intros Hk Hj Hf HX. unfold write_member. simpl fst. simpl snd.
  rewrite <- str_app_assoc, write_string_app. cbn [read_members]. rewrite skip_ws_head by done.
  change (negb (Ascii.eqb quote quote)) with false. cbv iota.
  rewrite read_write_string by done. cbn [mbind option_bind].
  rewrite !str_app_cons, str_app_nil_l, skip_ws_head by done.
  by rewrite Hj by (done || lia).
Qed.

Lemma members_read kvs :
  Forall (λ kv, ValidString kv.1 = true ∧ value_reads kv.2) kvs → kvs ≠ [] →
  ∀ fuel X, (2 * String.length (join "," (map write_member kvs)) + 1 ≤ fuel)%nat →
    read_members fuel (join "," (map write_member kvs) +:+ String "}" X) = Some (kvs, X).
Proof.
  assert (∀ kv, String.length (json_write kv.2) ≤ String.length (write_member kv))%nat as Hlen.
  { intros kv. unfold write_member. rewrite !str_length_app. lia. }
  induction 1 as [|[k j] kvs [Hk Hj] Hl IH]; [done|]. intros _ fuel X Hf.
  pose proof (Hlen (k, j)) as Hlen1. cbn [snd] in Hlen1.
  destruct fuel as [|fuel]; [lia|]. destruct kvs as [|kv kvs].
  - cbn [map join String.concat] in Hf |- *. rewrite read_member_value by (done || lia). done.
  - cbn [map] in Hf |- *. rewrite join_cons2, str_length_app in Hf. rewrite join_cons2.
    simpl String.length in Hf at 2. rewrite <- str_app_assoc, str_app_cons.
    rewrite read_member_value by (done || lia). rewrite skip_ws_head by done.
    rewrite (IH ltac:(done)); [done|]. cbn [map]. simpl in Hf |- *. lia.
Qed.

Lemma value_reads_arr l : forallb json_valid l = true → Forall value_reads l → value_reads (JArr l).
Proof.
  intros Hv Hl fuel X Hf HX. destruct fuel as [|fuel]; [simpl in Hf; lia|].
  destruct l as [|j l]; [done|]. cbn [json_write] in *. rewrite !str_length_app in Hf. simpl in Hf.
  rewrite <- !str_app_assoc, str_app_cons, str_app_nil_l. change ("]" +:+ X) with (String "]" X).
  destruct (json_write_head j) as (c & s & Hc & Hok); [by apply andb_true_iff in Hv as [? _]|].
  assert (∃ t, join "," (map json_write (j :: l)) +:+ String "]" X = String c t) as [t Ht].
  { cbn [map]. destruct l; cbn [map]; rewrite ?join_cons2; cbn [join String.concat]; rewrite Hc, ?str_app_cons; eauto. }
  rewrite Ht, read_value_open_array by done. rewrite <- Ht.
  rewrite elems_read; [done|done|done|]. cbn [map]. simpl in Hf |- *. lia.
Qed.
Lemma value_reads_obj kvs :
  Forall (λ kv, ValidString kv.1 = true ∧ value_reads kv.2) kvs → value_reads (JObj kvs).
Proof.
  intros Hl fuel X Hf HX. destruct fuel as [|fuel]; [simpl in Hf; lia|].
  destruct kvs as [|[k j] kvs]; [done|]. cbn [json_write] in *. rewrite !str_length_app in Hf. simpl in Hf.
  change (map _ ((k, j) :: kvs)) with (map write_member ((k, j) :: kvs)).
  rewrite <- !str_app_assoc, str_app_cons, str_app_nil_l. change ("}" +:+ X) with (String "}" X).
  assert (∃ t, join "," (map write_member ((k, j) :: kvs)) +:+ String "}" X = String quote t) as [t Ht].
  { cbn [map]. destruct kvs; cbn [map]; rewrite ?join_cons2; cbn [join String.concat]; unfold write_member;
      rewrite <- ?str_app_assoc, write_string_app; eauto. }
  rewrite Ht, read_value_open_object. rewrite <- Ht.
  rewrite members_read; [done|done|done|]. cbn [map]. simpl in Hf |- *. unfold write_member. simpl. lia.
Qed.

Lemma json_value_reads j : json_valid j = true → value_reads j.
Proof.
  induction j as [|[]|n|t|s|l IH|kvs IH] using json_ind'; intros Hv.
  1-3: intros [|fuel] X Hf HX; [simpl in Hf; lia|]; by destruct X.
  - apply value_reads_num.
  - done.
  - by apply value_reads_str.
  - apply value_reads_arr; [done|]. cbn [json_valid] in Hv. rewrite forallb_forall in Hv.
    rewrite Forall_forall in IH |- *. intros j Hj. apply IH; [done|]. apply Hv. by apply list_elem_of_In.
  - apply value_reads_obj. cbn [json_valid] in Hv. rewrite forallb_forall in Hv.
    rewrite Forall_forall in IH |- *. intros kv Hkv.
    specialize (Hv kv ltac:(by apply list_elem_of_In)). apply andb_true_iff in Hv as [? ?]. auto.
Qed.

Lemma json_value_read j : json_valid j = true → json_read (json_write j) = Some j.
Proof.
  intros Hv. unfold json_read.
  pose proof (json_value_reads j Hv (S (2 * String.length (json_write j))) "" ltac:(lia) eq_refl) as H.
  rewrite str_app_nil_r in H. by rewrite H.
Qed.

(** Decoding what was encoded gives the value back: for every JSON
    value whose strings are valid UTF-8 and whose numbers are integers. *)
Theorem json_read_write j : json_valid j = true → json_read (json_write j) = Some j.
Proof. apply json_value_read. Qed.

Definition sample_text : string :=
  String "<" (String quote (String "010" (encode_runes [1055; 8232; 128512]))).
Lemma json_read_write_witness :
  json_valid (JObj [("a", JArr [JNum (-120); JStr sample_text; JNull]); ("b", JBool true)]) = true
  ∧ json_read (json_write (JObj [("a", JArr [JNum (-120); JStr sample_text; JNull]); ("b", JBool true)]))
    = Some (JObj [("a", JArr [JNum (-120); JStr sample_text; JNull]); ("b", JBool true)]).
Proof. split; [vm_compute; reflexivity|]. apply json_read_write. vm_compute. reflexivity. Defined.
