(* ===== verification/Errors.v ===== *)
(** * Errors and error responses

    pkg/errors/errors.go (package apperr), pkg/response/response.go and
    observability/metrics/auth_kind.go: the typed application error, how
    [errors.Is] and [errors.As] see through wrapping, the HTTP status of an
    error, and the JSON error body. *)

From stdpp Require Import base strings list.
From S2P Require Import Prelude GoStrings Json.

(** ** Kinds *)
Definition KindUnauthorized : string := "unauthorized".
Definition KindForbidden : string := "forbidden".
Definition KindNotFound : string := "not_found".
Definition KindValidationFailed : string := "validation_failed".
Definition KindConflict : string := "conflict".
Definition KindInternal : string := "internal".

(** ** Error values

    The errors that circulate in the program: [repository.ErrNotFound],
    [pgx.ErrNoRows], a [pgconn.PgError] with its SQLSTATE, an error with a
    text and nothing to unwrap, [fmt.Errorf] with [%w], and [*apperr.Error]. *)
Inductive error : Type :=
| ErrNotFound
| ErrNoRows
| PgError (code text : string)
| ErrPlain (msg : string)
| ErrWrapf (msg : string) (cause : error)
| EApp (ae : app_error)
with app_error : Type :=
| AppError (Kind Message : string) (Details : option json) (cause : option error).

Definition ae_Kind (ae : app_error) : string := let (k, _, _, _) := ae in k.
Definition ae_Message (ae : app_error) : string := let (_, m, _, _) := ae in m.
Definition ae_Details (ae : app_error) : option json := let (_, _, d, _) := ae in d.
Definition ae_cause (ae : app_error) : option error := let (_, _, _, c) := ae in c.

(** [err.Error()]. *)
Fixpoint err_text (e : error) : string :=
  match e with
  | ErrNotFound => "repository: not found"
  | ErrNoRows => "no rows in result set"
  | PgError _ text => text
  | ErrPlain msg => msg
  | ErrWrapf msg cause => msg +:+ ": " +:+ err_text cause
  | EApp (AppError _ msg _ None) => msg
  | EApp (AppError _ msg _ (Some cause)) => msg +:+ ": " +:+ err_text cause
  end.

(** [errors.Is(err, repository.ErrNotFound)], [errors.Is(err, pgx.ErrNoRows)]:
    the chain of [Unwrap] is searched. *)
Fixpoint is_not_found (e : error) : bool :=
  match e with
  | ErrNotFound => true
  | ErrWrapf _ cause => is_not_found cause
  | EApp (AppError _ _ _ (Some cause)) => is_not_found cause
  | _ => false
  end.
Fixpoint is_no_rows (e : error) : bool :=
  match e with
  | ErrNoRows => true
  | ErrWrapf _ cause => is_no_rows cause
  | EApp (AppError _ _ _ (Some cause)) => is_no_rows cause
  | _ => false
  end.

(** [errors.As(err, &pgErr)]. *)
Fixpoint as_pg_code (e : error) : option string :=
  match e with
  | PgError code _ => Some code
  | ErrWrapf _ cause => as_pg_code cause
  | EApp (AppError _ _ _ (Some cause)) => as_pg_code cause
  | _ => None
  end.

(** apperr.As: the outermost application error of the chain. *)
Fixpoint As (e : error) : option app_error :=
  match e with
  | EApp ae => Some ae
  | ErrWrapf _ cause => As cause
  | _ => None
  end.

(** apperr.New and the constructors built on it. *)
Definition New (kind message : string) (cause : option error) : error :=
  EApp (AppError kind message None cause).
Definition Unauthorized (message : string) : error := New KindUnauthorized message None.
Definition Forbidden (message : string) : error := New KindForbidden message None.
Definition NotFound (message : string) : error := New KindNotFound message None.
Definition Validation (message : string) (cause : option error) : error :=
  New KindValidationFailed message cause.
Definition ValidationDetails (message : string) (details : json) : error :=
  EApp (AppError KindValidationFailed message (Some details) None).
Definition Conflict (message : string) : error := New KindConflict message None.
Definition Internal (message : string) (cause : option error) : error :=
  New KindInternal message cause.

(** apperr.WithDetails: a copy with the details set, for an application
    error; any other error is returned as it is. *)
Definition WithDetails (err : error) (details : json) : error :=
  match As err with
  | Some (AppError k m _ c) => EApp (AppError k m (Some details) c)
  | None => err
  end.

(** [( *Error).HTTPStatus], on a possibly nil receiver. *)
Definition kind_status (ae : option app_error) : Z :=
  match ae with
  | None => 500
  | Some ae =>
      let k := ae_Kind ae in
      if String.eqb k KindUnauthorized then 401
      else if String.eqb k KindForbidden then 403
      else if String.eqb k KindNotFound then 404
      else if String.eqb k KindValidationFailed then 422
      else if String.eqb k KindConflict then 409
      else if String.eqb k KindInternal then 500
      else 500
  end.

(** [apperr.HTTPStatus(err)]. *)
Definition HTTPStatus (err : option error) : Z :=
  match err with
  | None => 200
  | Some e => match As e with Some ae => kind_status (Some ae) | None => 500 end
  end.

(** The blocks
    [if errors.Is(err, ErrNotFound) { return NotFound(nf) }; return Internal(what, err)]
    the services repeat after a repository call, with the application
    error for the missing row as a parameter. *)
Definition not_found_or (nf : error) (what : string) (e : error) : error :=
  if is_not_found e then nf else Internal what (Some e).
Definition internal_err (what : string) (e : error) : error := Internal what (Some e).

(** postgres.mapErr *)
Definition mapErr (e : error) : error := if is_no_rows e then ErrNotFound else e.

(** ** Responses *)
Record http_response := mkResponse { resp_status : Z; resp_body : json }.

Definition WriteJSON (status : Z) (v : json) : http_response := mkResponse status v.

(** response.SuccessBody: [data] has [omitempty]. *)
Definition success_body (data : option json) : json :=
  JObj (("ok", JBool true) :: match data with Some d => [("data", d)] | None => [] end).

Definition WriteSuccess (status : Z) (data : option json) : http_response :=
  WriteJSON (if (status =? 0)%Z then 200 else status) (success_body data).

Definition normalizeDetails (d : option json) : json :=
  match d with None => JEmpty | Some j => j end.

(** [map[string]any] literals are encoded with their keys sorted. *)
Definition writeAPIError (status : Z) (code message : string) (details : option json)
    : http_response :=
  WriteJSON status
    (JObj [("error", JObj [("code", JStr code); ("details", normalizeDetails details);
                           ("message", JStr message)])]).

Definition WriteError (err : option error) : http_response :=
  match err with
  | None => WriteJSON 200 (success_body None)
  | Some e =>
      match As e with
      | Some ae => writeAPIError (HTTPStatus err) (ae_Kind ae) (ae_Message ae) (ae_Details ae)
      | None => writeAPIError (HTTPStatus err) "internal" "internal server error" None
      end
  end.

Definition WriteErrorWithDetails (err : option error) (details : option json) : http_response :=
  match err with
  | None => WriteSuccess 200 None
  | Some e =>
      match As e with
      | Some ae =>
          writeAPIError (HTTPStatus err) (ae_Kind ae) (ae_Message ae)
            (match ae_Details ae with Some d => Some d | None => details end)
      | None => writeAPIError (HTTPStatus err) "internal" "internal server error" details
      end
  end.

(** response.Is *)
Definition err_is_kind (e : error) (kind : string) : bool :=
  match As e with Some ae => String.eqb (ae_Kind ae) kind | None => false end.

(** metrics.AuthFailureFromErr *)
Definition AuthFailureFromErr (e : error) : string :=
  match As e with
  | None => "other"
  | Some ae =>
      let k := ae_Kind ae in
      if String.eqb k KindUnauthorized then "unauthorized"
      else if String.eqb k KindForbidden then "forbidden"
      else if String.eqb k KindNotFound then "not_found"
      else if String.eqb k KindValidationFailed then "validation"
      else if String.eqb k KindConflict then "conflict"
      else if String.eqb k KindInternal then "internal"
      else "other"
  end.

(** ** Facts *)

Lemma is_not_found_mapErr e : is_no_rows e = true → is_not_found (mapErr e) = true.
Proof. unfold mapErr. by intros ->. Qed.

(** The text of an internal error never reaches a client that did not ask
    for the error's message: the body of the response to any error that
    is not an application error is fixed. *)
Lemma WriteError_opaque e1 e2 :
  As e1 = None → As e2 = None → WriteError (Some e1) = WriteError (Some e2).
Proof. intros H1 H2. unfold WriteError, HTTPStatus. by rewrite H1, H2. Qed.

Lemma HTTPStatus_client_or_server e : (400 <= HTTPStatus (Some e) <= 599)%Z.
Proof.
  unfold HTTPStatus, kind_status. destruct (As e) as [ae|]; [|lia].
  repeat case_match; lia.
Qed.

Lemma HTTPStatus_New k m c : HTTPStatus (Some (New k m c)) = kind_status (Some (AppError k m None c)).
Proof. done. Qed.
