(* ===== verification/GoTime.v ===== *)
(** * Times

    A [time.Time] is its instant: nanoseconds since the Unix epoch.  The
    file models the formatting of an instant in UTC as RFC 3339 (the JSON
    encoding of a time, and [Format(time.RFC3339Nano)]) and [time.Parse]
    with the layouts RFC3339 and RFC3339Nano, which accept the same texts. *)

From Stdlib Require Import Ascii.
From stdpp Require Import base strings list.
From S2P Require Import Prelude GoStrings.

Open Scope Z_scope.

Definition nanosecond : Z := 1.
Definition microsecond : Z := 1000.
Definition millisecond : Z := 1000 * microsecond.
Definition second : Z := 1000 * millisecond.
Definition minute : Z := 60 * second.

(** timestamptz columns hold microseconds: pgx truncates what it sends. *)
Definition pg_time (t : Z) : Z := t / microsecond * microsecond.

Lemma pg_time_idem t : pg_time (pg_time t) = pg_time t.
Proof. unfold pg_time. by rewrite Z.div_mul by done. Qed.

(** ** Calendar *)
Definition civil_of_days (days : Z) : Z * Z * Z :=
  let z := days + 719468 in
  let era := z / 146097 in
  let doe := z mod 146097 in
  let yoe := (doe - doe / 1460 + doe / 36524 - doe / 146096) / 365 in
  let doy := doe - (365 * yoe + yoe / 4 - yoe / 100) in
  let mp := (5 * doy + 2) / 153 in
  let d := doy - (153 * mp + 2) / 5 + 1 in
  let m := if mp <? 10 then mp + 3 else mp - 9 in
  let y := yoe + era * 400 + (if m <=? 2 then 1 else 0) in
  (y, m, d).

Definition days_of_civil (y m d : Z) : Z :=
  let y := if m <=? 2 then y - 1 else y in
  let era := y / 400 in
  let yoe := y mod 400 in
  let doy := (153 * (if m >? 2 then m - 3 else m + 9) + 2) / 5 + d - 1 in
  let doe := yoe * 365 + yoe / 4 - yoe / 100 + doy in
  era * 146097 + doe - 719468.

Definition is_leap (y : Z) : bool :=
  (y mod 4 =? 0) && (negb (y mod 100 =? 0) || (y mod 400 =? 0)).
Definition days_in (m y : Z) : Z :=
  if m =? 2 then (if is_leap y then 29 else 28)
  else if (m =? 4) || (m =? 6) || (m =? 9) || (m =? 11) then 30 else 31.

(** ** Formatting *)
Definition digit (n : Z) : ascii := ascii_of_nat (48 + Z.to_nat (n mod 10)).

(** [pad n w]: the last [w] decimal digits of [n]. *)
Fixpoint pad_go (w : nat) (n : Z) (acc : string) : string :=
  match w with
  | O => acc
  | S w => pad_go w (n / 10) (String (digit n) acc)
  end.
Definition pad (w : nat) (n : Z) : string := pad_go w n "".

Fixpoint drop_zeros (s : string) : string :=
  match s with
  | String "0"%char r => drop_zeros r
  | _ => s
  end.
Definition frac_digits (ns : Z) : string :=
  if ns =? 0 then ""
  else "." +:+ String.rev (drop_zeros (String.rev (pad 9 ns))).

Definition format_rfc3339nano (t : Z) : string :=
  let secs := t / second in
  let ns := t mod second in
  let '(y, m, d) := civil_of_days (secs / 86400) in
  let tod := secs mod 86400 in
  pad 4 y +:+ "-" +:+ pad 2 m +:+ "-" +:+ pad 2 d +:+ "T"
  +:+ pad 2 (tod / 3600) +:+ ":" +:+ pad 2 (tod / 60 mod 60) +:+ ":" +:+ pad 2 (tod mod 60)
  +:+ frac_digits ns +:+ "Z".

(** ** Parsing *)
Definition digit_of (c : ascii) : option Z :=
  if is_digit c then Some (Z.of_nat (byte_of c) - 48) else None.

(** [getnum(s, fixed)]: one or two digits, two when [fixed]. *)
Definition getnum (fixed : bool) (s : string) : option (Z * string) :=
  match s with
  | EmptyString => None
  | String a r =>
      x ← digit_of a;
      match r with
      | String b r2 =>
          match digit_of b with
          | Some y => Some (x * 10 + y, r2)
          | None => if fixed then None else Some (x, r)
          end
      | EmptyString => if fixed then None else Some (x, r)
      end
  end.

Definition expect (c : ascii) (s : string) : option string :=
  match s with String d r => if Ascii.eqb c d then Some r else None | EmptyString => None end.

Definition year4 (s : string) : option (Z * string) :=
  '(hi, r) ← getnum true s; '(lo, r) ← getnum true r; Some (hi * 100 + lo, r).

(** The run of digits a string starts with. *)
Fixpoint digit_run (s : string) : string * string :=
  match s with
  | String c r => if is_digit c then let '(d, rest) := digit_run r in (String c d, rest)
                  else (EmptyString, s)
  | EmptyString => (EmptyString, EmptyString)
  end.

(** An optional fraction of a second, after a period or a comma; digits
    past the ninth are ignored. *)
Definition fraction (s : string) : option (Z * string) :=
  match s with
  | String p r =>
      if Ascii.eqb p "." || Ascii.eqb p "," then
        let '(ds, rest) := digit_run r in
        if str_empty ds then Some (0, s)
        else let ds9 := str_take 9 ds in
             n ← digits_val 0 ds9;
             Some (n * 10 ^ (9 - Z.of_nat (String.length ds9)), rest)
      else Some (0, s)
  | EmptyString => Some (0, s)
  end.

(** The zone: [Z] or a numeric offset, in seconds east of UTC. *)
Definition zone (s : string) : option (Z * string) :=
  match s with
  | String "Z"%char r => Some (0, r)
  | String sign r =>
      '(hh, r) ← getnum true r;
      r ← expect ":" r;
      '(mm, r) ← getnum true r;
      if (hh >? 24) || (mm >? 60) then None
      else let off := (hh * 60 + mm) * 60 in
           if Ascii.eqb sign "+" then Some (off, r)
           else if Ascii.eqb sign "-" then Some (- off, r)
           else None
  | EmptyString => None
  end.

Definition in_range (lo hi n : Z) : option () := if (lo <=? n) && (n <=? hi) then Some () else None.

Definition parse_rfc3339 (s : string) : option Z :=
  '(y, r) ← year4 s;
  r ← expect "-" r;
  '(m, r) ← getnum true r; _ ← in_range 1 12 m;
  r ← expect "-" r;
  '(d, r) ← getnum true r;
  r ← expect "T" r;
  '(hh, r) ← getnum false r; _ ← in_range 0 23 hh;
  r ← expect ":" r;
  '(mi, r) ← getnum true r; _ ← in_range 0 59 mi;
  r ← expect ":" r;
  '(ss, r) ← getnum true r; _ ← in_range 0 59 ss;
  '(ns, r) ← fraction r;
  '(off, r) ← zone r;
  _ ← in_range 1 (days_in m y) d;
  if str_empty r then
    Some ((days_of_civil y m d * 86400 + hh * 3600 + mi * 60 + ss - off) * second + ns)
  else None.

Example format_epoch : format_rfc3339nano 0 = "1970-01-01T00:00:00Z".
Proof. reflexivity. Qed.
Example format_frac :
  format_rfc3339nano 1767323045123450000 = "2026-01-02T03:04:05.12345Z".
Proof. reflexivity. Qed.
Example parse_offset :
  parse_rfc3339 "2026-01-02T03:04:05.12345+03:00" = Some 1767312245123450000.
Proof. reflexivity. Qed.
Example parse_lenient :
  parse_rfc3339 "2026-02-29T03:04:05Z" = None ∧
  is_Some (parse_rfc3339 "2024-02-29T3:04:05,5Z").
Proof. split; [reflexivity|]. by eexists. Qed.

Close Scope Z_scope.
