(* ===== verification/Sha256.v ===== *)
(** * SHA-256

    crypto/sha256.Sum256 (FIPS 180-4), on 32-bit words as [Z] with the
    wrap-around written out. *)

From Stdlib Require Import Ascii.
From stdpp Require Import base strings list.
From S2P Require Import Prelude GoStrings Utf8.

Local Open Scope Z_scope.

Definition w32 (x : Z) : Z := Z.land x 0xffffffff.
Definition add32 (x y : Z) : Z := w32 (x + y).
Definition rotr (n x : Z) : Z := Z.lor (Z.shiftr x n) (w32 (Z.shiftl x (32 - n))).
Definition not32 (x : Z) : Z := Z.lxor x 0xffffffff.

Definition Ch (x y z : Z) : Z := Z.lxor (Z.land x y) (Z.land (not32 x) z).
Definition Maj (x y z : Z) : Z := Z.lxor (Z.lxor (Z.land x y) (Z.land x z)) (Z.land y z).
Definition Sigma0 (x : Z) : Z := Z.lxor (Z.lxor (rotr 2 x) (rotr 13 x)) (rotr 22 x).
Definition Sigma1 (x : Z) : Z := Z.lxor (Z.lxor (rotr 6 x) (rotr 11 x)) (rotr 25 x).
Definition sigma0 (x : Z) : Z := Z.lxor (Z.lxor (rotr 7 x) (rotr 18 x)) (Z.shiftr x 3).
Definition sigma1 (x : Z) : Z := Z.lxor (Z.lxor (rotr 17 x) (rotr 19 x)) (Z.shiftr x 10).

(** The constants of the standard: the first 32 bits of the fractional
    parts of the cube roots of the first 64 primes, and of the square roots
    of the first 8. *)
Definition is_prime (n : nat) : bool :=
  (2 <=? n)%nat && forallb (λ d, negb (n mod d =? 0)%nat) (seq 2 (n - 2)).
Definition primes : list Z := Z.of_nat <$> List.filter is_prime (seq 0 312).

(** The largest [r + k] with [k < 2^bits] whose cube is at most [n]. *)
Fixpoint cube_root_from (bits : nat) (r n : Z) : Z :=
  match bits with
  | O => r
  | S b =>
      let r' := r + Z.shiftl 1 (Z.of_nat b) in
      cube_root_from b (if r' * r' * r' <=? n then r' else r) n
  end.

Definition round_constants : list Z :=
  Eval vm_compute in (λ p, w32 (cube_root_from 36 0 (Z.shiftl p 96))) <$> primes.
Definition initial_state : list Z :=
  Eval vm_compute in (λ p, w32 (Z.sqrt (Z.shiftl p 64))) <$> take 8 primes.

(** The padding of a message of bytes, to a multiple of 64. *)
Definition big_endian (n : nat) (x : Z) : list Z :=
  map (λ i, Z.land (Z.shiftr x (8 * Z.of_nat (n - 1 - i))) 255) (seq 0 n).
Definition pad (msg : list Z) : list Z :=
  let len := Z.of_nat (length msg) in
  let zeros := Z.to_nat ((55 - len) mod 64) in
  msg ++ [128] ++ replicate zeros 0 ++ big_endian 8 (8 * len).

Fixpoint words (bs : list Z) : list Z :=
  match bs with
  | a :: b :: c :: d :: r =>
      Z.lor (Z.shiftl a 24) (Z.lor (Z.shiftl b 16) (Z.lor (Z.shiftl c 8) d)) :: words r
  | _ => []
  end.

(** The message schedule: [win] holds the last sixteen words, oldest first. *)
Fixpoint expand (n : nat) (win : list Z) : list Z :=
  match n with
  | O => []
  | S n =>
      match win with
      | w0 :: rest =>
          let w := add32 (add32 (sigma1 (nth 13 rest 0)) (nth 8 rest 0)) (add32 (sigma0 (nth 0 rest 0)) w0) in
          w0 :: expand n (rest ++ [w])
      | [] => []
      end
  end.

Definition round (st : list Z) (kw : Z * Z) : list Z :=
  match st with
  | [a; b; c; d; e; f; g; h] =>
      let t1 := add32 (add32 (add32 h (Sigma1 e)) (add32 (Ch e f g) kw.1)) kw.2 in
      let t2 := add32 (Sigma0 a) (Maj a b c) in
      [add32 t1 t2; a; b; c; add32 d t1; e; f; g]
  | _ => st
  end.

Definition compress (st : list Z) (block : list Z) : list Z :=
  zip_with add32 st (foldl round st (zip round_constants (expand 64 block))).

Fixpoint blocks (n : nat) (ws : list Z) (st : list Z) : list Z :=
  match n with
  | O => st
  | S n => blocks n (drop 16 ws) (compress st (take 16 ws))
  end.

Fixpoint bytes_of (s : string) : list Z :=
  match s with EmptyString => [] | String c r => byte_z c :: bytes_of r end.

(** The 32 bytes of the digest. *)
Definition Sum256 (s : string) : list Z :=
  let p := pad (bytes_of s) in
  concat (big_endian 4 <$> blocks (length p / 64)%nat (words p) initial_state).

(** [hex.EncodeToString(sum[:])] *)
Definition sha256_hex (s : string) : string := hex_encode (Z.to_nat <$> Sum256 s).

Example sha256_empty :
  sha256_hex "" = "e3b0c44298fc1c149afbf4c8996fb92427ae41e4649b934ca495991b7852b855".
Proof. vm_compute. reflexivity. Qed.
Example sha256_abc :
  sha256_hex "abc" = "ba7816bf8f01cfea414140de5dae2223b00361a396177a9cb410ff61f20015ad".
Proof. vm_compute. reflexivity. Qed.
Example sha256_two_blocks :
  sha256_hex "abcdbcdecdefdefgefghfghighijhijkijkljklmklmnlmnomnopnopq"
  = "248d6a61d20638b8e5c026930c3e6039a33ce45964ff2167f6ecedd419db06c1".
Proof. vm_compute. reflexivity. Qed.

(** ** Facts *)
Lemma length_big_endian n x : length (big_endian n x) = n.
Proof. unfold big_endian. by rewrite length_map, length_seq. Qed.

Lemma length_round st kw : length (round st kw) = length st.
Proof. by destruct st as [|? [|? [|? [|? [|? [|? [|? [|? [|? ?]]]]]]]]]. Qed.

Lemma length_compress st b : length (compress st b) = length st.
Proof.
  unfold compress. rewrite length_zip_with.
  assert (∀ l s, length (foldl round s l) = length s) as ->; [|lia].
  intros l. induction l as [|kw l IH]; intros s; simpl; [done|]. by rewrite IH, length_round.
Qed.

Lemma length_blocks n ws st : length (blocks n ws st) = length st.
Proof. revert ws st. induction n as [|n IH]; intros ws st; [done|]. simpl. by rewrite IH, length_compress. Qed.

Lemma length_Sum256 s : length (Sum256 s) = 32%nat.
Proof.
  unfold Sum256. generalize (pad (bytes_of s)). intros p.
  assert (∀ l, length (concat (big_endian 4 <$> l)) = (4 * length l)%nat) as Hl.
  { intros l. induction l as [|x l IH]; [done|].
    change (length (big_endian 4 x ++ concat (big_endian 4 <$> l)) = 4 * length (x :: l))%nat.
    rewrite length_app, IH, length_big_endian. simpl. lia. }
  by rewrite Hl, length_blocks.
Qed.

(** The digest as text: 64 hexadecimal digits. *)
Lemma length_sha256_hex s : String.length (sha256_hex s) = 64%nat.
Proof. unfold sha256_hex. by rewrite hex_encode_length, length_fmap, length_Sum256. Qed.
