(* ===== verification/Domain.v ===== *)
(** * Domain

    internal/domain: the entities, and the request and response records of
    internal/dto that are not the projection of one entity. *)

From stdpp Require Import base strings list.
From S2P Require Import Prelude.

(** domain.ID: the text of a UUID. *)
Notation ID := string (only parsing).
(** time.Time: nanoseconds since the epoch. *)
Notation Time := Z (only parsing).

Definition ChatTypeDirect : string := "direct".
Definition ChatTypeGroup : string := "group".

Definition ChatMemberRoleOwner : string := "owner".
Definition ChatMemberRoleAdmin : string := "admin".
Definition ChatMemberRoleMember : string := "member".

Definition MessageTypeText : string := "text".
Definition MessageTypeImage : string := "image".
Definition MessageTypeFile : string := "file".
Definition MessageTypeSystem : string := "system".

Record Chat := mkChat {
  chat_ID : ID;
  chat_Type : string;
  chat_Title : option string;
  chat_AvatarURL : option string;
  chat_CreatedBy : option ID;
  chat_CreatedAt : Time;
  chat_UpdatedAt : Time;
  chat_LastMessageID : option ID;
  chat_LastMessageAt : option Time;
  chat_IsDeleted : bool;
  chat_DirectKey : option string
}.

Record ChatMember := mkChatMember {
  cm_ChatID : ID;
  cm_UserID : ID;
  cm_Role : string;
  cm_JoinedAt : Time;
  cm_LastReadMessageID : option ID;
  cm_LastReadAt : option Time;
  cm_IsMuted : bool;
  cm_IsArchived : bool;
  cm_IsPinned : bool
}.

Record Message := mkMessage {
  msg_ID : ID;
  msg_ChatID : ID;
  msg_SenderID : ID;
  msg_Type : string;
  msg_Text : option string;
  msg_ReplyToID : option ID;
  msg_CreatedAt : Time;
  msg_UpdatedAt : Time;
  msg_DeletedAt : option Time
}.

Record RefreshSession := mkSession {
  sess_ID : ID;
  sess_UserID : ID;
  sess_TokenHash : string;
  sess_UserAgent : option string;
  sess_IPAddress : option string;
  sess_ExpiresAt : Time;
  sess_CreatedAt : Time;
  sess_RevokedAt : option Time
}.

Record User := mkUser {
  user_ID : ID;
  user_Email : string;
  user_PasswordHash : string;
  user_Nickname : string;
  user_FirstName : option string;
  user_LastName : option string;
  user_AvatarURL : option string;
  user_CreatedAt : Time;
  user_UpdatedAt : Time;
  user_LastSeenAt : option Time;
  user_IsActive : bool
}.

(** domain/realtime.go *)
Definition EventMessageCreated : string := "message.created".
Definition EventMessageUpdated : string := "message.updated".
Definition EventMessageDeleted : string := "message.deleted".
Definition EventMessageReadReceipt : string := "message.read_receipt".
Definition AggregateTypeMessage : string := "message".
Definition AggregateTypeReadState : string := "read_state".
