(* ===== verification/JsonStruct.v ===== *)
(** * Decoding into structs

    [json.Unmarshal] of a value into a struct: the members whose name is a
    field's name up to case folding set that field, in order; a null leaves
    a string as it is; a value of the wrong type is remembered as an error
    and decoding goes on.  A [json.RawMessage] field keeps the value's
    tree. *)

From Stdlib Require Import Ascii.
From stdpp Require Import base strings list.
From S2P Require Import Prelude GoStrings Utf8 Json GoTime Domain.

Local Open Scope Z_scope.

(** foldRune, on the runes that fold to an ASCII letter. *)
Definition fold_rune (r : Z) : Z :=
  if btw 97 122 r then r - 32 else if r =? 383 then 83 else if r =? 8490 then 75 else r.
Definition fold_name (s : string) : list Z := fold_rune <$> runes s.

(** [key] names the field [name]: exactly, or after folding. *)
Definition names_field (name key : string) : bool :=
  String.eqb key name || bool_decide (fold_name key = fold_name name).

Definition field_values (name : string) (kvs : list (string * json)) : list json :=
  snd <$> filter (λ kv, names_field name kv.1 = true) kvs.

(** The members of the value a struct is decoded from; [None]: not an
    object. *)
Definition struct_members (j : json) : option (list (string * json)) :=
  match j with JObj kvs => Some kvs | JNull => Some [] | _ => None end.

(** A field's value after decoding, and whether its values all fitted. *)
Definition string_field (name : string) (kvs : list (string * json)) : string * bool :=
  foldl (λ acc j, match j with JStr s => (s, acc.2) | JNull => acc | _ => (acc.1, false) end)
        ("", true) (field_values name kvs).

Definition opt_string_field (name : string) (kvs : list (string * json)) : option string * bool :=
  foldl (λ acc j, match j with JStr s => (Some s, acc.2) | JNull => (None, acc.2) | _ => (acc.1, false) end)
        (None, true) (field_values name kvs).

Definition raw_field (name : string) (kvs : list (string * json)) : option json :=
  foldl (λ _ j, Some j) None (field_values name kvs).

(** An int: the integers of 64 bits. *)
Definition int_field (name : string) (kvs : list (string * json)) : Z * bool :=
  foldl (λ acc j, match j with
                  | JNum n => if in_int64 n then (n, acc.2) else (acc.1, false)
                  | JNull => acc
                  | _ => (acc.1, false)
                  end) (0, true) (field_values name kvs).

(** [[]string]: a null element leaves the element empty. *)
Definition string_elem (j : json) : string * bool :=
  match j with JStr s => (s, true) | JNull => ("", true) | _ => ("", false) end.
Definition strings_field (name : string) (kvs : list (string * json)) : list string * bool :=
  foldl (λ acc j, match j with
                  | JArr l => ((string_elem <$> l).*1, acc.2 && forallb snd (string_elem <$> l))
                  | JNull => ([], acc.2)
                  | _ => (acc.1, false)
                  end) ([], true) (field_values name kvs).

(** time.Time's UnmarshalJSON parses as [time.Parse] (its stricter checks
    of RFC 3339 are disabled). *)
Definition time_field (name : string) (kvs : list (string * json)) : Time * bool :=
  foldl (λ acc j, match j with
                  | JStr s => match parse_rfc3339 s with Some t => (t, acc.2) | None => (acc.1, false) end
                  | JNull => acc
                  | _ => (acc.1, false)
                  end) (0, true) (field_values name kvs).

(** time.Time's MarshalJSON fails on years outside 0 to 9999. *)
Definition time_year (t : Time) : Z := (civil_of_days (t / second / 86400)).1.1.
Definition marshal_time (t : Time) : option json :=
  if btw 0 9999 (time_year t) then Some (JStr (format_rfc3339nano t)) else None.

Example fold_kelvin : names_field "key" (encode_runes [8490; 101; 89]) = true.
Proof. vm_compute. reflexivity. Qed.
Example string_field_last :
  string_field "text" [("Text", JStr "a"); ("TEXT", JStr "b"); ("text", JNull)] = ("b", true).
Proof. vm_compute. reflexivity. Qed.
