(* ===== verification/TimeRoundtrip.v ===== *)
(** * The round trip of times

    Parsing the RFC 3339 text of an instant gives the instant back, for the
    years 0 to 9999: the calendar is checked day by day over one era of 400
    years ([era_checked]) and repeats. *)

From Stdlib Require Import Ascii.
From stdpp Require Import base strings list.
From S2P Require Import Prelude GoStrings Json GoTime Domain JsonStruct JsonRoundtrip.

Local Open Scope Z_scope.

(** ** The calendar *)
Definition day_ok (z : Z) : bool :=
  let '(y, m, d) := civil_of_days z in
  (1 <=? m) && (m <=? 12) && (1 <=? d) && (d <=? days_in m y) && (days_of_civil y m d =? z).

Fixpoint days_ok (n : nat) (z : Z) : bool :=
  match n with O => true | S n => day_ok z && days_ok n (z + 1) end.

Lemma era_checked : days_ok (Z.to_nat 146097) (- 719468) = true.
Proof. vm_compute. reflexivity. Qed.

Lemma days_ok_day n z k : days_ok n z = true → z <= k < z + Z.of_nat n → day_ok k = true.
Proof.
  revert z. induction n as [|n IH]; intros z H Hk; [lia|]. cbn [days_ok] in H.
  apply andb_true_iff in H as [H1 H2]. destruct (decide (k = z)) as [->|]; [done|].
  apply (IH (z + 1)); [done|]. lia.
Qed.

Lemma civil_era z k :
  civil_of_days (z + 146097 * k) = let '(y, m, d) := civil_of_days z in (y + 400 * k, m, d).
Proof.
  unfold civil_of_days.
  replace (z + 146097 * k + 719468) with (z + 719468 + k * 146097) by lia.
  rewrite Z.mod_add, Z.div_add by done. f_equal. f_equal. lia.
Qed.

Lemma is_leap_era y k : is_leap (y + 400 * k) = is_leap y.
Proof.
  unfold is_leap. replace (y + 400 * k) with (y + (100 * k) * 4) at 1 by lia. rewrite Z.mod_add by done.
  replace (y + 400 * k) with (y + (4 * k) * 100) at 1 by lia. rewrite Z.mod_add by done.
  replace (y + 400 * k) with (y + k * 400) by lia. by rewrite Z.mod_add.
Qed.

Lemma days_of_civil_era y m d k : days_of_civil (y + 400 * k) m d = days_of_civil y m d + 146097 * k.
Proof.
  unfold days_of_civil. replace (if m <=? 2 then y + 400 * k - 1 else y + 400 * k)
    with ((if m <=? 2 then y - 1 else y) + k * 400) by (destruct (m <=? 2); lia).
  rewrite Z.mod_add, Z.div_add by done. lia.
Qed.

Lemma day_ok_era z k : day_ok z = true → day_ok (z + 146097 * k) = true.
Proof.
  unfold day_ok. rewrite civil_era. destruct (civil_of_days z) as [[y m] d].
  rewrite days_of_civil_era. unfold days_in. rewrite is_leap_era.
  rewrite !andb_true_iff, !Z.eqb_eq. intuition lia.
Qed.

Lemma civil_ok z : day_ok z = true.
Proof.
  pose proof (Z.div_mod (z + 719468) 146097 ltac:(done)) as Hz.
  pose proof (Z.mod_pos_bound (z + 719468) 146097 ltac:(done)) as Hr.
  replace z with ((z + 719468) mod 146097 - 719468 + 146097 * ((z + 719468) / 146097)) by lia.
  apply day_ok_era. eapply days_ok_day; [apply era_checked|]. rewrite Z2Nat.id by done. lia.
Qed.

(** ** Fields of fixed width *)
Lemma digit_range n : 0 ≤ n → digit_of (digit n) = Some (n mod 10).
Proof.
  intros Hn. unfold digit. pose proof (Z.mod_pos_bound n 10 ltac:(done)) as H.
  assert (n mod 10 = 0 ∨ n mod 10 = 1 ∨ n mod 10 = 2 ∨ n mod 10 = 3 ∨ n mod 10 = 4 ∨
          n mod 10 = 5 ∨ n mod 10 = 6 ∨ n mod 10 = 7 ∨ n mod 10 = 8 ∨ n mod 10 = 9) as Hd by lia.
  by repeat destruct Hd as [Hd|Hd]; rewrite Hd.
Qed.

Lemma pad2 n : pad 2 n = String (digit (n / 10)) (String (digit n) "").
Proof. reflexivity. Qed.
Lemma pad4 n : pad 4 n = pad 2 (n / 100) +:+ pad 2 n.
Proof. unfold pad. cbn [pad_go]. rewrite !Z.div_div by done. reflexivity. Qed.

Lemma getnum_pad b n r : 0 ≤ n < 100 → getnum b (pad 2 n +:+ r) = Some (n, r).
Proof.
  intros Hn. rewrite pad2, !str_app_cons. unfold getnum.
  rewrite !digit_range by (try apply Z.div_pos; lia).
  cbn [mbind option_bind]. rewrite str_app_nil_l. f_equal. f_equal.
  pose proof (Z.div_mod n 10 ltac:(done)). rewrite (Z.mod_small (n / 10)); [lia|].
  split; [apply Z.div_pos; lia|]. apply Z.div_lt_upper_bound; lia.
Qed.

Lemma mod_100_digits n : (n mod 100) / 10 mod 10 = n / 10 mod 10 ∧ n mod 100 mod 10 = n mod 10.
Proof. split; Z.div_mod_to_equations; lia. Qed.
Lemma pad2_mod n : pad 2 n = pad 2 (n mod 100).
Proof.
  destruct (mod_100_digits n) as [H1 H2]. rewrite !pad2. unfold digit. by rewrite H1, H2.
Qed.

Lemma year4_pad y r : 0 <= y <= 9999 → year4 (pad 4 y +:+ r) = Some (y, r).
Proof.
  intros Hy. rewrite pad4, (pad2_mod y). unfold year4. rewrite <- str_app_assoc.
  pose proof (Z.mod_pos_bound y 100 ltac:(done)). pose proof (Z.div_mod y 100 ltac:(done)).
  rewrite getnum_pad by (split; [apply Z.div_pos; lia|apply Z.div_lt_upper_bound; lia]).
  cbn [mbind option_bind]. rewrite getnum_pad by lia. simpl. f_equal. f_equal. lia.
Qed.

(** ** The fraction of a second *)
Lemma digit_is_digit n : is_digit (digit n) = true ∧ Z.of_nat (byte_of (digit n)) - 48 = n mod 10.
Proof.
  unfold digit. pose proof (Z.mod_pos_bound n 10 ltac:(done)) as H.
  assert (n mod 10 = 0 ∨ n mod 10 = 1 ∨ n mod 10 = 2 ∨ n mod 10 = 3 ∨ n mod 10 = 4 ∨
          n mod 10 = 5 ∨ n mod 10 = 6 ∨ n mod 10 = 7 ∨ n mod 10 = 8 ∨ n mod 10 = 9) as Hd by lia.
  by repeat destruct Hd as [Hd|Hd]; rewrite Hd.
Qed.

Lemma pad_go_val w n acc a :
  digits_val a (pad_go w n acc) = digits_val (a * 10 ^ Z.of_nat w + n mod 10 ^ Z.of_nat w) acc.
Proof.
  revert n acc. induction w as [|w IH]; intros n acc.
  - simpl. rewrite Z.mod_1_r. f_equal. lia.
  - cbn [pad_go]. rewrite IH. cbn [digits_val]. destruct (digit_is_digit n) as [-> ->]. f_equal.
    rewrite Nat2Z.inj_succ, Z.pow_succ_r by lia.
    rewrite Z.rem_mul_r by (try apply Z.pow_pos_nonneg; lia). lia.
Qed.

Lemma pad_go_digits w n acc :
  str_forall is_digit acc = true →
  str_forall is_digit (pad_go w n acc) = true ∧ String.length (pad_go w n acc) = (w + String.length acc)%nat.
Proof.
  revert n acc. induction w as [|w IH]; intros n acc H; [done|]. cbn [pad_go].
  destruct (IH (n / 10) (String (digit n) acc)) as [H1 H2].
  - cbn [str_forall]. by rewrite (proj1 (digit_is_digit n)), H.
  - split; [done|]. rewrite H2. cbn [String.length]. lia.
Qed.

Definition is_zero_digit (c : ascii) : bool := Ascii.eqb c "0".

Lemma drop_zeros_split s : ∃ z, s = z +:+ drop_zeros s ∧ str_forall is_zero_digit z = true.
Proof.
  induction s as [|c s (z & Hz & Hall)]; [by exists ""|].
  destruct (decide (c = "0"%char)) as [->|Hc].
  - exists (String "0" z). rewrite str_app_cons. cbn [drop_zeros]. rewrite <- Hz. done.
  - exists "". rewrite str_app_nil_l. split; [|done].
    destruct c as [[] [] [] [] [] [] [] []]; done.
Qed.

Lemma digits_val_zeros z a :
  str_forall is_zero_digit z = true → digits_val a z = Some (a * 10 ^ Z.of_nat (String.length z)).
Proof.
  revert a. induction z as [|c z IH]; intros a; cbn [str_forall].
  - intros _. simpl. f_equal. lia.
  - intros [->%Ascii.eqb_eq Hz]%andb_true_iff. cbn [digits_val].
    change (is_digit "0") with true. cbv iota. rewrite IH by done. f_equal.
    change (Z.of_nat (byte_of "0") - 48) with 0. cbn [String.length].
    rewrite Nat2Z.inj_succ, Z.pow_succ_r by lia. lia.
Qed.

Lemma digits_val_app s t a :
  digits_val a (s +:+ t) = v ← digits_val a s; digits_val v t.
Proof.
  revert a. induction s as [|c s IH]; intros a; [done|]. rewrite str_app_cons. cbn [digits_val].
  destruct (is_digit c); [apply IH|done].
Qed.

Lemma digit_run_app s r :
  str_forall is_digit s = true → digit_run (s +:+ String "Z" r) = (s, String "Z" r).
Proof.
  induction s as [|c s IH]; cbn [str_forall]; [done|]. intros [Hc Hs]%andb_true_iff.
  rewrite str_app_cons. cbn [digit_run]. by rewrite Hc, IH.
Qed.

Lemma str_take_all n s : (String.length s ≤ n)%nat → str_take n s = s.
Proof.
  revert n. induction s as [|c s IH]; intros [|n]; cbn [String.length str_take]; intros H; [done..|lia|].
  rewrite IH; [done|lia].
Qed.

Lemma fraction_digits ns r :
  0 <= ns < second → fraction (frac_digits ns +:+ String "Z" r) = Some (ns, String "Z" r).
Proof.
  intros Hns. unfold frac_digits. destruct (ns =? 0) eqn:E; [apply Z.eqb_eq in E; by subst|].
  destruct (drop_zeros_split (String.rev (pad 9 ns))) as (z & Hz & Hz0).
  set (ds := String.rev (drop_zeros (String.rev (pad 9 ns)))) in *.
  assert (pad 9 ns = ds +:+ String.rev z) as Hpad
    by (rewrite <- (str_rev_involutive (pad 9 ns)), Hz, str_rev_app; done).
  destruct (pad_go_digits 9 ns "" eq_refl) as [Hd Hl].
  pose proof (pad_go_val 9 ns "" 0) as Hv. change (10 ^ Z.of_nat 9) with second in Hv.
  rewrite Z.mod_small in Hv by done. fold (pad 9 ns) in Hd, Hl, Hv. rewrite Hpad in Hd, Hl, Hv.
  rewrite str_length_app, str_rev_length in Hl. rewrite str_forall_app in Hd.
  apply andb_true_iff in Hd as [Hd _]. rewrite digits_val_app in Hv.
  destruct (digits_val 0 ds) as [v|] eqn:Hval; [|done]. cbn [mbind option_bind] in Hv.
  rewrite digits_val_zeros in Hv by (by rewrite str_forall_rev). rewrite str_rev_length in Hv.
  apply Some_inj in Hv. unfold fraction.
  rewrite <- str_app_assoc, !str_app_cons, !str_app_nil_l. cbn [Ascii.eqb orb].
  rewrite digit_run_app by done. destruct (String.eqb ds "") eqn:Eds.
  { apply String.eqb_eq in Eds. rewrite Eds in Hval. injection Hval as <-. apply Z.eqb_neq in E. lia. }
  change (String.length "") with 0%nat in Hl.
  assert (str_take 9 ds = ds) as -> by (apply str_take_all; lia).
  rewrite Hval. cbn [mbind option_bind].
  replace (9 - _) with (Z.of_nat (String.length z)) by lia. by rewrite Z.mul_0_l, Z.add_0_l in Hv; rewrite Hv.
Qed.

(** ** The round trip *)
Lemma civil_fields z y m d :
  civil_of_days z = (y, m, d) → 1 <= m <= 12 ∧ 1 <= d <= days_in m y ∧ days_of_civil y m d = z.
Proof.
  intros H. pose proof (civil_ok z) as Hz. unfold day_ok in Hz. rewrite H in Hz.
  rewrite !andb_true_iff, Z.eqb_eq in Hz. lia.
Qed.

Lemma days_in_bound m y : days_in m y <= 31.
Proof. unfold days_in. repeat case_match; lia. Qed.

Lemma in_range_ok lo hi n : lo <= n <= hi → in_range lo hi n = Some ().
Proof. intros H. unfold in_range. by rewrite !(proj2 (Z.leb_le _ _)) by lia. Qed.

Lemma clock_fields t :
  let tod := t / second mod 86400 in
  0 <= tod / 3600 <= 23 ∧ 0 <= tod / 60 mod 60 <= 59 ∧ 0 <= tod mod 60 <= 59 ∧
  tod / 3600 * 3600 + tod / 60 mod 60 * 60 + tod mod 60 = tod.
Proof.
  intros tod. assert (0 <= tod < 86400) as Ht by (by apply Z.mod_pos_bound). clearbody tod.
  Z.div_mod_to_equations. lia.
Qed.

Lemma instant_fields t :
  t / second / 86400 * 86400 + t / second mod 86400 = t / second ∧ t / second * second + t mod second = t.
Proof.
  pose proof (Z.div_mod t second ltac:(done)). pose proof (Z.div_mod (t / second) 86400 ltac:(done)). lia.
Qed.

Lemma expect_eq c r : expect c (String c r) = Some r.
Proof. unfold expect. by rewrite Ascii.eqb_refl. Qed.

Lemma parse_format_rfc3339 t :
  0 <= time_year t <= 9999 → parse_rfc3339 (format_rfc3339nano t) = Some t.
Proof.
  unfold time_year, format_rfc3339nano.
  destruct (civil_of_days (t / second / 86400)) as [[y m] d] eqn:Hc. cbn [fst]. intros Hy.
  apply civil_fields in Hc as (Hm & Hd & Hdays). pose proof (days_in_bound m y).
  destruct (clock_fields t) as (Hh & Hmi & Hs & Hclock). destruct (instant_fields t) as [Hi1 Hi2].
  pose proof (Z.mod_pos_bound t second ltac:(done)) as Hns.
  unfold parse_rfc3339. repeat rewrite ?str_app_cons, ?str_app_nil_l.
  rewrite year4_pad by done. cbn [mbind option_bind]. rewrite expect_eq. cbn [mbind option_bind].
  rewrite getnum_pad by lia. cbn [mbind option_bind]. rewrite in_range_ok by done. cbn [mbind option_bind].
  rewrite expect_eq. cbn [mbind option_bind].
  rewrite getnum_pad by lia. cbn [mbind option_bind]. rewrite expect_eq. cbn [mbind option_bind].
  rewrite getnum_pad by lia. cbn [mbind option_bind]. rewrite in_range_ok by done. cbn [mbind option_bind].
  rewrite expect_eq. cbn [mbind option_bind].
  rewrite getnum_pad by lia. cbn [mbind option_bind]. rewrite in_range_ok by done. cbn [mbind option_bind].
  rewrite expect_eq. cbn [mbind option_bind].
  rewrite getnum_pad by lia. cbn [mbind option_bind]. rewrite in_range_ok by done. cbn [mbind option_bind].
  rewrite fraction_digits by done. cbn [mbind option_bind zone]. rewrite in_range_ok by done.
  cbn [mbind option_bind]. rewrite Hdays. change (str_empty "") with true. cbv iota.
  f_equal. rewrite <- Hi2 at 6. f_equal. f_equal. revert Hi1 Hclock. generalize (t / second). clear. lia.
Qed.
