(* ===== verification/JsonRaw.v ===== *)
(** * Raw JSON

    json.RawMessage: the text of a member, kept as it was received, and
    the compaction of such a text when it is marshalled again. *)

From Stdlib Require Import Ascii.
From stdpp Require Import base strings list.
From S2P Require Import Prelude GoStrings Utf8 Json JsonCodec JsonStruct.

Local Open Scope Z_scope.

(** ** Decoding *)

(** The text of the value that comes next, and what follows it. *)
Definition raw_value (s : string) : option (string * string) :=
  let s := skip_ws s in
  '(_, rest) ← read_value (S (2 * String.length s))%nat s;
  Some (str_take (String.length s - String.length rest)%nat s, rest).

(** The members of an object after its opening brace. *)
Fixpoint raw_members (fuel : nat) (s : string) : option (list (string * string)) :=
  match fuel with
  | O => None
  | S fuel =>
      match skip_ws s with
      | String c r =>
          if Ascii.eqb c "}" then Some []
          else if negb (Ascii.eqb c quote) then None else
          '(k, rest) ← read_string r;
          match skip_ws rest with
          | String ":"%char rest =>
              '(v, rest) ← raw_value rest;
              match skip_ws rest with
              | String ","%char rest => kvs ← raw_members fuel rest; Some ((k, v) :: kvs)
              | String "}"%char _ => Some [(k, v)]
              | _ => None
              end
          | _ => None
          end
      | EmptyString => None
      end
  end.

(** The members of the document a struct is decoded from, with their
    texts; [None] is a syntax error, the boolean says whether the document
    is an object or null. *)
Definition raw_struct (s : string) : option (list (string * string) * bool) :=
  match json_read s with
  | None => None
  | Some (JObj _) =>
      match skip_ws s with
      | String _ r => kvs ← raw_members (S (String.length r)) r; Some (kvs, true)
      | EmptyString => None
      end
  | Some JNull => Some ([], true)
  | Some _ => Some ([], false)
  end.

(** The last member that names the field. *)
Definition raw_text_field (name : string) (kvs : list (string * string)) : option string :=
  foldl (λ acc kv, if names_field name kv.1 then Some kv.2 else acc) None kvs.

(** The members as values: their texts are well formed. *)
Definition members_of_raw (kvs : list (string * string)) : list (string * json) :=
  omap (λ kv, (λ j, (kv.1, j)) <$> json_read kv.2) kvs.

(** ** Compaction *)

(** White space outside strings is dropped; the bytes of HTML and the
    separators U+2028 and U+2029 are escaped. *)
Fixpoint compact_go (skip : nat) (in_str esc : bool) (s : string) : string :=
  match s with
  | EmptyString => EmptyString
  | String c r =>
      match skip with
      | S k => compact_go k in_str esc r
      | O =>
          let n := byte_z c in
          if (n =? 60) || (n =? 62) || (n =? 38) then u_escape n +:+ compact_go 0 in_str false r
          else if HasPrefix s (encode_runes [8232]) then u_escape 8232 +:+ compact_go 2 in_str false r
          else if HasPrefix s (encode_runes [8233]) then u_escape 8233 +:+ compact_go 2 in_str false r
          else if in_str then
            String c (if esc then compact_go 0 true false r
                      else compact_go 0 (negb (Ascii.eqb c quote)) (Ascii.eqb c backslash) r)
          else if is_ws c then compact_go 0 false false r
          else String c (compact_go 0 (Ascii.eqb c quote) false r)
      end
  end.
Definition compact (s : string) : string := compact_go 0 false false s.

Definition q (s : string) : string := String quote (s +:+ String quote "").
Example compact_example :
  compact (" {" +:+ q "a <b" +:+ " : [ 1.50 , " +:+ q (String backslash (String quote " c")) +:+ "] } ")
  = "{" +:+ q (String "a" (String " " (u_escape 60 +:+ "b"))) +:+ ":[1.50,"
    +:+ q (String backslash (String quote " c")) +:+ "]}".
Proof. vm_compute. reflexivity. Qed.
Example raw_struct_example :
  raw_struct (" {" +:+ q "meta" +:+ " : {" +:+ q "k" +:+ " : 1.50} , " +:+ q "Event" +:+ ":" +:+ q "ping" +:+ "} ")
  = Some ([("meta", "{" +:+ q "k" +:+ " : 1.50}"); ("Event", q "ping")], true).
Proof. vm_compute. reflexivity. Qed.
