(* ===== verification/WsEvents.v ===== *)
(** * WebSocket envelopes

    transport/ws/events.go, and observability/metrics/ws_labels.go: the
    frames of both directions and the metric labels of their events. *)

From Stdlib Require Import Ascii.
From stdpp Require Import base strings list.
From S2P Require Import Prelude GoStrings Utf8 Json JsonCodec JsonStruct JsonRaw Errors Domain.

Local Open Scope Z_scope.

Definition EventPing : string := "ping".
Definition EventPong : string := "pong".
Definition EventMessageSend : string := "message.send".
Definition EventMessageRead : string := "message.read".
Definition EventTypingStart : string := "typing.start".
Definition EventTypingStop : string := "typing.stop".
Definition EventTypingStarted : string := "typing.started".
Definition EventTypingStopped : string := "typing.stopped".
Definition EventError : string := "error".

(** A value of type [any] the program marshals: nil, a map or a decoded
    value (keys sorted), or a json.RawMessage. *)
Inductive any : Type :=
| ANil
| AValue (j : json)
| ARaw (text : string).

Definition marshal_any (a : any) : string :=
  match a with
  | ANil => "{}"
  | AValue j => json_write j
  | ARaw text => compact text
  end.

(** The two marshalled texts go into the envelope as RawMessages; they are
    compact already. *)
Definition MarshalEnvelope (event : string) (data meta : any) : string :=
  "{" +:+ write_string "event" +:+ ":" +:+ write_string event
  +:+ "," +:+ write_string "data" +:+ ":" +:+ marshal_any data
  +:+ "," +:+ write_string "meta" +:+ ":" +:+ marshal_any meta +:+ "}".

(** ** Labels *)
Definition wsEventAllowlist : list string :=
  [EventPing; EventPong; EventMessageSend; EventMessageRead; EventTypingStart; EventTypingStop;
   EventTypingStarted; EventTypingStopped; EventError; EventMessageCreated; EventMessageUpdated;
   EventMessageDeleted; EventMessageReadReceipt].

(** unicode.ToLower on the runes it takes to ASCII; the other runes stay
    outside ASCII, which is all the allowlist depends on. *)
Definition lower_rune (r : Z) : Z :=
  if btw 65 90 r then r + 32 else if r =? 304 then 105 else if r =? 8490 then 107 else r.
Definition ToLower (s : string) : string := encode_runes (lower_rune <$> runes s).

Definition SanitizeWSEvent (event : string) : string :=
  let e := TrimSpace (ToLower event) in
  if str_empty e then "other"
  else if existsb (String.eqb e) wsEventAllowlist then e else "other".

Definition EnvelopeEventName (payload : string) : string :=
  match json_read payload with
  | None => "other"
  | Some j =>
      match struct_members j with
      | None => "other"
      | Some kvs =>
          let '(event, ok) := string_field "event" kvs in
          if negb ok || str_empty event then "other" else SanitizeWSEvent event
      end
  end.

(** The labels are few: whatever clients send. *)
Lemma sanitize_allowed e : SanitizeWSEvent e ∈ "other" :: wsEventAllowlist.
Proof.
  unfold SanitizeWSEvent. destruct (str_empty _); [left|].
  destruct (existsb _ _) eqn:E; [right|left]. apply existsb_exists in E as (x & Hx & ->%String.eqb_eq).
  by apply list_elem_of_In.
Qed.

Lemma event_name_allowed p : EnvelopeEventName p ∈ "other" :: wsEventAllowlist.
Proof.
  unfold EnvelopeEventName. destruct (json_read p) as [j|]; [|left].
  destruct (struct_members j); [|left]. destruct (string_field _ _) as [e b].
  destruct (_ || _); [left|apply sanitize_allowed].
Qed.

(** An envelope whose data and meta are values is the encoding of one
    object. *)
Lemma MarshalEnvelope_write event j m :
  MarshalEnvelope event (AValue j) (AValue m)
  = json_write (JObj [("event", JStr event); ("data", j); ("meta", m)]).
Proof.
  unfold MarshalEnvelope. cbn [marshal_any json_write map]. unfold join, String.concat.
  by rewrite <- !str_app_assoc.
Qed.
