(* ===== verification/Hub.v ===== *)
(** * WebSocket hub

    transport/ws/hub.go and the outgoing queue of transport/ws/client.go.
    A [*Client] is a pointer: clients live in a heap indexed by it, and the
    hub maps a user to the set of pointers of that user's connections. *)

From stdpp Require Import base strings gmap sets.
From S2P Require Import Prelude Domain.

(** The capacity of [Client.send]. *)
Definition send_cap : nat := 256.

Record Client := mkClient {
  c_userID : ID;
  c_send : list string;
  c_wire : list string;      (* the frames written to the connection *)
  c_closed : bool
}.

Record Hub := mkHub {
  h_clients : gmap ID (gset nat);
  h_heap : gmap nat Client;
  h_active : Z
}.

Definition NewHub : Hub := mkHub ∅ ∅ 0.

(** [newClient]: a fresh connection with an empty queue. *)
Definition newClient (p : nat) (uid : ID) (h : Hub) : Hub :=
  mkHub (h_clients h) (<[p := mkClient uid [] [] false]> (h_heap h)) (h_active h).

Definition user_set (uid : ID) (h : Hub) : gset nat := default ∅ (h_clients h !! uid).

Definition Register (p : nat) (h : Hub) : Hub :=
  match h_heap h !! p with
  | None => h
  | Some c =>
      mkHub (<[c_userID c := {[p]} ∪ user_set (c_userID c) h]> (h_clients h))
            (h_heap h) (h_active h + 1)
  end.

Definition Unregister (p : nat) (h : Hub) : Hub :=
  match h_heap h !! p with
  | None => h
  | Some c =>
      match h_clients h !! c_userID c with
      | None => h
      | Some set =>
          let set' := set ∖ {[p]} in
          mkHub (if decide (set' = ∅) then delete (c_userID c) (h_clients h)
                 else <[c_userID c := set']> (h_clients h))
                (h_heap h) (h_active h - 1)
      end
  end.

(** The non-blocking [select]: the payload is queued, or dropped when the
    queue is full. *)
Definition enqueue (payload : string) (c : Client) : Client :=
  if (length (c_send c) <? send_cap)%nat
  then mkClient (c_userID c) (c_send c ++ [payload]) (c_wire c) (c_closed c) else c.

Definition SendToUser (uid : ID) (payload : string) (h : Hub) : Hub :=
  mkHub (h_clients h)
        (set_fold (λ p heap, alter (enqueue payload) p heap) (h_heap h) (user_set uid h))
        (h_active h).

Definition close_client (c : Client) : Client := mkClient (c_userID c) (c_send c) (c_wire c) true.

(** Every registered connection is closed; the hub's map is left as it is
    (each connection's read loop unregisters itself). *)
Definition CloseAll (h : Hub) : Hub :=
  mkHub (h_clients h)
        (map_fold (λ _ set heap, set_fold (λ p heap, alter close_client p heap) heap set)
                  (h_heap h) (h_clients h))
        (h_active h).

(** [writeDirect]: a frame written past the queue. *)
Definition write_wire (payload : string) (c : Client) : Client :=
  mkClient (c_userID c) (c_send c) (c_wire c ++ [payload]) (c_closed c).

(** One iteration of the write loop: the oldest queued frame is written. *)
Definition write_next (c : Client) : Client :=
  match c_send c with
  | f :: q => mkClient (c_userID c) q (c_wire c ++ [f]) (c_closed c)
  | [] => c
  end.

Definition on_client (f : Client → Client) (p : nat) (h : Hub) : Hub :=
  mkHub (h_clients h) (alter f p (h_heap h)) (h_active h).
