(* ===== verification/HubTheorems.v ===== *)
(** * What the hub promises

    The hub's map holds exactly the open connections, by user; the gauge
    counts them; queues are bounded; a payload sent to a user is queued
    once on each of that user's connections and on no other. *)

From stdpp Require Import base strings gmap sets list.
From S2P Require Import Prelude Domain Hub.

Local Open Scope Z_scope.

Definition registered (p : nat) (h : Hub) : Prop :=
  ∃ c, h_heap h !! p = Some c ∧ p ∈ user_set (c_userID c) h.
#[export] Instance registered_dec p h : Decision (registered p h).
Proof.
  destruct (h_heap h !! p) as [c|] eqn:E.
  - destruct (decide (p ∈ user_set (c_userID c) h)) as [H|H]; [left; by exists c|right].
    intros (c' & Hc & Hp). congruence.
  - right. intros (c & Hc & _). congruence.
Defined.

(** The number of registered connections. *)
Definition connections (h : Hub) : Z := map_fold (λ _ s n, Z.of_nat (size s) + n) 0 (h_clients h).

Record hub_ok (h : Hub) : Prop := mkHubOk {
  ho_users : ∀ uid s p, h_clients h !! uid = Some s → p ∈ s →
               ∃ c, h_heap h !! p = Some c ∧ c_userID c = uid;
  ho_nonempty : ∀ uid s, h_clients h !! uid = Some s → s ≠ ∅;
  ho_gauge : h_active h = connections h;
  ho_queues : ∀ p c, h_heap h !! p = Some c → (length (c_send c) ≤ send_cap)%nat
}.

(** ** Updates of the heap *)
Lemma fold_alter_lookup (f : Client → Client) (s : gset nat) (heap : gmap nat Client) p :
  set_fold (λ p heap, alter f p heap) heap s !! p = if decide (p ∈ s) then f <$> heap !! p else heap !! p.
Proof.
  cut ((p ∈ s → set_fold (λ p heap, alter f p heap) heap s !! p = f <$> heap !! p)
       ∧ (p ∉ s → set_fold (λ p heap, alter f p heap) heap s !! p = heap !! p)).
  { intros [H1 H2]. case_decide; auto. }
  apply (set_fold_ind_L (λ heap' s, (p ∈ s → heap' !! p = f <$> heap !! p) ∧ (p ∉ s → heap' !! p = heap !! p))).
  - set_solver.
  - intros x s' heap' Hx [IH1 IH2]. destruct (decide (p = x)) as [->|Hp].
    + rewrite lookup_alter_eq. split; [|set_solver]. intros _. by rewrite IH2.
    + rewrite lookup_alter_ne by done. set_solver.
Qed.

(** [keeps_ids heap heap']: the same connections, of the same users. *)
Definition keeps_ids (heap heap' : gmap nat Client) : Prop :=
  ∀ p, c_userID <$> heap' !! p = c_userID <$> heap !! p.

Lemma enqueue_user payload c : c_userID (enqueue payload c) = c_userID c.
Proof. unfold enqueue. by destruct (_ <? _)%nat. Qed.
Lemma enqueue_bound payload c :
  (length (c_send c) ≤ send_cap)%nat → (length (c_send (enqueue payload c)) ≤ send_cap)%nat.
Proof.
  unfold enqueue. destruct (Nat.ltb_spec (length (c_send c)) send_cap); [|done].
  intros _. simpl. rewrite length_app. simpl. lia.
Qed.

Lemma hub_ok_heap h heap' :
  hub_ok h → keeps_ids (h_heap h) heap' →
  (∀ p c, heap' !! p = Some c → (length (c_send c) ≤ send_cap)%nat) →
  hub_ok (mkHub (h_clients h) heap' (h_active h)).
Proof.
  intros [Hu Hn Hg Hq] Hk Hb. split; simpl; [|done..].
  intros uid s p Hs Hp. destruct (Hu uid s p Hs Hp) as (c & Hc & <-).
  specialize (Hk p). rewrite Hc in Hk. apply fmap_Some in Hk as (c' & ? & ?). eauto.
Qed.

Lemma SendToUser_lookup uid payload h p :
  h_heap (SendToUser uid payload h) !! p
  = if decide (p ∈ user_set uid h) then enqueue payload <$> h_heap h !! p else h_heap h !! p.
Proof. apply fold_alter_lookup. Qed.

Lemma SendToUser_ok uid payload h : hub_ok h → hub_ok (SendToUser uid payload h).
Proof.
  intros Hok. apply hub_ok_heap; [done|..].
  - intros p. pose proof (SendToUser_lookup uid payload h p) as H. simpl in H. rewrite H. case_decide; [|done].
    destruct (h_heap h !! p); simpl; by rewrite ?enqueue_user.
  - intros p c. pose proof (SendToUser_lookup uid payload h p) as H. simpl in H. rewrite H.
    case_decide; [|apply (ho_queues _ Hok)]. intros (c0 & Hc0 & ->)%fmap_Some.
    apply enqueue_bound. by apply (ho_queues _ Hok p).
Qed.

Lemma on_client_ok f p h :
  hub_ok h → (∀ c, c_userID (f c) = c_userID c) →
  (∀ c, (length (c_send c) ≤ send_cap)%nat → (length (c_send (f c)) ≤ send_cap)%nat) →
  hub_ok (on_client f p h).
Proof.
  intros Hok Hu Hb. apply hub_ok_heap; [done|..].
  - intros p'. destruct (decide (p = p')) as [->|Hp].
    + rewrite lookup_alter_eq. destruct (h_heap h !! p'); simpl; by rewrite ?Hu.
    + by rewrite lookup_alter_ne.
  - intros p' c. rewrite lookup_alter. case_decide; [|apply (ho_queues _ Hok)].
    intros (c0 & Hc0 & ->)%fmap_Some. apply Hb. by eapply (ho_queues _ Hok).
Qed.

(** ** The gauge *)
Lemma connections_insert (m : gmap ID (gset nat)) uid s :
  m !! uid = None →
  map_fold (λ _ s n, Z.of_nat (size s) + n) 0 (<[uid := s]> m)
  = Z.of_nat (size s) + map_fold (λ _ s n, Z.of_nat (size s) + n) 0 m.
Proof. intros Hm. rewrite map_fold_insert_L; [done| |done]. intros. lia. Qed.

Lemma connections_update (m : gmap ID (gset nat)) uid :
  map_fold (λ _ s n, Z.of_nat (size s) + n) 0 m
  = Z.of_nat (size (default ∅ (m !! uid))) + map_fold (λ _ s n, Z.of_nat (size s) + n) 0 (delete uid m).
Proof.
  destruct (m !! uid) as [s|] eqn:E; simpl.
  - rewrite <- (insert_delete_id m uid s E) at 1. by rewrite connections_insert by apply lookup_delete_eq.
  - rewrite delete_id by done. done.
Qed.

(** ** Registration *)
Lemma Register_fresh_ok p uid h :
  hub_ok h → h_heap h !! p = None → hub_ok (Register p (newClient p uid h)).
Proof.
  intros [Hu Hn Hg Hq] Hp. unfold Register, newClient. simpl. rewrite lookup_insert_eq. simpl.
  assert (p ∉ user_set uid h) as Hnot.
  { unfold user_set. destruct (h_clients h !! uid) as [s|] eqn:E; simpl; [|set_solver].
    intros Hin. destruct (Hu uid s p E Hin) as (c & Hc & _). congruence. }
  assert (∀ heap n, user_set uid (mkHub (h_clients h) heap n) = user_set uid h) as -> by done.
  split; simpl.
  - intros u s q Hs Hqs. destruct (decide (q = p)) as [->|Hqp].
    + rewrite lookup_insert_eq. eexists. split; [done|]. simpl.
      destruct (decide (u = uid)) as [->|Hne]; [done|]. rewrite lookup_insert_ne in Hs by done.
      destruct (Hu u s p Hs Hqs) as (c & Hc & _). congruence.
    + rewrite lookup_insert_ne by done. destruct (decide (u = uid)) as [->|Hne].
      * rewrite lookup_insert_eq in Hs. injection Hs as <-. unfold user_set in Hqs.
        destruct (h_clients h !! uid) as [s0|] eqn:E; simpl in Hqs; [|set_solver].
        apply (Hu uid s0 q E). set_solver.
      * rewrite lookup_insert_ne in Hs by done. by apply (Hu u s q).
  - intros u s Hs. destruct (decide (u = uid)) as [->|Hne].
    + rewrite lookup_insert_eq in Hs. injection Hs as <-. set_solver.
    + rewrite lookup_insert_ne in Hs by done. by apply (Hn u s).
  - unfold connections in *. simpl. rewrite (connections_update _ uid), lookup_insert_eq, delete_insert_eq. simpl.
    rewrite Hg, (connections_update (h_clients h) uid). fold (user_set uid h).
    rewrite size_union by set_solver. rewrite size_singleton. lia.
  - intros q c Hc. destruct (decide (q = p)) as [->|Hqp].
    + rewrite lookup_insert_eq in Hc. injection Hc as <-. simpl. unfold send_cap. lia.
    + rewrite lookup_insert_ne in Hc by done. by apply (Hq q).
Qed.

Lemma Unregister_ok p h : hub_ok h → registered p h → hub_ok (Unregister p h).
Proof.
  intros [Hu Hn Hg Hq] (c & Hc & Hp). unfold Unregister. rewrite Hc. unfold user_set in Hp.
  destruct (h_clients h !! c_userID c) as [s|] eqn:Es; simpl in Hp; [|set_solver].
  split; simpl.
  - intros u s' q Hs' Hq'. case_decide as He.
    + apply lookup_delete_Some in Hs' as [_ Hs']. by apply (Hu u s' q).
    + destruct (decide (u = c_userID c)) as [->|Hne].
      * rewrite lookup_insert_eq in Hs'. injection Hs' as <-. apply (Hu _ s q Es). set_solver.
      * rewrite lookup_insert_ne in Hs' by done. by apply (Hu u s' q).
  - intros u s' Hs'. case_decide as He.
    + apply lookup_delete_Some in Hs' as [_ Hs']. by apply (Hn u s').
    + destruct (decide (u = c_userID c)) as [->|Hne].
      * rewrite lookup_insert_eq in Hs'. by injection Hs' as <-.
      * rewrite lookup_insert_ne in Hs' by done. by apply (Hn u s').
  - unfold connections in *. simpl.
    assert (size s = S (size (s ∖ {[p]}))) as Hsize.
    { rewrite size_difference by set_solver. rewrite size_singleton.
      assert (size s ≠ 0)%nat by (intros H0%size_empty_inv; set_solver). lia. }
    rewrite Hg, (connections_update (h_clients h) (c_userID c)), Es. cbn [default]. case_decide as He.
    + rewrite He, size_empty in Hsize. simpl. lia.
    + rewrite (connections_update (<[_ := _]> _) (c_userID c)), lookup_insert_eq, delete_insert_eq.
      simpl. lia.
  - done.
Qed.

(** Closing a connection keeps its queue. *)
Lemma close_all_lookup (m : gmap ID (gset nat)) (heap : gmap nat Client) (p : nat) :
  let heap' := map_fold (λ _ set heap, set_fold (λ p heap, alter close_client p heap) heap set) heap m in
  c_userID <$> heap' !! p = c_userID <$> heap !! p ∧ c_send <$> heap' !! p = c_send <$> heap !! p.
Proof.
  simpl. apply (map_fold_weak_ind (λ heap' _,
    c_userID <$> heap' !! p = c_userID <$> heap !! p ∧ c_send <$> heap' !! p = c_send <$> heap !! p)); [done|].
  intros uid s m' heap' _ [H1 H2]. rewrite fold_alter_lookup. case_decide; [|done].
  rewrite <- H1, <- H2. by destruct (heap' !! p).
Qed.
Lemma CloseAll_ok h : hub_ok h → hub_ok (CloseAll h).
Proof.
  intros Hok. apply hub_ok_heap; [done|..].
  - intros p. apply close_all_lookup.
  - intros p c Hc. pose proof (close_all_lookup (h_clients h) (h_heap h) p) as [_ H].
    simpl in H. rewrite Hc in H. symmetry in H. apply fmap_Some in H as (c0 & Hc0 & Hs). rewrite Hs.
    by apply (ho_queues _ Hok p).
Qed.

(** ** Reachable hubs

    What happens to the hub while the server runs: a connection is
    registered when it opens and unregistered when its read loop ends;
    frames are queued by sends to users and by replies, and written; the
    shutdown closes the connections.  [open] is the set of connections
    whose read loop is running, with their users. *)
Inductive hub_step : gmap nat ID * Hub → gmap nat ID * Hub → Prop :=
| step_open p uid open h :
    h_heap h !! p = None → hub_step (open, h) (<[p := uid]> open, Register p (newClient p uid h))
| step_end p uid open h :
    open !! p = Some uid → hub_step (open, h) (delete p open, Unregister p h)
| step_send uid payload open h : hub_step (open, h) (open, SendToUser uid payload h)
| step_reply p payload open h : hub_step (open, h) (open, on_client (enqueue payload) p h)
| step_direct p payload open h : hub_step (open, h) (open, on_client (write_wire payload) p h)
| step_write p open h : hub_step (open, h) (open, on_client write_next p h)
| step_close open h : hub_step (open, h) (open, CloseAll h).

Definition reachable (s : gmap nat ID * Hub) : Prop := rtc hub_step (∅, NewHub) s.

Record hub_inv (s : gmap nat ID * Hub) : Prop := mkHubInv {
  hi_ok : hub_ok s.2;
  hi_users : ∀ p uid, p ∈ user_set uid s.2 ↔ s.1 !! p = Some uid;
  hi_heap : ∀ p uid, s.1 !! p = Some uid → is_Some (h_heap s.2 !! p);
  hi_count : h_active s.2 = Z.of_nat (size s.1)
}.

Lemma user_set_Register p c uid h :
  h_heap h !! p = Some c →
  user_set uid (Register p h) = if decide (uid = c_userID c) then {[p]} ∪ user_set uid h else user_set uid h.
Proof.
  intros Hc. unfold Register. rewrite Hc. unfold user_set. simpl. case_decide as Hu.
  - by rewrite Hu, lookup_insert_eq.
  - by rewrite lookup_insert_ne.
Qed.

Lemma user_set_Unregister p c uid h :
  h_heap h !! p = Some c →
  user_set uid (Unregister p h) = if decide (uid = c_userID c) then user_set uid h ∖ {[p]} else user_set uid h.
Proof.
  intros Hc. unfold Unregister. rewrite Hc. unfold user_set. case_decide as Hu.
  - rewrite Hu. destruct (h_clients h !! c_userID c) as [s|] eqn:E.
    + simpl. case_decide as He; [by rewrite lookup_delete_eq, He|by rewrite lookup_insert_eq].
    + rewrite E. simpl. set_solver.
  - destruct (h_clients h !! c_userID c) as [s|] eqn:E; [|done]. simpl. case_decide as He.
    + by rewrite lookup_delete_ne.
    + by rewrite lookup_insert_ne.
Qed.

Lemma hub_inv_heap open h heap' :
  hub_inv (open, h) → hub_ok (mkHub (h_clients h) heap' (h_active h)) →
  (∀ p, is_Some (h_heap h !! p) → is_Some (heap' !! p)) →
  hub_inv (open, mkHub (h_clients h) heap' (h_active h)).
Proof. intros [H1 H2 H3 H4] Hok Hh. split; simpl; [done|exact H2| |done]. intros p uid Hp. eauto. Qed.

Lemma hub_inv_client f open h p :
  hub_inv (open, h) → (∀ c, c_userID (f c) = c_userID c) →
  (∀ c, (length (c_send c) ≤ send_cap)%nat → (length (c_send (f c)) ≤ send_cap)%nat) →
  hub_inv (open, on_client f p h).
Proof.
  intros Hi Hu Hb. apply hub_inv_heap; [done|apply on_client_ok; [apply (hi_ok _ Hi)|done..]|].
  intros q [c Hc]. rewrite lookup_alter. case_decide as Hq; [rewrite Hq|]; rewrite Hc; by eexists.
Qed.

Lemma hub_step_inv s s' : hub_step s s' → hub_inv s → hub_inv s'.
Proof.
  intros [p uid open h Hp|p uid open h Hp|uid payload open h|p payload open h|p payload open h|p open h|open h] Hi;
    pose proof Hi as [Hok Hu Hh Hc]; simpl in *.
  - assert (open !! p = None) as Hopen.
    { destruct (open !! p) as [u|] eqn:E; [|done]. destruct (Hh p u E). congruence. }
    split; simpl.
    + by apply Register_fresh_ok.
    + intros q u. rewrite (user_set_Register p (mkClient uid [] [] false)) by (simpl; apply lookup_insert_eq). simpl.
      destruct (decide (q = p)) as [->|Hq].
      * rewrite lookup_insert_eq. case_decide as Hd; [set_solver|]. change (user_set u (newClient p uid h)) with (user_set u h).
        rewrite Hu, Hopen. naive_solver.
      * rewrite lookup_insert_ne by done. case_decide as Hd; change (user_set u (newClient p uid h)) with (user_set u h);
          [rewrite elem_of_union, elem_of_singleton, Hu; naive_solver|apply Hu].
    + intros q u. unfold Register, newClient. simpl. rewrite lookup_insert_eq. simpl. destruct (decide (q = p)) as [->|Hq].
      * rewrite !lookup_insert_eq. eauto.
      * rewrite !lookup_insert_ne by done. eauto.
    + unfold Register, newClient. simpl. rewrite lookup_insert_eq. simpl. rewrite map_size_insert_None by done. lia.
  - destruct (Hh p uid Hp) as [c Hcl]. assert (registered p h ∧ c_userID c = uid) as [Hreg Huid].
    { assert (p ∈ user_set uid h) as Hin by (by apply Hu). unfold user_set in Hin.
      destruct (h_clients h !! uid) as [us|] eqn:Es; simpl in Hin; [|set_solver].
      destruct (ho_users _ Hok uid us p Es Hin) as (c' & Hc' & <-). assert (c' = c) as -> by congruence. split; [|done].
      exists c. split; [done|]. by apply Hu. }
    split; simpl.
    + by apply Unregister_ok.
    + intros q u. rewrite (user_set_Unregister p c) by done. destruct (decide (q = p)) as [->|Hq].
      * rewrite lookup_delete_eq. case_decide as Hd; [set_solver|]. rewrite Hu, Hp. naive_solver.
      * rewrite lookup_delete_ne by done. rewrite <- Hu. case_decide; set_solver.
    + intros q u. destruct (decide (q = p)) as [->|Hq]; [by rewrite lookup_delete_eq|].
      rewrite lookup_delete_ne by done. intros [c' Hc']%Hh. unfold Unregister. rewrite Hcl.
      destruct (h_clients h !! c_userID c); eauto.
    + unfold Unregister. rewrite Hcl. destruct Hreg as (c' & Hc' & Hin). assert (c' = c) as -> by congruence. unfold user_set in Hin.
      destruct (h_clients h !! c_userID c); simpl in Hin; [|set_solver]. simpl.
      rewrite map_size_delete_Some by eauto. assert (size open ≠ 0)%nat; [|lia].
      intros H0%map_size_empty_inv. by rewrite H0, lookup_empty in Hp.
  - apply hub_inv_heap; [done|by apply SendToUser_ok|]. intros q [c Hq].
    pose proof (SendToUser_lookup uid payload h q) as Hl. simpl in Hl. rewrite Hl, Hq. case_decide; simpl; by eexists.
  - apply hub_inv_client; [done|by intros; apply enqueue_user|by intros; apply enqueue_bound].
  - by apply hub_inv_client.
  - apply hub_inv_client; [done|..]; intros [u [|f q] wr b]; simpl; try done. lia.
  - apply hub_inv_heap; [done|by apply CloseAll_ok|]. intros q Hq.
    pose proof (close_all_lookup (h_clients h) (h_heap h) q) as [Hl _]. simpl in Hl.
    destruct (map_fold _ _ _ !! q); [eauto|]. destruct Hq as [c Hq]. by rewrite Hq in Hl.
Qed.

Lemma hub_init_inv : hub_inv (∅, NewHub).
Proof.
  split; simpl; [|set_solver| |done].
  - by split.
  - intros p uid. by rewrite lookup_empty.
Qed.

Lemma reachable_inv s : reachable s → hub_inv s.
Proof.
  intros Hr. refine (rtc_ind_r hub_inv (∅, NewHub) hub_init_inv _ _ Hr). intros s1 s2 _. by apply hub_step_inv.
Qed.

(** Whatever the clients do, the hub is consistent: its map holds
    exactly the connections whose read loop is running, under their users;
    the gauge of active connections counts them; no user is left with an
    empty set; and no queue exceeds its capacity. *)
Theorem hub_invariant open h :
  reachable (open, h) →
  (∀ p uid, p ∈ user_set uid h ↔ open !! p = Some uid) ∧
  h_active h = Z.of_nat (size open) ∧ h_active h = connections h ∧
  (∀ uid s, h_clients h !! uid = Some s → s ≠ ∅) ∧
  (∀ p c, h_heap h !! p = Some c → (length (c_send c) ≤ send_cap)%nat).
Proof.
  intros Hr. destruct (reachable_inv _ Hr) as [[_ Hn Hg Hq] Hu _ Hc]. done.
Qed.

Lemma hub_invariant_witness :
  let h := Unregister 1 (Register 2 (newClient 2 "a" (Register 1 (newClient 1 "a" NewHub)))) in
  reachable ({[2%nat := "a"]}, h) ∧ h_active h = 1.
Proof.
  intros h. assert (reachable ({[2%nat := "a"]}, h)) as Hr.
  { eapply rtc_l; [apply (step_open 1 "a"); done|].
    eapply rtc_l; [apply (step_open 2 "a"); done|].
    eapply rtc_l; [apply (step_end 1 "a"); done|].
    assert (delete 1%nat (<[2%nat:="a"]> (<[1%nat:="a"]> ∅)) = ({[2%nat := "a"]} : gmap nat ID)) as ->
      by (vm_compute; reflexivity).
    apply rtc_refl. }
  split; [exact Hr|]. destruct (hub_invariant _ _ Hr) as (_ & Hc & _). rewrite Hc. vm_compute. reflexivity.
Defined.

(** Unregistering twice counts twice: the gauge would be wrong while the
    user has another connection (the read loops unregister once). *)
Example unregister_twice :
  let h := Register 2 (newClient 2 "a" (Register 1 (newClient 1 "a" NewHub))) in
  let h' := Unregister 1 (Unregister 1 h) in
  h_active h' = 0 ∧ connections h' = 1.
Proof. vm_compute. split; reflexivity. Qed.
