(* ===== verification/Metrics.v ===== *)
(** * Metrics

    observability/metrics/metrics.go: the collectors of the process and
    their registry.  prometheus/client_golang is a parameter: [Register],
    and whether [WithLabelValues] accepts the values it is given; it panics
    on those it does not. *)

From Stdlib Require Import Ascii.
From stdpp Require Import base strings gmap sets list.
From S2P Require Import Prelude GoStrings Utf8 Errors.

Local Open Scope Z_scope.

(** ** Collectors *)
Inductive collector_kind : Type := KCounter | KGauge | KHistogram.
#[export] Instance collector_kind_eq_dec : EqDecision collector_kind.
Proof. solve_decision. Defined.

Record Collector := mkCollector {
  cl_Kind : collector_kind;
  cl_Name : string;
  cl_Help : string;
  cl_Labels : list string
}.
#[export] Instance collector_eq_dec : EqDecision Collector.
Proof. solve_decision. Defined.

Definition NewCounter (name help : string) : Collector := mkCollector KCounter name help [].
Definition NewCounterVec (name help : string) (labels : list string) : Collector :=
  mkCollector KCounter name help labels.
Definition NewHistogramVec (name help : string) (labels : list string) : Collector :=
  mkCollector KHistogram name help labels.
Definition NewGauge (name help : string) : Collector := mkCollector KGauge name help [].

(** The collectors [New] builds, by the field of [M] that holds them. *)
Definition HTTPRequests : Collector :=
  NewCounterVec "http_requests_total" "Total HTTP requests handled." ["method"; "route"; "status_class"].
Definition HTTPDuration : Collector :=
  NewHistogramVec "http_request_duration_seconds" "HTTP request duration in seconds."
    ["method"; "route"; "status_class"].
Definition HTTPInflight : Collector :=
  NewGauge "http_requests_inflight" "Number of HTTP requests currently being handled.".
Definition WSActive : Collector := NewGauge "ws_active_connections" "Number of active WebSocket connections.".
Definition WSInbound : Collector :=
  NewCounterVec "ws_events_inbound_total"
    "Inbound WebSocket JSON events by envelope event name (low-cardinality)." ["event"].
Definition WSOutbound : Collector :=
  NewCounterVec "ws_events_outbound_total"
    "Outbound WebSocket frames by envelope event name (low-cardinality)." ["event"].
Definition WSErrors : Collector :=
  NewCounterVec "ws_handler_errors_total" "WS handler errors by coarse reason." ["reason"].
Definition AuthRegister : Collector :=
  NewCounter "auth_register_attempts_total" "Auth register attempts (each HTTP request).".
Definition AuthLogin : Collector := NewCounter "auth_login_attempts_total" "Auth login attempts.".
Definition AuthRefresh : Collector := NewCounter "auth_refresh_attempts_total" "Auth refresh attempts.".
Definition AuthFailures : Collector :=
  NewCounterVec "auth_failures_total" "Auth failures by coarse reason (low-cardinality)." ["reason"].
Definition MessagesCreate : Collector := NewCounter "messages_created_total" "Messages successfully created.".
Definition MessagesUpdate : Collector := NewCounter "messages_updated_total" "Messages successfully updated.".
Definition MessagesDelete : Collector := NewCounter "messages_deleted_total" "Messages successfully soft-deleted.".
Definition MessagesReadRc : Collector :=
  NewCounter "messages_read_receipts_total" "Read receipt updates successfully applied.".
Definition OutboxCreated : Collector :=
  NewCounter "outbox_events_created_total" "Outbox rows inserted with domain writes.".
Definition RelayIter : Collector := NewCounter "outbox_relay_iterations_total" "Outbox relay polling iterations.".
Definition RelayPubOK : Collector :=
  NewCounter "outbox_relay_publish_success_total" "Outbox events successfully published (Kafka or local fanout).".
Definition RelayPubFail : Collector :=
  NewCounter "outbox_relay_publish_failures_total" "Outbox publish failures (will retry on next tick).".
Definition KafkaHandled : Collector :=
  NewCounter "kafka_consumer_events_handled_total" "Kafka consumer messages processed for WS fanout.".
Definition KafkaFail : Collector :=
  NewCounter "kafka_consumer_handler_failures_total" "Kafka consumer handler failures (decode/fanout).".

Definition application_collectors : list Collector :=
  [HTTPRequests; HTTPDuration; HTTPInflight;
   WSActive; WSInbound; WSOutbound; WSErrors;
   AuthRegister; AuthLogin; AuthRefresh; AuthFailures;
   MessagesCreate; MessagesUpdate; MessagesDelete; MessagesReadRc;
   OutboxCreated; RelayIter; RelayPubOK; RelayPubFail;
   KafkaHandled; KafkaFail].

(** ** Samples

    The values by the collector's name and the label values; of a
    histogram, the number of observations. *)
Abbreviation samples := (gmap (string * list string) Z).
Definition add_sample (c : Collector) (vs : list string) (n : Z) (m : samples) : samples :=
  <[(cl_Name c, vs) := default 0 (m !! (cl_Name c, vs)) + n]> m.

(** The samples of the collectors of the HTTP middleware. *)
Definition http_collectors : list Collector := [HTTPRequests; HTTPDuration; HTTPInflight].
Definition is_http (c : Collector) : bool := existsb (String.eqb (cl_Name c)) (cl_Name <$> http_collectors).
Definition http_samples (m : samples) : samples :=
  filter (λ kv, kv.1.1 ∈ cl_Name <$> http_collectors) m.

Lemma is_http_spec c : is_http c = true ↔ cl_Name c ∈ cl_Name <$> http_collectors.
Proof.
  unfold is_http. rewrite existsb_exists. split.
  - intros (x & Hx%list_elem_of_In & He). apply String.eqb_eq in He. by rewrite He.
  - intros H. exists (cl_Name c). split; [by apply list_elem_of_In|by apply String.eqb_eq].
Qed.
Lemma http_samples_other c vs n m : is_http c = false → http_samples (add_sample c vs n m) = http_samples m.
Proof.
  intros Hc. unfold http_samples, add_sample. apply map_filter_insert_not. intros y Hy.
  apply (proj2 (is_http_spec c)) in Hy. congruence.
Qed.
Lemma http_samples_lookup c vs m : is_http c = true → http_samples m !! (cl_Name c, vs) = m !! (cl_Name c, vs).
Proof.
  intros Hc%is_http_spec. unfold http_samples. rewrite map_lookup_filter.
  destruct (m !! _); simpl; [|done]. by case_guard.
Qed.

(** ** The registry *)

(** What can be in_registry: the collectors above and those of the package
    collectors. *)
Inductive registrable : Type :=
| GoCollector
| ProcessCollector
| Application (c : Collector).
#[export] Instance registrable_eq_dec : EqDecision registrable.
Proof. solve_decision. Defined.

Class Prometheus := {
  prom_Registry : Type;
  prom_NewRegistry : prom_Registry;
  prom_Register : registrable → prom_Registry → result error prom_Registry;
  WithLabelValues : Collector → list string → result error ()
}.
Arguments prom_Registry : clear implicits.

(** The documentation of [Register]: it fails when a descriptor is invalid
    or not unique, that is when a metric of that name is in_registry; the Go
    and process collectors name theirs go_... and process_....  Of
    [WithLabelValues]: it wants one value per label, in UTF-8. *)
Definition name_ok (c : Collector) : Prop :=
  str_forall (λ c, is_lower c || Ascii.eqb c "_"%char) (cl_Name c) = true ∧ cl_Name c ≠ ""
  ∧ HasPrefix (cl_Name c) "go_" = false ∧ HasPrefix (cl_Name c) "process_" = false.

Class PrometheusLaws (P : Prometheus) := {
  in_registry : registrable → prom_Registry P → Prop;
  law_NewRegistry x : ¬ in_registry x prom_NewRegistry;
  law_Register x r r' : prom_Register x r = Ok r' → ∀ y, in_registry y r' ↔ y = x ∨ in_registry y r;
  law_Register_library x r :
    x = GoCollector ∨ x = ProcessCollector → (∀ y, in_registry y r → y = GoCollector ∨ y = ProcessCollector) →
    ¬ in_registry x r → ∃ r', prom_Register x r = Ok r';
  law_Register_application c r :
    name_ok c → NoDup (cl_Labels c) →
    (∀ c', in_registry (Application c') r → cl_Name c' ≠ cl_Name c) → ∃ r', prom_Register (Application c) r = Ok r';
  law_WithLabelValues c vs :
    is_ok (WithLabelValues c vs) = bool_decide (length vs = length (cl_Labels c)) && forallb ValidString vs
}.

Section metrics.
Context {P : Prometheus}.

(** [reg.MustRegister(cs...)]; a panic is an error here. *)
Fixpoint MustRegister (cs : list registrable) (r : prom_Registry P) : result error (prom_Registry P) :=
  match cs with
  | [] => Ok r
  | c :: cs => match prom_Register c r with Ok r' => MustRegister cs r' | Err e => Err e end
  end.

Record Metrics := mkM { m_reg : prom_Registry P }.
Definition New : result error Metrics :=
  match MustRegister [GoCollector; ProcessCollector] prom_NewRegistry with
  | Err e => Err e
  | Ok reg =>
      match MustRegister (Application <$> application_collectors) reg with
      | Ok reg => Ok (mkM reg)
      | Err e => Err e
      end
  end.
(** [Registry] of a metrics that may be nil. *)
Definition M_Registry (m : option Metrics) : option (prom_Registry P) := m_reg <$> m.
End metrics.
Arguments Metrics : clear implicits.

(** ** New registers every collector *)
Section laws.
Context {P : Prometheus} {PL : PrometheusLaws P}.

Lemma MustRegister_application cs r :
  Forall (λ c, name_ok c ∧ NoDup (cl_Labels c)) cs → NoDup (cl_Name <$> cs) →
  (∀ c, in_registry (Application c) r → cl_Name c ∉ cl_Name <$> cs) →
  ∃ r', MustRegister (Application <$> cs) r = Ok r'
        ∧ ∀ x, in_registry x r' ↔ in_registry x r ∨ x ∈ Application <$> cs.
Proof.
  revert r. induction cs as [|c cs IH]; intros r Hok Hnd Hr; simpl.
  { exists r. split; [done|]. intros x. rewrite elem_of_nil. tauto. }
  apply Forall_cons in Hok as [[Hn Hl] Hok]. apply NoDup_cons in Hnd as [Hc Hnd].
  destruct (law_Register_application c r Hn Hl) as [r1 H1].
  { intros c' Hc' He. apply (Hr c' Hc'). rewrite He. left. }
  rewrite H1. pose proof (law_Register _ _ _ H1) as Hr1. destruct (IH r1 Hok Hnd) as (r' & H' & Hr').
  { intros c' [[= ->]|Hc']%Hr1; [done|]. intros Hin. apply (Hr c' Hc'). by right. }
  exists r'. split; [done|]. intros x. rewrite Hr', Hr1, elem_of_cons. tauto.
Qed.

(** [New] does not panic, and its registry holds the Go and process
    collectors and those of the application. *)
Lemma New_registers :
  ∃ m, New = Ok m ∧ ∀ x, in_registry x (m_reg m)
         ↔ x = GoCollector ∨ x = ProcessCollector ∨ x ∈ Application <$> application_collectors.
Proof.
  unfold New, MustRegister at 1.
  destruct (law_Register_library GoCollector prom_NewRegistry) as [r1 H1];
    [by left|by intros y Hy%law_NewRegistry|apply law_NewRegistry|].
  rewrite H1. pose proof (law_Register _ _ _ H1) as Hr1.
  destruct (law_Register_library ProcessCollector r1) as [r2 H2]; [by right| | |].
  { intros y [->|Hy%law_NewRegistry]%Hr1; [by left|done]. }
  { intros [?|Hy%law_NewRegistry]%Hr1; done. }
  rewrite H2. pose proof (law_Register _ _ _ H2) as Hr2.
  destruct (MustRegister_application application_collectors r2) as (r3 & H3 & Hr3).
  - repeat (constructor; [split; [done|by apply (bool_decide_unpack _); vm_compute]|]). constructor.
  - apply (bool_decide_unpack _). vm_compute. done.
  - intros c [?|[?|Hy%law_NewRegistry]%Hr1]%Hr2; done.
  - rewrite H3. eexists. split; [done|]. intros x. simpl. rewrite Hr3, Hr2, Hr1.
    pose proof (law_NewRegistry x). tauto.
Qed.
End laws.
