(* ===== verification/World.v ===== *)
(** * The world the program runs in

    The PostgreSQL tables (internal/migration), the Redis keys, the Kafka
    topic, the process state (metrics, hub) and the clock, and the monad of
    computations over them.  Every call to the database goes through [call]
    or, inside a transaction, [tx_call]; the schedule [w_sched] says, for
    each call, how much time has passed, what other processes have done to
    the tables since the last call, and whether the call fails.  With an
    empty schedule calls succeed and nobody interferes. *)

From stdpp Require Import base strings gmap sets list.
From S2P Require Import Prelude GoStrings Utf8 Uuid Json Errors GoTime Domain Hub Metrics.

(** ** Tables *)

(** repository.OutboxEnqueue; [Payload] nil is [None]. *)
Record OutboxEnqueue := mkEnqueue {
  oe_EventID : ID;
  oe_EventType : string;
  oe_AggregateType : string;
  oe_AggregateID : string;
  oe_ChatID : option ID;
  oe_OccurredAt : Time;
  oe_Version : Z;
  oe_Payload : option json
}.

(** A row of outbox_events. *)
Record OutboxRec := mkOutboxRec {
  ob_id : Z;
  ob_event_id : ID;
  ob_event_type : string;
  ob_aggregate_type : string;
  ob_aggregate_id : string;
  ob_chat_id : option ID;
  ob_occurred_at : Time;
  ob_version : Z;
  ob_payload : json;
  ob_published_at : option Time;
  ob_created_at : Time
}.

Record DB := mkDB {
  db_users : gmap ID User;
  db_chats : gmap ID Chat;
  db_members : gmap (ID * ID) ChatMember;
  db_messages : gmap ID Message;
  db_sessions : gmap ID RefreshSession;
  db_outbox : gmap Z OutboxRec;
  db_outbox_seq : Z   (* the bigserial sequence: never rolled back *)
}.

Definition emptyDB : DB := mkDB ∅ ∅ ∅ ∅ ∅ ∅ 0.

Definition set_users (x : gmap ID User) (d : DB) : DB :=
  mkDB x (db_chats d) (db_members d) (db_messages d) (db_sessions d) (db_outbox d) (db_outbox_seq d).
Definition set_chats (x : gmap ID Chat) (d : DB) : DB :=
  mkDB (db_users d) x (db_members d) (db_messages d) (db_sessions d) (db_outbox d) (db_outbox_seq d).
Definition set_members (x : gmap (ID * ID) ChatMember) (d : DB) : DB :=
  mkDB (db_users d) (db_chats d) x (db_messages d) (db_sessions d) (db_outbox d) (db_outbox_seq d).
Definition set_messages (x : gmap ID Message) (d : DB) : DB :=
  mkDB (db_users d) (db_chats d) (db_members d) x (db_sessions d) (db_outbox d) (db_outbox_seq d).
Definition set_sessions (x : gmap ID RefreshSession) (d : DB) : DB :=
  mkDB (db_users d) (db_chats d) (db_members d) (db_messages d) x (db_outbox d) (db_outbox_seq d).
Definition set_outbox (x : gmap Z OutboxRec) (d : DB) : DB :=
  mkDB (db_users d) (db_chats d) (db_members d) (db_messages d) (db_sessions d) x (db_outbox_seq d).
Definition set_outbox_seq (x : Z) (d : DB) : DB :=
  mkDB (db_users d) (db_chats d) (db_members d) (db_messages d) (db_sessions d) (db_outbox d) x.

(** Two databases are equivalent when their tables agree; the sequence
    behind outbox_events.id is not a table. *)
#[export] Instance db_equiv : Equiv DB := λ d1 d2, set_outbox_seq 0 d1 = set_outbox_seq 0 d2.

#[export] Instance db_equivalence : Equivalence (≡@{DB}).
Proof. split; unfold equiv, db_equiv; repeat intro; congruence. Qed.

Lemma db_equiv_seq n d : set_outbox_seq n d ≡ d.
Proof. done. Qed.

#[export] Instance db_users_proper : Proper ((≡) ==> (=)) db_users.
Proof. intros d1 d2 H. by apply (f_equal db_users) in H. Qed.
#[export] Instance db_chats_proper : Proper ((≡) ==> (=)) db_chats.
Proof. intros d1 d2 H. by apply (f_equal db_chats) in H. Qed.
#[export] Instance db_members_proper : Proper ((≡) ==> (=)) db_members.
Proof. intros d1 d2 H. by apply (f_equal db_members) in H. Qed.
#[export] Instance db_messages_proper : Proper ((≡) ==> (=)) db_messages.
Proof. intros d1 d2 H. by apply (f_equal db_messages) in H. Qed.
#[export] Instance db_sessions_proper : Proper ((≡) ==> (=)) db_sessions.
Proof. intros d1 d2 H. by apply (f_equal db_sessions) in H. Qed.
#[export] Instance db_outbox_proper : Proper ((≡) ==> (=)) db_outbox.
Proof. intros d1 d2 H. by apply (f_equal db_outbox) in H. Qed.

(** ** Schedule *)

(** A call may fail without effect, or take effect and fail to report it. *)
Inductive fault : Type :=
| NoFault
| FailBefore (msg : string)
| FailAfter (msg : string).

(** [ev_drawn]: a number the transaction may have drawn from the sequence
    of outbox_events before other sessions drew, and committed, later ones
    (see [transaction]). *)
Record event := mkEvent {
  ev_dt : N;
  ev_step : DB → DB;
  ev_fault : fault;
  ev_drawn : option Z
}.
Definition idle : event := mkEvent 0 id NoFault None.

(** ** World *)
Record World := mkWorld {
  w_db : DB;
  w_now : Time;
  w_sched : list event;
  w_ids : nat;                             (* UUIDs generated so far *)
  w_rand : nat;                            (* random blocks drawn so far *)
  w_metrics : samples;
  w_redis : gmap string (string * Time);   (* value and expiry *)
  w_kafka : list (string * string);        (* the topic: key and value *)
  w_pubsub : list (string * string);       (* published, not yet received: channel and payload *)
  w_hub : Hub
}.

Definition set_db (x : DB) (w : World) : World :=
  mkWorld x (w_now w) (w_sched w) (w_ids w) (w_rand w) (w_metrics w) (w_redis w) (w_kafka w) (w_pubsub w) (w_hub w).
Definition set_metrics (x : samples) (w : World) : World :=
  mkWorld (w_db w) (w_now w) (w_sched w) (w_ids w) (w_rand w) x (w_redis w) (w_kafka w) (w_pubsub w) (w_hub w).
Definition set_redis (x : gmap string (string * Time)) (w : World) : World :=
  mkWorld (w_db w) (w_now w) (w_sched w) (w_ids w) (w_rand w) (w_metrics w) x (w_kafka w) (w_pubsub w) (w_hub w).
Definition set_kafka (x : list (string * string)) (w : World) : World :=
  mkWorld (w_db w) (w_now w) (w_sched w) (w_ids w) (w_rand w) (w_metrics w) (w_redis w) x (w_pubsub w) (w_hub w).
Definition set_pubsub (x : list (string * string)) (w : World) : World :=
  mkWorld (w_db w) (w_now w) (w_sched w) (w_ids w) (w_rand w) (w_metrics w) (w_redis w) (w_kafka w) x (w_hub w).
Definition set_hub (x : Hub) (w : World) : World :=
  mkWorld (w_db w) (w_now w) (w_sched w) (w_ids w) (w_rand w) (w_metrics w) (w_redis w) (w_kafka w) (w_pubsub w) x.
Definition bump_ids (w : World) : World :=
  mkWorld (w_db w) (w_now w) (w_sched w) (S (w_ids w)) (w_rand w) (w_metrics w) (w_redis w) (w_kafka w) (w_pubsub w) (w_hub w).
Definition bump_rand (w : World) : World :=
  mkWorld (w_db w) (w_now w) (w_sched w) (w_ids w) (S (w_rand w)) (w_metrics w) (w_redis w) (w_kafka w) (w_pubsub w) (w_hub w).
Definition advance (dt : N) (w : World) : World :=
  mkWorld (w_db w) (w_now w + Z.of_N dt) (w_sched w) (w_ids w) (w_rand w) (w_metrics w) (w_redis w) (w_kafka w) (w_pubsub w) (w_hub w).
Definition set_sched (x : list event) (w : World) : World :=
  mkWorld (w_db w) (w_now w) x (w_ids w) (w_rand w) (w_metrics w) (w_redis w) (w_kafka w) (w_pubsub w) (w_hub w).

Abbreviation M := (eff World error).

(** Identifier generators: PostgreSQL's [gen_random_uuid()] and
    [uuid.NewString()] print UUIDs in the canonical form. *)
Class UuidGen := gen_uuid : nat → ID.
Class UuidGenLaws (G : UuidGen) := gen_uuid_canonical : ∀ n, canonical (gen_uuid n).

(** What a statement can read besides its arguments and the tables:
    [now()], the next [gen_random_uuid()], and a number drawn earlier from
    the sequence. *)
Record stmt_ctx := mkCtx { sc_now : Time; sc_id : ID; sc_drawn : option Z }.
Abbreviation stmt A := (stmt_ctx → eff DB error A).

Definition next_event (w : World) : event * World :=
  match w_sched w with
  | [] => (idle, w)
  | e :: es => (e, set_db (ev_step e (w_db w)) (advance (ev_dt e) (set_sched es w)))
  end.

(** The event of a statement of a transaction: [now()] does not move. *)
Definition tx_event (w : World) : event * World :=
  match w_sched w with
  | [] => (idle, w)
  | e :: es => (e, set_sched es w)
  end.

Section calls.
Context {G : UuidGen}.

Definition stmt_context (e : event) (w : World) : stmt_ctx :=
  mkCtx (pg_time (w_now w)) (gen_uuid (w_ids w)) (ev_drawn e).

(** A statement is atomic: it changes the tables only when it succeeds. *)
Definition run_stmt {A} (f : stmt A) (e : event) (w : World) : result error A * World :=
  let ctx := stmt_context e w in
  let w := bump_ids w in
  match ev_fault e with
  | FailBefore m => (Err (ErrPlain m), w)
  | NoFault =>
      match f ctx (w_db w) with
      | (Ok a, d) => (Ok a, set_db d w)
      | (Err x, _) => (Err x, w)
      end
  | FailAfter m =>
      match f ctx (w_db w) with
      | (Ok a, d) => (Err (ErrPlain m), set_db d w)
      | (Err x, _) => (Err x, w)
      end
  end.

(** [pool.Query], [pool.QueryRow], [pool.Exec]. *)
Definition call {A} (f : stmt A) : M A := λ w,
  let '(e, w1) := next_event w in run_stmt f e w1.

(** [tx.Query], [tx.QueryRow], [tx.Exec]. *)
Definition tx_call {A} (f : stmt A) : M A := λ w,
  let '(e, w1) := tx_event w in run_stmt f e w1.

Definition rollback (w0 w : World) : World :=
  set_db (set_outbox_seq (db_outbox_seq (w_db w)) (w_db w0)) w.

(** [pool.Begin], the body, [tx.Commit], with the deferred
    [tx.Rollback] on every error path.

    At READ COMMITTED other sessions commit between the statements of a
    transaction.  The model runs it whole at its commit, after what the
    others committed until then ([next_event]).  For the transactions of
    this program that is the same: every row one of their statements reads
    or writes is locked by it until the commit (UPDATE, INSERT, SELECT FOR
    UPDATE; the rows a foreign key names by the check of the key), so what
    the others commit in between concerns other rows, and could have been
    committed before the first statement.  One effect of the overlap is
    left, since sequences are not transactional: the transaction draws the
    id of its outbox row before it commits, and sessions that drew larger
    ones may have committed first.  [ev_drawn] is such an earlier number;
    PgMessages says which numbers the locks admit. *)
Definition transaction {A} (body : M A) : M A := λ w,
  let '(e, w1) := next_event w in
  match ev_fault e with
  | FailBefore m | FailAfter m => (Err (ErrPlain m), w1)
  | NoFault =>
      match body w1 with
      | (Err x, w2) => (Err x, rollback w1 w2)
      | (Ok a, w2) =>
          let '(c, w3) := tx_event w2 in
          match ev_fault c with
          | NoFault => (Ok a, w3)
          | FailBefore m => (Err (ErrPlain m), rollback w1 w3)
          | FailAfter m => (Err (ErrPlain m), w3)
          end
      end
  end.

(** A request to another server (Redis, Kafka), at its time. *)
Definition remote_call {A} (f : Time → World → A * World) : M A := λ w,
  let '(e, w1) := next_event w in
  match ev_fault e with
  | FailBefore m => (Err (ErrPlain m), w1)
  | NoFault => let '(a, w2) := f (w_now w1) w1 in (Ok a, w2)
  | FailAfter m => (Err (ErrPlain m), (f (w_now w1) w1).2)
  end.

(** [uuid.NewString()] *)
Definition NewString : M ID := λ w, (Ok (gen_uuid (w_ids w)), bump_ids w).
End calls.

(** [time.Now().UTC()] *)
Definition time_now : M Time := λ w, (Ok (w_now w), w).

(** A change of the value of a collector. *)
Definition sample (c : Collector) (vs : list string) (n : Z) : M () := λ w,
  (Ok (), set_metrics (add_sample c vs n (w_metrics w)) w).
(** [c.Inc()]; [v.WithLabelValues(vs...).Inc()], which may panic. *)
Definition inc (c : Collector) : M () := sample c [] 1.
Definition inc_with {P : Prometheus} (v : Collector) (vs : list string) : M () :=
  of_result (WithLabelValues v vs);;
  sample v vs 1.

(** [if m != nil { m.X.Inc() }] *)
Definition inc_if (enabled : bool) (c : Collector) : M () :=
  if enabled then inc c else mret ().
Definition inc_with_if {P : Prometheus} (enabled : bool) (v : Collector) (vs : list string) : M () :=
  if enabled then inc_with v vs else mret ().

(** ** SQL *)

(** [$n::uuid] *)
Definition cast_uuid (s : string) : result error ID :=
  match uuid_in s with
  | Some u => Ok u
  | None => Err (PgError "22P02" ("ERROR: invalid input syntax for type uuid: " +:+ s +:+ " (SQLSTATE 22P02)"))
  end.
Definition cast_uuid_opt (s : option string) : result error (option ID) :=
  match s with
  | None => Ok None
  | Some s => match cast_uuid s with Ok u => Ok (Some u) | Err e => Err e end
  end.

Definition unique_violation (what : string) : error :=
  PgError "23505" ("ERROR: duplicate key value violates unique constraint " +:+ what +:+ " (SQLSTATE 23505)").
Definition fk_violation (what : string) : error :=
  PgError "23503" ("ERROR: insert or update violates foreign key constraint " +:+ what +:+ " (SQLSTATE 23503)").
Definition check_violation (what : string) : error :=
  PgError "23514" ("ERROR: new row violates check constraint " +:+ what +:+ " (SQLSTATE 23514)").

(** The text and varchar(n) parameters of a statement. *)
Definition encoding_violation : error :=
  PgError "22021" "ERROR: invalid byte sequence for encoding UTF8 (SQLSTATE 22021)".
Definition length_violation : error :=
  PgError "22001" "ERROR: value too long for type character varying (SQLSTATE 22001)".
Definition text_param (s : option string) : eff DB error () :=
  fail_when (negb (opt_ok text_ok s)) encoding_violation.
Definition varchar_param (n : nat) (s : option string) : eff DB error () :=
  text_param s;;
  fail_when (negb (opt_ok (varchar_ok n) s)) length_violation.

(** [lower(x)] on the ASCII text the columns hold. *)
Definition pg_lower : string → string := ascii_lower.

(** The first row a query without ORDER BY returns. *)
Definition select1 {K V} `{Countable K} (P : V → bool) (m : gmap K V) : option V :=
  snd <$> head (filter (λ kv, P kv.2 = true) (map_to_list m)).

(** [row.Scan] of a query that returned no row. *)
Definition scan_row {A} (r : option A) : eff DB error A :=
  match r with Some a => mret a | None => throw ErrNoRows end.

(** [tag.RowsAffected() == 0] *)
Definition affected {A} (n : nat) (k : eff DB error A) : eff DB error A :=
  if (n =? 0)%nat then throw ErrNotFound else k.

(** ** Facts *)

Definition quiet (w : World) : Prop := w_sched w = [].
(** Only the faults and the clock of the schedule are arbitrary. *)
Definition alone (e : event) : Prop := (∀ d, d = ev_step e d) ∧ ev_drawn e = None.
Definition undisturbed (w : World) : Prop := Forall alone (w_sched w).
(** Some transaction to come has drawn a number early. *)
Definition draws (w : World) : Prop := Exists (λ e, ev_drawn e ≠ None) (w_sched w).

Lemma undisturbed_draws w : undisturbed w → ¬ draws w.
Proof.
  intros Hu (e & He & Hn)%Exists_exists. unfold undisturbed in Hu. rewrite Forall_forall in Hu. by destruct (Hu e He).
Qed.

Lemma quiet_undisturbed w : quiet w → undisturbed w.
Proof. unfold quiet, undisturbed. intros ->. by constructor. Qed.

Lemma next_event_quiet w : quiet w → next_event w = (idle, w).
Proof. unfold quiet, next_event. by intros ->. Qed.
Lemma tx_event_quiet w : quiet w → tx_event w = (idle, w).
Proof. unfold quiet, tx_event. by intros ->. Qed.

Lemma next_event_undisturbed w e w1 :
  undisturbed w → next_event w = (e, w1) → w_db w1 = w_db w ∧ undisturbed w1.
Proof.
  unfold undisturbed, next_event. destruct (w_sched w) as [|e' es] eqn:Es.
  - intros _ [= <- <-]. rewrite Es. by split.
  - intros [[He _] Hes]%Forall_cons [= <- <-]. simpl. by rewrite <- He.
Qed.

Lemma next_event_alone w e w1 : undisturbed w → next_event w = (e, w1) → ev_drawn e = None.
Proof.
  unfold undisturbed, next_event. destruct (w_sched w) as [|e' es]; intros Hu [= <- _]; [done|].
  by apply Forall_cons in Hu as [[_ ?] _].
Qed.

Lemma tx_event_db w e w1 : tx_event w = (e, w1) → w_db w1 = w_db w.
Proof. unfold tx_event. destruct (w_sched w); by intros [= <- <-]. Qed.

Lemma tx_event_undisturbed w e w1 : undisturbed w → tx_event w = (e, w1) → undisturbed w1.
Proof.
  unfold undisturbed, tx_event. destruct (w_sched w) as [|e' es] eqn:Es.
  - intros _ [= <- <-]. by rewrite Es.
  - intros [_ Hes]%Forall_cons [= <- <-]. done.
Qed.

Lemma select1_Some {K V} `{Countable K} (P : V → bool) (m : gmap K V) v :
  select1 P m = Some v → P v = true ∧ ∃ k, m !! k = Some v.
Proof.
  unfold select1. destruct (filter _ _) as [|[k v'] l] eqn:E; [done|].
  simpl. intros [= <-].
  assert ((k, v') ∈ filter (λ kv : K * V, P kv.2 = true) (map_to_list m)) as Hin
    by (rewrite E; left).
  apply list_elem_of_filter in Hin as [HP Hin]. split; [done|].
  exists k. by apply elem_of_map_to_list.
Qed.

Lemma select1_None {K V} `{Countable K} (P : V → bool) (m : gmap K V) k v :
  select1 P m = None → m !! k = Some v → P v = false.
Proof.
  unfold select1. destruct (filter _ _) as [|[k' v'] l] eqn:E; [|done].
  intros _ Hk. apply not_true_iff_false. intros HP.
  assert ((k, v) ∈ filter (λ kv : K * V, P kv.2 = true) (map_to_list m)) as Hin.
  { apply list_elem_of_filter. split; [done|]. by apply elem_of_map_to_list. }
  rewrite E in Hin. by apply not_elem_of_nil in Hin.
Qed.

Lemma select1_is_Some {K V} `{Countable K} (P : V → bool) (m : gmap K V) k v :
  m !! k = Some v → P v = true → is_Some (select1 P m).
Proof.
  intros Hk HP. destruct (select1 P m) eqn:E; [by eexists|].
  rewrite (select1_None P m k v E Hk) in HP. done.
Qed.

(** The only row satisfying the condition is the row returned. *)
Lemma select1_unique {K V} `{Countable K} (P : V → bool) (m : gmap K V) k v :
  m !! k = Some v → P v = true →
  (∀ k' v', m !! k' = Some v' → P v' = true → v' = v) →
  select1 P m = Some v.
Proof.
  intros Hk HP Hu. destruct (select1_is_Some P m k v Hk HP) as [v' Hv'].
  rewrite Hv'. f_equal. apply select1_Some in Hv' as [HP' [k' Hk']]. eauto.
Qed.

Lemma affected_inv {A} n (k : eff DB error A) d r d' :
  affected n k d = (r, d') →
  (n = 0%nat ∧ r = Err ErrNotFound ∧ d' = d) ∨ (n ≠ 0%nat ∧ k d = (r, d')).
Proof.
  unfold affected. destruct (Nat.eqb_spec n 0); [|by right].
  intros [= <- <-]. by left.
Qed.

Lemma remote_call_inv {A} (f : Time → World → A * World) w r w' :
  remote_call f w = (r, w') →
  let w1 := (next_event w).2 in
  (∃ a, r = Ok a ∧ f (w_now w1) w1 = (a, w')) ∨
  (∃ m, r = Err (ErrPlain m) ∧ (w' = w1 ∨ w' = (f (w_now w1) w1).2)).
Proof.
  unfold remote_call. destruct (next_event w) as [e w1]. simpl.
  destruct (ev_fault e); [destruct (f _ _) as [a w2] eqn:Ef|..]; intros [= <- <-]; eauto 10.
Qed.

Lemma remote_call_quiet {A} (f : Time → World → A * World) w :
  quiet w → remote_call f w = (let '(a, w2) := f (w_now w) w in (Ok a, w2)).
Proof. intros H. unfold remote_call. by rewrite next_event_quiet. Qed.

Section call_lemmas.
Context {G : UuidGen} {A : Type}.
Implicit Types (f : stmt A) (w : World).

Lemma call_quiet f w :
  quiet w →
  call f w =
  match f (stmt_context idle w) (w_db w) with
  | (Ok a, d) => (Ok a, set_db d (bump_ids w))
  | (Err x, _) => (Err x, bump_ids w)
  end.
Proof. intros H. unfold call. by rewrite next_event_quiet. Qed.

Lemma tx_call_quiet f w :
  quiet w →
  tx_call f w =
  match f (stmt_context idle w) (w_db w) with
  | (Ok a, d) => (Ok a, set_db d (bump_ids w))
  | (Err x, _) => (Err x, bump_ids w)
  end.
Proof. intros H. unfold tx_call. by rewrite tx_event_quiet. Qed.

Lemma run_stmt_Ok f e w a w' :
  run_stmt f e w = (Ok a, w') →
  ∃ d, f (stmt_context e w) (w_db w) = (Ok a, d) ∧ w' = set_db d (bump_ids w).
Proof.
  unfold run_stmt. destruct (ev_fault e); [|done|].
  - simpl. destruct (f _ _) as [[x|x] d] eqn:E; intros [= <- <-]. eauto.
  - destruct (f _ _) as [[x|x] d]; done.
Qed.

(** A successful statement of a transaction ran on the tables the
    transaction sees, at the time it began. *)
Lemma tx_call_Ok f w a w' :
  tx_call f w = (Ok a, w') →
  ∃ e, f (stmt_context e w) (w_db w) = (Ok a, w_db w') ∧ w_now w' = w_now w
    ∧ (ev_drawn e ≠ None → draws w) ∧ (draws w' → draws w).
Proof.
  unfold tx_call, tx_event, draws. destruct (w_sched w) as [|e es] eqn:Es;
    intros (d & Hd & ->)%run_stmt_Ok; simpl; rewrite ?Es.
  - by exists idle.
  - exists e. rewrite Exists_cons. split_and!; auto.
Qed.

(** A statement that reports an error has no effect or its whole effect. *)
Lemma run_stmt_Err f e w x w' :
  run_stmt f e w = (Err x, w') →
  w' = bump_ids w ∨
  ∃ a d, f (stmt_context e w) (w_db w) = (Ok a, d) ∧ w' = set_db d (bump_ids w).
Proof.
  unfold run_stmt. destruct (ev_fault e).
  - simpl. destruct (f _ _) as [[y|y] d] eqn:E; intros [= <- <-]. by left.
  - intros [= <- <-]. by left.
  - simpl. destruct (f _ _) as [[y|y] d] eqn:E; intros [= <- <-]; eauto.
Qed.

(** A read leaves the tables alone, whatever the schedule. *)
Definition read_only f : Prop := ∀ ctx d, (f ctx d).2 = d.

Lemma call_read_only_db f w r w' :
  read_only f → undisturbed w → call f w = (r, w') →
  w_db w' = w_db w ∧ undisturbed w'.
Proof.
  intros Hf Hu. unfold call. destruct (next_event w) as [e w1] eqn:E.
  apply next_event_undisturbed in E as [<- Hu']; [|done].
  unfold run_stmt.
  destruct (f _ _) as [[x|x] d] eqn:Ef;
    pose proof (Hf (stmt_context e w1) (w_db w1)) as Hd;
    simpl in *; rewrite Ef in Hd; simpl in Hd; subst d;
    destruct (ev_fault e); intros [= <- <-]; by split.
Qed.

(** A transaction commits its whole effect or leaves the tables as they
    were; an error after which the effect is there comes from the reply
    to the commit. *)
Lemma transaction_inv (body : M A) w r w' :
  transaction body w = (r, w') →
  let w1 := (next_event w).2 in
  (∃ e, r = Err e ∧ w_db w' ≡ w_db w1) ∨
  (∃ a w2, body w1 = (Ok a, w2) ∧ w_db w' = w_db w2 ∧ (r = Ok a ∨ ∃ m, r = Err (ErrPlain m))).
Proof.
  unfold transaction. destruct (next_event w) as [e w1]. simpl.
  destruct (ev_fault e); [|intros [= <- <-]; left; eauto..].
  destruct (body w1) as [[a|x] w2] eqn:Eb.
  - destruct (tx_event w2) as [c w3] eqn:Ec. apply tx_event_db in Ec.
    destruct (ev_fault c); intros [= <- <-].
    + right. exists a, w2. auto.
    + left. eauto.
    + right. exists a, w2. eauto.
  - intros [= <- <-]. left. eauto.
Qed.

Lemma transaction_Ok (body : M A) w a w' :
  transaction body w = (Ok a, w') →
  ∃ w2, body (next_event w).2 = (Ok a, w2) ∧ w_db w' = w_db w2.
Proof.
  intros [(e & ? & _)|(a' & w2 & ? & ? & [?|[m ?]])]%transaction_inv; simplify_eq; eauto.
Qed.

Lemma transaction_quiet (body : M A) w :
  quiet w → (∀ a w2, body w = (Ok a, w2) → quiet w2) →
  transaction body w =
  match body w with
  | (Ok a, w2) => (Ok a, w2)
  | (Err x, w2) => (Err x, rollback w w2)
  end.
Proof.
  intros Hq Hb. unfold transaction. rewrite next_event_quiet by done. simpl.
  destruct (body w) as [[a|x] w2] eqn:E; [|done].
  by rewrite tx_event_quiet by eauto.
Qed.
End call_lemmas.

#[export] Hint Resolve quiet_undisturbed : goflow.
