(* ===== verification/Repository.v ===== *)
(** * Repository interfaces

    internal/repository: the interfaces between the services and the
    storage layer, as type classes over the monad of the program.  The
    PostgreSQL implementations are instances (PgMessages, PgChats,
    PgUsers); the services are written against the classes. *)

From stdpp Require Import base strings list.
From S2P Require Import Prelude Json Errors Domain World.

(** repository.MessageListOpts *)
Record MessageListOpts := mkListOpts {
  lo_Limit : Z;
  lo_BeforeID : option ID;
  lo_BeforeTime : option Time
}.

(** repository.Page *)
Record Page := mkPage { pg_Limit : Z; pg_Offset : Z }.

(** repository.AddChatMember *)
Record AddChatMember := mkAdd { add_UserID : ID; add_Role : string }.

(** repository.ChatListRow *)
Record ChatListRow := mkChatListRow {
  clr_Chat : Chat;
  clr_LastPreviewText : option string;
  clr_LastPreviewType : option string;
  clr_LastPreviewSender : option ID;
  clr_LastPreviewAt : option Time;
  clr_UnreadCount : Z
}.

(** repository.UpdateUserProfileParams *)
Record UpdateUserProfileParams := mkProfileParams {
  up_UserID : ID;
  up_Nickname : option string;
  up_FirstName : option string;
  up_LastName : option string;
  up_AvatarURL : option string
}.

(** repository.OutboxRow *)
Record OutboxRow := mkOutboxRow {
  row_ID : Z;
  row_EventID : string;
  row_EventType : string;
  row_AggregateType : string;
  row_AggregateID : string;
  row_ChatID : option string;
  row_OccurredAt : Time;
  row_Version : Z;
  row_Payload : json
}.

Class MessageRepository := {
  msgs_Create : Message → M Message;
  msgs_GetByID : ID → M Message;
  msgs_GetChatMessages : ID → MessageListOpts → M (list Message);
  msgs_UpdateText : ID → ID → string → M ();
  msgs_SoftDelete : ID → ID → M ();
  msgs_CountUnreadAfter : ID → option ID → M Z
}.

Class MessageWriter := {
  CreateMessageWithOutbox : Message → OutboxEnqueue → M Message;
  UpdateMessageTextWithOutbox : ID → ID → string → OutboxEnqueue → M ();
  SoftDeleteMessageWithOutbox : ID → ID → OutboxEnqueue → M ();
  UpdateMemberReadWithOutbox : ID → ID → ID → OutboxEnqueue → M ()
}.

Class ChatRepository := {
  chats_CreateChat : Chat → M Chat;
  chats_CreateMember : ChatMember → M ChatMember;
  chats_GetByID : ID → M Chat;
  chats_GetDirectByKey : string → M Chat;
  chats_GetUserChats : ID → Page → M (list Chat);
  chats_ListUserChatsSummary : ID → Page → M (list ChatListRow);
  chats_GetChatMembers : ID → M (list ChatMember);
  chats_FindMembership : ID → ID → M ChatMember;
  chats_AddMembers : ID → list AddChatMember → M ();
  chats_RemoveMember : ID → ID → M ();
  chats_CreateGroupWithMembers : string → option string → ID → list ID → M Chat;
  chats_UpdateLastMessage : ID → ID → Time → M ();
  chats_UpdateMemberRead : ID → ID → ID → M ()
}.

Class UserRepository := {
  users_Create : User → M User;
  users_GetByID : ID → M User;
  users_GetByEmail : string → M User;
  users_GetByNickname : string → M User;
  users_Search : string → Page → M (list User);
  users_UpdateProfile : UpdateUserProfileParams → M ()
}.

Class SessionRepository := {
  sessions_Create : RefreshSession → M RefreshSession;
  sessions_GetByTokenHash : string → M RefreshSession;
  sessions_Revoke : ID → M ();
  sessions_RevokeAllByUser : ID → M ();
  sessions_RotateRefresh : string → RefreshSession → M RefreshSession
}.

Class OutboxRepository := {
  outbox_FetchPending : Z → M (list OutboxRow);
  outbox_MarkPublished : Z → M ()
}.
