(* ===== verification/PgMessages.v ===== *)
(** * Messages in PostgreSQL

    repository/postgres/message_repository.go, message_writer.go and
    outbox_repository.go: each SQL statement is a [stmt] over the tables,
    each repository method the statement it sends, and each transactional
    writer a [transaction] around its statements. *)

From stdpp Require Import base strings gmap sets list sorting.
From S2P Require Import Prelude GoStrings Utf8 Uuid Json Errors GoTime Domain Metrics World Repository.

(** ** Paging (helpers.go) *)
Definition normPage (p : Page) : Z * Z :=
  let limit := if (pg_Limit p <=? 0)%Z then 50%Z else pg_Limit p in
  let limit := if (limit >? 200)%Z then 200%Z else limit in
  let offset := if (pg_Offset p <? 0)%Z then 0%Z else pg_Offset p in
  (limit, offset).

Definition normMessageLimit (n : Z) : Z :=
  if (n <=? 0)%Z then 50%Z else if (n >? 200)%Z then 200%Z else n.

(** ** Statements on messages *)

(** [(a.created_at, a.id) < (b.created_at, b.id)] *)
Definition older (a b : Message) : bool :=
  (msg_CreatedAt a <? msg_CreatedAt b)%Z
  || (msg_CreatedAt a =? msg_CreatedAt b)%Z && String.ltb (msg_ID a) (msg_ID b).

(** [ORDER BY created_at DESC, id DESC] *)
Definition newest_first (a b : Message) : Prop := older a b = false.
#[export] Instance newest_first_dec : RelDecision newest_first.
Proof. intros a b. unfold newest_first. apply _. Defined.

Definition live (m : Message) : bool :=
  match msg_DeletedAt m with None => true | Some _ => false end.

Definition messages_of (d : DB) : list Message := (map_to_list (db_messages d)).*2.

Definition message_type_ok (t : string) : bool :=
  String.eqb t "text" || String.eqb t "image" || String.eqb t "file" || String.eqb t "system".

(** INSERT INTO messages ... RETURNING *)
Definition insert_message (m : Message) : stmt Message := λ ctx,
  cid ← of_result (cast_uuid (msg_ChatID m));
  sid ← of_result (cast_uuid (msg_SenderID m));
  rid ← of_result (cast_uuid_opt (msg_ReplyToID m));
  text_param (msg_Text m);;
  d ← get_state;
  fail_when (negb (message_type_ok (msg_Type m))) (check_violation "ck_messages_type");;
  fail_when (bool_decide (is_Some (db_messages d !! sc_id ctx))) (unique_violation "messages_pkey");;
  fail_when (bool_decide (db_chats d !! cid = None)) (fk_violation "messages_chat_id_fkey");;
  fail_when (bool_decide (db_users d !! sid = None)) (fk_violation "messages_sender_id_fkey");;
  fail_when (match rid with
             | Some r => bool_decide (db_messages d !! r = None)
             | None => false
             end) (fk_violation "messages_reply_to_id_fkey");;
  let row := mkMessage (sc_id ctx) cid sid (msg_Type m) (msg_Text m) rid
                       (sc_now ctx) (sc_now ctx) None in
  modify_state (set_messages (<[sc_id ctx := row]> (db_messages d)));;
  mret row.

(** SELECT ... FROM messages WHERE id = $1 *)
Definition select_message (id : ID) : stmt Message := λ _,
  mid ← of_result (cast_uuid id);
  d ← get_state;
  scan_row (db_messages d !! mid).

(** SELECT ... FROM messages WHERE id = $1 AND chat_id = $2 *)
Definition select_message_in_chat (id chat : ID) : stmt Message := λ _,
  mid ← of_result (cast_uuid id);
  cid ← of_result (cast_uuid chat);
  d ← get_state;
  scan_row (m ← db_messages d !! mid; if String.eqb (msg_ChatID m) cid then Some m else None).

(** The WHERE clause of the listing query after [chat_id] and
    [deleted_at]: a row comparison with a missing anchor is not true. *)
Definition before_cursor (d : DB) (cid : ID) (before_id : option ID) (before_time : option Time)
    (m : Message) : bool :=
  match before_id, before_time with
  | Some b, _ =>
      match db_messages d !! b with
      | Some anchor => String.eqb (msg_ChatID anchor) cid && older m anchor
      | None => false
      end
  | None, Some t => (msg_CreatedAt m <? t)%Z
  | None, None => true
  end.

Definition chat_messages_query (d : DB) (cid : ID) (before_id : option ID)
    (before_time : option Time) (limit : nat) : list Message :=
  take limit
    (merge_sort newest_first
       (filter (λ m, String.eqb (msg_ChatID m) cid && live m
                     && before_cursor d cid before_id before_time m = true)
               (messages_of d))).

Definition select_chat_messages (chat : ID) (before_id : option ID) (limit : Z)
    (before_time : option Time) : stmt (list Message) := λ _,
  cid ← of_result (cast_uuid chat);
  bid ← of_result (cast_uuid_opt before_id);
  d ← get_state;
  mret (chat_messages_query d cid bid (pg_time <$> before_time) (Z.to_nat limit)).

(** The rows an [UPDATE messages ... WHERE id = .. AND chat_id = .. AND
    deleted_at IS NULL] touches: one or none, [id] being the key. *)
Definition target_message (d : DB) (mid cid : ID) : option Message :=
  m ← db_messages d !! mid;
  if String.eqb (msg_ChatID m) cid && live m then Some m else None.

Definition update_target (f : Message → Message) (chat mid : ID) : eff DB error () :=
  mid ← of_result (cast_uuid mid);
  cid ← of_result (cast_uuid chat);
  d ← get_state;
  match target_message d mid cid with
  | None => throw ErrNotFound
  | Some m => modify_state (set_messages (<[mid := f m]> (db_messages d)))
  end.

Definition set_text (text : string) (now : Time) (m : Message) : Message :=
  mkMessage (msg_ID m) (msg_ChatID m) (msg_SenderID m) (msg_Type m) (Some text)
            (msg_ReplyToID m) (msg_CreatedAt m) now (msg_DeletedAt m).
Definition set_deleted (now : Time) (m : Message) : Message :=
  mkMessage (msg_ID m) (msg_ChatID m) (msg_SenderID m) (msg_Type m) (msg_Text m)
            (msg_ReplyToID m) (msg_CreatedAt m) now (Some now).

(** UPDATE messages SET text, updated_at; UPDATE messages SET deleted_at *)
Definition update_message_text (chat mid : ID) (text : string) : stmt () := λ ctx,
  text_param (Some text);;
  update_target (set_text text (sc_now ctx)) chat mid.
Definition update_message_deleted (chat mid : ID) : stmt () := λ ctx,
  update_target (set_deleted (sc_now ctx)) chat mid.

(** The unread condition shared by CountUnreadAfter and the chat list. *)
Definition unread_after (d : DB) (cid : ID) (after : option ID) (m : Message) : bool :=
  String.eqb (msg_ChatID m) cid && live m &&
  match after with
  | None => true
  | Some a =>
      match db_messages d !! a with
      | Some anchor => String.eqb (msg_ChatID anchor) cid && older anchor m
      | None => false
      end
  end.
Definition unread_count (d : DB) (cid : ID) (after : option ID) : Z :=
  Z.of_nat (length (filter (λ m, unread_after d cid after m = true) (messages_of d))).

Definition count_unread (chat : ID) (after : option ID) : stmt Z := λ _,
  cid ← of_result (cast_uuid chat);
  aid ← of_result (cast_uuid_opt after);
  d ← get_state;
  mret (unread_count d cid aid).

(** ** MessageRepository *)
Section message_repository.
Context {G : UuidGen}.

Definition pg_msgs_Create (m : Message) : M Message := call (insert_message m).
Definition pg_msgs_GetByID (id : ID) : M Message := call (select_message id) ?! mapErr.
Definition pg_msgs_GetChatMessages (chat : ID) (opts : MessageListOpts) : M (list Message) :=
  call (select_chat_messages chat (lo_BeforeID opts) (normMessageLimit (lo_Limit opts))
                             (lo_BeforeTime opts)).
Definition pg_msgs_UpdateText (chat mid : ID) (text : string) : M () :=
  call (update_message_text chat mid text).
Definition pg_msgs_SoftDelete (chat mid : ID) : M () := call (update_message_deleted chat mid).
Definition pg_msgs_CountUnreadAfter (chat : ID) (after : option ID) : M Z :=
  call (count_unread chat after).

#[export] Instance pg_message_repository : MessageRepository := {|
  msgs_Create := pg_msgs_Create;
  msgs_GetByID := pg_msgs_GetByID;
  msgs_GetChatMessages := pg_msgs_GetChatMessages;
  msgs_UpdateText := pg_msgs_UpdateText;
  msgs_SoftDelete := pg_msgs_SoftDelete;
  msgs_CountUnreadAfter := pg_msgs_CountUnreadAfter
|}.
End message_repository.

(** ** Outbox statements *)

(** The message whose row the transaction that writes an event locks: the
    ones that create, update and delete a message. *)
Definition event_message (event_type aggregate : string) : option ID :=
  if String.eqb event_type EventMessageCreated || String.eqb event_type EventMessageUpdated
     || String.eqb event_type EventMessageDeleted
  then uuid_in aggregate else None.
Definition about_same (typ aggregate : string) (r : OutboxRec) : Prop :=
  is_Some (event_message typ aggregate)
  ∧ event_message (ob_event_type r) (ob_aggregate_id r) = event_message typ aggregate.
#[export] Instance about_same_dec typ aggregate r : Decision (about_same typ aggregate r).
Proof. unfold about_same. apply _. Defined.

(** Whether a transaction can have drawn [n] before the sequence went on to
    where it is: nobody used it, and the transactions that drew larger
    numbers and committed since are about other messages (one about the
    same message waits for its row, locked since before the draw). *)
Definition can_have_drawn (typ aggregate : string) (d : DB) (n : Z) : Prop :=
  (0 < n ≤ db_outbox_seq d)%Z ∧ db_outbox d !! n = None
  ∧ map_Forall (λ i r, (n < i)%Z → ¬ about_same typ aggregate r) (db_outbox d).
#[export] Instance can_have_drawn_dec typ aggregate d n : Decision (can_have_drawn typ aggregate d n).
Proof. unfold can_have_drawn. apply _. Defined.

(** [nextval] *)
Definition outbox_id (drawn : option Z) (ob : OutboxEnqueue) (d : DB) : Z :=
  let next := (db_outbox_seq d + 1)%Z in
  match drawn with
  | Some n => if decide (can_have_drawn (oe_EventType ob) (oe_AggregateID ob) d n) then n else next
  | None => next
  end.

(** INSERT INTO outbox_events *)
Definition insert_outbox (ob : OutboxEnqueue) : stmt () := λ ctx,
  eid ← of_result (cast_uuid (oe_EventID ob));
  cid ← of_result (cast_uuid_opt (oe_ChatID ob));
  d ← get_state;
  fail_when (bool_decide (map_Exists (λ _ r, ob_event_id r = eid) (db_outbox d)))
            (unique_violation "outbox_events_event_id_key");;
  let id := outbox_id (sc_drawn ctx) ob d in
  fail_when (bool_decide (is_Some (db_outbox d !! id))) (unique_violation "outbox_events_pkey");;
  let payload := match oe_Payload ob with None => JEmpty | Some j => j end in
  modify_state (λ d, set_outbox_seq (Z.max (db_outbox_seq d) id)
    (set_outbox (<[id := mkOutboxRec id eid (oe_EventType ob) (oe_AggregateType ob)
                           (oe_AggregateID ob) cid (pg_time (oe_OccurredAt ob)) (oe_Version ob)
                           (to_jsonb payload) None (sc_now ctx)]> (db_outbox d)) d)).

(** [json.Marshal] of a time: an error outside the years 0 to 9999. *)
Definition json_time (t : Time) : result error json :=
  let '(y, _, _) := civil_of_days (t / second / 86400)%Z in
  if ((0 <=? y) && (y <=? 9999))%Z then Ok (JStr (format_rfc3339nano t))
  else Err (ErrPlain "json: error calling MarshalJSON for type time.Time").

(** encodeMessageWireJSON: the members of the struct in order, [text] and
    [reply_to_id] omitted when nil. *)
Definition encodeMessageWireJSON (m : Message) : result error json :=
  match json_time (msg_CreatedAt m), json_time (msg_UpdatedAt m) with
  | Ok created, Ok updated =>
      Ok (JObj ([("id", JStr (msg_ID m)); ("chat_id", JStr (msg_ChatID m));
                 ("sender_id", JStr (msg_SenderID m)); ("type", JStr (msg_Type m))]
                ++ opt_field "text" (msg_Text m) ++ opt_field "reply_to_id" (msg_ReplyToID m)
                ++ [("created_at", created); ("updated_at", updated)]))
  | Err e, _ | _, Err e => Err e
  end.

Definition set_chat_last (mid : ID) (at_ now : Time) (c : Chat) : Chat :=
  mkChat (chat_ID c) (chat_Type c) (chat_Title c) (chat_AvatarURL c) (chat_CreatedBy c)
         (chat_CreatedAt c) now (Some mid) (Some at_) (chat_IsDeleted c) (chat_DirectKey c).

(** UPDATE chats SET last_message_id, last_message_at, updated_at *)
Definition update_last_message (chat mid : ID) (at_ : Time) : stmt () := λ ctx,
  cid ← of_result (cast_uuid chat);
  mid ← of_result (cast_uuid mid);
  d ← get_state;
  match db_chats d !! cid with
  | None => throw ErrNotFound
  | Some c =>
      fail_when (bool_decide (db_messages d !! mid = None)) (fk_violation "fk_chats_last_message");;
      modify_state (set_chats (<[cid := set_chat_last mid (pg_time at_) (sc_now ctx) c]> (db_chats d)))
  end.

Definition set_member_read (mid : ID) (now : Time) (m : ChatMember) : ChatMember :=
  mkChatMember (cm_ChatID m) (cm_UserID m) (cm_Role m) (cm_JoinedAt m) (Some mid) (Some now)
               (cm_IsMuted m) (cm_IsArchived m) (cm_IsPinned m).

(** UPDATE chat_members SET last_read_message_id, last_read_at *)
Definition update_member_read (chat uid mid : ID) : stmt () := λ ctx,
  cid ← of_result (cast_uuid chat);
  uid ← of_result (cast_uuid uid);
  mid ← of_result (cast_uuid mid);
  d ← get_state;
  match db_members d !! (cid, uid) with
  | None => throw ErrNotFound
  | Some m =>
      fail_when (bool_decide (db_messages d !! mid = None))
                (fk_violation "fk_chat_members_last_read_message");;
      modify_state (set_members (<[(cid, uid) := set_member_read mid (sc_now ctx) m]> (db_members d)))
  end.

(** ** MessageWriter *)
Definition with_payload (payload : json) (ob : OutboxEnqueue) : OutboxEnqueue :=
  mkEnqueue (oe_EventID ob) (oe_EventType ob) (oe_AggregateType ob) (oe_AggregateID ob)
            (oe_ChatID ob) (oe_OccurredAt ob) (oe_Version ob) (Some payload).
Definition with_aggregate (id : string) (at_ : Time) (ob : OutboxEnqueue) : OutboxEnqueue :=
  mkEnqueue (oe_EventID ob) (oe_EventType ob) (oe_AggregateType ob) id
            (oe_ChatID ob) at_ (oe_Version ob) (oe_Payload ob).

(** [if len(ob2.Payload) == 0 { ob2.Payload = encodeMessageWireJSON(m) }] *)
Definition fill_payload (m : Message) (ob : OutboxEnqueue) : M OutboxEnqueue :=
  match oe_Payload ob with
  | Some _ => mret ob
  | None => raw ← of_result (encodeMessageWireJSON m); mret (with_payload raw ob)
  end.

Section message_writer.
Context {G : UuidGen}.
(** [w.pool] and [w.obs] are not nil *)
Variables (pool obs : bool).

(** commitOutboxObs: the counter moves after the commit. *)
Definition commitOutboxObs {A} (body : M A) : M A :=
  a ← transaction body;
  inc_if obs OutboxCreated;;
  mret a.

Definition create_message_tx (m : Message) (ob : OutboxEnqueue) : M Message :=
  m ← tx_call (insert_message m);
  ob2 ← fill_payload m (with_aggregate (msg_ID m) (msg_CreatedAt m) ob);
  tx_call (update_last_message (msg_ChatID m) (msg_ID m) (msg_CreatedAt m));;
  tx_call (insert_outbox ob2);;
  mret m.

Definition pg_CreateMessageWithOutbox (m : Message) (ob : OutboxEnqueue) : M Message :=
  fail_when (negb pool) (ErrPlain "message writer: nil");;
  commitOutboxObs (create_message_tx m ob).

Definition update_text_tx (chat mid : ID) (text : string) (ob : OutboxEnqueue) : M () :=
  tx_call (update_message_text chat mid text);;
  m ← tx_call (select_message_in_chat mid chat);
  ob2 ← fill_payload m ob;
  tx_call (insert_outbox (with_aggregate mid (msg_UpdatedAt m) ob2)).

Definition pg_UpdateMessageTextWithOutbox (chat mid : ID) (text : string)
    (ob : OutboxEnqueue) : M () :=
  commitOutboxObs (update_text_tx chat mid text ob).

Definition soft_delete_tx (chat mid : ID) (ob : OutboxEnqueue) : M () :=
  tx_call (update_message_deleted chat mid);;
  tx_call (insert_outbox ob).

Definition pg_SoftDeleteMessageWithOutbox (chat mid : ID) (ob : OutboxEnqueue) : M () :=
  commitOutboxObs (soft_delete_tx chat mid ob).

Definition member_read_tx (chat uid mid : ID) (ob : OutboxEnqueue) : M () :=
  tx_call (update_member_read chat uid mid);;
  tx_call (insert_outbox ob).

Definition pg_UpdateMemberReadWithOutbox (chat uid mid : ID) (ob : OutboxEnqueue) : M () :=
  commitOutboxObs (member_read_tx chat uid mid ob).

Definition pg_message_writer : MessageWriter := {|
  CreateMessageWithOutbox := pg_CreateMessageWithOutbox;
  UpdateMessageTextWithOutbox := pg_UpdateMessageTextWithOutbox;
  SoftDeleteMessageWithOutbox := pg_SoftDeleteMessageWithOutbox;
  UpdateMemberReadWithOutbox := pg_UpdateMemberReadWithOutbox
|}.
End message_writer.

(** ** OutboxRepository *)
Definition pending (r : OutboxRec) : bool :=
  match ob_published_at r with None => true | Some _ => false end.

Definition outbox_row (r : OutboxRec) : OutboxRow :=
  mkOutboxRow (ob_id r) (ob_event_id r) (ob_event_type r) (ob_aggregate_type r)
    (ob_aggregate_id r) (ob_chat_id r) (ob_occurred_at r) (ob_version r) (ob_payload r).

(** [ORDER BY id ASC] *)
Definition by_id (r1 r2 : OutboxRec) : Prop := (ob_id r1 ≤ ob_id r2)%Z.
#[export] Instance by_id_dec : RelDecision by_id.
Proof. intros r1 r2. unfold by_id. apply _. Defined.
#[export] Instance by_id_total : Total by_id.
Proof. intros r1 r2. unfold by_id. lia. Qed.
#[export] Instance by_id_trans : Transitive by_id.
Proof. intros r1 r2 r3. unfold by_id. lia. Qed.

Definition pending_events (d : DB) : list OutboxRec :=
  merge_sort by_id (filter (λ r, pending r = true) (map_to_list (db_outbox d)).*2).

Definition fetch_limit (limit : Z) : Z :=
  let limit := if (limit <=? 0)%Z then 50%Z else limit in
  if (limit >? 500)%Z then 500%Z else limit.

Definition select_pending (limit : Z) : stmt (list OutboxRow) := λ _,
  d ← get_state;
  mret (outbox_row <$> take (Z.to_nat limit) (pending_events d)).

Definition set_published (now : Time) (r : OutboxRec) : OutboxRec :=
  mkOutboxRec (ob_id r) (ob_event_id r) (ob_event_type r) (ob_aggregate_type r)
    (ob_aggregate_id r) (ob_chat_id r) (ob_occurred_at r) (ob_version r) (ob_payload r)
    (Some now) (ob_created_at r).

(** UPDATE outbox_events SET published_at = now() WHERE id = $1 AND published_at IS NULL *)
Definition update_published (id : Z) : stmt () := λ ctx,
  d ← get_state;
  match db_outbox d !! id with
  | Some r =>
      if pending r then modify_state (set_outbox (<[id := set_published (sc_now ctx) r]> (db_outbox d)))
      else throw (ErrPlain "outbox: mark published: no row")
  | None => throw (ErrPlain "outbox: mark published: no row")
  end.

Section outbox_repository.
Context {G : UuidGen}.

Definition pg_FetchPending (limit : Z) : M (list OutboxRow) :=
  call (select_pending (fetch_limit limit)).
Definition pg_MarkPublished (id : Z) : M () := call (update_published id).

#[export] Instance pg_outbox_repository : OutboxRepository := {|
  outbox_FetchPending := pg_FetchPending;
  outbox_MarkPublished := pg_MarkPublished
|}.
End outbox_repository.
