(* ===== verification/PgChats.v ===== *)
(** * Chats in PostgreSQL

    repository/postgres/chat_repository.go. *)

From stdpp Require Import base strings gmap sets list sorting pretty.
From S2P Require Import Prelude GoStrings Utf8 Uuid Json Errors GoTime Domain World Repository PgMessages.

(** ** Constraints of 002_init_chats.sql *)
Definition chat_type_ok (t : string) : bool := String.eqb t "direct" || String.eqb t "group".

Definition chat_key_ok (t : string) (key : option string) : bool :=
  String.eqb t "direct" && bool_decide (is_Some key)
  || String.eqb t "group" && bool_decide (key = None).

Definition role_ok (r : string) : bool :=
  String.eqb r "owner" || String.eqb r "admin" || String.eqb r "member".

(** A row the partial index uq_chats_direct_key covers, with that key. *)
Definition direct_with_key (key : string) (c : Chat) : bool :=
  String.eqb (chat_Type c) "direct" && negb (chat_IsDeleted c)
  && bool_decide (chat_DirectKey c = Some key).

(** The order of GET /chats: last_message_at DESC NULLS LAST, updated_at
    DESC.  PostgreSQL may return chats with equal keys in any order. *)
Definition recent_first (a b : Chat) : Prop :=
  match chat_LastMessageAt a, chat_LastMessageAt b with
  | Some x, Some y => (y < x)%Z ∨ x = y ∧ (chat_UpdatedAt b ≤ chat_UpdatedAt a)%Z
  | Some _, None => True
  | None, Some _ => False
  | None, None => (chat_UpdatedAt b ≤ chat_UpdatedAt a)%Z
  end.
#[export] Instance recent_first_dec : RelDecision recent_first.
Proof.
  intros a b. unfold recent_first.
  destruct (chat_LastMessageAt a), (chat_LastMessageAt b); apply _.
Defined.

(** ORDER BY joined_at ASC *)
Definition joined_first (a b : ChatMember) : Prop := (cm_JoinedAt a ≤ cm_JoinedAt b)%Z.
#[export] Instance joined_first_dec : RelDecision joined_first.
Proof. intros a b. unfold joined_first. apply _. Defined.

(** ** Statements *)

(** INSERT INTO chats ... RETURNING *)
Definition insert_chat (c : Chat) : stmt Chat := λ ctx,
  by_ ← of_result (cast_uuid_opt (chat_CreatedBy c));
  varchar_param 255 (chat_Title c);;
  text_param (chat_AvatarURL c);;
  varchar_param 64 (chat_DirectKey c);;
  d ← get_state;
  fail_when (negb (chat_type_ok (chat_Type c))) (check_violation "ck_chats_type");;
  fail_when (negb (chat_key_ok (chat_Type c) (chat_DirectKey c))) (check_violation "ck_chats_direct_key");;
  fail_when (bool_decide (is_Some (db_chats d !! sc_id ctx))) (unique_violation "chats_pkey");;
  fail_when (match chat_DirectKey c with
             | Some key => bool_decide (is_Some (select1 (direct_with_key key) (db_chats d)))
             | None => false
             end) (unique_violation "uq_chats_direct_key");;
  fail_when (match by_ with
             | Some u => bool_decide (db_users d !! u = None)
             | None => false
             end) (fk_violation "chats_created_by_fkey");;
  let row := mkChat (sc_id ctx) (chat_Type c) (chat_Title c) (chat_AvatarURL c) by_
                    (sc_now ctx) (sc_now ctx) None None false (chat_DirectKey c) in
  modify_state (set_chats (<[sc_id ctx := row]> (db_chats d)));;
  mret row.

Definition select_chat (id : ID) : stmt Chat := λ _,
  cid ← of_result (cast_uuid id);
  d ← get_state;
  scan_row (db_chats d !! cid).

Definition select_direct (key : string) : stmt Chat := λ _,
  d ← get_state;
  scan_row (select1 (direct_with_key key) (db_chats d)).

Definition select_membership (chat uid : ID) : stmt ChatMember := λ _,
  cid ← of_result (cast_uuid chat);
  uid ← of_result (cast_uuid uid);
  d ← get_state;
  scan_row (db_members d !! (cid, uid)).

Definition members_of (d : DB) (cid : ID) : list ChatMember :=
  merge_sort joined_first
    (filter (λ m, String.eqb (cm_ChatID m) cid = true) (map_to_list (db_members d)).*2).

Definition select_members (chat : ID) : stmt (list ChatMember) := λ _,
  cid ← of_result (cast_uuid chat);
  d ← get_state;
  mret (members_of d cid).

(** The chats of a user that are not deleted, each with the membership. *)
Definition user_chats (d : DB) (uid : ID) : list (Chat * ChatMember) :=
  omap (λ c : Chat, if chat_IsDeleted c then None
                    else (λ m, (c, m)) <$> db_members d !! (chat_ID c, uid))
       (merge_sort recent_first (map_to_list (db_chats d)).*2).

Definition select_user_chats (uid : ID) (limit offset : Z) : stmt (list Chat) := λ _,
  uid ← of_result (cast_uuid uid);
  d ← get_state;
  mret (take (Z.to_nat limit) (drop (Z.to_nat offset) (user_chats d uid)).*1).

(** LEFT JOIN messages lm ON lm.id = c.last_message_id AND lm.deleted_at IS NULL *)
Definition last_preview (d : DB) (c : Chat) : option Message :=
  mid ← chat_LastMessageID c;
  m ← db_messages d !! mid;
  if live m then Some m else None.

Definition chat_list_row (d : DB) (cm : Chat * ChatMember) : ChatListRow :=
  let '(c, mem) := cm in
  let lm := last_preview d c in
  mkChatListRow c (lm ≫= msg_Text) (msg_Type <$> lm) (msg_SenderID <$> lm) (msg_CreatedAt <$> lm)
                (unread_count d (chat_ID c) (cm_LastReadMessageID mem)).

Definition select_chats_summary (uid : ID) (limit offset : Z) : stmt (list ChatListRow) := λ _,
  uid ← of_result (cast_uuid uid);
  d ← get_state;
  mret (chat_list_row d <$> take (Z.to_nat limit) (drop (Z.to_nat offset) (user_chats d uid))).

(** A row of an INSERT INTO chat_members. *)
Definition insert_member_row (m : ChatMember) : eff DB error () :=
  d ← get_state;
  fail_when (negb (role_ok (cm_Role m))) (check_violation "ck_chat_members_role");;
  fail_when (bool_decide (is_Some (db_members d !! (cm_ChatID m, cm_UserID m))))
            (unique_violation "chat_members_pkey");;
  fail_when (bool_decide (db_chats d !! cm_ChatID m = None)) (fk_violation "chat_members_chat_id_fkey");;
  fail_when (bool_decide (db_users d !! cm_UserID m = None)) (fk_violation "chat_members_user_id_fkey");;
  fail_when (match cm_LastReadMessageID m with
             | Some r => bool_decide (db_messages d !! r = None)
             | None => false
             end) (fk_violation "fk_chat_members_last_read_message");;
  modify_state (set_members (<[(cm_ChatID m, cm_UserID m) := m]> (db_members d))).

Definition new_member (cid uid : ID) (role : string) (now : Time) : ChatMember :=
  mkChatMember cid uid role now None None false false false.

(** INSERT INTO chat_members (all columns) RETURNING *)
Definition insert_member (m : ChatMember) : stmt ChatMember := λ ctx,
  cid ← of_result (cast_uuid (cm_ChatID m));
  uid ← of_result (cast_uuid (cm_UserID m));
  lr ← of_result (cast_uuid_opt (cm_LastReadMessageID m));
  let row := mkChatMember cid uid (cm_Role m) (sc_now ctx) lr (pg_time <$> cm_LastReadAt m)
                          (cm_IsMuted m) (cm_IsArchived m) (cm_IsPinned m) in
  insert_member_row row;;
  mret row.

(** The VALUES list of an INSERT built at run time: each tuple names its
    parameters by position ($1 is the chat), and the arguments are the
    slice passed with the text; ON CONFLICT (chat_id, user_id) DO NOTHING. *)
Definition arg (args : list string) (pos : nat) : eff DB error string :=
  match args !! (pos - 1) with
  | Some a => mret a
  | None => throw (PgError "08P01" "ERROR: bind message supplies too few parameters (SQLSTATE 08P01)")
  end.

(** The role of a tuple: a parameter or a literal of the text. *)
Inductive role_src := RoleParam (pos : nat) | RoleLit (role : string).

Definition insert_tuple (args : list string) (t : nat * role_src) (now : Time) : eff DB error () :=
  chat ← arg args 1;
  user ← arg args t.1;
  role ← match t.2 with RoleParam p => arg args p | RoleLit r => mret r end;
  cid ← of_result (cast_uuid chat);
  uid ← of_result (cast_uuid user);
  d ← get_state;
  if decide (is_Some (db_members d !! (cid, uid))) then
    fail_when (negb (role_ok role)) (check_violation "ck_chat_members_role")
  else insert_member_row (new_member cid uid role now).

Fixpoint insert_tuples (args : list string) (ts : list (nat * role_src)) (now : Time)
    : eff DB error () :=
  match ts with
  | [] => mret ()
  | t :: ts => insert_tuple args t now;; insert_tuples args ts now
  end.

Definition insert_members_values (args : list string) (ts : list (nat * role_src)) : stmt () := λ ctx,
  insert_tuples args ts (sc_now ctx).

(** DELETE FROM chat_members *)
Definition delete_member (chat uid : ID) : stmt () := λ _,
  cid ← of_result (cast_uuid chat);
  uid ← of_result (cast_uuid uid);
  d ← get_state;
  if decide (is_Some (db_members d !! (cid, uid)))
  then modify_state (set_members (delete (cid, uid) (db_members d)))
  else throw ErrNotFound.

(** ** Statement building in AddMembers and CreateGroupWithMembers *)

(** AddMembers: the loop that writes the tuples [($1, $argPos, $argPos+1)]
    and appends the two arguments. *)
Fixpoint add_members_tuples (argPos : nat) (ms : list AddChatMember)
    : list (nat * role_src) * list string :=
  match ms with
  | [] => ([], [])
  | m :: ms =>
      let '(ts, args) := add_members_tuples (argPos + 2) ms in
      ((argPos, RoleParam (argPos + 1)) :: ts, add_UserID m :: add_Role m :: args)
  end.

(** CreateGroupWithMembers: tuples [($1, $argPos, 'member')]. *)
Fixpoint group_tuples (argPos : nat) (us : list ID) : list (nat * role_src) * list string :=
  match us with
  | [] => ([], [])
  | u :: us =>
      let '(ts, args) := group_tuples (argPos + 1) us in
      ((argPos, RoleLit "member") :: ts, u :: args)
  end.

(** The text [strings.Builder] accumulates. *)
Definition tuple_sql (t : nat * role_src) : string :=
  "($1::uuid, $" +:+ pretty t.1 +:+ "::uuid, " +:+
  match t.2 with RoleParam p => "$" +:+ pretty p | RoleLit r => "'" +:+ r +:+ "'" end +:+ ")".
Definition insert_members_sql (ts : list (nat * role_src)) : string :=
  "INSERT INTO chat_members (chat_id, user_id, role) VALUES "
  +:+ String.concat ", " (map tuple_sql ts)
  +:+ " ON CONFLICT (chat_id, user_id) DO NOTHING".

(** The users to add besides the creator: no blanks, no repetition. *)
Fixpoint dedup_others (seen : gset ID) (us : list ID) : list ID :=
  match us with
  | [] => []
  | u :: us =>
      if str_empty u then dedup_others seen us
      else if decide (u ∈ seen) then dedup_others seen us
      else u :: dedup_others ({[u]} ∪ seen) us
  end.

Section chat_repository.
Context {G : UuidGen}.

Definition pg_CreateChat (c : Chat) : M Chat := call (insert_chat c).
Definition pg_CreateMember (m : ChatMember) : M ChatMember := call (insert_member m).
Definition pg_chats_GetByID (id : ID) : M Chat := call (select_chat id) ?! mapErr.
Definition pg_GetDirectByKey (key : string) : M Chat := call (select_direct key) ?! mapErr.
Definition pg_GetUserChats (uid : ID) (page : Page) : M (list Chat) :=
  let '(limit, offset) := normPage page in call (select_user_chats uid limit offset).
Definition pg_ListUserChatsSummary (uid : ID) (page : Page) : M (list ChatListRow) :=
  let '(limit, offset) := normPage page in call (select_chats_summary uid limit offset).
Definition pg_FindMembership (chat uid : ID) : M ChatMember :=
  call (select_membership chat uid) ?! mapErr.
Definition pg_GetChatMembers (chat : ID) : M (list ChatMember) := call (select_members chat).

Definition pg_AddMembers (chat : ID) (ms : list AddChatMember) : M () :=
  match ms with
  | [] => mret ()
  | _ =>
      let '(ts, args) := add_members_tuples 2 ms in
      call (insert_members_values (chat :: args) ts)
  end.

Definition pg_RemoveMember (chat uid : ID) : M () := call (delete_member chat uid).

Definition insert_group (title : string) (avatar : option string) (creator : ID) : stmt Chat :=
  insert_chat (mkChat "" "group" (Some title) avatar (Some creator) 0 0 None None false None).

Definition insert_owner (cid creator : ID) : stmt () := λ ctx,
  c ← of_result (cast_uuid cid);
  u ← of_result (cast_uuid creator);
  insert_member_row (new_member c u "owner" (sc_now ctx)).

Definition create_group_tx (title : string) (avatar : option string) (creator : ID)
    (others : list ID) : M Chat :=
  c ← tx_call (insert_group title avatar creator);
  tx_call (insert_owner (chat_ID c) creator);;
  let toAdd := dedup_others {[creator]} others in
  match toAdd with
  | [] => mret ()
  | _ =>
      let '(ts, args) := group_tuples 2 toAdd in
      tx_call (insert_members_values (chat_ID c :: args) ts)
  end;;
  mret c.

Definition pg_CreateGroupWithMembers (title : string) (avatar : option string) (creator : ID)
    (others : list ID) : M Chat :=
  transaction (create_group_tx title avatar creator others).

Definition pg_UpdateLastMessage (chat mid : ID) (at_ : Time) : M () :=
  call (update_last_message chat mid at_).
Definition pg_UpdateMemberRead (chat uid mid : ID) : M () := call (update_member_read chat uid mid).

#[export] Instance pg_chat_repository : ChatRepository := {|
  chats_CreateChat := pg_CreateChat;
  chats_CreateMember := pg_CreateMember;
  chats_GetByID := pg_chats_GetByID;
  chats_GetDirectByKey := pg_GetDirectByKey;
  chats_GetUserChats := pg_GetUserChats;
  chats_ListUserChatsSummary := pg_ListUserChatsSummary;
  chats_GetChatMembers := pg_GetChatMembers;
  chats_FindMembership := pg_FindMembership;
  chats_AddMembers := pg_AddMembers;
  chats_RemoveMember := pg_RemoveMember;
  chats_CreateGroupWithMembers := pg_CreateGroupWithMembers;
  chats_UpdateLastMessage := pg_UpdateLastMessage;
  chats_UpdateMemberRead := pg_UpdateMemberRead
|}.
End chat_repository.
