(* ===== verification/PgUsers.v ===== *)
(** * Users and refresh sessions in PostgreSQL

    repository/postgres/user_repository.go and session_repository.go. *)

From Stdlib Require Import Ascii.
From stdpp Require Import base strings gmap sets list sorting.
From S2P Require Import Prelude GoStrings Utf8 Uuid Json Errors GoTime Domain World Repository PgMessages.

(** ** Users *)

Definition email_is (email : string) (u : User) : bool :=
  String.eqb (pg_lower (user_Email u)) (pg_lower email).
Definition nickname_is (nick : string) (u : User) : bool :=
  String.eqb (pg_lower (user_Nickname u)) (pg_lower nick).

(** INSERT INTO users ... RETURNING; uq_users_email_lower is the only
    unique index besides the key. *)
Definition insert_user (u : User) : stmt User := λ ctx,
  varchar_param 320 (Some (user_Email u));;
  varchar_param 255 (Some (user_PasswordHash u));;
  varchar_param 64 (Some (user_Nickname u));;
  varchar_param 100 (user_FirstName u);;
  varchar_param 100 (user_LastName u);;
  text_param (user_AvatarURL u);;
  d ← get_state;
  fail_when (bool_decide (is_Some (db_users d !! sc_id ctx))) (unique_violation "users_pkey");;
  fail_when (bool_decide (is_Some (select1 (email_is (user_Email u)) (db_users d))))
            (unique_violation "uq_users_email_lower");;
  let row := mkUser (sc_id ctx) (user_Email u) (user_PasswordHash u) (user_Nickname u)
                    (user_FirstName u) (user_LastName u) (user_AvatarURL u)
                    (sc_now ctx) (sc_now ctx) None true in
  modify_state (set_users (<[sc_id ctx := row]> (db_users d)));;
  mret row.

Definition select_user (id : ID) : stmt User := λ _,
  uid ← of_result (cast_uuid id);
  d ← get_state;
  scan_row (db_users d !! uid).
Definition select_user_by_email (email : string) : stmt User := λ _,
  text_param (Some email);;
  d ← get_state;
  scan_row (select1 (email_is email) (db_users d)).
Definition select_user_by_nickname (nick : string) : stmt User := λ _,
  text_param (Some nick);;
  d ← get_state;
  scan_row (select1 (nickname_is nick) (db_users d)).

(** LIKE on characters: [%] any sequence, [_] any character, [\] quotes the
    next. *)
Fixpoint like_from (fuel : nat) (pat s : list Z) : bool :=
  match fuel with
  | O => false
  | S fuel =>
      let literal c p := match s with [] => false | e :: s' => (c =? e)%Z && like_from fuel p s' end in
      match pat with
      | [] => match s with [] => true | _ => false end
      | c :: p =>
          if (c =? 37)%Z then like_from fuel p s || match s with [] => false | _ :: s' => like_from fuel pat s' end
          else if (c =? 95)%Z then match s with [] => false | _ :: s' => like_from fuel p s' end
          else if (c =? 92)%Z then match p with d :: p' => literal d p' | [] => literal c p end
          else literal c p
      end
  end.
(** ILIKE: LIKE after the case folding of the collation; here that of
    Unicode's simple mapping, as a UTF-8 locale has it. *)
Definition ilike (s pat : string) : bool :=
  let s := runes (ToLower s) in let pat := runes (ToLower pat) in
  like_from (S (length pat + length s)) pat s.

Example ilike_characters :
  ilike "Зоя" "%зО_" = true ∧ ilike "bob" "B\_b" = false ∧ ilike "a_b" "%\_%" = true ∧ ilike "Zoë" "zo_" = true.
Proof. vm_compute. auto. Qed.

(** ORDER BY created_at DESC *)
Definition newest_user (a b : User) : Prop := (user_CreatedAt b ≤ user_CreatedAt a)%Z.
#[export] Instance newest_user_dec : RelDecision newest_user.
Proof. intros a b. unfold newest_user. apply _. Defined.

Definition search_match (pat : string) (u : User) : bool :=
  user_IsActive u &&
  (ilike (user_Nickname u) pat || ilike (default "" (user_FirstName u)) pat
   || ilike (default "" (user_LastName u)) pat).

(** scanUserSearchRow: the query does not select the password hash. *)
Definition search_row (u : User) : User :=
  mkUser (user_ID u) (user_Email u) "" (user_Nickname u) (user_FirstName u) (user_LastName u)
         (user_AvatarURL u) (user_CreatedAt u) (user_UpdatedAt u) (user_LastSeenAt u)
         (user_IsActive u).

Definition select_users_search (pat : string) (limit offset : Z) : stmt (list User) := λ _,
  text_param (Some pat);;
  d ← get_state;
  mret (search_row <$> take (Z.to_nat limit) (drop (Z.to_nat offset)
          (merge_sort newest_user
             (filter (λ u, search_match pat u = true) (map_to_list (db_users d)).*2)))).

Definition coalesce {A} (x : option A) (y : A) : A := default y x.

Definition set_profile (p : UpdateUserProfileParams) (now : Time) (u : User) : User :=
  mkUser (user_ID u) (user_Email u) (user_PasswordHash u)
         (coalesce (up_Nickname p) (user_Nickname u))
         (match up_FirstName p with Some s => Some s | None => user_FirstName u end)
         (match up_LastName p with Some s => Some s | None => user_LastName u end)
         (match up_AvatarURL p with Some s => Some s | None => user_AvatarURL u end)
         (user_CreatedAt u) now (user_LastSeenAt u) (user_IsActive u).

Definition update_profile (p : UpdateUserProfileParams) : stmt () := λ ctx,
  uid ← of_result (cast_uuid (up_UserID p));
  varchar_param 64 (up_Nickname p);;
  varchar_param 100 (up_FirstName p);;
  varchar_param 100 (up_LastName p);;
  text_param (up_AvatarURL p);;
  d ← get_state;
  match db_users d !! uid with
  | None => throw ErrNotFound
  | Some u => modify_state (set_users (<[uid := set_profile p (sc_now ctx) u]> (db_users d)))
  end.

(** ** Sessions *)

(** revoked_at IS NULL AND expires_at > now *)
Definition session_valid (now : Time) (s : RefreshSession) : bool :=
  match sess_RevokedAt s with Some _ => false | None => (now <? sess_ExpiresAt s)%Z end.
Definition session_is (hash : string) (now : Time) (s : RefreshSession) : bool :=
  String.eqb (sess_TokenHash s) hash && session_valid now s.

(** INSERT INTO refresh_sessions ... RETURNING *)
Definition insert_session (s : RefreshSession) : stmt RefreshSession := λ ctx,
  uid ← of_result (cast_uuid (sess_UserID s));
  varchar_param 128 (Some (sess_TokenHash s));;
  text_param (sess_UserAgent s);;
  varchar_param 45 (sess_IPAddress s);;
  d ← get_state;
  fail_when (bool_decide (is_Some (db_sessions d !! sc_id ctx))) (unique_violation "refresh_sessions_pkey");;
  fail_when (bool_decide (is_Some (select1 (λ s', String.eqb (sess_TokenHash s') (sess_TokenHash s))
                                           (db_sessions d))))
            (unique_violation "uq_refresh_sessions_token_hash");;
  fail_when (bool_decide (db_users d !! uid = None)) (fk_violation "refresh_sessions_user_id_fkey");;
  let row := mkSession (sc_id ctx) uid (sess_TokenHash s) (sess_UserAgent s) (sess_IPAddress s)
                       (pg_time (sess_ExpiresAt s)) (sc_now ctx) None in
  modify_state (set_sessions (<[sc_id ctx := row]> (db_sessions d)));;
  mret row.

Definition select_session (hash : string) (now : Time) : stmt RefreshSession := λ _,
  d ← get_state;
  scan_row (select1 (session_is hash (pg_time now)) (db_sessions d)).

Definition set_revoked (now : Time) (s : RefreshSession) : RefreshSession :=
  mkSession (sess_ID s) (sess_UserID s) (sess_TokenHash s) (sess_UserAgent s) (sess_IPAddress s)
            (sess_ExpiresAt s) (sess_CreatedAt s) (Some now).

Definition unrevoked (s : RefreshSession) : bool :=
  match sess_RevokedAt s with None => true | Some _ => false end.

(** UPDATE ... WHERE id = $1 AND revoked_at IS NULL *)
Definition revoke_session (id : ID) : stmt () := λ ctx,
  sid ← of_result (cast_uuid id);
  d ← get_state;
  match db_sessions d !! sid with
  | Some s =>
      if unrevoked s then modify_state (set_sessions (<[sid := set_revoked (sc_now ctx) s]> (db_sessions d)))
      else throw ErrNotFound
  | None => throw ErrNotFound
  end.

(** UPDATE ... WHERE user_id = $1 AND revoked_at IS NULL *)
Definition revoke_user_sessions (user : ID) : stmt () := λ ctx,
  uid ← of_result (cast_uuid user);
  modify_state (λ d, set_sessions
    ((λ s, if String.eqb (sess_UserID s) uid && unrevoked s then set_revoked (sc_now ctx) s else s)
       <$> db_sessions d) d).

(** SELECT id ... WHERE token_hash = $1 AND revoked_at IS NULL AND expires_at > now() FOR UPDATE *)
Definition select_session_for_update (hash : string) : stmt ID := λ ctx,
  d ← get_state;
  scan_row (sess_ID <$> select1 (session_is hash (sc_now ctx)) (db_sessions d)).

(** UPDATE refresh_sessions SET revoked_at = now() WHERE id = $1 *)
Definition set_session_revoked (id : ID) : stmt () := λ ctx,
  sid ← of_result (cast_uuid id);
  modify_state (λ d, set_sessions (alter (set_revoked (sc_now ctx)) sid (db_sessions d)) d).

Section user_repository.
Context {G : UuidGen}.

Definition pg_users_Create (u : User) : M User := call (insert_user u).
Definition pg_users_GetByID (id : ID) : M User := call (select_user id) ?! mapErr.
Definition pg_GetByEmail (email : string) : M User := call (select_user_by_email email) ?! mapErr.
Definition pg_GetByNickname (nick : string) : M User :=
  call (select_user_by_nickname nick) ?! mapErr.

Definition pg_Search (query : string) (page : Page) : M (list User) :=
  let '(limit, offset) := normPage page in
  let pattern := "%" +:+ TrimSpace query +:+ "%" in
  let pattern := if String.eqb pattern "%%" then "%" else pattern in
  call (select_users_search pattern limit offset).

Definition pg_UpdateProfile (p : UpdateUserProfileParams) : M () := call (update_profile p).

#[export] Instance pg_user_repository : UserRepository := {|
  users_Create := pg_users_Create;
  users_GetByID := pg_users_GetByID;
  users_GetByEmail := pg_GetByEmail;
  users_GetByNickname := pg_GetByNickname;
  users_Search := pg_Search;
  users_UpdateProfile := pg_UpdateProfile
|}.

Definition pg_sessions_Create (s : RefreshSession) : M RefreshSession := call (insert_session s).

Definition pg_GetByTokenHash (hash : string) : M RefreshSession :=
  now ← time_now;
  call (select_session hash now) ?! mapErr.

Definition pg_Revoke (id : ID) : M () := call (revoke_session id).
Definition pg_RevokeAllByUser (user : ID) : M () := call (revoke_user_sessions user).

Definition rotate_refresh_tx (oldHash : string) (newSess : RefreshSession) : M RefreshSession :=
  oldID ← tx_call (select_session_for_update oldHash) ?! mapErr;
  tx_call (set_session_revoked oldID);;
  tx_call (insert_session newSess).

Definition pg_RotateRefresh (oldHash : string) (newSess : RefreshSession) : M RefreshSession :=
  transaction (rotate_refresh_tx oldHash newSess).

#[export] Instance pg_session_repository : SessionRepository := {|
  sessions_Create := pg_sessions_Create;
  sessions_GetByTokenHash := pg_GetByTokenHash;
  sessions_Revoke := pg_Revoke;
  sessions_RevokeAllByUser := pg_RevokeAllByUser;
  sessions_RotateRefresh := pg_RotateRefresh
|}.
End user_repository.
