(* ===== verification/Rows.v ===== *)
(** * Rows and their scanning

    The tables of internal/migration/*.sql as data, the SELECT and
    RETURNING lists of repository/postgres, and the functions that scan a
    row into an entity by position.  The statements of PgMessages, PgChats
    and PgUsers give entities directly; this file shows that the lists, the
    scanners and the schema agree, so that they may.  [Scan] of pgx is a
    parameter: what it stores in a destination of each type. *)

From Stdlib Require Import Ascii.
From stdpp Require Import base strings list.
From S2P Require Import Prelude GoStrings Utf8 Json Errors GoTime Domain World Repository PgMessages PgChats PgUsers.

(** ** The schema *)
Inductive sql_type : Type :=
| uuid | text | varchar (n : nat) | timestamptz | boolean | bigserial | int | jsonb.
Record column := mkColumn { co_name : string; co_type : sql_type; co_not_null : bool }.
Definition col (name : string) (t : sql_type) : column := mkColumn name t false.
Definition not_null (name : string) (t : sql_type) : column := mkColumn name t true.

Definition users : list column :=
  [not_null "id" uuid; not_null "email" (varchar 320); not_null "password_hash" (varchar 255);
   not_null "nickname" (varchar 64); col "first_name" (varchar 100); col "last_name" (varchar 100);
   col "avatar_url" text; not_null "created_at" timestamptz; not_null "updated_at" timestamptz;
   col "last_seen_at" timestamptz; not_null "is_active" boolean].
Definition chats : list column :=
  [not_null "id" uuid; not_null "type" text; col "title" (varchar 255); col "avatar_url" text;
   col "created_by" uuid; not_null "created_at" timestamptz; not_null "updated_at" timestamptz;
   col "last_message_id" uuid; col "last_message_at" timestamptz; not_null "is_deleted" boolean;
   col "direct_key" (varchar 64)].
Definition chat_members : list column :=
  [not_null "chat_id" uuid; not_null "user_id" uuid; not_null "role" text; not_null "joined_at" timestamptz;
   col "last_read_message_id" uuid; col "last_read_at" timestamptz; not_null "is_muted" boolean;
   not_null "is_archived" boolean; not_null "is_pinned" boolean].
Definition messages : list column :=
  [not_null "id" uuid; not_null "chat_id" uuid; not_null "sender_id" uuid; not_null "type" text; col "text" text;
   col "reply_to_id" uuid; not_null "created_at" timestamptz; not_null "updated_at" timestamptz;
   col "deleted_at" timestamptz].
Definition refresh_sessions : list column :=
  [not_null "id" uuid; not_null "user_id" uuid; not_null "token_hash" (varchar 128); col "user_agent" text;
   col "ip_address" (varchar 45); not_null "expires_at" timestamptz; not_null "created_at" timestamptz;
   col "revoked_at" timestamptz].
Definition outbox_events : list column :=
  [not_null "id" bigserial; not_null "event_id" uuid; not_null "event_type" text; not_null "aggregate_type" text;
   not_null "aggregate_id" text; col "chat_id" uuid; not_null "occurred_at" timestamptz; not_null "version" int;
   not_null "payload" jsonb; col "published_at" timestamptz; not_null "created_at" timestamptz].

(** ** Values *)
Inductive datum : Type :=
| DNull
| DUuid (s : ID)
| DText (s : string)
| DTime (t : Time)
| DBool (b : bool)
| DInt (z : Z)
| DJson (j : json).
Definition nullable {A} (inj : A → datum) (o : option A) : datum := from_option inj DNull o.

(** The values of a type; a varchar is bounded in characters. *)
Definition of_type (t : sql_type) (d : datum) : Prop :=
  match t, d with
  | uuid, DUuid _ | text, DText _ | timestamptz, DTime _ | boolean, DBool _
  | bigserial, DInt _ | int, DInt _ | jsonb, DJson _ => True
  | varchar n, DText s => (RuneCount s ≤ n)%nat
  | _, _ => False
  end.
(** A row, by the names of its columns, and the rows a table can hold. *)
Definition row : Type := string → datum.
Definition fits (r : row) (c : column) : Prop :=
  of_type (co_type c) (r (co_name c)) ∨ (co_not_null c = false ∧ r (co_name c) = DNull).
Definition conforms (table : list column) (r : row) : Prop := Forall (fits r) table.

(** ** SELECT and RETURNING lists

    An item names a column, possibly of an alias and cast to text. *)
Definition item_name (item : string) : string :=
  let item := TrimSpace item in
  let item := match index_byte "."%char item with Some i => str_drop (S i) item | None => item end in
  if HasSuffix item "::text" then str_take (String.length item - 6) item else item.
Definition item_cast (item : string) : bool := HasSuffix (TrimSpace item) "::text".
Definition to_text (d : datum) : datum := match d with DUuid s => DText s | d => d end.
Definition item_value (r : row) (item : string) : datum :=
  (if item_cast item then to_text else id) (r (item_name item)).
Definition select (items : string) (r : row) : list datum := item_value r <$> Split items ","%char.

Definition chat_items : string :=
  "id::text, type, title, avatar_url, created_by::text, created_at, updated_at, last_message_id::text, last_message_at, is_deleted, direct_key".
Definition chat_alias_items : string :=
  "c.id::text, c.type, c.title, c.avatar_url, c.created_by::text, c.created_at, c.updated_at, c.last_message_id::text, c.last_message_at, c.is_deleted, c.direct_key".
Definition member_items : string :=
  "chat_id::text, user_id::text, role, joined_at, last_read_message_id::text, last_read_at, is_muted, is_archived, is_pinned".
Definition message_items : string :=
  "id::text, chat_id::text, sender_id::text, type, text, reply_to_id::text, created_at, updated_at, deleted_at".
Definition message_alias_items : string :=
  "m.id::text, m.chat_id::text, m.sender_id::text, m.type, m.text, m.reply_to_id::text, m.created_at, m.updated_at, m.deleted_at".
Definition preview_items : string := "lm.text, lm.type, lm.sender_id::text, lm.created_at".
Definition session_items : string :=
  "id::text, user_id::text, token_hash, user_agent, ip_address, expires_at, created_at, revoked_at".
Definition user_items : string :=
  "id::text, email, password_hash, nickname, first_name, last_name, avatar_url, created_at, updated_at, last_seen_at, is_active".
Definition user_search_items : string :=
  "id::text, email, nickname, first_name, last_name, avatar_url, created_at, updated_at, last_seen_at, is_active".
Definition outbox_items : string :=
  "id, event_id::text, event_type, aggregate_type, aggregate_id, chat_id::text, occurred_at, version, payload".

(** ** Scanning *)

(** What [Scan] stores in a destination, by its Go type. *)
Class Scanner := {
  to_string : datum → result error string;
  to_string_ptr : datum → result error (option string);
  to_time : datum → result error Time;
  to_time_ptr : datum → result error (option Time);
  to_bool : datum → result error bool;
  to_int : datum → result error Z;
  to_bytes : datum → result error json
}.
(** Its documentation: a value goes to a destination of its type, NULL to a
    pointer only, which it sets to nil. *)
Class ScannerLaws (S : Scanner) := {
  law_string s : to_string (DText s) = Ok s;
  law_string_ptr o : to_string_ptr (nullable DText o) = Ok o;
  law_time t : to_time (DTime t) = Ok t;
  law_time_ptr o : to_time_ptr (nullable DTime o) = Ok o;
  law_bool b : to_bool (DBool b) = Ok b;
  law_int z : to_int (DInt z) = Ok z;
  law_bytes j : to_bytes (DJson j) = Ok j;
  law_null : is_ok (to_string DNull) = false ∧ is_ok (to_time DNull) = false ∧ is_ok (to_bool DNull) = false
             ∧ is_ok (to_int DNull) = false ∧ is_ok (to_bytes DNull) = false
}.

Section scan.
Context {S : Scanner}.

(** The columns left to scan. *)
Abbreviation scanning A := (eff (list datum) error A).
Definition next {A} (f : datum → result error A) : scanning A := λ ds,
  match ds with
  | [] => (Err (ErrPlain "number of field descriptions must equal number of destinations"), [])
  | d :: ds => (f d, ds)
  end.
(** [row.Scan(dests...)]: as many destinations as columns. *)
Definition Scan {A} (m : scanning A) (ds : list datum) : result error A :=
  match m ds with
  | (Ok a, []) => Ok a
  | (Ok _, _) => Err (ErrPlain "number of field descriptions must equal number of destinations")
  | (Err e, _) => Err e
  end.

Definition chat_destinations : scanning Chat :=
  id ← next to_string;
  typ ← next to_string;
  title ← next to_string_ptr;
  avatar ← next to_string_ptr;
  createdBy ← next to_string_ptr;
  createdAt ← next to_time;
  updatedAt ← next to_time;
  lastMsg ← next to_string_ptr;
  lastAt ← next to_time_ptr;
  deleted ← next to_bool;
  directKey ← next to_string_ptr;
  mret (mkChat id typ title avatar createdBy createdAt updatedAt lastMsg lastAt deleted directKey).
Definition scanChat (ds : list datum) : result error Chat := Scan chat_destinations ds.

(** The columns of the last message, if one is joined, and the count of
    unread messages. *)
Definition scanChatListRow (ds : list datum) : result error ChatListRow := Scan (
  c ← chat_destinations;
  previewText ← next to_string_ptr;
  previewType ← next to_string_ptr;
  previewSender ← next to_string_ptr;
  previewAt ← next to_time_ptr;
  unread ← next to_int;
  mret (mkChatListRow c previewText previewType previewSender previewAt unread)) ds.

Definition scanChatMember (ds : list datum) : result error ChatMember := Scan (
  chatID ← next to_string;
  userID ← next to_string;
  role ← next to_string;
  joined ← next to_time;
  lastRead ← next to_string_ptr;
  lastAt ← next to_time_ptr;
  muted ← next to_bool;
  archived ← next to_bool;
  pinned ← next to_bool;
  mret (mkChatMember chatID userID role joined lastRead lastAt muted archived pinned)) ds.

Definition scanMessage (ds : list datum) : result error Message := Scan (
  id ← next to_string;
  chatID ← next to_string;
  senderID ← next to_string;
  typ ← next to_string;
  txt ← next to_string_ptr;
  replyID ← next to_string_ptr;
  createdAt ← next to_time;
  updatedAt ← next to_time;
  deletedAt ← next to_time_ptr;
  mret (mkMessage id chatID senderID typ txt replyID createdAt updatedAt deletedAt)) ds.

Definition scanSession (ds : list datum) : result error RefreshSession := Scan (
  id ← next to_string;
  userID ← next to_string;
  hash ← next to_string;
  agent ← next to_string_ptr;
  ip ← next to_string_ptr;
  expires ← next to_time;
  created ← next to_time;
  revoked ← next to_time_ptr;
  mret (mkSession id userID hash agent ip expires created revoked)) ds.

Definition scanUser (ds : list datum) : result error User := Scan (
  id ← next to_string;
  email ← next to_string;
  hash ← next to_string;
  nick ← next to_string;
  first ← next to_string_ptr;
  last ← next to_string_ptr;
  avatar ← next to_string_ptr;
  created ← next to_time;
  updated ← next to_time;
  seen ← next to_time_ptr;
  active ← next to_bool;
  mret (mkUser id email hash nick first last avatar created updated seen active)) ds.
Definition scanUserSearchRow (ds : list datum) : result error User := Scan (
  id ← next to_string;
  email ← next to_string;
  nick ← next to_string;
  first ← next to_string_ptr;
  last ← next to_string_ptr;
  avatar ← next to_string_ptr;
  created ← next to_time;
  updated ← next to_time;
  seen ← next to_time_ptr;
  active ← next to_bool;
  mret (mkUser id email "" nick first last avatar created updated seen active)) ds.

Definition scanOutboxRow (ds : list datum) : result error OutboxRow := Scan (
  id ← next to_int;
  event ← next to_string;
  typ ← next to_string;
  aggType ← next to_string;
  agg ← next to_string;
  chat ← next to_string_ptr;
  at_ ← next to_time;
  version ← next to_int;
  payload ← next to_bytes;
  mret (mkOutboxRow id event typ aggType agg chat at_ version payload)) ds.
End scan.

(** ** The rows of entities *)
Fixpoint row_of (kvs : list (string * datum)) : row := λ n,
  match kvs with
  | [] => DNull
  | (k, d) :: kvs => if String.eqb k n then d else row_of kvs n
  end.
Definition chat_values (c : Chat) : row := row_of
  [("id", DUuid (chat_ID c)); ("type", DText (chat_Type c)); ("title", nullable DText (chat_Title c));
   ("avatar_url", nullable DText (chat_AvatarURL c)); ("created_by", nullable DUuid (chat_CreatedBy c));
   ("created_at", DTime (chat_CreatedAt c)); ("updated_at", DTime (chat_UpdatedAt c));
   ("last_message_id", nullable DUuid (chat_LastMessageID c)); ("last_message_at", nullable DTime (chat_LastMessageAt c));
   ("is_deleted", DBool (chat_IsDeleted c)); ("direct_key", nullable DText (chat_DirectKey c))].
Definition member_values (m : ChatMember) : row := row_of
  [("chat_id", DUuid (cm_ChatID m)); ("user_id", DUuid (cm_UserID m)); ("role", DText (cm_Role m));
   ("joined_at", DTime (cm_JoinedAt m)); ("last_read_message_id", nullable DUuid (cm_LastReadMessageID m));
   ("last_read_at", nullable DTime (cm_LastReadAt m)); ("is_muted", DBool (cm_IsMuted m));
   ("is_archived", DBool (cm_IsArchived m)); ("is_pinned", DBool (cm_IsPinned m))].
Definition message_values (m : Message) : row := row_of
  [("id", DUuid (msg_ID m)); ("chat_id", DUuid (msg_ChatID m)); ("sender_id", DUuid (msg_SenderID m));
   ("type", DText (msg_Type m)); ("text", nullable DText (msg_Text m)); ("reply_to_id", nullable DUuid (msg_ReplyToID m));
   ("created_at", DTime (msg_CreatedAt m)); ("updated_at", DTime (msg_UpdatedAt m));
   ("deleted_at", nullable DTime (msg_DeletedAt m))].
Definition session_values (s : RefreshSession) : row := row_of
  [("id", DUuid (sess_ID s)); ("user_id", DUuid (sess_UserID s)); ("token_hash", DText (sess_TokenHash s));
   ("user_agent", nullable DText (sess_UserAgent s)); ("ip_address", nullable DText (sess_IPAddress s));
   ("expires_at", DTime (sess_ExpiresAt s)); ("created_at", DTime (sess_CreatedAt s));
   ("revoked_at", nullable DTime (sess_RevokedAt s))].
Definition user_values (u : User) : row := row_of
  [("id", DUuid (user_ID u)); ("email", DText (user_Email u)); ("password_hash", DText (user_PasswordHash u));
   ("nickname", DText (user_Nickname u)); ("first_name", nullable DText (user_FirstName u));
   ("last_name", nullable DText (user_LastName u)); ("avatar_url", nullable DText (user_AvatarURL u));
   ("created_at", DTime (user_CreatedAt u)); ("updated_at", DTime (user_UpdatedAt u));
   ("last_seen_at", nullable DTime (user_LastSeenAt u)); ("is_active", DBool (user_IsActive u))].
Definition outbox_values (o : OutboxRec) : row := row_of
  [("id", DInt (ob_id o)); ("event_id", DUuid (ob_event_id o)); ("event_type", DText (ob_event_type o));
   ("aggregate_type", DText (ob_aggregate_type o)); ("aggregate_id", DText (ob_aggregate_id o));
   ("chat_id", nullable DUuid (ob_chat_id o)); ("occurred_at", DTime (ob_occurred_at o));
   ("version", DInt (ob_version o)); ("payload", DJson (ob_payload o));
   ("published_at", nullable DTime (ob_published_at o)); ("created_at", DTime (ob_created_at o))].

(** Two rows agree on the columns of a table. *)
Definition agree (table : list column) (r1 r2 : row) : Prop := Forall (λ c, r1 (co_name c) = r2 (co_name c)) table.

(** ** The lists, the scanners and the schema agree *)

(** What a row that fits holds in a column. *)
Definition holds (c : column) (d : datum) : Prop :=
  let value {A} (inj : A → datum) := if co_not_null c then ∃ x, d = inj x else ∃ o, d = nullable inj o in
  match co_type c with
  | uuid => value DUuid
  | text | varchar _ => value DText
  | timestamptz => value DTime
  | boolean => value DBool
  | bigserial | int => value DInt
  | jsonb => value DJson
  end.
Lemma fits_holds r c : fits r c → holds c (r (co_name c)).
Proof.
  unfold fits, holds. destruct (r (co_name c)) as [|x|x|x|x|x|x] eqn:E; destruct (co_type c), (co_not_null c); simpl;
    intros [H|[H1 H2]]; try done; first [by exists x|by exists (Some x)|by exists None].
Qed.

Lemma to_text_nullable o : to_text (nullable DUuid o) = nullable DText o.
Proof. by destruct o. Qed.

Section scan_lemmas.
Context {S : Scanner} {SL : ScannerLaws S}.

(** Every row the table can hold is, on its columns, the row of an entity. *)
Definition represents {A} (table : list column) (enc : A → row) : Prop :=
  ∀ r, conforms table r → ∃ a, agree table (enc a) r.
(** Scanning the items of the row of an entity gives it, seen by [f]. *)
Definition reads {A B} (table : list column) (enc : A → row) (items : string) (scan : list datum → result error B)
    (f : A → B) : Prop :=
  ∀ a r, agree table (enc a) r → scan (select items r) = Ok (f a).

Ltac unfold_tables H := unfold users, chats, chat_members, messages, refresh_sessions, outbox_events in H.
(** The columns of the table, one by one. *)
Ltac columns H := unfold agree in H; unfold_tables H; repeat (apply Forall_cons in H as [? H]); clear H.
Ltac represents_tac :=
  intros r H; unfold conforms in H; unfold_tables H;
  repeat match type of H with
  | Forall _ (_ :: _) =>
      let Hc := fresh "Hc" in apply Forall_cons in H as [Hc H]; apply fits_holds in Hc; cbn in Hc; destruct Hc as [? Hc]
  end;
  unshelve eexists; [econstructor; shelve|];
  unfold agree, users, chats, chat_members, messages, refresh_sessions, outbox_events;
  repeat (apply Forall_cons; split; [cbn; symmetry; eassumption|]); apply Forall_nil_2.

(** The values of a list of items. *)
Lemma select_items items r l :
  (λ i, (item_cast i, item_name i)) <$> Split items ","%char = l →
  select items r = (λ '(b, n), (if b : bool then to_text else id) (r n)) <$> l.
Proof. intros <-. unfold select, item_value. by rewrite <- list_fmap_compose. Qed.
Ltac select_tac := erewrite !select_items by (vm_compute; reflexivity); cbn [fmap list_fmap app].
Ltac scan_tac :=
  select_tac;
  repeat match goal with H : _ = ?r _ |- context [?r _] => rewrite <- !H end;
  cbn [to_text id]; rewrite ?to_text_nullable;
  unfold Scan, chat_destinations, mbind, eff_bind, next, mret, eff_ret;
  repeat (rewrite ?law_string, ?law_string_ptr, ?law_time, ?law_time_ptr, ?law_bool, ?law_int, ?law_bytes; cbv beta iota);
  try reflexivity.
Ltac reads_tac H := columns H; cbn in * |-; scan_tac.

Lemma tables_represented :
  represents chats chat_values ∧ represents chat_members member_values ∧ represents messages message_values
  ∧ represents refresh_sessions session_values ∧ represents users user_values ∧ represents outbox_events outbox_values.
Proof. split_and!; represents_tac. Qed.

Lemma chat_reads : reads chats chat_values chat_items scanChat id ∧ reads chats chat_values chat_alias_items scanChat id.
Proof. split; intros c r H; unfold scanChat; reads_tac H; by destruct c. Qed.
Lemma member_reads : reads chat_members member_values member_items scanChatMember id.
Proof. intros m r H; unfold scanChatMember; reads_tac H; by destruct m. Qed.
Lemma message_reads :
  reads messages message_values message_items scanMessage id ∧ reads messages message_values message_alias_items scanMessage id.
Proof. split; intros m r H; unfold scanMessage; reads_tac H; by destruct m. Qed.
Lemma session_reads : reads refresh_sessions session_values session_items scanSession id.
Proof. intros x r H; unfold scanSession; reads_tac H; by destruct x. Qed.
Lemma user_reads :
  reads users user_values user_items scanUser id
  ∧ reads users user_values user_search_items scanUserSearchRow search_row.
Proof. split; intros u r H; unfold scanUser, scanUserSearchRow; reads_tac H; by destruct u. Qed.
Lemma outbox_reads : reads outbox_events outbox_values outbox_items scanOutboxRow outbox_row.
Proof. intros o r H; unfold scanOutboxRow; reads_tac H. Qed.

(** A row of the LEFT JOIN: a message, or nothing. *)
Definition joined (lm : option Message) (r : row) : Prop :=
  match lm with Some m => agree messages (message_values m) r | None => ∀ n, r n = DNull end.
Lemma list_row_reads d c mem r r' :
  agree chats (chat_values c) r → joined (last_preview d c) r' →
  scanChatListRow (select chat_alias_items r ++ select preview_items r'
                   ++ [DInt (unread_count d (chat_ID c) (cm_LastReadMessageID mem))])
  = Ok (chat_list_row d (c, mem)).
Proof.
  unfold chat_list_row. intros H Hl. generalize dependent (last_preview d c). intros lm Hl.
  unfold scanChatListRow. columns H. cbn in * |-.
  assert (select preview_items r' = [nullable DText (lm ≫= msg_Text); nullable DText (msg_Type <$> lm);
            nullable DText (msg_SenderID <$> lm); nullable DTime (msg_CreatedAt <$> lm)]) as ->.
  { destruct lm as [m|]; simpl in Hl.
    - columns Hl. cbn in * |-. select_tac. repeat match goal with H : _ = r' _ |- _ => rewrite <- H; clear H end. done.
    - select_tac. by rewrite !Hl. }
  scan_tac. by destruct c.
Qed.
End scan_lemmas.

(** C31.  The SELECT and RETURNING lists, the scanners and the schema agree.
    Every row a table can hold, given its types and NOT NULL constraints,
    is the row of an entity; scanning the columns of each query, in their
    order, never fails on such a row and gives exactly that entity (the
    users found by a search without their hash, the pending events without
    their publication time, a chat of the list with its last message, if
    it has a live one, and the count of unread messages). *)
Theorem rows_scanned {S : Scanner} {SL : ScannerLaws S} :
  (represents chats chat_values ∧ represents chat_members member_values ∧ represents messages message_values
   ∧ represents refresh_sessions session_values ∧ represents users user_values ∧ represents outbox_events outbox_values)
  ∧ (reads chats chat_values chat_items scanChat id ∧ reads chats chat_values chat_alias_items scanChat id
     ∧ reads chat_members member_values member_items scanChatMember id
     ∧ reads messages message_values message_items scanMessage id
     ∧ reads messages message_values message_alias_items scanMessage id
     ∧ reads refresh_sessions session_values session_items scanSession id
     ∧ reads users user_values user_items scanUser id
     ∧ reads users user_values user_search_items scanUserSearchRow search_row
     ∧ reads outbox_events outbox_values outbox_items scanOutboxRow outbox_row)
  ∧ ∀ d c mem r r', agree chats (chat_values c) r → joined (last_preview d c) r' →
      scanChatListRow (select chat_alias_items r ++ select preview_items r'
                       ++ [DInt (unread_count d (chat_ID c) (cm_LastReadMessageID mem))])
      = Ok (chat_list_row d (c, mem)).
Proof.
  split; [apply tables_represented|]. split; [|apply list_row_reads].
  destruct chat_reads as [H1 H2], message_reads as [H3 H4], user_reads as [H5 H6].
  exact (conj H1 (conj H2 (conj member_reads (conj H3 (conj H4 (conj session_reads (conj H5 (conj H6 outbox_reads)))))))).
Qed.

(** A scanner that behaves as documented, and the row of a message. *)
Definition wrong_type {A} : result error A := Err (ErrPlain "cannot scan").
#[export] Instance toy_scanner : Scanner := {|
  to_string d := match d with DText s => Ok s | _ => wrong_type end;
  to_string_ptr d := match d with DNull => Ok None | DText s => Ok (Some s) | _ => wrong_type end;
  to_time d := match d with DTime t => Ok t | _ => wrong_type end;
  to_time_ptr d := match d with DNull => Ok None | DTime t => Ok (Some t) | _ => wrong_type end;
  to_bool d := match d with DBool b => Ok b | _ => wrong_type end;
  to_int d := match d with DInt z => Ok z | _ => wrong_type end;
  to_bytes d := match d with DJson j => Ok j | _ => wrong_type end
|}.
#[export] Instance toy_scanner_laws : ScannerLaws toy_scanner.
Proof. split; try done; by intros []. Qed.

Lemma rows_scanned_witness :
  let m := mkMessage "m1" "c1" "u1" "text" (Some "hello") None 17 18 None in
  conforms messages (message_values m) ∧ scanMessage (select message_items (message_values m)) = Ok m
  ∧ is_ok (scanChat (select message_items (message_values m))) = false.
Proof.
  intros m. destruct (rows_scanned (S := toy_scanner)) as (_ & (_ & _ & _ & H & _) & _).
  split; [|split; [|vm_compute; reflexivity]].
  { unfold conforms, messages. repeat (apply Forall_cons; split; [first [left; exact I|right; by split]|]). apply Forall_nil_2. }
  apply (H m). repeat constructor.
Defined.
