(* ===== verification/Guarantee.v ===== *)
(** * Guarantees

    What an operation does to the tables whatever happens around it:
    [guar R m] says that, as long as the other processes only take steps in
    [R], running [m] takes the tables along [R], whether [m] succeeds, fails
    or is interrupted by the database.  [R] is a preorder; taking for [R]
    the equivalence of databases, [guar R m] says that [m] only reads. *)

From stdpp Require Import base strings gmap list.
From S2P Require Import Prelude Uuid Json Errors Domain Hub Metrics World Repository PgMessages.

(** ** The relation and its environment

    [R] has to hold between a state and the state a rollback leaves: the
    same tables, the sequence where the transaction had taken it. *)
Class Guarantee (R : relation DB) := {
  guarantee_preorder :: PreOrder R;
  guarantee_rollback d d' : R d d' → R d (set_outbox_seq (db_outbox_seq d') d)
}.

Definition env (R : relation DB) (w : World) : Prop :=
  Forall (λ e, ∀ d, R d (ev_step e d)) (w_sched w).

Definition stmt_guar {A} (R : relation DB) (f : stmt A) : Prop :=
  ∀ ctx d a d', canonical (sc_id ctx) → f ctx d = (Ok a, d') → R d d'.

(** The schedule only shrinks, and the hub and the samples of the HTTP
    middleware are left alone: what holds of the remaining events, of the
    hub and of those samples goes on holding. *)
Definition later (w w' : World) : Prop :=
  ∀ (P : event → Prop) (H : Hub → samples → Prop),
    Forall P (w_sched w) ∧ H (w_hub w) (http_samples (w_metrics w)) →
    Forall P (w_sched w') ∧ H (w_hub w') (http_samples (w_metrics w')).

#[export] Instance later_preorder : PreOrder later.
Proof. split; unfold later; [by intros ????|]. intros w1 w2 w3 H1 H2 P H HP. auto. Qed.

Lemma later_hub w w' : later w w' → w_hub w' = w_hub w.
Proof. intros H. apply (H (λ _, True) (λ h _, h = w_hub w)). split; [by apply Forall_true|done]. Qed.
Lemma later_sched w w' P : later w w' → Forall P (w_sched w) → Forall P (w_sched w').
Proof. intros H HP. by apply (H P (λ _ _, True)). Qed.
Lemma later_http w w' : later w w' → http_samples (w_metrics w') = http_samples (w_metrics w).
Proof.
  intros H. apply (H (λ _, True) (λ _ m, m = http_samples (w_metrics w))). split; [by apply Forall_true|done].
Qed.

Lemma env_later R w w' : env R w → later w w' → env R w'.
Proof. intros H Hl. by eapply later_sched. Qed.

Definition guar {A} (R : relation DB) (m : M A) : Prop :=
  ∀ w r w', env R w → m w = (r, w') → R (w_db w) (w_db w') ∧ later w w'.

Create HintDb guar.

Section guarantee.
Context {G : UuidGen} {GL : UuidGenLaws G} {R : relation DB} {HR : Guarantee R}.

Lemma env_next w e w1 : env R w → next_event w = (e, w1) → R (w_db w) (w_db w1) ∧ later w w1.
Proof.
  unfold env, later, next_event. destruct (w_sched w) as [|e' es] eqn:Es.
  - intros _ [= <- <-]. rewrite Es. split; [reflexivity|done].
  - intros [He Hes]%Forall_cons [= <- <-]. split; [apply He|]. by intros P H [[_ HP]%Forall_cons ?].
Qed.

Lemma tx_later w e w1 : tx_event w = (e, w1) → later w w1.
Proof.
  unfold later, tx_event. destruct (w_sched w) as [|e' es] eqn:Es; intros [= <- <-].
  - by rewrite Es.
  - by intros P H [[_ HP]%Forall_cons ?].
Qed.

Lemma guar_ret {A} (a : A) : guar R (mret a).
Proof. intros w r w' Hw [= <- <-]. split; [reflexivity|by intros P]. Qed.

Lemma guar_throw {A} (e : error) : guar R (throw (A:=A) e).
Proof. intros w r w' Hw [= <- <-]. split; [reflexivity|by intros P]. Qed.

Lemma guar_of_result {A} (x : result error A) : guar R (of_result x).
Proof. intros w r w' Hw [= <- <-]. split; [reflexivity|by intros P]. Qed.

Lemma guar_fail_when b e : guar R (fail_when b e).
Proof. unfold fail_when. destruct b; [apply guar_throw|apply guar_ret]. Qed.

Lemma guar_bind {A B} (m : M A) (k : A → M B) :
  guar R m → (∀ a, guar R (k a)) → guar R (m ≫= k).
Proof.
  intros Hm Hk w r w' Hw [(a & w1 & H1 & H2)|(e & H1 & ->)]%bind_inv.
  - apply Hm in H1 as [H1 Hw1]; [|done].
    apply Hk in H2 as [H2 Hw2]; [|by eapply env_later]. split; by etransitivity.
  - by apply Hm in H1.
Qed.

(** The same, with what a success of [m] says of its value. *)
Lemma guar_bind_post {A B} (Q : A → Prop) (m : M A) (k : A → M B) :
  guar R m → (∀ w a w', m w = (Ok a, w') → Q a) → (∀ a, Q a → guar R (k a)) → guar R (m ≫= k).
Proof.
  intros Hm HQ Hk w r w' Hw [(a & w1 & H1 & H2)|(e & H1 & ->)]%bind_inv; [|by apply Hm in H1].
  apply HQ in H1 as Ha. apply Hm in H1 as [H1 Hw1]; [|done].
  apply (Hk a Ha) in H2 as [H2 Hw2]; [|by eapply env_later]. split; by etransitivity.
Qed.

Lemma guar_map_err {A} (m : M A) f : guar R m → guar R (map_err f m).
Proof. intros Hm w r w' Hw [(a & -> & H)|(e & -> & H)]%map_err_inv; by apply Hm in H. Qed.

Lemma guar_attempt {A} (m : M A) : guar R m → guar R (attempt m).
Proof.
  intros Hm w r w' Hw. unfold attempt. destruct (m w) as [r1 w1] eqn:E.
  intros [= <- <-]. by apply Hm in E.
Qed.

Lemma guar_time_now : guar R time_now.
Proof. intros w r w' Hw [= <- <-]. split; [reflexivity|by intros P]. Qed.

Lemma guar_NewString : guar R NewString.
Proof. intros w r w' Hw [= <- <-]. split; [reflexivity|by intros P]. Qed.

Lemma guar_sample c vs n : is_http c = false → guar R (sample c vs n).
Proof.
  intros Hc w r w' Hw [= <- <-]. split; [reflexivity|]. intros P H. simpl. by rewrite http_samples_other.
Qed.
Lemma guar_inc_if b c : is_http c = false → guar R (inc_if b c).
Proof. intros Hc. unfold inc_if. destruct b; [by apply guar_sample|apply guar_ret]. Qed.
Lemma guar_inc_with {P : Prometheus} b v vs : is_http v = false → guar R (inc_with_if b v vs).
Proof.
  intros Hc. unfold inc_with_if, inc_with. destruct b; [|apply guar_ret].
  apply guar_bind; [apply guar_of_result|intros; by apply guar_sample].
Qed.

(** A request to another server. *)
Lemma guar_remote {A} (f : Time → World → A * World) :
  (∀ now w, w_db (f now w).2 = w_db w ∧ w_sched (f now w).2 = w_sched w ∧ w_hub (f now w).2 = w_hub w ∧ w_metrics (f now w).2 = w_metrics w) →
  guar R (remote_call f).
Proof.
  intros Hf w r w' Hw Hrun%remote_call_inv. destruct (next_event w) as [e w1] eqn:E. simpl in Hrun.
  apply env_next in E as [H1 Hl]; [|done]. destruct (Hf (w_now w1) w1) as (Hd & Hs & Hh & Hm).
  destruct Hrun as [(a & _ & Ha)|(m & _ & [->| ->])]; [rewrite Ha in Hd, Hs, Hh, Hm; simpl in Hd, Hs, Hh, Hm|done|];
    (rewrite Hd; split; [done|]; etransitivity; [exact Hl|]; intros P H; by rewrite Hs, Hh, Hm).
Qed.

Lemma run_stmt_guar {A} (f : stmt A) e w r w' :
  stmt_guar R f → run_stmt f e w = (r, w') → R (w_db w) (w_db w') ∧ later w w'.
Proof.
  intros Hf. destruct r as [a|x].
  - intros (d & Hd & ->)%run_stmt_Ok. split; [eapply Hf; [|exact Hd]; apply gen_uuid_canonical|by intros P].
  - intros [->|(a & d & Hd & ->)]%run_stmt_Err; (split; [|by intros P]);
      [reflexivity|eapply Hf; [|exact Hd]; apply gen_uuid_canonical].
Qed.

Lemma guar_call {A} (f : stmt A) : stmt_guar R f → guar R (call f).
Proof.
  intros Hf w r w' Hw. unfold call. destruct (next_event w) as [e w1] eqn:E.
  apply env_next in E as [H1 Hw1]; [|done].
  intros [H2 Hw2]%run_stmt_guar; [|done]. split; by etransitivity.
Qed.

Lemma guar_tx_call {A} (f : stmt A) : stmt_guar R f → guar R (tx_call f).
Proof.
  intros Hf w r w' Hw. unfold tx_call. destruct (tx_event w) as [e w1] eqn:E.
  pose proof (tx_later _ _ _ E) as Hw1. apply tx_event_db in E. rewrite <- E.
  intros [H2 Hw2]%run_stmt_guar; [|done]. split; [done|by etransitivity].
Qed.

Lemma rollback_guar w0 w :
  R (w_db w0) (w_db w) → R (w_db w0) (w_db (rollback w0 w)) ∧ later w (rollback w0 w).
Proof. intros HR0. split; [by apply guarantee_rollback|by intros P]. Qed.

Lemma guar_transaction {A} (body : M A) : guar R body → guar R (transaction body).
Proof.
  intros Hb w r w' Hw. unfold transaction. destruct (next_event w) as [e w1] eqn:E.
  apply env_next in E as [H1 Hw1]; [|done].
  destruct (ev_fault e); [|by intros [= <- <-]..].
  destruct (body w1) as [[a|x] w2] eqn:Eb;
    (apply Hb in Eb as [H2 Hw2]; [|by eapply env_later]).
  - destruct (tx_event w2) as [c w3] eqn:Ec. pose proof (tx_later _ _ _ Ec) as Hw3.
    apply tx_event_db in Ec. rewrite <- Ec in H2.
    destruct (ev_fault c); intros [= <- <-];
      [| destruct (rollback_guar w1 w3 H2) |]; (split; [by etransitivity|]);
      repeat (etransitivity; [eassumption|]); done.
  - intros [= <- <-]. destruct (rollback_guar w1 w2 H2).
    split; [by etransitivity|]. by repeat (etransitivity; [eassumption|]).
Qed.

(** A transaction whose body keeps [R] only as a whole: statement by
    statement it keeps a weaker [S], of which [R] needs what a rollback
    leaves. *)
Lemma guar_atomic {A} (S : relation DB) {HS : Guarantee S} (body : M A) :
  (∀ d d', R d d' → S d d') → (∀ d d', S d d' → R d (set_outbox_seq (db_outbox_seq d') d)) →
  guar S body →
  (∀ w a w', env S w → body w = (Ok a, w') → S (w_db w) (w_db w') → R (w_db w) (w_db w')) →
  guar R (transaction body).
Proof.
  intros HRS Hroll Hbody Hok w r w' Hw. unfold transaction. destruct (next_event w) as [e w1] eqn:E.
  apply env_next in E as [H1 Hw1]; [|done].
  assert (env S w1) as HSw by (eapply Forall_impl; [by eapply env_later|]; intros e' He d; by apply HRS).
  destruct (ev_fault e); [|by intros [= <- <-]..].
  destruct (body w1) as [[a|x] w2] eqn:Eb; pose proof (Hbody _ _ _ HSw Eb) as [H2 Hw2].
  - destruct (tx_event w2) as [c w3] eqn:Ec. pose proof (tx_later _ _ _ Ec) as Hw3.
    apply tx_event_db in Ec. pose proof (Hok _ _ _ HSw Eb H2) as HR2. rewrite <- Ec in H2, HR2.
    assert (later w w3) as Hl by (by repeat (etransitivity; [eassumption|])).
    destruct (ev_fault c); intros [= <- <-]; (split; [etransitivity; [exact H1|]|exact Hl || (by intros P ?; apply Hl)]);
      [done|by apply Hroll|done].
  - intros [= <- <-]. split; [etransitivity; [exact H1|]; by apply Hroll|].
    assert (later w w2) as Hl by (by etransitivity). by intros P ?; apply Hl.
Qed.
End guarantee.

#[export] Hint Resolve guar_ret guar_throw guar_of_result guar_fail_when guar_bind
  guar_map_err guar_attempt guar_time_now guar_NewString guar_sample guar_inc_if guar_inc_with guar_call guar_tx_call
  guar_transaction : guar.
#[export] Hint Extern 0 (Guarantee _) => apply _ : guar.
#[export] Hint Extern 0 (UuidGenLaws _) => apply _ : guar.
#[export] Hint Extern 0 (is_http _ = false) => reflexivity : guar.

(** [guar_tac] follows the text of an operation down to its calls. *)
Ltac guar_step :=
  match goal with
  | |- guar _ (_ ≫= _) => apply guar_bind
  | |- guar _ (match ?x with _ => _ end) => destruct x
  | |- guar _ (if ?b then _ else _) => destruct b
  | |- guar _ (let _ := _ in _) => cbv zeta
  | |- ∀ _, _ => intro
  | |- guar _ _ => solve [eauto with guar] || apply guar_map_err
  end.
Ltac guar_tac := repeat guar_step.

(** ** Reading *)
#[export] Instance eq_guarantee : Guarantee (=).
Proof. split; [apply _|]. intros d ? <-. by destruct d. Qed.

#[export] Instance equiv_guarantee : Guarantee (≡@{DB}).
Proof. split; [apply _|done]. Qed.

Lemma undisturbed_env w : undisturbed w → env (=) w.
Proof. intros Hu. eapply Forall_impl; [exact Hu|]. by intros e [He _]. Qed.

Lemma undisturbed_later w w' : undisturbed w → later w w' → undisturbed w'.
Proof. intros H Hl. by eapply later_sched. Qed.

Lemma undisturbed_guar R `{!Guarantee R} w : undisturbed w → env R w.
Proof. intros H. eapply Forall_impl; [exact H|]. intros e [He _] d. rewrite <- He. reflexivity. Qed.

Lemma read_only_stmt_guar {A} (f : stmt A) R `{!Guarantee R} : read_only f → stmt_guar R f.
Proof.
  intros Hf ctx d a d' _ H. pose proof (Hf ctx d) as Hd. rewrite H in Hd. simpl in Hd.
  subst. reflexivity.
Qed.

Lemma read_only_ret {A} (a : A) : read_only (λ _, mret a).
Proof. done. Qed.
