(* ===== verification/Invariant.v ===== *)
(** * Invariants of the tables

    [wf]: what the schema of internal/migration enforces, and what the
    program adds to it: keys, foreign keys, unique indexes, checks.
    [evolves]: what never happens to a row once it exists.  Both are
    guarantees of every statement the repositories send. *)

From stdpp Require Import base strings gmap sets list.
From S2P Require Import Prelude GoStrings Utf8 Uuid Json Errors Domain World Repository PgMessages PgChats PgUsers Guarantee.

(** ** Well-formed tables *)
Definition in_dom {K A} `{Countable K} (m : gmap K A) (k : K) : Prop := is_Some (m !! k).
Definition opt_in {K A} `{Countable K} (m : gmap K A) (k : option K) : Prop :=
  match k with Some k => in_dom m k | None => True end.

Definition message_ok (d : DB) (k : ID) (m : Message) : Prop :=
  msg_ID m = k ∧ canonical k ∧ in_dom (db_chats d) (msg_ChatID m)
  ∧ in_dom (db_users d) (msg_SenderID m) ∧ message_type_ok (msg_Type m) = true
  ∧ opt_in (db_messages d) (msg_ReplyToID m).
Definition chat_ok (d : DB) (k : ID) (c : Chat) : Prop :=
  chat_ID c = k ∧ canonical k ∧ chat_type_ok (chat_Type c) = true
  ∧ chat_key_ok (chat_Type c) (chat_DirectKey c) = true
  ∧ opt_in (db_users d) (chat_CreatedBy c) ∧ opt_in (db_messages d) (chat_LastMessageID c).
Definition member_ok (d : DB) (k : ID * ID) (m : ChatMember) : Prop :=
  k = (cm_ChatID m, cm_UserID m) ∧ in_dom (db_chats d) k.1 ∧ in_dom (db_users d) k.2
  ∧ role_ok (cm_Role m) = true ∧ opt_in (db_messages d) (cm_LastReadMessageID m).
Definition session_ok (d : DB) (k : ID) (s : RefreshSession) : Prop :=
  sess_ID s = k ∧ canonical k ∧ in_dom (db_users d) (sess_UserID s).
Definition outbox_ok (d : DB) (k : Z) (r : OutboxRec) : Prop :=
  ob_id r = k ∧ (k ≤ db_outbox_seq d)%Z.

(** [unique key m]: no two rows of [m] have the same defined key. *)
Definition unique {K A B} `{Countable K} (key : A → option B) (m : gmap K A) : Prop :=
  ∀ k1 k2 r1 r2 b, m !! k1 = Some r1 → m !! k2 = Some r2 →
    key r1 = Some b → key r2 = Some b → k1 = k2.

Definition direct_key (c : Chat) : option string :=
  if String.eqb (chat_Type c) "direct" && negb (chat_IsDeleted c) then chat_DirectKey c else None.
Definition email_key (u : User) : option string := Some (pg_lower (user_Email u)).
Definition hash_key (s : RefreshSession) : option string := Some (sess_TokenHash s).
Definition event_key (r : OutboxRec) : option ID := Some (ob_event_id r).

Record wf (d : DB) : Prop := mkWf {
  wf_users : map_Forall (λ k u, user_ID u = k ∧ canonical k) (db_users d);
  wf_chats : map_Forall (chat_ok d) (db_chats d);
  wf_members : map_Forall (member_ok d) (db_members d);
  wf_messages : map_Forall (message_ok d) (db_messages d);
  wf_sessions : map_Forall (session_ok d) (db_sessions d);
  wf_outbox : map_Forall (outbox_ok d) (db_outbox d);
  wf_emails : unique email_key (db_users d);
  wf_direct_keys : unique direct_key (db_chats d);
  wf_hashes : unique hash_key (db_sessions d);
  wf_events : unique event_key (db_outbox d)
}.

(** ** Evolution *)

(** Only the text and the deletion mark of a message change, and neither
    of them once it is deleted. *)
Definition same_message (m m' : Message) : Prop :=
  msg_ID m' = msg_ID m ∧ msg_ChatID m' = msg_ChatID m ∧ msg_SenderID m' = msg_SenderID m
  ∧ msg_Type m' = msg_Type m ∧ msg_ReplyToID m' = msg_ReplyToID m
  ∧ msg_CreatedAt m' = msg_CreatedAt m ∧ (is_Some (msg_DeletedAt m) → m' = m).
(** Only the publication mark of an event changes, once. *)
Definition same_event (r r' : OutboxRec) : Prop :=
  r' = r ∨ ob_published_at r = None ∧ ∃ t, r' = set_published t r.
(** A revoked session stays revoked; the rest of a session is fixed. *)
Definition same_session (s s' : RefreshSession) : Prop :=
  s' = s ∨ ∃ t, s' = set_revoked t s.
Definition same_user (u u' : User) : Prop :=
  user_ID u' = user_ID u ∧ user_Email u' = user_Email u
  ∧ user_PasswordHash u' = user_PasswordHash u ∧ user_CreatedAt u' = user_CreatedAt u.
Definition same_chat (c c' : Chat) : Prop :=
  chat_ID c' = chat_ID c ∧ chat_Type c' = chat_Type c ∧ chat_DirectKey c' = chat_DirectKey c
  ∧ chat_CreatedBy c' = chat_CreatedBy c ∧ chat_IsDeleted c' = chat_IsDeleted c.

(** [grows same m m']: every row of [m] is still in [m'], up to [same]. *)
Definition grows {K A} `{Countable K} (same : relation A) (m m' : gmap K A) : Prop :=
  ∀ k r, m !! k = Some r → ∃ r', m' !! k = Some r' ∧ same r r'.

Record evolves (d d' : DB) : Prop := mkEvolves {
  ev_messages : grows same_message (db_messages d) (db_messages d');
  ev_outbox : grows same_event (db_outbox d) (db_outbox d');
  ev_sessions : grows same_session (db_sessions d) (db_sessions d');
  ev_users : grows same_user (db_users d) (db_users d');
  ev_chats : grows same_chat (db_chats d) (db_chats d');
  ev_seq : (db_outbox_seq d ≤ db_outbox_seq d')%Z;
  ev_wf : wf d → wf d'
}.

(** ** [evolves] is a guarantee *)

Lemma grows_refl {K A} `{Countable K} (same : relation A) `{!Reflexive same} (m : gmap K A) :
  grows same m m.
Proof. intros k r Hr. eauto. Qed.

Lemma grows_trans {K A} `{Countable K} (same : relation A) `{!Transitive same}
    (m1 m2 m3 : gmap K A) :
  grows same m1 m2 → grows same m2 m3 → grows same m1 m3.
Proof.
  intros Hg1 Hg2 k r Hr. destruct (Hg1 k r Hr) as (r2 & Hr2 & ?).
  destruct (Hg2 k r2 Hr2) as (r3 & Hr3 & ?). exists r3. split; [done|]. by etransitivity.
Qed.

#[export] Instance same_message_preorder : PreOrder same_message.
Proof.
  split; [by repeat split|]. intros m1 m2 m3 (?&?&?&?&?&?&Hd1) (?&?&?&?&?&?&Hd2).
  repeat split; try congruence. intros Hd. rewrite <- (Hd1 Hd). apply Hd2. by rewrite (Hd1 Hd).
Qed.
#[export] Instance same_event_preorder : PreOrder same_event.
Proof.
  split; [by left|]. intros r1 r2 r3 [->|(Hp1 & t & ->)] [->|(Hp2 & t' & ->)].
  - by left.
  - right. eauto.
  - right. eauto.
  - done.
Qed.
#[export] Instance same_session_preorder : PreOrder same_session.
Proof.
  split; [by left|]. intros s1 s2 s3 [->|(t & ->)] [->|(t' & ->)]; [by left|right; eauto..].
Qed.
#[export] Instance same_user_preorder : PreOrder same_user.
Proof. split; [by repeat split|]. intros u1 u2 u3 (?&?&?&?) (?&?&?&?). repeat split; congruence. Qed.
#[export] Instance same_chat_preorder : PreOrder same_chat.
Proof. split; [by repeat split|]. intros u1 u2 u3 (?&?&?&?&?) (?&?&?&?&?). repeat split; congruence. Qed.

Lemma wf_set_seq d n : (db_outbox_seq d ≤ n)%Z → wf d → wf (set_outbox_seq n d).
Proof.
  intros Hn []. split; try done. intros k r Hr.
  destruct (wf_outbox0 k r Hr) as [? ?]. split; [done|]. simpl. lia.
Qed.

#[export] Instance evolves_guarantee : Guarantee evolves.
Proof.
  split; [split|].
  - intros d. split; [apply grows_refl; apply _ ..|done|done].
  - intros d1 d2 d3 [] []. split; [by eapply grows_trans; [apply _|..]..|lia|tauto].
  - intros d d' []. split; [apply grows_refl; apply _ ..|done|by apply wf_set_seq].
Qed.

(** ** Lemmas on single updates *)

Section updates.
Context {K A : Type} `{Countable K}.
Implicit Types (m : gmap K A).

Lemma grows_insert_new (same : relation A) `{!Reflexive same} m k r :
  m !! k = None → grows same m (<[k := r]> m).
Proof.
  intros Hk k' r' Hr. exists r'. split; [|done].
  rewrite lookup_insert_ne; [done|]. intros ->. congruence.
Qed.

Lemma grows_update (same : relation A) `{!Reflexive same} m k r0 r :
  m !! k = Some r0 → same r0 r → grows same m (<[k := r]> m).
Proof.
  intros Hk Hs k' r' Hr. destruct (decide (k = k')) as [<-|Hne].
  - exists r. rewrite lookup_insert_eq. split; [done|]. by simplify_eq.
  - exists r'. by rewrite lookup_insert_ne.
Qed.

Lemma in_dom_insert m k r k' : in_dom m k' → in_dom (<[k := r]> m) k'.
Proof. unfold in_dom. rewrite lookup_insert_is_Some'. auto. Qed.
Lemma opt_in_insert m k r o : opt_in m o → opt_in (<[k := r]> m) o.
Proof. destruct o; [|done]. apply in_dom_insert. Qed.

Lemma unique_insert {B} (key : A → option B) m k r :
  unique key m →
  (∀ k' r' b, m !! k' = Some r' → key r = Some b → key r' = Some b → k' = k) →
  unique key (<[k := r]> m).
Proof.
  intros Hu Hr k1 k2 r1 r2 b H1 H2 Hb1 Hb2.
  apply lookup_insert_Some in H1 as [[<- <-]|[Hn1 H1]];
    apply lookup_insert_Some in H2 as [[<- <-]|[Hn2 H2]]; eauto.
  symmetry. eauto.
Qed.

(** An update that keeps the key of the row keeps keys unique. *)
Lemma unique_update {B} (key : A → option B) m k r0 r :
  m !! k = Some r0 → key r = key r0 → unique key m → unique key (<[k := r]> m).
Proof.
  intros Hk Hkey Hu. apply unique_insert; [done|].
  intros k' r' b Hr' Hb Hb'. rewrite Hkey in Hb. eauto.
Qed.
End updates.

#[export] Hint Resolve in_dom_insert opt_in_insert : goflow.
