(* ===== verification/Evolution.v ===== *)
(** * Every statement keeps the invariants

    Each SQL statement of PgMessages, PgChats and PgUsers is a step of
    [evolves] (Invariant); hence every repository method is, under any
    schedule whose other processes are. *)

From stdpp Require Import base strings gmap sets list.
From S2P Require Import Prelude GoStrings Utf8 Uuid Json Errors Domain World Repository PgMessages PgChats PgUsers Guarantee Invariant.

(** ** Growing tables keep references valid *)
Record dom_le (d d' : DB) : Prop := mkDomLe {
  le_users : ∀ k, in_dom (db_users d) k → in_dom (db_users d') k;
  le_chats : ∀ k, in_dom (db_chats d) k → in_dom (db_chats d') k;
  le_messages : ∀ k, in_dom (db_messages d) k → in_dom (db_messages d') k;
  le_seq : (db_outbox_seq d ≤ db_outbox_seq d')%Z
}.

Lemma opt_in_mono {K A B} `{Countable K} (m : gmap K A) (m' : gmap K B) o :
  (∀ k, in_dom m k → in_dom m' k) → opt_in m o → opt_in m' o.
Proof. destruct o; simpl; auto. Qed.
#[export] Hint Resolve opt_in_mono : goflow.
#[export] Hint Resolve le_users le_chats le_messages : goflow.

Lemma message_ok_mono d d' k m : dom_le d d' → message_ok d k m → message_ok d' k m.
Proof. intros [] (?&?&?&?&?&?). unfold message_ok. eauto 10 with goflow. Qed.
Lemma chat_ok_mono d d' k c : dom_le d d' → chat_ok d k c → chat_ok d' k c.
Proof. intros [] (?&?&?&?&?&?). unfold chat_ok. eauto 10 with goflow. Qed.
Lemma member_ok_mono d d' k m : dom_le d d' → member_ok d k m → member_ok d' k m.
Proof. intros [] (?&?&?&?&?). unfold member_ok. eauto 10 with goflow. Qed.
Lemma session_ok_mono d d' k s : dom_le d d' → session_ok d k s → session_ok d' k s.
Proof. intros [] (?&?&?). unfold session_ok. eauto 10 with goflow. Qed.
Lemma outbox_ok_mono d d' k r : dom_le d d' → outbox_ok d k r → outbox_ok d' k r.
Proof. intros [] (?&?). split; [done|lia]. Qed.

Lemma map_Forall_mono {K A} `{Countable K} (P Q : K → A → Prop) (m : gmap K A) :
  (∀ k r, P k r → Q k r) → map_Forall P m → map_Forall Q m.
Proof. intros HPQ HP k r Hr. auto. Qed.

Lemma map_Forall_update {K A} `{Countable K} (P Q : K → A → Prop) (m : gmap K A) k r :
  (∀ k r, P k r → Q k r) → map_Forall P m → Q k r → map_Forall Q (<[k := r]> m).
Proof.
  intros HPQ HP Hr. apply map_Forall_insert_2; [done|]. by eapply map_Forall_mono.
Qed.

Ltac mono :=
  first [ eapply map_Forall_mono; [|eassumption]
        | eapply map_Forall_update; [|eassumption|] ];
  eauto using message_ok_mono, chat_ok_mono, member_ok_mono, session_ok_mono, outbox_ok_mono.

(** ** Well-formedness after the update of one row *)
Section rows.
Implicit Types d : DB.

Lemma dom_le_users d k u : dom_le d (set_users (<[k := u]> (db_users d)) d).
Proof. split; simpl; auto with goflow; lia. Qed.
Lemma dom_le_chats d k c : dom_le d (set_chats (<[k := c]> (db_chats d)) d).
Proof. split; simpl; auto with goflow; lia. Qed.
Lemma dom_le_messages d k m : dom_le d (set_messages (<[k := m]> (db_messages d)) d).
Proof. split; simpl; auto with goflow; lia. Qed.
Lemma dom_le_members d x : dom_le d (set_members x d).
Proof. split; simpl; auto; lia. Qed.
Lemma dom_le_sessions d x : dom_le d (set_sessions x d).
Proof. split; simpl; auto; lia. Qed.
Lemma dom_le_outbox d x n : (db_outbox_seq d ≤ n)%Z → dom_le d (set_outbox_seq n (set_outbox x d)).
Proof. split; simpl; auto. Qed.

Lemma wf_put_user d k u :
  wf d → user_ID u = k → canonical k → unique email_key (<[k := u]> (db_users d)) →
  wf (set_users (<[k := u]> (db_users d)) d).
Proof.
  intros [] ???. pose proof (dom_le_users d k u).
  split; simpl; try done; mono.
Qed.

Lemma wf_put_message d k m :
  wf d → message_ok d k m → wf (set_messages (<[k := m]> (db_messages d)) d).
Proof. intros [] ?. pose proof (dom_le_messages d k m). split; simpl; try done; mono. Qed.

Lemma wf_put_chat d k c :
  wf d → chat_ok d k c → unique direct_key (<[k := c]> (db_chats d)) →
  wf (set_chats (<[k := c]> (db_chats d)) d).
Proof. intros [] ??. pose proof (dom_le_chats d k c). split; simpl; try done; mono. Qed.

Lemma wf_put_members d x :
  wf d → map_Forall (member_ok d) x → wf (set_members x d).
Proof. intros [] ?. pose proof (dom_le_members d x). split; simpl; try done; mono. Qed.

Lemma wf_put_member d k m :
  wf d → member_ok d k m → wf (set_members (<[k := m]> (db_members d)) d).
Proof.
  intros Hd Hm. apply wf_put_members; [done|]. apply map_Forall_insert_2; [done|apply Hd].
Qed.

Lemma wf_put_sessions d x :
  wf d → map_Forall (session_ok d) x → unique hash_key x → wf (set_sessions x d).
Proof. intros [] ??. pose proof (dom_le_sessions d x). split; simpl; try done; mono. Qed.

Lemma wf_put_outbox d x n :
  wf d → (db_outbox_seq d ≤ n)%Z → map_Forall (outbox_ok (set_outbox_seq n d)) x →
  unique event_key x → wf (set_outbox_seq n (set_outbox x d)).
Proof.
  intros [] ???. pose proof (dom_le_outbox d x n ltac:(done)).
  split; simpl; try done; try mono.
Qed.
End rows.

(** ** Evolution by the update of one table *)
Section steps.
Implicit Types d : DB.

Lemma evolves_users d x :
  grows same_user (db_users d) x → (wf d → wf (set_users x d)) → evolves d (set_users x d).
Proof. intros ??. split; simpl; try done; try (apply grows_refl; apply _). Qed.
Lemma evolves_chats d x :
  grows same_chat (db_chats d) x → (wf d → wf (set_chats x d)) → evolves d (set_chats x d).
Proof. intros ??. split; simpl; try done; try (apply grows_refl; apply _). Qed.
Lemma evolves_messages d x :
  grows same_message (db_messages d) x → (wf d → wf (set_messages x d)) →
  evolves d (set_messages x d).
Proof. intros ??. split; simpl; try done; try (apply grows_refl; apply _). Qed.
Lemma evolves_members d x : (wf d → wf (set_members x d)) → evolves d (set_members x d).
Proof. intros ?. split; simpl; try done; try (apply grows_refl; apply _). Qed.
Lemma evolves_sessions d x :
  grows same_session (db_sessions d) x → (wf d → wf (set_sessions x d)) →
  evolves d (set_sessions x d).
Proof. intros ??. split; simpl; try done; try (apply grows_refl; apply _). Qed.
Lemma evolves_outbox d x n :
  grows same_event (db_outbox d) x → (db_outbox_seq d ≤ n)%Z →
  (wf d → wf (set_outbox_seq n (set_outbox x d))) →
  evolves d (set_outbox_seq n (set_outbox x d)).
Proof. intros ???. split; simpl; try done; try (apply grows_refl; apply _). Qed.
End steps.

(** ** Inversion of the primitives of a statement *)

Lemma text_param_Ok s d u d' : text_param s d = (Ok u, d') → opt_ok text_ok s = true ∧ d' = d.
Proof. intros [Hb ->]%fail_when_Ok_inv. by destruct (opt_ok _ _). Qed.

Lemma varchar_param_Ok n s d u d' :
  varchar_param n s d = (Ok u, d') → opt_ok (varchar_ok n) s = true ∧ d' = d.
Proof.
  unfold varchar_param. intros H. go_inv.
  match goal with H : text_param _ _ = _ |- _ => apply text_param_Ok in H as [_ ->] end.
  split; [|done]. by destruct (opt_ok _ _).
Qed.

Lemma scan_row_Ok {A} (r : option A) d a d' : scan_row r d = (Ok a, d') → r = Some a ∧ d' = d.
Proof. destruct r; intros [=]; by subst. Qed.

(** [stmt_inv H]: a successful statement taken apart into the facts its
    guards establish. *)
Ltac stmt_inv_step :=
  go_inv_step ||
  match goal with
  | H : text_param _ _ = (Ok _, _) |- _ => apply text_param_Ok in H as [? ->]
  | H : varchar_param _ _ _ = (Ok _, _) |- _ => apply varchar_param_Ok in H as [? ->]
  | H : scan_row _ _ = (Ok _, _) |- _ =>
      let E := fresh in apply scan_row_Ok in H as [? E]; first [revert E; intros -> | clear E]
  | H : negb _ = false |- _ => apply negb_false_iff in H
  | H : bool_decide _ = false |- _ => apply bool_decide_eq_false in H
  | H : bool_decide _ = true |- _ => apply bool_decide_eq_true in H
  | H : ¬ is_Some _ |- _ => apply eq_None_not_Some in H
  | H : _ ≠ None |- _ => apply not_eq_None_Some in H
  | H : (if ?b then _ else _) _ = (Ok _, _) |- _ => destruct b eqn:?
  end.
Ltac stmt_inv := repeat stmt_inv_step.

Lemma guard_opt_in {K A} `{Countable K} (m : gmap K A) (o : option K) :
  match o with Some k => bool_decide (m !! k = None) | None => false end = false → opt_in m o.
Proof. destruct o as [k|]; [|done]. intros Hk%bool_decide_eq_false. by apply not_eq_None_Some. Qed.

Lemma select1_direct_None d key k c :
  select1 (direct_with_key key) (db_chats d) = None → db_chats d !! k = Some c →
  direct_key c ≠ Some key.
Proof.
  intros Hs Hk. pose proof (select1_None _ _ _ _ Hs Hk) as Hf.
  unfold direct_key, direct_with_key in *.
  destruct (_ && negb _); [|done]. simpl in Hf. by apply bool_decide_eq_false in Hf.
Qed.

(** ** Statements on messages *)
Lemma insert_message_evolves m : stmt_guar evolves (insert_message m).
Proof.
  intros ctx d a d' Hid H. unfold insert_message in H. stmt_inv. subst.
  apply evolves_messages; [by apply grows_insert_new|].
  intros Hwf. apply wf_put_message; [done|]. unfold message_ok. simpl.
  split_and!; try done. by apply guard_opt_in.
Qed.

Lemma target_message_Some d mid cid m :
  target_message d mid cid = Some m →
  db_messages d !! mid = Some m ∧ msg_ChatID m = cid ∧ msg_DeletedAt m = None.
Proof.
  unfold target_message. intros (m' & Hm & Hc)%bind_Some.
  destruct (String.eqb_spec (msg_ChatID m') cid); [|done]. simpl in Hc.
  unfold live in Hc. destruct (msg_DeletedAt m') eqn:E; [done|]. by simplify_eq.
Qed.

Lemma update_target_Ok f chat mid d a d' :
  update_target f chat mid d = (Ok a, d') →
  ∃ k c m, cast_uuid mid = Ok k ∧ cast_uuid chat = Ok c ∧ target_message d k c = Some m ∧
           d' = set_messages (<[k := f m]> (db_messages d)) d.
Proof.
  unfold update_target. intros H. stmt_inv. destruct (target_message _ _ _) eqn:E; [|done].
  stmt_inv. subst. eauto 10.
Qed.

Lemma update_target_evolves f chat mid d a d' :
  (∀ m, msg_DeletedAt m = None → same_message m (f m)) →
  update_target f chat mid d = (Ok a, d') → evolves d d'.
Proof.
  intros Hf (k & c & m & _ & _ & (Hm & _ & Hd)%target_message_Some & ->)%update_target_Ok.
  apply evolves_messages; [apply (grows_update same_message _ _ m); auto|].
  intros Hwf. apply wf_put_message; [done|].
  pose proof (wf_messages d Hwf k m Hm) as (?&?&?&?&?&?).
  destruct (Hf m Hd) as (Hi&Hc&Hs&Ht&Hr&_).
  unfold message_ok. rewrite Hi, Hc, Hs, Ht, Hr. simpl. auto 10 with goflow.
Qed.

Lemma update_message_text_evolves chat mid text : stmt_guar evolves (update_message_text chat mid text).
Proof.
  intros ctx d a d' _ H. unfold update_message_text in H. stmt_inv.
  eapply update_target_evolves; [|done]. intros m Hm. repeat split. rewrite Hm. by intros [? ?].
Qed.

Lemma update_message_deleted_evolves chat mid : stmt_guar evolves (update_message_deleted chat mid).
Proof.
  intros ctx d a d' _ H. eapply update_target_evolves; [|exact H].
  intros m Hm. repeat split. rewrite Hm. by intros [? ?].
Qed.

Lemma update_last_message_evolves chat mid at_ : stmt_guar evolves (update_last_message chat mid at_).
Proof.
  intros ctx d a d' _ H. unfold update_last_message in H. stmt_inv.
  destruct (db_chats _ !! _) as [c|] eqn:E; [|done]. stmt_inv. subst.
  apply evolves_chats; [apply (grows_update same_chat _ _ c); [done|by repeat split]|].
  intros Hwf. pose proof (wf_chats _ Hwf _ _ E) as (?&?&?&?&?&?).
  apply wf_put_chat; [done| |].
  - unfold chat_ok. simpl. by split_and!.
  - eapply unique_update; [done| |apply Hwf]. done.
Qed.

Lemma update_member_read_evolves chat uid mid : stmt_guar evolves (update_member_read chat uid mid).
Proof.
  intros ctx d a d' _ H. unfold update_member_read in H. stmt_inv.
  destruct (db_members _ !! _) as [m|] eqn:E; [|done]. stmt_inv. subst.
  apply evolves_members. intros Hwf. pose proof (wf_members _ Hwf _ _ E) as (?&?&?&?&?).
  apply wf_put_member; [done|]. unfold member_ok. simpl. by split_and!.
Qed.

(** ** Statements on the outbox *)
Lemma insert_outbox_evolves ob : stmt_guar evolves (insert_outbox ob).
Proof.
  intros ctx d a d' _ H. unfold insert_outbox in H. stmt_inv. subst.
  match goal with H : ¬ map_Exists _ _ |- _ => rename H into Hnew end.
  apply evolves_outbox; [apply grows_insert_new; [apply _|done]|lia|]. intros Hwf.
  apply wf_put_outbox; [done|lia| |].
  - apply map_Forall_update with (P := outbox_ok d); [|apply Hwf|].
    + intros k r. apply outbox_ok_mono. split; simpl; try done; lia.
    + split; simpl; [done|lia].
  - apply unique_insert; [apply Hwf|]. unfold event_key. simpl.
    intros k' r' b Hr' [= <-] [= Hb]. destruct Hnew. exists k', r'. eauto.
Qed.

Lemma update_published_evolves id : stmt_guar evolves (update_published id).
Proof.
  intros ctx d a d' _ H. unfold update_published in H. stmt_inv.
  destruct (db_outbox _ !! id) as [r|] eqn:E; [|done]. stmt_inv. subst.
  match goal with |- evolves ?d0 _ => rename d0 into d end.
  assert (set_outbox (<[id := set_published (sc_now ctx) r]> (db_outbox d)) d
          = set_outbox_seq (db_outbox_seq d)
              (set_outbox (<[id := set_published (sc_now ctx) r]> (db_outbox d)) d)) as -> by done.
  assert (ob_published_at r = None) as Hp by (unfold pending in *; by destruct (ob_published_at r)).
  apply evolves_outbox; [apply (grows_update same_event _ _ r); [done|right; eauto]|lia|]. intros Hwf.
  apply wf_put_outbox; [done|lia| |].
  - apply map_Forall_insert_2; [|by apply Hwf]. destruct (wf_outbox _ Hwf _ _ E). by split.
  - eapply unique_update; [done| |apply Hwf]. done.
Qed.

(** ** Statements on chats and members *)
Lemma insert_chat_evolves c : stmt_guar evolves (insert_chat c).
Proof.
  intros ctx d a d' Hid H. unfold insert_chat in H. stmt_inv. subst.
  apply evolves_chats; [apply grows_insert_new; [apply _|done]|].
  intros Hwf. apply wf_put_chat; [done| |].
  - unfold chat_ok. simpl. split_and!; try done. by apply guard_opt_in.
  - apply unique_insert; [apply Hwf|]. unfold direct_key at 1. simpl.
    intros k' r' b Hr' Hb Hb'. destruct (_ && _) in Hb; [|done]. rewrite Hb in *.
    stmt_inv. by destruct (select1_direct_None d b k' r').
Qed.

Lemma insert_member_row_evolves m d a d' : insert_member_row m d = (Ok a, d') → evolves d d'.
Proof.
  intros H. unfold insert_member_row in H. stmt_inv. subst.
  apply evolves_members. intros Hwf. apply wf_put_member; [done|].
  unfold member_ok. simpl. split_and!; try done. by apply guard_opt_in.
Qed.

Lemma insert_member_evolves m : stmt_guar evolves (insert_member m).
Proof.
  intros ctx d a d' _ H. unfold insert_member in H. stmt_inv. by eapply insert_member_row_evolves.
Qed.

Lemma arg_Ok args pos d a d' : arg args pos d = (Ok a, d') → args !! (pos - 1) = Some a ∧ d' = d.
Proof. unfold arg. destruct (args !! _); intros [=]; by subst. Qed.

Lemma insert_tuple_evolves args t now d a d' :
  insert_tuple args t now d = (Ok a, d') → evolves d d'.
Proof.
  intros H. unfold insert_tuple in H. go_inv.
  repeat match goal with H : arg _ _ _ = (Ok _, _) |- _ => apply arg_Ok in H as [_ ->] end.
  destruct t as [u [p|r]]; simpl in *; go_inv;
    try match goal with H : arg _ _ _ = (Ok _, _) |- _ => apply arg_Ok in H as [_ ->] end;
    (case_decide; stmt_inv; [done|by eapply insert_member_row_evolves]).
Qed.

Lemma insert_tuples_evolves args ts now d a d' :
  insert_tuples args ts now d = (Ok a, d') → evolves d d'.
Proof.
  revert d. induction ts as [|t ts IH]; intros d H; simpl in H; go_inv; [done|].
  etransitivity; [by eapply insert_tuple_evolves|by apply IH].
Qed.

Lemma insert_members_values_evolves args ts : stmt_guar evolves (insert_members_values args ts).
Proof. intros ctx d a d' _ H. by eapply insert_tuples_evolves. Qed.

Lemma delete_member_evolves chat uid : stmt_guar evolves (delete_member chat uid).
Proof.
  intros ctx d a d' _ H. unfold delete_member in H. stmt_inv. case_decide; stmt_inv; [|done].
  subst. apply evolves_members. intros Hwf. apply wf_put_members; [done|].
  apply map_Forall_delete, Hwf.
Qed.

(** ** Statements on users and sessions *)
Lemma select1_email_None d email k u :
  select1 (email_is email) (db_users d) = None → db_users d !! k = Some u →
  pg_lower (user_Email u) ≠ pg_lower email.
Proof. intros Hs Hk. by apply String.eqb_neq, (select1_None _ _ _ _ Hs Hk). Qed.

Lemma insert_user_evolves u : stmt_guar evolves (insert_user u).
Proof.
  intros ctx d a d' Hid H. unfold insert_user in H. stmt_inv. subst.
  apply evolves_users; [apply grows_insert_new; [apply _|done]|].
  intros Hwf. apply wf_put_user; [done..|].
  apply unique_insert; [apply Hwf|]. unfold email_key. simpl.
  intros k' r' b Hr' [= <-] [= Hb]. by destruct (select1_email_None d (user_Email u) k' r').
Qed.

Lemma update_profile_evolves p : stmt_guar evolves (update_profile p).
Proof.
  intros ctx d a d' _ H. unfold update_profile in H. stmt_inv.
  destruct (db_users _ !! _) as [u|] eqn:E; [|done]. stmt_inv. subst.
  apply evolves_users; [apply (grows_update same_user _ _ u); [done|by repeat split]|].
  intros Hwf. destruct (wf_users _ Hwf _ _ E). apply wf_put_user; [done..|].
  eapply unique_update; [done| |apply Hwf]. done.
Qed.

Lemma insert_session_evolves s : stmt_guar evolves (insert_session s).
Proof.
  intros ctx d a d' Hid H. unfold insert_session in H. stmt_inv. subst.
  apply evolves_sessions; [apply grows_insert_new; [apply _|done]|].
  intros Hwf. apply wf_put_sessions; [done| |].
  - apply map_Forall_insert_2; [by split_and!|apply Hwf].
  - apply unique_insert; [apply Hwf|]. unfold hash_key. simpl.
    intros k' r' b Hr' [= <-] [= Hb].
    match goal with H : select1 _ _ = None |- _ =>
      pose proof (select1_None _ _ _ _ H Hr') as Hne end.
    by apply String.eqb_neq in Hne.
Qed.

Lemma set_revoked_same t s : same_session s (set_revoked t s).
Proof. right. eauto. Qed.

(** Rewriting sessions row by row, keeping id, user and hash. *)
Lemma map_sessions_evolves f d :
  (∀ s, same_session s (f s)) → evolves d (set_sessions (f <$> db_sessions d) d).
Proof.
  intros Hf. assert (∀ s, sess_ID (f s) = sess_ID s ∧ sess_UserID (f s) = sess_UserID s
                          ∧ sess_TokenHash (f s) = sess_TokenHash s) as Hkeep.
  { intros s. by destruct (Hf s) as [->|(t & ->)]. }
  apply evolves_sessions.
  - intros k s Hs. exists (f s). by rewrite lookup_fmap, Hs.
  - intros Hwf. apply wf_put_sessions; [done| |].
    + intros k s (s0 & <- & Hs)%lookup_fmap_Some. destruct (Hkeep s0) as (Hi & Hu & _).
      unfold session_ok. rewrite Hi, Hu. by apply Hwf.
    + intros k1 k2 r1 r2 b (s1 & <- & H1)%lookup_fmap_Some (s2 & <- & H2)%lookup_fmap_Some.
      unfold hash_key. destruct (Hkeep s1) as (_&_&->), (Hkeep s2) as (_&_&->).
      intros Hb1 Hb2. by eapply (wf_hashes d Hwf).
Qed.

Lemma update_session_evolves k s s' d :
  db_sessions d !! k = Some s → same_session s s' →
  evolves d (set_sessions (<[k := s']> (db_sessions d)) d).
Proof.
  intros Hs Hss. apply evolves_sessions; [by apply (grows_update same_session _ _ s)|].
  intros Hwf. destruct (wf_sessions _ Hwf _ _ Hs) as (?&?&?).
  assert (sess_ID s' = sess_ID s ∧ sess_UserID s' = sess_UserID s
          ∧ sess_TokenHash s' = sess_TokenHash s) as (Hi & Hu & Hh).
  { by destruct Hss as [->|(t & ->)]. }
  apply wf_put_sessions; [done| |].
  - apply map_Forall_insert_2; [|apply Hwf]. unfold session_ok. by rewrite Hi, Hu.
  - eapply unique_update; [done| |apply Hwf]. unfold hash_key. by rewrite Hh.
Qed.

Lemma revoke_session_evolves id : stmt_guar evolves (revoke_session id).
Proof.
  intros ctx d a d' _ H. unfold revoke_session in H. stmt_inv.
  destruct (db_sessions _ !! _) as [s|] eqn:E; [|done]. stmt_inv. subst.
  by eapply update_session_evolves; [|apply set_revoked_same].
Qed.

Lemma revoke_user_sessions_evolves user : stmt_guar evolves (revoke_user_sessions user).
Proof.
  intros ctx d a d' _ H. unfold revoke_user_sessions in H. stmt_inv. subst.
  apply map_sessions_evolves. intros s. case_match; [apply set_revoked_same|done].
Qed.

Lemma set_session_revoked_evolves id : stmt_guar evolves (set_session_revoked id).
Proof.
  intros ctx d a d' _ H. unfold set_session_revoked in H. stmt_inv. subst.
  match goal with |- evolves ?d0 _ => rename d0 into d end.
  match goal with |- context [alter _ ?k0 _] => destruct (db_sessions d !! k0) as [s|] eqn:E end.
  - rewrite (alter_alt_Some _ _ _ _ E). by eapply update_session_evolves; [|apply set_revoked_same].
  - rewrite alter_id' by done. by destruct d.
Qed.
