(* ===== verification/Laws.v ===== *)
(** * What the services rely on

    The laws a service assumes of the repositories it is given, and the
    PostgreSQL repositories discharging them.  Reading methods are
    [neutral]: they keep any guarantee.  Writing methods keep a guarantee
    [R] that is a parameter of the class. *)

From stdpp Require Import base strings gmap sets list.
From S2P Require Import Prelude GoStrings Utf8 Uuid Json Errors Domain World Repository PgMessages PgChats PgUsers Guarantee Invariant Evolution.

Definition neutral {A} (m : M A) : Prop := ∀ R, Guarantee R → guar R m.

Section classes.
Variable R : relation DB.

Class MessageLaws (MR : MessageRepository) := {
  law_msgs_GetByID id : neutral (msgs_GetByID id);
  law_msgs_GetChatMessages chat opts : neutral (msgs_GetChatMessages chat opts);
  law_msgs_CountUnreadAfter chat after : neutral (msgs_CountUnreadAfter chat after);
  law_msgs_Create m : guar R (msgs_Create m);
  law_msgs_UpdateText chat mid text : guar R (msgs_UpdateText chat mid text);
  law_msgs_SoftDelete chat mid : guar R (msgs_SoftDelete chat mid)
}.

Class WriterLaws (W : MessageWriter) := {
  law_CreateMessage m ob : guar R (CreateMessageWithOutbox m ob);
  law_UpdateMessageText chat mid text ob : guar R (UpdateMessageTextWithOutbox chat mid text ob);
  law_SoftDeleteMessage chat mid ob : guar R (SoftDeleteMessageWithOutbox chat mid ob);
  law_UpdateMemberReadOutbox chat uid mid ob : guar R (UpdateMemberReadWithOutbox chat uid mid ob)
}.

Class ChatLaws (CR : ChatRepository) := {
  law_chats_GetByID id : neutral (chats_GetByID id);
  law_chats_GetDirectByKey key : neutral (chats_GetDirectByKey key);
  law_chats_GetUserChats uid page : neutral (chats_GetUserChats uid page);
  law_chats_ListUserChatsSummary uid page : neutral (chats_ListUserChatsSummary uid page);
  law_chats_GetChatMembers chat : neutral (chats_GetChatMembers chat);
  law_chats_FindMembership chat uid : neutral (chats_FindMembership chat uid);
  law_chats_CreateChat c : guar R (chats_CreateChat c);
  law_chats_CreateMember m : guar R (chats_CreateMember m);
  law_chats_AddMembers chat ms : guar R (chats_AddMembers chat ms);
  law_chats_RemoveMember chat uid : guar R (chats_RemoveMember chat uid);
  law_chats_CreateGroup title avatar creator others :
    guar R (chats_CreateGroupWithMembers title avatar creator others);
  law_chats_UpdateLastMessage chat mid at_ : guar R (chats_UpdateLastMessage chat mid at_);
  law_chats_UpdateMemberRead chat uid mid : guar R (chats_UpdateMemberRead chat uid mid)
}.

Class UserLaws (UR : UserRepository) := {
  law_users_GetByID id : neutral (users_GetByID id);
  law_users_GetByEmail email : neutral (users_GetByEmail email);
  law_users_GetByNickname nick : neutral (users_GetByNickname nick);
  law_users_Search q page : neutral (users_Search q page);
  law_users_Create u : guar R (users_Create u);
  law_users_UpdateProfile p : guar R (users_UpdateProfile p)
}.

Class SessionLaws (SR : SessionRepository) := {
  law_sessions_GetByTokenHash h : neutral (sessions_GetByTokenHash h);
  law_sessions_Create s : guar R (sessions_Create s);
  law_sessions_Revoke id : guar R (sessions_Revoke id);
  law_sessions_RevokeAllByUser uid : guar R (sessions_RevokeAllByUser uid);
  law_sessions_RotateRefresh h s : guar R (sessions_RotateRefresh h s)
}.

Class OutboxLaws (OR : OutboxRepository) := {
  law_outbox_FetchPending n : neutral (outbox_FetchPending n);
  law_outbox_MarkPublished id : guar R (outbox_MarkPublished id)
}.
End classes.

(** [law_tac]: the goal is the guarantee of one method of a repository. *)
Lemma neutral_guar {A} (m : M A) R `{!Guarantee R} : neutral m → guar R m.
Proof. intros Hm. by apply Hm. Qed.

Ltac read_law :=
  first [ eapply law_msgs_GetByID | eapply law_msgs_GetChatMessages | eapply law_msgs_CountUnreadAfter
        | eapply law_chats_GetByID | eapply law_chats_GetDirectByKey | eapply law_chats_GetUserChats
        | eapply law_chats_ListUserChatsSummary | eapply law_chats_GetChatMembers
        | eapply law_chats_FindMembership
        | eapply law_users_GetByID | eapply law_users_GetByEmail | eapply law_users_GetByNickname
        | eapply law_users_Search | eapply law_sessions_GetByTokenHash
        | eapply law_outbox_FetchPending ]; eassumption.
Ltac write_law :=
  first [ apply law_msgs_Create | apply law_msgs_UpdateText | apply law_msgs_SoftDelete
        | apply law_CreateMessage | apply law_UpdateMessageText | apply law_SoftDeleteMessage
        | apply law_UpdateMemberReadOutbox
        | apply law_chats_CreateChat | apply law_chats_CreateMember | apply law_chats_AddMembers
        | apply law_chats_RemoveMember | apply law_chats_CreateGroup
        | apply law_chats_UpdateLastMessage | apply law_chats_UpdateMemberRead
        | apply law_users_Create | apply law_users_UpdateProfile
        | apply law_sessions_Create | apply law_sessions_Revoke | apply law_sessions_RevokeAllByUser
        | apply law_sessions_RotateRefresh | apply law_outbox_MarkPublished ]; assumption.
Ltac law_tac := solve [ write_law | apply neutral_guar; [assumption|read_law] ].

(** ** The SELECT statements only read *)
Definition ro {A} (m : eff DB error A) : Prop := ∀ d, (m d).2 = d.

Create HintDb ro.

Section ro_lemmas.
Context {A B : Type}.

Lemma ro_ret (a : A) : ro (mret a).
Proof. done. Qed.
Lemma ro_get : ro get_state.
Proof. done. Qed.
Lemma ro_of_result (r : result error A) : ro (of_result r).
Proof. done. Qed.
Lemma ro_fail_when b e : ro (fail_when b e).
Proof. by destruct b. Qed.
Lemma ro_scan_row (r : option A) : ro (scan_row r).
Proof. by destruct r. Qed.
Lemma ro_bind (m : eff DB error A) (k : A → eff DB error B) :
  ro m → (∀ a, ro (k a)) → ro (m ≫= k).
Proof.
  intros Hm Hk d. unfold mbind, eff_bind. specialize (Hm d).
  destruct (m d) as [[a|e] d1]; simpl in *; subst; [apply Hk|done].
Qed.
End ro_lemmas.
#[export] Hint Resolve ro_ret ro_get ro_of_result ro_fail_when ro_scan_row ro_bind : ro.

Lemma ro_text_param s : ro (text_param s).
Proof. apply ro_fail_when. Qed.
#[export] Hint Resolve ro_text_param : ro.

Ltac ro_tac :=
  repeat first [ apply ro_bind; [|intros ?; cbv beta] | solve [eauto with ro] ].

(** A method that sends one SELECT is neutral. *)
Lemma neutral_call {G : UuidGen} {GL : UuidGenLaws G} {A} (f : stmt A) :
  (∀ ctx, ro (f ctx)) → neutral (call f).
Proof. intros Hf R HR. apply guar_call, read_only_stmt_guar; [done|]. intros ctx. apply Hf. Qed.

Lemma neutral_map_err {A} (m : M A) f : neutral m → neutral (map_err f m).
Proof. intros Hm R HR. by apply guar_map_err, Hm. Qed.

Ltac neutral_tac :=
  intros; try apply neutral_map_err; apply neutral_call; intros ?; cbv beta; ro_tac.

(** ** The PostgreSQL repositories *)
Section instances.
Context {G : UuidGen} {GL : UuidGenLaws G}.

Lemma guar_commitOutboxObs {A} R `{!Guarantee R} obs (body : M A) :
  guar R body → guar R (commitOutboxObs obs body).
Proof. intros Hb. unfold commitOutboxObs. guar_tac. Qed.

Lemma guar_fill_payload R `{!Guarantee R} m ob : guar R (fill_payload m ob).
Proof. unfold fill_payload. guar_tac. Qed.

#[export] Instance pg_message_laws : MessageLaws evolves pg_message_repository.
Proof.
  split; simpl.
  - unfold pg_msgs_GetByID, select_message. neutral_tac.
  - unfold pg_msgs_GetChatMessages, select_chat_messages. neutral_tac.
  - unfold pg_msgs_CountUnreadAfter, count_unread. neutral_tac.
  - intros. apply guar_call, insert_message_evolves.
  - intros. apply guar_call, update_message_text_evolves.
  - intros. apply guar_call, update_message_deleted_evolves.
Qed.

Lemma select_in_chat_guar R `{!Guarantee R} mid chat : guar R (tx_call (select_message_in_chat mid chat)).
Proof.
  apply guar_tx_call, read_only_stmt_guar; [done|]. intros ctx.
  change (ro (select_message_in_chat mid chat ctx)).
  unfold select_message_in_chat. ro_tac.
Qed.

#[local] Hint Resolve insert_outbox_evolves insert_message_evolves update_message_text_evolves
  update_message_deleted_evolves update_last_message_evolves update_member_read_evolves
  guar_fill_payload select_in_chat_guar : guar.

(** The bodies of the writer's transactions. *)
Lemma create_message_tx_evolves m ob : guar evolves (create_message_tx m ob).
Proof. unfold create_message_tx. guar_tac. Qed.
Lemma update_text_tx_evolves chat mid text ob : guar evolves (update_text_tx chat mid text ob).
Proof. unfold update_text_tx. guar_tac. Qed.
Lemma soft_delete_tx_evolves chat mid ob : guar evolves (soft_delete_tx chat mid ob).
Proof. unfold soft_delete_tx. guar_tac. Qed.
Lemma member_read_tx_evolves chat uid mid ob : guar evolves (member_read_tx chat uid mid ob).
Proof. unfold member_read_tx. guar_tac. Qed.

#[export] Instance pg_writer_laws pool obs : WriterLaws evolves (pg_message_writer pool obs).
Proof.
  split; intros; simpl.
  - apply guar_bind; [apply guar_fail_when|intros _].
    apply guar_commitOutboxObs; [apply _|apply create_message_tx_evolves].
  - apply guar_commitOutboxObs; [apply _|apply update_text_tx_evolves].
  - apply guar_commitOutboxObs; [apply _|apply soft_delete_tx_evolves].
  - apply guar_commitOutboxObs; [apply _|apply member_read_tx_evolves].
Qed.

(** The statements that write, with the guarantee they keep: the laws of
    the repositories hold of any guarantee of their statements. *)
Class ChatStatements (R : relation DB) := {
  st_insert_chat c : stmt_guar R (insert_chat c);
  st_insert_owner chat user : stmt_guar R (insert_owner chat user);
  st_insert_member m : stmt_guar R (insert_member m);
  st_insert_members args ts : stmt_guar R (insert_members_values args ts);
  st_delete_member chat user : stmt_guar R (delete_member chat user);
  st_last_message chat mid at_ : stmt_guar R (update_last_message chat mid at_);
  st_member_read chat user mid : stmt_guar R (update_member_read chat user mid)
}.
Class UserStatements (R : relation DB) := {
  st_insert_user u : stmt_guar R (insert_user u);
  st_update_profile p : stmt_guar R (update_profile p)
}.
Class SessionStatements (R : relation DB) := {
  st_insert_session s : stmt_guar R (insert_session s);
  st_revoke_session id : stmt_guar R (revoke_session id);
  st_revoke_user_sessions user : stmt_guar R (revoke_user_sessions user);
  st_session_revoked id : stmt_guar R (set_session_revoked id)
}.
Class OutboxStatements (R : relation DB) := st_published id : stmt_guar R (update_published id).

#[export] Instance evolves_chat_statements : ChatStatements evolves.
Proof.
  split.
  - apply insert_chat_evolves.
  - intros chat user ctx d a d' _ H. unfold insert_owner in H. stmt_inv. by eapply insert_member_row_evolves.
  - apply insert_member_evolves.
  - apply insert_members_values_evolves.
  - apply delete_member_evolves.
  - apply update_last_message_evolves.
  - apply update_member_read_evolves.
Qed.
#[export] Instance evolves_user_statements : UserStatements evolves.
Proof. split; [apply insert_user_evolves|apply update_profile_evolves]. Qed.
#[export] Instance evolves_session_statements : SessionStatements evolves.
Proof.
  split; [apply insert_session_evolves|apply revoke_session_evolves
         |apply revoke_user_sessions_evolves|apply set_session_revoked_evolves].
Qed.
#[export] Instance evolves_outbox_statements : OutboxStatements evolves.
Proof. exact update_published_evolves. Qed.

Section any_guarantee.
Context {R : relation DB} {HR : Guarantee R}.

#[export] Instance pg_chat_laws {CS : ChatStatements R} : ChatLaws R pg_chat_repository.
Proof.
  split; simpl.
  - unfold pg_chats_GetByID, select_chat. neutral_tac.
  - unfold pg_GetDirectByKey, select_direct. neutral_tac.
  - unfold pg_GetUserChats, select_user_chats. intros. destruct (normPage _). neutral_tac.
  - unfold pg_ListUserChatsSummary, select_chats_summary. intros. destruct (normPage _). neutral_tac.
  - unfold pg_GetChatMembers, select_members. neutral_tac.
  - unfold pg_FindMembership, select_membership. neutral_tac.
  - intros. apply guar_call, st_insert_chat.
  - intros. apply guar_call, st_insert_member.
  - intros chat ms. unfold pg_AddMembers. destruct ms; [apply guar_ret|].
    destruct (add_members_tuples _ _). apply guar_call, st_insert_members.
  - intros. apply guar_call, st_delete_member.
  - intros. apply guar_transaction. unfold create_group_tx.
    apply guar_bind; [apply guar_tx_call, st_insert_chat|intros c].
    apply guar_bind; [apply guar_tx_call, st_insert_owner|intros _].
    apply guar_bind; [|intros; apply guar_ret].
    destruct (dedup_others _ _); [apply guar_ret|]. destruct (group_tuples _ _).
    apply guar_tx_call, st_insert_members.
  - intros. apply guar_call, st_last_message.
  - intros. apply guar_call, st_member_read.
Qed.

#[export] Instance pg_user_laws {US : UserStatements R} : UserLaws R pg_user_repository.
Proof.
  split; simpl.
  - unfold pg_users_GetByID, select_user. neutral_tac.
  - unfold pg_GetByEmail, select_user_by_email. neutral_tac.
  - unfold pg_GetByNickname, select_user_by_nickname. neutral_tac.
  - unfold pg_Search, select_users_search. intros. destruct (normPage _). neutral_tac.
  - intros. apply guar_call, st_insert_user.
  - intros. apply guar_call, st_update_profile.
Qed.

#[export] Instance pg_session_laws {SS : SessionStatements R} : SessionLaws R pg_session_repository.
Proof.
  split; simpl.
  - intros h R' HR'. unfold pg_GetByTokenHash, select_session.
    apply guar_bind; [apply guar_time_now|intros now]. apply neutral_guar; [done|]. neutral_tac.
  - intros. apply guar_call, st_insert_session.
  - intros. apply guar_call, st_revoke_session.
  - intros. apply guar_call, st_revoke_user_sessions.
  - intros. apply guar_transaction. unfold rotate_refresh_tx.
    apply guar_bind.
    { apply guar_map_err, guar_tx_call, read_only_stmt_guar; [apply _|]. intros ctx.
      change (ro (select_session_for_update h ctx)). unfold select_session_for_update. ro_tac. }
    intros id. apply guar_bind; [apply guar_tx_call, st_session_revoked|intros _].
    apply guar_tx_call, st_insert_session.
Qed.

#[export] Instance pg_outbox_laws {OS : OutboxStatements R} : OutboxLaws R pg_outbox_repository.
Proof.
  split; simpl.
  - unfold pg_FetchPending, select_pending. neutral_tac.
  - intros. apply guar_call, st_published.
Qed.
End any_guarantee.
End instances.
