(* ===== verification/Calls.v ===== *)
(** * Calls to the database, undisturbed

    What a successful and a failed call of a repository say of the tables
    when nobody else writes: calls may still fail, before or after their
    effect, and time passes. *)

From stdpp Require Import base strings gmap list.
From S2P Require Import Prelude GoStrings Uuid Json Errors GoTime Domain World Repository Guarantee.

(** The time of a call: that of the database, in microseconds. *)
Section calls.
Context {G : UuidGen} {GL : UuidGenLaws G} {A : Type}.
Implicit Types (f : stmt A) (w : World).

Lemma next_event_time w e w1 : next_event w = (e, w1) → (w_now w ≤ w_now w1)%Z.
Proof.
  unfold next_event. destruct (w_sched w); intros [= <- <-]; [done|]. simpl. lia.
Qed.

Lemma run_stmt_later f e w r w' : run_stmt f e w = (r, w') → later w w' ∧ w_now w' = w_now w.
Proof.
  destruct r as [a|x].
  - intros (d & _ & ->)%run_stmt_Ok. split; [by intros P|done].
  - intros [->|(a & d & _ & ->)]%run_stmt_Err; (split; [by intros P|done]).
Qed.

Lemma call_later f w r w' : undisturbed w → call f w = (r, w') → undisturbed w'.
Proof.
  intros Hw. unfold call. destruct (next_event w) as [e w1] eqn:E.
  apply next_event_undisturbed in E as [_ Hw1]; [|done].
  intros [Hl _]%run_stmt_later. by eapply undisturbed_later.
Qed.

(** A call to the database touches nothing else of the world. *)
Lemma call_outside f w r w' :
  call f w = (r, w') →
  w_hub w' = w_hub w ∧ w_redis w' = w_redis w ∧ w_pubsub w' = w_pubsub w ∧ w_kafka w' = w_kafka w.
Proof.
  unfold call. destruct (next_event w) as [e w1] eqn:E.
  assert (w_hub w1 = w_hub w ∧ w_redis w1 = w_redis w ∧ w_pubsub w1 = w_pubsub w ∧ w_kafka w1 = w_kafka w)
    as (<- & <- & <- & <-) by (unfold next_event in E; destruct (w_sched w); by injection E as <- <-).
  unfold run_stmt. destruct (ev_fault e); try destruct (f _ _) as [[|] ?]; by intros [= _ <-].
Qed.

(** A successful call ran its statement on the tables, at some time since
    the call was made. *)
Lemma call_Ok f w a w' :
  undisturbed w → call f w = (Ok a, w') →
  undisturbed w'
  ∧ ∃ now id, canonical id ∧ (w_now w ≤ now)%Z ∧ w_now w' = now
      ∧ f (mkCtx (pg_time now) id None) (w_db w) = (Ok a, w_db w').
Proof.
  intros Hw H. split; [by eapply call_later|]. unfold call in H.
  destruct (next_event w) as [e w1] eqn:E. pose proof (next_event_time _ _ _ E). pose proof (next_event_alone _ _ _ Hw E) as He.
  apply next_event_undisturbed in E as [Hd _]; [|done].
  pose proof (run_stmt_later _ _ _ _ _ H) as [_ Hn].
  apply run_stmt_Ok in H as (d & H & ->). unfold stmt_context in H. rewrite Hd, He in H.
  exists (w_now w1), (gen_uuid (w_ids w1)). split_and!; try done; try apply gen_uuid_canonical.
Qed.

(** A failed call: the error of the statement, which had no effect, or a
    fault of the connection, after which the effect may be there. *)
Lemma call_Err f w x w' :
  undisturbed w → call f w = (Err x, w') →
  undisturbed w' ∧
  ((w_db w' = w_db w ∧ ∃ ctx d, f ctx (w_db w) = (Err x, d)) ∨ ∃ m, x = ErrPlain m).
Proof.
  intros Hw H. split; [by eapply call_later|]. unfold call in H.
  destruct (next_event w) as [e w1] eqn:E.
  apply next_event_undisturbed in E as [Hd _]; [|done].
  unfold run_stmt in H. simpl in H. rewrite Hd in H.
  destruct (ev_fault e); [|injection H as <- <-; eauto|];
    destruct (f _ _) as [[y|y] d] eqn:Ef; simplify_eq; simpl; eauto 10.
Qed.

(** Whatever a call reports, it had its whole effect or none. *)
Lemma call_any f w r w' :
  undisturbed w → call f w = (r, w') →
  w_db w' = w_db w ∨ ∃ ctx a, f ctx (w_db w) = (Ok a, w_db w').
Proof.
  intros Hw. unfold call. destruct (next_event w) as [e w1] eqn:E.
  apply next_event_undisturbed in E as [<- _]; [|done]. destruct r as [a|x].
  - intros (d & Hd & ->)%run_stmt_Ok. eauto.
  - intros [->|(a & d & Hd & ->)]%run_stmt_Err; eauto.
Qed.

(** A failed read. *)
Lemma call_read_Err f w x w' :
  undisturbed w → (∀ ctx, (f ctx (w_db w)).2 = w_db w) → call f w = (Err x, w') →
  undisturbed w' ∧ w_db w' = w_db w
  ∧ ((∃ ctx d, f ctx (w_db w) = (Err x, d)) ∨ ∃ m, x = ErrPlain m).
Proof.
  intros Hw Hf H. pose proof (call_Err _ _ _ _ Hw H) as [Hw' Hcase].
  unfold call in H. destruct (next_event w) as [e w1] eqn:E.
  apply next_event_undisturbed in E as [Hd _]; [|done].
  split; [done|]. split.
  - apply run_stmt_Err in H as [->|(a & d & Hd' & ->)]; [done|]. simpl.
    rewrite Hd in Hd'. specialize (Hf (stmt_context e w1)).
    by rewrite Hd' in Hf.
  - destruct Hcase as [(_ & ?)|?]; eauto.
Qed.
End calls.

(** A lookup by key through [mapErr]: what it finds, or why not. *)
Section lookup.
Context {G : UuidGen} {GL : UuidGenLaws G} {A : Type}.
Variables (f : stmt A) (row : DB → option A).
Hypothesis lookup_is : ∀ ctx d, (f ctx d).2 = d ∧
  ((f ctx d).1 = match row d with Some a => Ok a | None => Err ErrNoRows end
   ∨ ∃ e, (f ctx d).1 = Err e ∧ is_not_found (mapErr e) = false).

Lemma lookup_Ok w a w' :
  undisturbed w → (call f ?! mapErr) w = (Ok a, w') →
  undisturbed w' ∧ w_db w' = w_db w ∧ row (w_db w) = Some a.
Proof.
  intros Hw H%map_err_Ok_inv. apply call_Ok in H as (Hw' & now & id & _ & _ & _ & H); [|done].
  destruct (lookup_is (mkCtx (pg_time now) id None) (w_db w)) as [H2 H1].
  rewrite H in H1, H2. simpl in *. split_and!; [done..|].
  destruct H1 as [H1|(e & ? & _)]; [|done]. destruct (row (w_db w)); congruence.
Qed.

Lemma lookup_Err w e w' :
  undisturbed w → (call f ?! mapErr) w = (Err e, w') →
  undisturbed w' ∧ w_db w' = w_db w ∧ (is_not_found e = true → row (w_db w) = None).
Proof.
  intros Hw [(a & ? & _)|(e0 & [= ->] & H)]%map_err_inv; [done|].
  apply call_read_Err in H as (Hw' & Hd & Hcase); [|done|by intros; apply lookup_is].
  split_and!; [done..|]. intros Hnf. destruct Hcase as [(ctx & d & H)|[m ->]]; [|done].
  destruct (lookup_is ctx (w_db w)) as [_ [H1|(e1 & H1 & H2)]]; rewrite H in H1; simpl in H1.
  - destruct (row (w_db w)); congruence.
  - simplify_eq. congruence.
Qed.
End lookup.
