(* ===== verification/Membership.v ===== *)
(** * The statements that add members

    AddMembers and CreateGroupWithMembers of chat_repository.go build their
    INSERT at run time: the tuples name their parameters by position.  The
    positions are those of the arguments appended ([add_tuples_run],
    [group_tuples_run]), so the statement adds exactly the members asked
    for, and keeps those that are there ([members_added]). *)

From stdpp Require Import base strings gmap sets list.
From S2P Require Import Prelude GoStrings Uuid Json Errors GoTime Domain World Repository PgMessages PgChats Guarantee Invariant Evolution Calls.

Abbreviation members := (gmap (ID * ID) ChatMember).

(** INSERT ... ON CONFLICT DO NOTHING of one member. *)
Definition enlist (cid : ID) (role : string) (now : Time) (ms : members) (u : ID) : members :=
  match ms !! (cid, u) with
  | Some _ => ms
  | None => <[(cid, u) := new_member cid u role now]> ms
  end.

(** [ms'] is [ms] and the users [us], as members of [cid] with [role]. *)
Definition members_added (cid : ID) (role : string) (now : Time) (us : list ID) (ms ms' : members) : Prop :=
  ∀ c u, ms' !! (c, u) =
    match ms !! (c, u) with
    | Some m => Some m
    | None => if decide (c = cid ∧ u ∈ us) then Some (new_member cid u role now) else None
    end.

Lemma enlist_added cid role now ms us : members_added cid role now us ms (foldl (enlist cid role now) ms us).
Proof.
  revert ms. induction us as [|x us IH]; intros ms c u; simpl.
  - destruct (ms !! (c, u)); [done|]. case_decide as H; [|done]. by destruct H as [_ ?%elem_of_nil].
  - rewrite IH. unfold enlist. destruct (ms !! (cid, x)) as [m|] eqn:E.
    + destruct (ms !! (c, u)) eqn:E2; [done|].
      destruct (decide (c = cid ∧ u ∈ us)) as [[-> Hu]|Hn].
      * rewrite decide_True; [done|]. split; [done|by right].
      * rewrite decide_False; [done|]. intros [-> [->|Hu]%elem_of_cons]; [congruence|]. auto.
    + destruct (decide ((c, u) = (cid, x))) as [[= -> ->]|Hne].
      * rewrite lookup_insert_eq, E. rewrite decide_True; [done|]. split; [done|by left].
      * rewrite lookup_insert_ne by done. destruct (ms !! (c, u)); [done|].
        destruct (decide (c = cid ∧ u ∈ us)) as [[-> Hu]|Hn].
        -- rewrite decide_True; [done|]. split; [done|by right].
        -- rewrite decide_False; [done|]. intros [-> [->|Hu]%elem_of_cons]; [done|]. auto.
Qed.

Lemma members_added_nil cid role now ms : members_added cid role now [] ms ms.
Proof. apply (enlist_added cid role now ms []). Qed.

Lemma members_added_ext cid role now us us' ms ms' :
  (∀ u, ms !! (cid, u) = None → (u ∈ us ↔ u ∈ us')) →
  members_added cid role now us ms ms' → members_added cid role now us' ms ms'.
Proof.
  intros He Hm c u. rewrite (Hm c u). destruct (ms !! (c, u)) eqn:E; [done|].
  rewrite (decide_ext (c = cid ∧ u ∈ us) (c = cid ∧ u ∈ us')); [done|].
  split; intros [-> ?]; by rewrite He in * || by rewrite <- He in *.
Qed.

Lemma insert_member_row_Ok m d a d' :
  insert_member_row m d = (Ok a, d') →
  d' = set_members (<[(cm_ChatID m, cm_UserID m) := m]> (db_members d)) d
  ∧ in_dom (db_users d) (cm_UserID m) ∧ db_members d !! (cm_ChatID m, cm_UserID m) = None.
Proof.
  unfold insert_member_row. intros H. stmt_inv. subst. split_and!; try done.
Qed.

(** One tuple: the parameters are looked up by position. *)
Lemma insert_tuple_Ok args p r now d a d' chat cid :
  args !! 0%nat = Some chat → uuid_in chat = Some cid →
  insert_tuple args (p, r) now d = (Ok a, d') →
  ∃ user u role,
    args !! (p - 1)%nat = Some user ∧ uuid_in user = Some u
    ∧ match r with RoleParam q => args !! (q - 1)%nat = Some role | RoleLit l => role = l end
    ∧ d' = set_members (enlist cid role now (db_members d) u) d.
Proof.
  intros Hchat Hcid H. unfold insert_tuple in H. go_inv. simpl in *.
  repeat match goal with H : arg _ _ _ = (Ok _, _) |- _ => apply arg_Ok in H as [? ->] end.
  simpl in *. simplify_eq.
  assert (∀ x y, cast_uuid x = Ok y → uuid_in x = Some y) as Hcast.
  { intros x y. unfold cast_uuid. by destruct (uuid_in x); intros [=]; subst. }
  match goal with H : cast_uuid chat = Ok ?x |- _ => apply Hcast in H; rewrite Hcid in H; injection H as <- end.
  match goal with H : cast_uuid ?y = Ok _ |- _ => rename y into user; apply Hcast in H as Hu end.
  destruct r as [q|l]; simpl in *; go_inv;
    try match goal with H : arg _ _ _ = (Ok _, _) |- _ => apply arg_Ok in H as [? ->] end;
    do 3 eexists; (split_and!; [done..|]); unfold enlist;
    (case_decide as Hd; [destruct Hd as [m ->]; stmt_inv; by destruct d|
      apply eq_None_not_Some in Hd; rewrite Hd;
      match goal with H : insert_member_row _ _ = _ |- _ => by apply insert_member_row_Ok in H as (-> & _) end]).
Qed.

Definition user_ids (ms : list AddChatMember) : list ID := omap (uuid_in ∘ add_UserID) ms.

(** The tuples of AddMembers, after [pre] arguments. *)
Lemma add_tuples_run chat cid role now ms pre d a d' :
  uuid_in chat = Some cid → Forall (λ m, add_Role m = role) ms →
  let '(ts, args) := add_members_tuples (length pre + 2) ms in
  insert_tuples (chat :: pre ++ args) ts now d = (Ok a, d') →
  d' = set_members (foldl (enlist cid role now) (db_members d) (user_ids ms)) d
  ∧ Forall (λ m, is_Some (uuid_in (add_UserID m))) ms.
Proof.
  intros Hcid Hroles. revert pre d. induction Hroles as [|m ms Hrole Hroles IH]; intros pre d; simpl.
  - intros H. go_inv. split; [by destruct d|done].
  - specialize (IH (pre ++ [add_UserID m; add_Role m])).
    rewrite length_app in IH. simpl in IH. replace (length pre + 2 + 2)%nat with (length pre + 2 + 2)%nat in IH by lia.
    destruct (add_members_tuples (length pre + 2 + 2) ms) as [ts args] eqn:E.
    rewrite <- (app_assoc pre) in IH. simpl in IH. intros H. simpl in H.
    apply bind_Ok_inv in H as (u0 & d1 & H1 & H).
    apply (insert_tuple_Ok _ _ _ _ _ _ _ chat cid) in H1
      as (user & u & role' & Huser & Hu & Hr & ->); [|done..].
    replace (length pre + 2 - 1)%nat with (S (length pre)) in Huser by lia.
    replace (length pre + 2 + 1 - 1)%nat with (S (S (length pre))) in Hr by lia.
    simpl in Huser, Hr. rewrite list_lookup_middle in Huser by done. simplify_eq.
    rewrite lookup_app_r in Hr by lia.
    replace (S (length pre) - length pre)%nat with 1%nat in Hr by lia. simpl in Hr. simplify_eq.
    apply IH in H as [-> Hall]. split; [|by constructor].
    simpl. unfold compose. by rewrite Hu.
Qed.

(** The tuples of CreateGroupWithMembers. *)
Lemma group_tuples_run chat cid now us pre d a d' :
  uuid_in chat = Some cid →
  let '(ts, args) := group_tuples (length pre + 2) us in
  insert_tuples (chat :: pre ++ args) ts now d = (Ok a, d') →
  d' = set_members (foldl (enlist cid "member" now) (db_members d) (omap uuid_in us)) d
  ∧ Forall (λ u, is_Some (uuid_in u)) us.
Proof.
  intros Hcid. revert pre d. induction us as [|x us IH]; intros pre d; simpl.
  - intros H. go_inv. split; [by destruct d|done].
  - specialize (IH (pre ++ [x])).
    rewrite length_app in IH. simpl in IH. replace (length pre + 1 + 2)%nat with (length pre + 2 + 1)%nat in IH by lia.
    destruct (group_tuples (length pre + 2 + 1) us) as [ts args] eqn:E.
    rewrite <- (app_assoc pre) in IH. simpl in IH. intros H. simpl in H.
    apply bind_Ok_inv in H as (u0 & d1 & H1 & H).
    apply (insert_tuple_Ok _ _ _ _ _ _ _ chat cid) in H1
      as (user & u & role' & Huser & Hu & -> & ->); [|done..].
    replace (length pre + 2 - 1)%nat with (S (length pre)) in Huser by lia.
    simpl in Huser. rewrite list_lookup_middle in Huser by done. simplify_eq.
    apply IH in H as [-> Hall]. split; [|by constructor].
    simpl. by rewrite Hu.
Qed.

(** INSERT INTO chats: the row stored. *)
Definition chat_row (id : ID) (now : Time) (by_ : option ID) (c : Chat) : Chat :=
  mkChat id (chat_Type c) (chat_Title c) (chat_AvatarURL c) by_ now now None None false (chat_DirectKey c).
Lemma insert_chat_Ok c ctx d row d' :
  insert_chat c ctx d = (Ok row, d') →
  ∃ by_, cast_uuid_opt (chat_CreatedBy c) = Ok by_ ∧ row = chat_row (sc_id ctx) (sc_now ctx) by_ c
    ∧ opt_in (db_users d) by_ ∧ db_chats d !! sc_id ctx = None
    ∧ d' = set_chats (<[sc_id ctx := row]> (db_chats d)) d.
Proof.
  unfold insert_chat. intros H. stmt_inv. subst. eexists. split_and!; try done. by apply guard_opt_in.
Qed.

(** Only the members differ. *)
Definition only_members (d d' : DB) : Prop := d' = set_members (db_members d') d.

(** ** The call AddMembers *)
Section add_members.
Context {G : UuidGen} {GL : UuidGenLaws G}.

Lemma pg_AddMembers_stmt chat cid role ms ctx d a d' :
  uuid_in chat = Some cid → Forall (λ m, add_Role m = role) ms →
  (let '(ts, args) := add_members_tuples 2 ms in insert_members_values (chat :: args) ts) ctx d = (Ok a, d') →
  only_members d d' ∧ members_added cid role (sc_now ctx) (user_ids ms) (db_members d) (db_members d')
  ∧ Forall (λ m, is_Some (uuid_in (add_UserID m))) ms.
Proof.
  intros Hc Hr. pose proof (add_tuples_run chat cid role (sc_now ctx) ms [] d a d' Hc Hr) as H.
  simpl in H. destruct (add_members_tuples 2 ms) as [ts args]. intros [-> Hall]%H.
  split_and!; [done| |done]. apply enlist_added.
Qed.

Lemma pg_AddMembers_Ok chat cid role ms w u w' :
  undisturbed w → uuid_in chat = Some cid → Forall (λ m, add_Role m = role) ms →
  pg_AddMembers chat ms w = (Ok u, w') →
  undisturbed w' ∧ only_members (w_db w) (w_db w')
  ∧ ∃ now, members_added cid role now (user_ids ms) (db_members (w_db w)) (db_members (w_db w'))
           ∧ Forall (λ m, is_Some (uuid_in (add_UserID m))) ms.
Proof.
  intros Hw Hc Hr H. unfold pg_AddMembers in H. destruct ms as [|m ms].
  { injection H as <- <-. split_and!; [done|by destruct (w_db w)|]. exists 0%Z. split; [|done].
    apply (enlist_added cid role 0 _ []). }
  pose proof (λ ctx, pg_AddMembers_stmt chat cid role (m :: ms) ctx (w_db w) u (w_db w') Hc Hr) as Hs.
  destruct (add_members_tuples 2 (m :: ms)) as [ts args].
  apply call_Ok in H as (Hw' & now & id & _ & _ & _ & H); [|done].
  apply Hs in H as (? & ? & ?). eauto 10.
Qed.

Lemma pg_AddMembers_any chat cid role ms w r w' :
  undisturbed w → uuid_in chat = Some cid → Forall (λ m, add_Role m = role) ms →
  pg_AddMembers chat ms w = (r, w') →
  undisturbed w' ∧ only_members (w_db w) (w_db w')
  ∧ (db_members (w_db w') = db_members (w_db w)
     ∨ ∃ now, members_added cid role now (user_ids ms) (db_members (w_db w)) (db_members (w_db w'))).
Proof.
  intros Hw Hc Hr H. unfold pg_AddMembers in H. destruct ms as [|m ms].
  { injection H as <- <-. split_and!; [done|by destruct (w_db w)|by left]. }
  pose proof (λ ctx a, pg_AddMembers_stmt chat cid role (m :: ms) ctx (w_db w) a (w_db w') Hc Hr) as Hs.
  destruct (add_members_tuples 2 (m :: ms)) as [ts args].
  split; [by eapply call_later|].
  apply call_any in H as [->|(ctx & a & H)]; [split; [by destruct (w_db w)|by left]| |done].
  apply Hs in H as (? & ? & ?). eauto.
Qed.
End add_members.
