(* ===== verification/Scenario.v ===== *)
(** * A concrete scenario

    Two users, a chat between them with messages, and a generator of
    UUIDs: the concrete inputs at which the witnesses of the development
    evaluate its definitions. *)

From Stdlib Require Import Ascii.
From stdpp Require Import base strings gmap sets list.
From S2P Require Import Prelude GoStrings Utf8 Uuid Json Errors GoTime Domain Hub World Repository PgMessages Guarantee Invariant.

(** ** A generator: the counter in the last twelve digits *)
Definition hex_char (n : Z) : ascii :=
  Ascii.ascii_of_nat (Z.to_nat (if (n mod 16 <? 10)%Z then 48 + n mod 16 else 87 + n mod 16)).
Fixpoint hex_fixed (w : nat) (n : Z) (acc : string) : string :=
  match w with
  | O => acc
  | S w => hex_fixed w (n / 16) (String (hex_char n) acc)
  end.
#[export] Instance demo_gen : UuidGen := λ n, uuid_format ("00000000000040008000" +:+ hex_fixed 12 (Z.of_nat n) "").

Lemma hex_char_lower n : lower_hex (hex_char n) = true.
Proof.
  unfold hex_char. pose proof (Z.mod_pos_bound n 16 ltac:(lia)) as H.
  remember (n mod 16)%Z as r. clear Heqr.
  assert (r ∈ [0;1;2;3;4;5;6;7;8;9;10;11;12;13;14;15]%Z) as Hr.
  { rewrite !elem_of_cons. lia. }
  rewrite !elem_of_cons in Hr.
  destruct_or! Hr; try (subst; vm_compute; reflexivity). by apply not_elem_of_nil in Hr.
Qed.

Lemma hex_fixed_lower w n acc :
  str_forall lower_hex acc = true →
  str_forall lower_hex (hex_fixed w n acc) = true
  ∧ String.length (hex_fixed w n acc) = (w + String.length acc)%nat.
Proof.
  revert n acc. induction w as [|w IH]; intros n acc Hacc; [done|]. cbn [hex_fixed].
  destruct (IH (n / 16)%Z (String (hex_char n) acc)) as [? Hl].
  { cbn [str_forall]. by rewrite hex_char_lower. }
  split; [done|]. rewrite Hl. simpl. lia.
Qed.

#[export] Instance demo_gen_laws : UuidGenLaws demo_gen.
Proof.
  intros n. unfold gen_uuid, demo_gen.
  destruct (hex_fixed_lower 12 (Z.of_nat n) "" eq_refl) as [Hf Hl].
  apply uuid_format_canonical.
  - rewrite str_length_app, Hl. done.
  - rewrite str_forall_app, Hf. done.
Qed.

(** ** Tables *)
Definition alice : ID := "a0000000-0000-4000-8000-000000000001".
Definition bob : ID := "b0000000-0000-4000-8000-000000000002".
Definition carol : ID := "c0000000-0000-4000-8000-000000000003".
Definition chat1 : ID := "d0000000-0000-4000-8000-000000000004".
Definition msg1 : ID := "e0000000-0000-4000-8000-000000000005".
Definition msg2 : ID := "e0000000-0000-4000-8000-000000000006".

(** 2024-01-01T00:00:00Z *)
Definition t0 : Time := 1704067200 * second.

Definition demo_user (id email nick : string) : User :=
  mkUser id email "hash" nick None None None t0 t0 None true.
Definition demo_chat : Chat :=
  mkChat chat1 "direct" None None (Some alice) t0 t0 (Some msg2) (Some t0) false (Some "key").
Definition demo_member (user : ID) (role : string) : ChatMember :=
  mkChatMember chat1 user role t0 None None false false false.
Definition demo_message (id sender text : string) (at_ : Time) : Message :=
  mkMessage id chat1 sender "text" (Some text) None at_ at_ None.

Definition demo_db : DB :=
  mkDB
    (<[alice := demo_user alice "alice@example.com" "alice"]>
      (<[bob := demo_user bob "bob@example.com" "bob"]>
        {[carol := demo_user carol "carol@example.com" "carol"]}))
    {[chat1 := demo_chat]}
    (<[(chat1, alice) := demo_member alice "member"]> {[(chat1, bob) := demo_member bob "member"]})
    (<[msg1 := demo_message msg1 alice "hello" t0]> {[msg2 := demo_message msg2 bob "hi" (t0 + second)]})
    ∅ ∅ 0.

Definition demo_world (d : DB) (sched : list event) : World :=
  mkWorld d (t0 + minute) sched 0 0 ∅ ∅ [] [] NewHub.

Definition demo : World := demo_world demo_db [].

(** Time passes and calls fail as [fs] says; nobody else writes. *)
Definition faults (fs : list fault) : list event := map (λ f, mkEvent 1 id f None) fs.

Lemma demo_quiet d : quiet (demo_world d []).
Proof. done. Qed.

Lemma demo_undisturbed d fs : undisturbed (demo_world d (faults fs)).
Proof. unfold undisturbed. simpl. induction fs; simpl; constructor; done. Qed.

Lemma demo_canonical :
  canonical alice ∧ canonical bob ∧ canonical carol ∧ canonical chat1 ∧ canonical msg1 ∧ canonical msg2.
Proof. split_and!; vm_compute; split; reflexivity. Qed.

Ltac forall_rows :=
  repeat match goal with
         | |- map_Forall _ (<[_ := _]> _) => apply map_Forall_insert_2
         | |- map_Forall _ {[_ := _]} => apply map_Forall_singleton
         | |- map_Forall _ ∅ => apply map_Forall_empty
         end.

Lemma unique_by_image {K A B} `{Countable K} (key : A → option B) (m : gmap K A) (f : B → option K) :
  map_Forall (λ k r, ∀ b, key r = Some b → f b = Some k) m → unique key m.
Proof. intros Hf k1 k2 r1 r2 b H1 H2 Hb1 Hb2. apply (Hf _ _ H1) in Hb1. apply (Hf _ _ H2) in Hb2. congruence. Qed.

Lemma demo_wf : wf demo_db.
Proof.
  destruct demo_canonical as (?&?&?&?&?&?).
  split; simpl.
  - forall_rows; by split.
  - forall_rows. unfold chat_ok, in_dom. simpl. split_and!; try done; vm_compute; eauto.
  - forall_rows; unfold member_ok, in_dom; simpl; split_and!; try done; vm_compute; eauto.
  - forall_rows; unfold message_ok, in_dom; simpl; split_and!; try done; vm_compute; eauto.
  - forall_rows.
  - forall_rows.
  - apply (unique_by_image _ _ (λ b, if String.eqb b "alice@example.com" then Some alice
                                     else if String.eqb b "bob@example.com" then Some bob else Some carol)).
    forall_rows; intros b [= <-]; vm_compute; reflexivity.
  - apply (unique_by_image _ _ (λ _, Some chat1)). forall_rows. done.
  - intros ??????. by rewrite lookup_empty in *.
  - intros ??????. by rewrite lookup_empty in *.
Qed.
