(* ===== verification/Timeline.v ===== *)
(** * Timelines

    The listing of a chat (GetChatMessages): the order of messages, the
    page a cursor designates, and what a client sees that follows the
    cursors from page to page. *)

From stdpp Require Import base strings gmap list sorting.
From S2P Require Import Prelude GoStrings Utf8 Uuid Json Errors GoTime Domain Hub World Repository PgMessages Guarantee Invariant Scenario.

(** The live messages of a chat, newest first. *)
Definition in_timeline (cid : ID) (m : Message) : bool := String.eqb (msg_ChatID m) cid && live m.
Definition timeline (d : DB) (cid : ID) : list Message :=
  merge_sort newest_first (filter (λ m, in_timeline cid m = true) (messages_of d)).

(** What a client sees that asks for pages of [n] messages, each time
    before the last message it has. *)
Fixpoint walk (d : DB) (cid : ID) (n : nat) (cursor : option ID) (fuel : nat) : list Message :=
  match fuel with
  | O => []
  | S fuel =>
      let page := chat_messages_query d cid cursor None n in
      match last page with
      | None => []
      | Some m => page ++ walk d cid n (Some (msg_ID m)) fuel
      end
  end.

(** ** The order of messages *)

Lemma newest_first_spec a b :
  newest_first a b ↔
  (msg_CreatedAt b < msg_CreatedAt a)%Z
  ∨ msg_CreatedAt a = msg_CreatedAt b ∧ String.le (msg_ID b) (msg_ID a).
Proof.
  unfold newest_first, older, String.le, String.ltb, String.leb.
  rewrite (String.compare_antisym (msg_ID b)).
  destruct (Z.ltb_spec (msg_CreatedAt a) (msg_CreatedAt b)); simpl.
  { split; [done|]. intros [?|[? _]]; lia. }
  destruct (Z.eqb_spec (msg_CreatedAt a) (msg_CreatedAt b)) as [->|]; simpl.
  - destruct (String.compare _ _); simpl; naive_solver lia.
  - split; [left; lia|done].
Qed.

#[export] Instance newest_first_total : Total newest_first.
Proof.
  intros a b. rewrite !newest_first_spec.
  destruct (Z.lt_total (msg_CreatedAt a) (msg_CreatedAt b)) as [|[|]]; [by auto..| |by auto].
  destruct (total String.le (msg_ID a) (msg_ID b)); auto 10.
Qed.

#[export] Instance newest_first_trans : Transitive newest_first.
Proof.
  intros a b c. rewrite !newest_first_spec. intros [?|[-> Hab]] [?|[? Hbc]]; [left; lia..|].
  right. split; [done|]. by etransitivity.
Qed.

Lemma newest_first_antisym a b : newest_first a b → newest_first b a → msg_ID a = msg_ID b.
Proof.
  rewrite !newest_first_spec. intros [?|[? Hab]] [?|[? Hba]]; try lia.
  by apply (anti_symm String.le).
Qed.

Lemma newest_first_refl a : newest_first a a.
Proof. rewrite newest_first_spec. right. split; [done|]. apply (reflexivity (R:=String.le)). Qed.

(** ** Pages as segments of the timeline *)

Lemma elem_of_messages_of d m : wf d → m ∈ messages_of d ↔ db_messages d !! msg_ID m = Some m.
Proof.
  intros Hwf. unfold messages_of. rewrite list_elem_of_fmap. split.
  - intros ([k m'] & -> & Hk%elem_of_map_to_list). simpl.
    by destruct (wf_messages _ Hwf _ _ Hk) as (-> & _).
  - intros Hm. exists (msg_ID m, m). split; [done|]. by apply elem_of_map_to_list.
Qed.

Lemma messages_of_unique d a b :
  wf d → a ∈ messages_of d → b ∈ messages_of d → msg_ID a = msg_ID b → a = b.
Proof. intros Hwf. rewrite !elem_of_messages_of by done. intros Ha Hb E. congruence. Qed.

Lemma filter_all {A} (P : A → Prop) `{∀ x, Decision (P x)} l : Forall P l → filter P l = l.
Proof. induction 1; [done|]. by rewrite filter_cons, decide_True, IHForall. Qed.
Lemma filter_none {A} (P : A → Prop) `{∀ x, Decision (P x)} l : Forall (λ x, ¬ P x) l → filter P l = [].
Proof. induction 1; [done|]. by rewrite filter_cons, decide_False. Qed.

Section page.
Context (d : DB) (Hwf : wf d) (cid : ID).

Lemma timeline_sorted : StronglySorted newest_first (timeline d cid).
Proof. apply StronglySorted_merge_sort; apply _. Qed.

Lemma timeline_perm : timeline d cid ≡ₚ filter (λ m, in_timeline cid m = true) (messages_of d).
Proof. apply merge_sort_Permutation. Qed.

Lemma elem_of_timeline m :
  m ∈ timeline d cid ↔ db_messages d !! msg_ID m = Some m ∧ msg_ChatID m = cid ∧ msg_DeletedAt m = None.
Proof.
  rewrite timeline_perm, list_elem_of_filter, elem_of_messages_of by done.
  unfold in_timeline, live. rewrite andb_true_iff, String.eqb_eq.
  destruct (msg_DeletedAt m); naive_solver.
Qed.

Lemma timeline_unique a b : a ∈ timeline d cid → b ∈ timeline d cid → msg_ID a = msg_ID b → a = b.
Proof. rewrite !elem_of_timeline. intros (?&_) (?&_) E. congruence. Qed.

(** Sorting the rows the query keeps is keeping the rows of the timeline. *)
Lemma query_timeline before_id before_time n :
  chat_messages_query d cid before_id before_time n =
  take n (filter (λ m, before_cursor d cid before_id before_time m = true) (timeline d cid)).
Proof.
  unfold chat_messages_query. f_equal.
  apply (StronglySorted_unique_strong newest_first).
  - intros x1 x2 H1 H2 ? ?. rewrite merge_sort_Permutation in H1.
    apply list_elem_of_filter in H1 as [_ H1], H2 as [_ H2].
    rewrite timeline_perm, list_elem_of_filter in H2. destruct H2 as [_ H2].
    apply messages_of_unique with d; try done. by apply newest_first_antisym.
  - apply StronglySorted_merge_sort; apply _.
  - apply StronglySorted_filter, timeline_sorted.
  - rewrite merge_sort_Permutation, timeline_perm. rewrite list_filter_filter.
    apply reflexive_eq, list_filter_iff. intros m. unfold in_timeline.
    rewrite !andb_true_iff. tauto.
Qed.

Lemma page_first n : chat_messages_query d cid None None n = take n (timeline d cid).
Proof.
  rewrite query_timeline. f_equal. apply filter_all, Forall_forall. done.
Qed.

(** Messages are totally ordered on a timeline. *)
Lemma older_irrefl m : older m m = false.
Proof. apply newest_first_refl. Qed.

Lemma timeline_NoDup : NoDup (timeline d cid).
Proof.
  rewrite timeline_perm. apply NoDup_filter. unfold messages_of.
  apply NoDup_fmap_2_strong; [|apply NoDup_map_to_list].
  intros [k1 m1] [k2 m2] H1%elem_of_map_to_list H2%elem_of_map_to_list. simpl. intros <-.
  destruct (wf_messages _ Hwf _ _ H1) as (<- & _), (wf_messages _ Hwf _ _ H2) as (<- & _). done.
Qed.

Lemma sorted_older l1 a l2 :
  timeline d cid = l1 ++ a :: l2 →
  Forall (λ m, older m a = false) l1 ∧ Forall (λ m, older m a = true) l2.
Proof.
  intros E. pose proof timeline_sorted as Hs. pose proof timeline_NoDup as Hn.
  rewrite E in Hs, Hn. split; apply Forall_forall; intros m Hm.
  - exact (StronglySorted_app_1_elem_of newest_first l1 (a :: l2) m a Hs Hm (list_elem_of_here _ _)).
  - apply StronglySorted_app_1_r, StronglySorted_cons in Hs as [Ha _].
    rewrite Forall_forall in Ha. specialize (Ha m Hm).
    destruct (older m a) eqn:Eo; [done|].
    assert (m = a) as ->.
    { apply timeline_unique; [rewrite E; set_solver..|]. by apply newest_first_antisym. }
    apply NoDup_app in Hn as (_ & _ & [? _]%NoDup_cons). done.
Qed.

Lemma before_anchor l1 a l2 :
  timeline d cid = l1 ++ a :: l2 →
  filter (λ m, before_cursor d cid (Some (msg_ID a)) None m = true) (timeline d cid) = l2.
Proof.
  intros E. destruct (sorted_older _ _ _ E) as [H1 H2].
  assert (db_messages d !! msg_ID a = Some a ∧ msg_ChatID a = cid) as [Ha <-].
  { assert (a ∈ timeline d cid) as Ha by (rewrite E; set_solver).
    apply elem_of_timeline in Ha. tauto. }
  unfold before_cursor. rewrite Ha, String.eqb_refl. simpl.
  rewrite E at 1. rewrite filter_app, filter_cons, older_irrefl. simpl.
  rewrite filter_none, filter_all; [done|..].
  - eapply Forall_impl; [exact H2|]. done.
  - eapply Forall_impl; [exact H1|]. simpl. congruence.
Qed.

(** The page before a message of the timeline is what follows it. *)
Lemma page_next l1 a l2 n :
  timeline d cid = l1 ++ a :: l2 →
  chat_messages_query d cid (Some (msg_ID a)) None n = take n l2.
Proof. intros E. by rewrite query_timeline, (before_anchor _ _ _ E). Qed.

Lemma walk_from l1 l2 n cursor fuel :
  (0 < n)%nat → (length l2 < fuel)%nat →
  timeline d cid = l1 ++ l2 →
  (∀ k, chat_messages_query d cid cursor None k = take k l2) →
  walk d cid n cursor fuel = l2.
Proof.
  intros Hn. revert l1 l2 cursor. induction fuel as [|fuel IH]; intros l1 l2 cursor Hf E Hq; [lia|].
  cbn [walk]. rewrite Hq. destruct (last (take n l2)) as [a|] eqn:El.
  - apply last_Some in El as [p Ep].
    rewrite <- (take_drop n l2) at 2. f_equal.
    apply (IH (l1 ++ take n l2)).
    + rewrite length_drop. destruct l2; [rewrite take_nil in Ep; by destruct p|]. simpl in *. lia.
    + by rewrite <- app_assoc, take_drop.
    + intros k. apply page_next with (l1 ++ p). rewrite E, <- (take_drop n l2) at 1.
      rewrite Ep, <- !app_assoc. done.
  - apply last_None in El. destruct l2, n; try done; lia.
Qed.
End page.

Section claims.
(** C8.  Following the cursors: a client that asks for the messages of a
    chat page by page, each time before the oldest message it has, sees
    every live message of the chat exactly once, newest first, whatever
    the size of the pages. *)
Theorem walk_timeline d cid n fuel :
  wf d → (0 < n)%nat → (length (timeline d cid) < fuel)%nat →
  walk d cid n None fuel = timeline d cid
  ∧ NoDup (walk d cid n None fuel)
  ∧ StronglySorted newest_first (walk d cid n None fuel)
  ∧ ∀ m, m ∈ walk d cid n None fuel ↔
      db_messages d !! msg_ID m = Some m ∧ msg_ChatID m = cid ∧ msg_DeletedAt m = None.
Proof.
  intros Hwf Hn Hf. rewrite (walk_from d Hwf cid [] (timeline d cid)); [|done..|].
  - split_and!; [done|by apply timeline_NoDup|apply timeline_sorted|by apply elem_of_timeline].
  - intros k. by apply page_first.
Qed.
End claims.

Lemma walk_timeline_witness :
  wf demo_db ∧ (msg_ID <$> walk demo_db chat1 1 None 3) = [msg2; msg1]
  ∧ walk demo_db chat1 1 None 3 = timeline demo_db chat1.
Proof.
  split; [apply demo_wf|]. split; [vm_compute; reflexivity|].
  apply (walk_timeline demo_db chat1 1 3); [apply demo_wf|lia|].
  apply Nat.ltb_lt. vm_compute. reflexivity.
Defined.
