(* ===== verification/WriterTheorems.v ===== *)
(** * The transactional writer

    What a write of a message promises: the change of the row and exactly
    one event for the relay, or nothing.  [write] is the abstract
    interface of repository.MessageWriter, [write_effect] its
    specification; the four methods of message_writer.go refine it under
    any schedule. *)

From stdpp Require Import base strings gmap list.
From S2P Require Import Prelude GoStrings Utf8 Uuid Json Errors GoTime Domain Hub World Repository PgMessages Guarantee Invariant Evolution Scenario.

(** ** Specification *)
Inductive write : Type :=
| WCreate (m : Message) (ob : OutboxEnqueue)
| WText (chat mid : ID) (text : string) (ob : OutboxEnqueue)
| WDelete (chat mid : ID) (ob : OutboxEnqueue)
| WRead (chat uid mid : ID) (ob : OutboxEnqueue).

(** The row an event is stored as, when its id and chat are UUIDs. *)
Definition event_matches (ob : OutboxEnqueue) (payload : json) (ev : OutboxRec) : Prop :=
  uuid_in (oe_EventID ob) = Some (ob_event_id ev)
  ∧ ob_event_type ev = oe_EventType ob ∧ ob_aggregate_type ev = oe_AggregateType ob
  ∧ cast_uuid_opt (oe_ChatID ob) = Ok (ob_chat_id ev)
  ∧ ob_version ev = oe_Version ob ∧ ob_payload ev = to_jsonb payload
  ∧ ob_published_at ev = None.

(** [recorded E d d' ev]: the outbox of [d'] is that of [d] with [ev], under
    the next number of the sequence or, if [E], under one that was drawn
    earlier: larger ones are taken, by events about other messages. *)
Definition recorded (E : Prop) (d d' : DB) (ev : OutboxRec) : Prop :=
  db_outbox d !! ob_id ev = None ∧ db_outbox d' = <[ob_id ev := ev]> (db_outbox d)
  ∧ db_outbox_seq d' = Z.max (db_outbox_seq d) (ob_id ev)
  ∧ (ob_id ev = (db_outbox_seq d + 1)%Z
     ∨ E ∧ can_have_drawn (ob_event_type ev) (ob_aggregate_id ev) d (ob_id ev)).

(** [appended d d' ev]: the same, under the next number. *)
Definition appended (d d' : DB) (ev : OutboxRec) : Prop :=
  db_outbox d !! ob_id ev = None ∧ db_outbox d' = <[ob_id ev := ev]> (db_outbox d)
  ∧ ob_id ev = (db_outbox_seq d + 1)%Z ∧ db_outbox_seq d' = ob_id ev.

Lemma recorded_appended (E : Prop) d d' ev : ¬ E → recorded E d d' ev → appended d d' ev.
Proof. intros HE (? & ? & Hs & [Hid|[? _]]); [|done]. split_and!; [done..|lia]. Qed.
(** It depends on the outbox of the table before and its sequence only. *)
Lemma recorded_from (E E' : Prop) d d1 d' ev :
  recorded E d1 d' ev → db_outbox d1 = db_outbox d → db_outbox_seq d1 = db_outbox_seq d → (E → E') → recorded E' d d' ev.
Proof. unfold recorded, can_have_drawn. intros H H1 H2 HE. rewrite H1, H2 in H. tauto. Qed.

(** The payload a writer stores: the one it was given or the JSON of the
    row written. *)
Definition payload_of (ob : OutboxEnqueue) (row : Message) (p : json) : Prop :=
  match oe_Payload ob with Some j => p = j | None => encodeMessageWireJSON row = Ok p end.

Definition explicit_payload (ob : OutboxEnqueue) : json := default JEmpty (oe_Payload ob).

(** The row a message is stored as. *)
Definition stored_message (m row : Message) : Prop :=
  uuid_in (msg_ChatID m) = Some (msg_ChatID row)
  ∧ uuid_in (msg_SenderID m) = Some (msg_SenderID row)
  ∧ cast_uuid_opt (msg_ReplyToID m) = Ok (msg_ReplyToID row)
  ∧ msg_Type row = msg_Type m ∧ msg_Text row = msg_Text m
  ∧ msg_UpdatedAt row = msg_CreatedAt row ∧ msg_DeletedAt row = None.

Definition message_created (E : Prop) (m : Message) (ob : OutboxEnqueue) (row : Message) (d d' : DB) : Prop :=
  ∃ c ev p,
    stored_message m row ∧ db_messages d !! msg_ID row = None
    ∧ db_messages d' = <[msg_ID row := row]> (db_messages d)
    ∧ db_chats d !! msg_ChatID row = Some c
    ∧ db_chats d' = <[msg_ChatID row :=
        set_chat_last (msg_ID row) (msg_CreatedAt row) (msg_CreatedAt row) c]> (db_chats d)
    ∧ recorded E d d' ev ∧ event_matches ob p ev ∧ payload_of ob row p
    ∧ ob_aggregate_id ev = msg_ID row
    ∧ db_users d' = db_users d ∧ db_members d' = db_members d ∧ db_sessions d' = db_sessions d.

(** A message row rewritten by [f] at [now], and the event. *)
Definition message_changed (E : Prop) (f : Message → Message) (chat mid : ID) (d d' : DB) (ev : OutboxRec) : Prop :=
  ∃ k c m,
    uuid_in mid = Some k ∧ uuid_in chat = Some c ∧ target_message d k c = Some m
    ∧ db_messages d' = <[k := f m]> (db_messages d)
    ∧ recorded E d d' ev ∧ db_chats d' = db_chats d
    ∧ db_users d' = db_users d ∧ db_members d' = db_members d ∧ db_sessions d' = db_sessions d.

Definition write_effect (E : Prop) (x : write) (reply : option Message) (now : Time) (d d' : DB) : Prop :=
  match x with
  | WCreate m ob => ∃ row, reply = Some row ∧ msg_CreatedAt row = now ∧ message_created E m ob row d d'
  | WText chat mid text ob =>
      ∃ ev p k m, message_changed E (set_text text now) chat mid d d' ev ∧ event_matches ob p ev
        ∧ uuid_in mid = Some k ∧ db_messages d' !! k = Some m ∧ payload_of ob m p
        ∧ ob_aggregate_id ev = mid
  | WDelete chat mid ob =>
      ∃ ev, message_changed E (set_deleted now) chat mid d d' ev
        ∧ event_matches ob (explicit_payload ob) ev ∧ ob_aggregate_id ev = oe_AggregateID ob
  | WRead chat uid mid ob =>
      ∃ ev c u k m, uuid_in chat = Some c ∧ uuid_in uid = Some u ∧ uuid_in mid = Some k
        ∧ db_members d !! (c, u) = Some m ∧ in_dom (db_messages d) k
        ∧ db_members d' = <[(c, u) := set_member_read k now m]> (db_members d)
        ∧ recorded E d d' ev ∧ event_matches ob (explicit_payload ob) ev
        ∧ ob_aggregate_id ev = oe_AggregateID ob
        ∧ db_messages d' = db_messages d ∧ db_chats d' = db_chats d
        ∧ db_users d' = db_users d ∧ db_sessions d' = db_sessions d
  end.

Lemma recorded_mono (E E' : Prop) d d' ev : (E → E') → recorded E d d' ev → recorded E' d d' ev.
Proof. intros HE H. by eapply recorded_from. Qed.
Lemma message_created_mono (E E' : Prop) m ob row d d' :
  (E → E') → message_created E m ob row d d' → message_created E' m ob row d d'.
Proof.
  intros HE (c & ev & p & H). exists c, ev, p. pose proof (recorded_mono E E' d d' ev HE). tauto.
Qed.
Lemma write_effect_mono (E E' : Prop) x reply now d d' :
  (E → E') → write_effect E x reply now d d' → write_effect E' x reply now d d'.
Proof.
  intros HE. pose proof (λ ev, recorded_mono E E' d d' ev HE) as Hr. destruct x; simpl.
  - intros (row & ? & ? & H). exists row. split_and!; [done..|]. by eapply message_created_mono.
  - intros (ev & p & k & m & (k' & c & m' & H) & H'). exists ev, p, k, m.
    split; [|done]. exists k', c, m'. specialize (Hr ev). tauto.
  - intros (ev & (k' & c & m' & H) & H'). exists ev. split; [|done]. exists k', c, m'. specialize (Hr ev). tauto.
  - intros (ev & c & u & k & m & H). exists ev, c, u, k, m. specialize (Hr ev). tauto.
Qed.

(** The writer's method for each write. *)
Definition run_write (W : MessageWriter) (x : write) : M (option Message) :=
  match x with
  | WCreate m ob => row ← CreateMessageWithOutbox m ob; mret (Some row)
  | WText chat mid text ob => UpdateMessageTextWithOutbox chat mid text ob;; mret None
  | WDelete chat mid ob => SoftDeleteMessageWithOutbox chat mid ob;; mret None
  | WRead chat uid mid ob => UpdateMemberReadWithOutbox chat uid mid ob;; mret None
  end.

(** ** What each statement did, when it succeeded *)

Lemma cast_uuid_Ok s u : cast_uuid s = Ok u ↔ uuid_in s = Some u.
Proof. unfold cast_uuid. destruct (uuid_in s); split; by intros [= ->]. Qed.

Lemma insert_message_Ok m ctx d row d' :
  insert_message m ctx d = (Ok row, d') →
  stored_message m row ∧ msg_ID row = sc_id ctx ∧ msg_CreatedAt row = sc_now ctx
  ∧ db_messages d !! msg_ID row = None
  ∧ d' = set_messages (<[msg_ID row := row]> (db_messages d)) d.
Proof.
  intros H. unfold insert_message in H. stmt_inv. subst. unfold stored_message. simpl.
  split_and!; by try apply cast_uuid_Ok.
Qed.

Lemma update_last_message_Ok chat mid at_ ctx d u d' :
  update_last_message chat mid at_ ctx d = (Ok u, d') →
  ∃ k i c, uuid_in chat = Some k ∧ uuid_in mid = Some i ∧ db_chats d !! k = Some c
    ∧ d' = set_chats (<[k := set_chat_last i (pg_time at_) (sc_now ctx) c]> (db_chats d)) d.
Proof.
  intros H. unfold update_last_message in H. stmt_inv.
  destruct (db_chats _ !! _) as [c|] eqn:E; [|done]. stmt_inv. subst.
  do 3 eexists. split_and!; try by apply cast_uuid_Ok. all: done.
Qed.

Lemma update_member_read_Ok chat uid mid ctx d x d' :
  update_member_read chat uid mid ctx d = (Ok x, d') →
  ∃ c u k m, uuid_in chat = Some c ∧ uuid_in uid = Some u ∧ uuid_in mid = Some k
    ∧ db_members d !! (c, u) = Some m ∧ in_dom (db_messages d) k
    ∧ d' = set_members (<[(c, u) := set_member_read k (sc_now ctx) m]> (db_members d)) d.
Proof.
  intros H. unfold update_member_read in H. stmt_inv.
  destruct (db_members _ !! _) as [m|] eqn:E; [|done]. stmt_inv. subst.
  do 4 eexists. split_and!; try by apply cast_uuid_Ok. all: done.
Qed.

Lemma insert_outbox_Ok ob ctx d x d' :
  insert_outbox ob ctx d = (Ok x, d') →
  ∃ ev, recorded (sc_drawn ctx ≠ None) d d' ev ∧ event_matches ob (explicit_payload ob) ev
    ∧ ob_aggregate_id ev = oe_AggregateID ob
    ∧ d' = set_outbox_seq (Z.max (db_outbox_seq d) (ob_id ev)) (set_outbox (<[ob_id ev := ev]> (db_outbox d)) d).
Proof.
  intros H. unfold insert_outbox in H. stmt_inv. subst.
  match goal with |- context [<[_ := ?e]> _] => exists e end.
  split; [|unfold event_matches; split_and!; try (by apply cast_uuid_Ok); done].
  unfold recorded. cbn [ob_id ob_event_type ob_aggregate_id]. split_and!; [done..|].
  unfold outbox_id. destruct (sc_drawn ctx) as [n|]; [|by left]. case_decide; [by right|by left].
Qed.

Lemma update_target_changed f chat mid d x d' :
  update_target f chat mid d = (Ok x, d') →
  ∃ k c m, uuid_in mid = Some k ∧ uuid_in chat = Some c ∧ target_message d k c = Some m
    ∧ d' = set_messages (<[k := f m]> (db_messages d)) d.
Proof.
  intros (k & c & m & Hk & Hc & Ht & ->)%update_target_Ok.
  exists k, c, m. split_and!; try by apply cast_uuid_Ok. all: done.
Qed.

Lemma update_message_text_changed chat mid text ctx d x d' :
  update_message_text chat mid text ctx d = (Ok x, d') →
  ∃ k c m, uuid_in mid = Some k ∧ uuid_in chat = Some c ∧ target_message d k c = Some m
    ∧ d' = set_messages (<[k := set_text text (sc_now ctx) m]> (db_messages d)) d.
Proof. unfold update_message_text. intros H. stmt_inv. by eapply update_target_changed. Qed.

Lemma update_message_deleted_changed chat mid ctx d x d' :
  update_message_deleted chat mid ctx d = (Ok x, d') →
  ∃ k c m, uuid_in mid = Some k ∧ uuid_in chat = Some c ∧ target_message d k c = Some m
    ∧ d' = set_messages (<[k := set_deleted (sc_now ctx) m]> (db_messages d)) d.
Proof. apply update_target_changed. Qed.

Lemma select_message_in_chat_Ok mid chat ctx d m d' :
  select_message_in_chat mid chat ctx d = (Ok m, d') →
  d' = d ∧ ∃ k, uuid_in mid = Some k ∧ db_messages d !! k = Some m.
Proof.
  unfold select_message_in_chat. intros H. stmt_inv. split; [done|].
  match goal with H : (_ ≫= _) = Some _ |- _ => apply bind_Some in H as (m' & Hm & Hif) end.
  destruct (String.eqb _ _); [|done]. simplify_eq. eexists. split; [by apply cast_uuid_Ok|done].
Qed.

Lemma fill_payload_Ok m ob w ob2 w' :
  fill_payload m ob w = (Ok ob2, w') →
  w' = w ∧ ∃ p, payload_of ob m p ∧ ob2 = with_payload p ob.
Proof.
  unfold fill_payload, payload_of. destruct (oe_Payload ob) as [p|] eqn:E; intros H; go_inv.
  - split; [done|]. exists p. split; [done|]. destruct ob. simpl in *. by subst.
  - split; [done|]. eauto.
Qed.

(** ** The bodies of the transactions *)
Ltac tx_inv :=
  go_inv;
  repeat match goal with
  | H : tx_call _ _ = (Ok _, _) |- _ => apply tx_call_Ok in H as (?e & H & ? & ? & ?)
  | H : fill_payload _ _ _ = (Ok _, _) |- _ =>
      apply fill_payload_Ok in H as [-> (? & ? & ->)]
  | H : insert_message _ _ _ = (Ok _, _) |- _ =>
      apply insert_message_Ok in H as (?Hst & ?Hid & ?Hnow & ?Hnew & ?Hdb)
  | H : update_last_message _ _ _ _ _ = (Ok _, _) |- _ =>
      apply update_last_message_Ok in H as (?k & ?i & ?c & ?Hk & ?Hi & ?Hc & ?Hdb)
  | H : insert_outbox _ _ _ = (Ok _, _) |- _ =>
      apply insert_outbox_Ok in H as (?ev & ?Happ & ?Hev & ?Hagg & ?Hdb)
  | H : update_member_read _ _ _ _ _ = (Ok _, _) |- _ =>
      apply update_member_read_Ok in H as (?c & ?u & ?k & ?m & ?Hc & ?Hu & ?Hk & ?Hm & ?Hin & ?Hdb)
  | H : update_message_text _ _ _ _ _ = (Ok _, _) |- _ =>
      apply update_message_text_changed in H as (?k & ?c & ?m & ?Hk & ?Hc & ?Hm & ?Hdb)
  | H : update_message_deleted _ _ _ _ = (Ok _, _) |- _ =>
      apply update_message_deleted_changed in H as (?k & ?c & ?m & ?Hk & ?Hc & ?Hm & ?Hdb)
  | H : select_message_in_chat _ _ _ _ = (Ok _, _) |- _ =>
      apply select_message_in_chat_Ok in H as [?Hdb (?k & ?Hk & ?Hm)]
  end.

(** The event was recorded over the tables the transaction found. *)
Ltac record_event :=
  match goal with Happ : recorded _ _ ?d' ?ev |- context [draws ?w] =>
    assert (recorded (draws w) (w_db w) d' ev) as Hrec
      by (eapply recorded_from; [exact Happ|by repeat match goal with H : w_db _ = _ |- _ => rewrite H end..|simpl; tauto]);
    clear Happ
  end.

Section bodies.
Context {G : UuidGen} {GL : UuidGenLaws G}.

Lemma create_message_tx_effect m ob w row w' :
  create_message_tx m ob w = (Ok row, w') →
  write_effect (draws w) (WCreate m ob) (Some row) (pg_time (w_now w)) (w_db w) (w_db w').
Proof.
  unfold create_message_tx. intros H. tx_inv.
  match goal with |- write_effect _ _ (Some ?r) _ _ _ => rename r into row end.
  exists row. split; [done|]. split; [done|].
  assert (k = msg_ChatID row) as -> by (destruct Hst as (Hc0 & _); by eapply uuid_in_idem).
  assert (i = msg_ID row) as ->.
  { rewrite Hid in Hi. simpl in *. rewrite uuid_in_canonical in Hi by apply gen_uuid_canonical.
    congruence. }
  record_event.
  simpl in *. rewrite ?Hdb1, ?Hdb0, ?Hdb in *. simpl in *.
  exists c, ev, x2. split_and!; try done; try tauto.
  by replace (w_now x0) with (w_now w); rewrite Hnow, pg_time_idem.
Qed.

Lemma update_text_tx_effect chat mid text ob w u w' :
  update_text_tx chat mid text ob w = (Ok u, w') →
  write_effect (draws w) (WText chat mid text ob) None (pg_time (w_now w)) (w_db w) (w_db w').
Proof.
  unfold update_text_tx. intros H. tx_inv. unfold write_effect, message_changed. simpl in *.
  record_event.
  rewrite ?Hdb1, ?Hdb0, ?Hdb in *. simpl in *.
  exists ev, x4, k. eexists. split_and!; try done; try tauto.
  - exists k, c, m. split_and!; try done; tauto.
  - congruence.
Qed.

Lemma soft_delete_tx_effect chat mid ob w u w' :
  soft_delete_tx chat mid ob w = (Ok u, w') →
  write_effect (draws w) (WDelete chat mid ob) None (pg_time (w_now w)) (w_db w) (w_db w').
Proof.
  unfold soft_delete_tx. intros H. tx_inv. unfold write_effect, message_changed. simpl in *.
  record_event.
  rewrite ?Hdb0, ?Hdb in *. simpl in *.
  exists ev. split_and!; try done. exists k, c, m. split_and!; try done; tauto.
Qed.

Lemma member_read_tx_effect chat uid mid ob w u w' :
  member_read_tx chat uid mid ob w = (Ok u, w') →
  write_effect (draws w) (WRead chat uid mid ob) None (pg_time (w_now w)) (w_db w) (w_db w').
Proof.
  unfold member_read_tx. intros H. tx_inv. unfold write_effect. simpl in *.
  record_event.
  rewrite ?Hdb0, ?Hdb in *. simpl in *.
  exists ev, c, u0, k, m. split_and!; try done; tauto.
Qed.
End bodies.

(** ** The methods *)
Section methods.
Context {G : UuidGen} {GL : UuidGenLaws G}.

(** An outcome of a write: nothing changed and an error; or the effect of
    the write in the tables, and its reply, or the error of a commit
    whose acknowledgement was lost. *)
Definition write_outcome (E : Prop) (x : write) (now : Time) (d : DB) (r : result error (option Message))
    (d' : DB) : Prop :=
  (d' ≡ d ∧ ∃ e, r = Err e)
  ∨ ∃ reply, write_effect E x reply now d d' ∧ (r = Ok reply ∨ ∃ m, r = Err (ErrPlain m)).

Lemma commitOutboxObs_inv {A} obs (body : M A) w r w' :
  commitOutboxObs obs body w = (r, w') →
  let w1 := (next_event w).2 in
  (∃ e, r = Err e ∧ w_db w' ≡ w_db w1) ∨
  (∃ a w2, body w1 = (Ok a, w2) ∧ w_db w' = w_db w2 ∧ (r = Ok a ∨ ∃ m, r = Err (ErrPlain m))).
Proof.
  unfold commitOutboxObs. intros H. apply bind_inv in H as [(a & w1 & Ht & H)|(e & Ht & ->)].
  - assert (w_db w' = w_db w1 ∧ r = Ok a) as [-> ->].
    { destruct obs; injection H as <- <-; done. }
    by apply transaction_inv in Ht.
  - by apply transaction_inv in Ht.
Qed.
End methods.

Section atomicity.
Context {G : UuidGen} {GL : UuidGenLaws G}.

(** The outcome of a transaction around a body with a known effect. *)
Lemma commit_outcome {A} obs (body : M A) (f : A → option Message) x w r w' :
  (∀ w1 a w2, body w1 = (Ok a, w2) →
     write_effect (draws w1) x (f a) (pg_time (w_now w1)) (w_db w1) (w_db w2)) →
  (a ← commitOutboxObs obs body; mret (f a)) w = (r, w') →
  write_outcome (draws (next_event w).2) x (pg_time (w_now (next_event w).2)) (w_db (next_event w).2) r (w_db w').
Proof.
  intros Hb H. apply bind_inv in H as [(a & w1 & Hc & H)|(e & Hc & ->)];
    apply commitOutboxObs_inv in Hc as [(e' & Hr & Hd)|(a' & w2 & Hbody & Hd & Hr)].
  - done.
  - injection H as <- <-. right. exists (f a). destruct Hr as [[= ->]|[? ?]]; [|done].
    rewrite Hd. split; [by apply Hb|by left].
  - left. eauto.
  - right. exists (f a'). rewrite Hd. split; [by apply Hb|]. destruct Hr as [|[m [= ->]]]; [done|].
    right. eauto.
Qed.

Abbreviation outcome x w r w' :=
  (write_outcome (draws (next_event w).2) x (pg_time (w_now (next_event w).2)) (w_db (next_event w).2) r (w_db w')).

Lemma create_outcome obs m ob w r w' :
  run_write (pg_message_writer true obs) (WCreate m ob) w = (r, w') → outcome (WCreate m ob) w r w'.
Proof. apply (commit_outcome obs _ Some). intros. by apply create_message_tx_effect. Qed.

Lemma text_outcome obs chat mid text ob w r w' :
  run_write (pg_message_writer true obs) (WText chat mid text ob) w = (r, w') →
  outcome (WText chat mid text ob) w r w'.
Proof. apply (commit_outcome obs _ (λ _, None)). intros. by eapply update_text_tx_effect. Qed.

Lemma delete_outcome obs chat mid ob w r w' :
  run_write (pg_message_writer true obs) (WDelete chat mid ob) w = (r, w') →
  outcome (WDelete chat mid ob) w r w'.
Proof. apply (commit_outcome obs _ (λ _, None)). intros. by eapply soft_delete_tx_effect. Qed.

Lemma read_outcome obs chat uid mid ob w r w' :
  run_write (pg_message_writer true obs) (WRead chat uid mid ob) w = (r, w') →
  outcome (WRead chat uid mid ob) w r w'.
Proof. apply (commit_outcome obs _ (λ _, None)). intros. by eapply member_read_tx_effect. Qed.

(** C1.  Writes are atomic: whatever the database does during the call
    (time passing, other processes changing the tables before the
    transaction commits, a failure at any statement or at the commit), a
    method of the writer leaves the tables as the transaction found them
    and reports an error, or makes its whole change together with exactly
    one unpublished outbox event that carries it, under a number of the
    sequence nobody else has. *)
Theorem writer_atomic obs x w r w' :
  run_write (pg_message_writer true obs) x w = (r, w') →
  write_outcome (draws (next_event w).2) x (pg_time (w_now (next_event w).2)) (w_db (next_event w).2) r (w_db w').
Proof.
  destruct x; [apply create_outcome|apply text_outcome|apply delete_outcome|apply read_outcome].
Qed.

(** *** When nobody else writes *)

Lemma next_event_db w : undisturbed w → w_db (next_event w).2 = w_db w.
Proof.
  intros Hw. destruct (next_event w) as [e w1] eqn:E.
  by apply next_event_undisturbed in E as [? _].
Qed.

Lemma outcome_Ok E x now d reply d' :
  write_outcome E x now d (Ok reply) d' → write_effect E x reply now d d'.
Proof. by intros [[_ [e ?]]|(y & He & [[= ->]|[m ?]])]. Qed.

(** The events of a program that writes alone get the next numbers. *)
Lemma undisturbed_effect x w reply now d' :
  undisturbed w →
  write_outcome (draws (next_event w).2) x now (w_db (next_event w).2) (Ok reply) d' →
  write_effect False x reply now (w_db w) d'.
Proof.
  intros Hw H. destruct (next_event w) as [e w1] eqn:E. apply next_event_undisturbed in E as [<- Hw1]; [|done].
  eapply write_effect_mono; [|by apply outcome_Ok]. by apply undisturbed_draws.
Qed.

Lemma outcome_Err E x now d e d' :
  write_outcome E x now d (Err e) d' → d' ≡ d ∨ ∃ m, e = ErrPlain m.
Proof. intros [[? _]|(y & _ & [?|[m [= ->]]])]; [by left|done|right; eauto]. Qed.
End atomicity.

(** ** Witnesses *)
Definition demo_enqueue (event_type : string) : OutboxEnqueue :=
  mkEnqueue msg2 event_type AggregateTypeMessage "" (Some chat1) t0 1 None.
Definition demo_post : write :=
  WCreate (mkMessage "" chat1 alice "text" (Some "again") None 0 0 None)
          (demo_enqueue EventMessageCreated).

(** A write that commits although its acknowledgement is lost. *)
Definition demo_lost : World :=
  demo_world demo_db (faults [NoFault; NoFault; NoFault; NoFault; FailAfter "connection reset"]).

Lemma writer_atomic_witness :
  let run := run_write (pg_message_writer true false) demo_post demo_lost in
  is_ok run.1 = false ∧ size (db_outbox (w_db run.2)) = 1%nat
  ∧ write_outcome (draws (next_event demo_lost).2) demo_post (pg_time (w_now (next_event demo_lost).2))
      (w_db (next_event demo_lost).2) run.1 (w_db run.2).
Proof.
  split; [vm_compute; reflexivity|]. split; [vm_compute; reflexivity|].
  apply (writer_atomic false demo_post demo_lost). apply surjective_pairing.
Defined.
