(* ===== verification/MessageService.v ===== *)
(** * Message service

    internal/service/message_service.go: reading, writing, editing and
    deleting messages and read receipts, against the repository interfaces. *)

From stdpp Require Import base strings gmap list.
From S2P Require Import Prelude GoStrings Regex Uuid Json Errors GoTime Domain Hub Metrics World Repository.

Definition msgTextMaxLen : nat := 8000.
Definition msgDefaultLimit : Z := 50.
Definition msgMaxLimit : Z := 200.

(** ** dto/message.go *)
Record MessageDTO := mkMessageDTO {
  dto_ID : string;
  dto_ChatID : string;
  dto_SenderID : string;
  dto_Type : string;
  dto_Text : option string;
  dto_ReplyToID : option string;
  dto_CreatedAt : Time;
  dto_UpdatedAt : Time
}.
Record MessageListResponse := mkMessageList {
  ml_Messages : list MessageDTO;
  ml_HasMore : bool
}.
Record CreateMessageRequest := mkCreateMessage {
  cmr_Text : string;
  cmr_ReplyToID : option string
}.
Record MarkReadResponse := mkMarkRead {
  mr_ChatID : string;
  mr_LastReadMessageID : string
}.

Definition toMessageDTO (m : Message) : MessageDTO :=
  mkMessageDTO (msg_ID m) (msg_ChatID m) (msg_SenderID m) (msg_Type m) (msg_Text m)
               (msg_ReplyToID m) (msg_CreatedAt m) (msg_UpdatedAt m).

(** ** Parsing of the arguments *)
Definition parseMsgChatID (raw : string) : result error ID :=
  let raw := TrimSpace raw in
  if MatchString msgUUIDRe raw then Ok raw else Err (Validation "invalid chat_id" None).

Definition parseMsgID (raw : string) : result error ID :=
  let raw := TrimSpace raw in
  if MatchString msgUUIDRe raw then Ok raw else Err (Validation "invalid message_id" None).

(** [time.Parse] accepts the same texts for both layouts. *)
Definition parseBeforeCursor (raw : string) : result error (option ID * option Time) :=
  let raw := TrimSpace raw in
  if str_empty raw then Ok (None, None)
  else if MatchString msgUUIDRe raw then Ok (Some raw, None)
  else match parse_rfc3339 raw with
       | Some t => Ok (None, Some t)
       | None =>
           Err (Validation "invalid before cursor (use message id or RFC3339/RFC3339Nano timestamp)" None)
       end.

Definition validateMessageTypeForMVP (t : string) : result error () :=
  if String.eqb t MessageTypeText || String.eqb t MessageTypeSystem then Ok ()
  else Err (Validation "unsupported message type for MVP (only text and system)" None).

(** The checks on a text after trimming, in Create and Patch. *)
Definition check_text {S} (text : string) : eff S error () :=
  fail_when (str_empty text) (Validation "text is required" None);;
  fail_when (msgTextMaxLen <? String.length text)%nat (Validation "text too long" None).

(** [limit] after the defaults of ListByChat. *)
Definition list_limit (limit : Z) : Z :=
  let limit := if (limit <=? 0)%Z then msgDefaultLimit else limit in
  if (limit >? msgMaxLimit)%Z then msgMaxLimit else limit.

Section service.
Context {G : UuidGen} {MR : MessageRepository} {CR : ChatRepository}.
(** [s.writer], possibly nil, and [s.metrics != nil] *)
Variables (writer : option MessageWriter) (metrics : bool).

Definition newOutboxEventID : M ID := NewString.

Definition message_outbox (event_type : string) (aggregate_id : string) (chat : ID) (payload : option json)
    : M OutboxEnqueue :=
  eid ← newOutboxEventID;
  now ← time_now;
  mret (mkEnqueue eid event_type AggregateTypeMessage aggregate_id (Some chat) now 1 payload).

Definition outboxForMessageCreated (m : Message) : M OutboxEnqueue :=
  message_outbox EventMessageCreated "" (msg_ChatID m) None.
Definition outboxForMessageUpdated (m : Message) : M OutboxEnqueue :=
  message_outbox EventMessageUpdated (msg_ID m) (msg_ChatID m) None.

Definition deleted_body (m : Message) (now : Time) : json :=
  JObj [("chat_id", JStr (msg_ChatID m)); ("deleted_at", JStr (format_rfc3339nano now));
        ("id", JStr (msg_ID m))].
Definition outboxForMessageDeleted (m : Message) : M OutboxEnqueue :=
  now ← time_now;
  eid ← newOutboxEventID;
  mret (mkEnqueue eid EventMessageDeleted AggregateTypeMessage (msg_ID m) (Some (msg_ChatID m))
                  now 1 (Some (deleted_body m now))).

Definition receipt_body (chat user mid : ID) : json :=
  JObj [("chat_id", JStr chat); ("last_read_message_id", JStr mid); ("user_id", JStr user)].
Definition outboxForReadReceipt (chat user mid : ID) : M OutboxEnqueue :=
  eid ← newOutboxEventID;
  now ← time_now;
  mret (mkEnqueue eid EventMessageReadReceipt AggregateTypeReadState (user +:+ ":" +:+ mid)
                  (Some chat) now 1 (Some (receipt_body chat user mid))).

Definition requireChatMember (chat user : ID) : M () :=
  _ ← chats_FindMembership chat user
        ?! not_found_or (Forbidden "not a chat member") "lookup membership";
  mret ().

(** [if actor == "" { return Unauthorized }] *)
Definition require_actor (actor : ID) : M () :=
  fail_when (str_empty actor) (Unauthorized "missing user").

(** [if s.writer == nil { return Internal }] *)
Definition require_writer : M MessageWriter :=
  match writer with
  | Some w => mret w
  | None => throw (Internal "message writer not configured" None)
  end.

(** The prefix of Get, Patch, Delete and MarkRead: parse the id, load
    the message, a deleted message is not found. *)
Definition load_message (raw : string) : M Message :=
  mid ← of_result (parseMsgID raw);
  m ← msgs_GetByID mid ?! not_found_or (NotFound "message not found") "load message";
  fail_when (negb (bool_decide (msg_DeletedAt m = None))) (NotFound "message not found");;
  mret m.

Definition ListByChat (actor : ID) (chatIDRaw : string) (limit : Z) (beforeRaw : string)
    : M MessageListResponse :=
  require_actor actor;;
  cid ← of_result (parseMsgChatID chatIDRaw);
  requireChatMember cid actor;;
  let limit := list_limit limit in
  before ← of_result (parseBeforeCursor beforeRaw);
  rows ← msgs_GetChatMessages cid (mkListOpts limit before.1 before.2)
           ?! internal_err "list messages";
  let out := toMessageDTO <$> rows in
  mret (mkMessageList out (Z.of_nat (length out) =? limit)%Z).

(** The validation of [in.ReplyToID]. *)
Definition check_reply (cid : ID) (replyTo : option string) : M (option ID) :=
  match replyTo with
  | None => mret None
  | Some raw =>
      let rid := TrimSpace raw in
      if str_empty rid then mret None
      else
        fail_when (negb (MatchString msgUUIDRe rid)) (Validation "invalid reply_to_id" None);;
        rm ← msgs_GetByID rid ?! not_found_or (NotFound "reply message not found") "load reply message";
        fail_when (negb (String.eqb (msg_ChatID rm) cid))
                  (Validation "reply_to_id must belong to the same chat" None);;
        fail_when (negb (bool_decide (msg_DeletedAt rm = None)))
                  (Validation "cannot reply to a deleted message" None);;
        mret (Some rid)
  end.

Definition Create (actor : ID) (chatIDRaw : string) (req : CreateMessageRequest) : M MessageDTO :=
  require_actor actor;;
  writer ← require_writer;
  cid ← of_result (parseMsgChatID chatIDRaw);
  requireChatMember cid actor;;
  let text := TrimSpace (cmr_Text req) in
  check_text text;;
  reply ← check_reply cid (cmr_ReplyToID req);
  let m := mkMessage "" cid actor MessageTypeText (Some text) reply 0 0 None in
  of_result (validateMessageTypeForMVP (msg_Type m));;
  ob ← outboxForMessageCreated m;
  m ← @CreateMessageWithOutbox writer m ob ?! not_found_or (NotFound "chat not found") "create message";
  inc_if metrics MessagesCreate;;
  mret (toMessageDTO m).

Definition Get (actor : ID) (messageIDRaw : string) : M MessageDTO :=
  require_actor actor;;
  m ← load_message messageIDRaw;
  requireChatMember (msg_ChatID m) actor;;
  mret (toMessageDTO m).

Definition Patch (actor : ID) (messageIDRaw : string) (newText : string) : M MessageDTO :=
  require_actor actor;;
  writer ← require_writer;
  m ← load_message messageIDRaw;
  fail_when (negb (String.eqb (msg_SenderID m) actor)) (Forbidden "only author can edit message");;
  requireChatMember (msg_ChatID m) actor;;
  of_result (validateMessageTypeForMVP (msg_Type m));;
  let text := TrimSpace newText in
  check_text text;;
  ob ← outboxForMessageUpdated m;
  @UpdateMessageTextWithOutbox writer (msg_ChatID m) (msg_ID m) text ob
    ?! not_found_or (NotFound "message not found") "update message";;
  m2 ← msgs_GetByID (msg_ID m) ?! internal_err "reload message";
  inc_if metrics MessagesUpdate;;
  mret (toMessageDTO m2).

Definition Delete (actor : ID) (messageIDRaw : string) : M () :=
  require_actor actor;;
  writer ← require_writer;
  m ← load_message messageIDRaw;
  fail_when (negb (String.eqb (msg_SenderID m) actor)) (Forbidden "only author can delete message");;
  requireChatMember (msg_ChatID m) actor;;
  ob ← outboxForMessageDeleted m;
  @SoftDeleteMessageWithOutbox writer (msg_ChatID m) (msg_ID m) ob
    ?! not_found_or (NotFound "message not found") "delete message";;
  inc_if metrics MessagesDelete.

Definition MarkRead (actor : ID) (messageIDRaw : string) : M MarkReadResponse :=
  require_actor actor;;
  writer ← require_writer;
  m ← load_message messageIDRaw;
  requireChatMember (msg_ChatID m) actor;;
  ob ← outboxForReadReceipt (msg_ChatID m) actor (msg_ID m);
  @UpdateMemberReadWithOutbox writer (msg_ChatID m) actor (msg_ID m) ob
    ?! not_found_or (NotFound "membership not found") "update read state";;
  inc_if metrics MessagesReadRc;;
  mret (mkMarkRead (msg_ChatID m) (msg_ID m)).
End service.
