(* ===== verification/MessageTheorems.v ===== *)
(** * Theorems on the message service

    Guarantees of every operation, who may call it, what it changes and
    what it answers; the service of MessageService over the PostgreSQL
    repositories. *)

From stdpp Require Import base strings gmap list sorting.
From S2P Require Import Prelude GoStrings Utf8 Regex Uuid Json Errors GoTime Domain Hub Metrics World Repository PgMessages PgChats Guarantee Invariant Evolution Laws Scenario WriterTheorems MessageService.

(** ** The requests of the service *)
Inductive msg_request : Type :=
| MListByChat (chatIDRaw : string) (limit : Z) (before : string)
| MCreate (chatIDRaw : string) (req : CreateMessageRequest)
| MGet (messageIDRaw : string)
| MPatch (messageIDRaw : string) (text : string)
| MDelete (messageIDRaw : string)
| MMarkRead (messageIDRaw : string).

Section requests.
Context {G : UuidGen} {MR : MessageRepository} {CR : ChatRepository}.
Variables (writer : option MessageWriter) (metrics : bool).

(** The effect of a request, its reply left aside. *)
Definition run_msg (actor : ID) (req : msg_request) : M () :=
  match req with
  | MListByChat raw limit before => _ ← ListByChat actor raw limit before; mret ()
  | MCreate raw r => _ ← Create writer metrics actor raw r; mret ()
  | MGet raw => _ ← Get actor raw; mret ()
  | MPatch raw text => _ ← Patch writer metrics actor raw text; mret ()
  | MDelete raw => Delete writer metrics actor raw
  | MMarkRead raw => _ ← MarkRead writer metrics actor raw; mret ()
  end.
End requests.

(** ** Guarantees, against the interfaces *)
Section guarantees.
Context {G : UuidGen} {GL : UuidGenLaws G} {MR : MessageRepository} {CR : ChatRepository}.
Context (R : relation DB) {HR : Guarantee R} {ML : MessageLaws R MR} {CL : ChatLaws R CR}.
Variables (writer : option MessageWriter) (metrics : bool).

Lemma requireChatMember_neutral chat user : neutral (requireChatMember chat user).
Proof.
  intros R' HR'. unfold requireChatMember. guar_tac. law_tac.
Qed.

Lemma load_message_neutral raw : neutral (load_message raw).
Proof. intros R' HR'. unfold load_message. guar_tac. law_tac. Qed.

Lemma check_reply_neutral cid r : neutral (check_reply cid r).
Proof. intros R' HR'. unfold check_reply. guar_tac. law_tac. Qed.

Lemma check_text_neutral text : neutral (check_text text).
Proof. intros R' HR'. unfold check_text. guar_tac. Qed.

Lemma message_outbox_neutral t a c p : neutral (message_outbox t a c p).
Proof. intros R' HR'. unfold message_outbox, newOutboxEventID. guar_tac. Qed.
Lemma outboxForMessageDeleted_neutral m : neutral (outboxForMessageDeleted m).
Proof. intros R' HR'. unfold outboxForMessageDeleted, newOutboxEventID. guar_tac. Qed.
Lemma outboxForReadReceipt_neutral c u m : neutral (outboxForReadReceipt c u m).
Proof. intros R' HR'. unfold outboxForReadReceipt, newOutboxEventID. guar_tac. Qed.
Lemma require_actor_neutral a : neutral (require_actor a).
Proof. intros R' HR'. apply guar_fail_when. Qed.
Lemma require_writer_neutral : neutral (require_writer writer).
Proof. intros R' HR'. unfold require_writer. guar_tac. Qed.

Lemma ListByChat_neutral actor raw limit before : neutral (ListByChat actor raw limit before).
Proof.
  intros R' HR'. unfold ListByChat, require_actor. guar_tac.
  - by apply requireChatMember_neutral.
  - law_tac.
Qed.

Lemma Get_neutral actor raw : neutral (Get actor raw).
Proof.
  intros R' HR'. unfold Get, require_actor. guar_tac.
  - by apply load_message_neutral.
  - by apply requireChatMember_neutral.
Qed.

Lemma require_writer_guar {A} (k : MessageWriter → M A) :
  (∀ W, writer = Some W → guar R (k W)) → guar R (require_writer writer ≫= k).
Proof.
  intros Hk. unfold require_writer. destruct writer as [W|] eqn:E.
  - intros w r w' Hw H. by apply (Hk W eq_refl w r w' Hw).
  - intros w r w' Hw [= <- <-]. split; [reflexivity|done].
Qed.

Hypothesis writer_laws : ∀ W, writer = Some W → WriterLaws R W.

Ltac neutral_part :=
  apply neutral_guar; [assumption|];
  first [ apply requireChatMember_neutral | apply load_message_neutral | apply check_reply_neutral
        | apply message_outbox_neutral | apply outboxForMessageDeleted_neutral
        | apply outboxForReadReceipt_neutral ].

(** Every request keeps the guarantee of the repositories. *)
Lemma run_msg_guar actor req : guar R (run_msg writer metrics actor req).
Proof.
  destruct req; simpl; try (apply guar_bind; [|intros; apply guar_ret]).
  1: by apply ListByChat_neutral.
  2: by apply Get_neutral.
  all: unfold Create, Patch, Delete, MarkRead, require_actor;
    apply guar_bind; [apply guar_fail_when|intros _]; apply require_writer_guar; intros W HW;
    pose proof (writer_laws W HW); guar_tac; first [law_tac | neutral_part].
Qed.
End guarantees.

(** ** Reading the PostgreSQL tables *)
Definition is_member (d : DB) (chat user : ID) : Prop :=
  ∃ c u, uuid_in chat = Some c ∧ uuid_in user = Some u ∧ in_dom (db_members d) (c, u).

Section reading.
Context {G : UuidGen} {GL : UuidGenLaws G}.

Lemma neutral_run {A} (m : M A) w r w' :
  neutral m → undisturbed w → m w = (r, w') → w_db w' = w_db w ∧ undisturbed w'.
Proof. intros Hm Hw H. apply (Hm _ eq_guarantee) in H as [-> ?]; [|by apply undisturbed_env].
  split; [done|by eapply undisturbed_later]. Qed.

Lemma call_ro_Ok {A} (f : stmt A) w a w' :
  (∀ ctx, ro (f ctx)) → undisturbed w → call f w = (Ok a, w') →
  (∃ ctx, f ctx (w_db w) = (Ok a, w_db w)) ∧ w_db w' = w_db w ∧ undisturbed w'.
Proof.
  intros Hf Hw H. split; [|by eapply neutral_run; [apply neutral_call| |]].
  unfold call in H. destruct (next_event w) as [e w1] eqn:E.
  apply next_event_undisturbed in E as [Hd _]; [|done].
  apply run_stmt_Ok in H as (d & H & _). rewrite Hd in H. eexists.
  rewrite H. f_equal. specialize (Hf (stmt_context e w1) (w_db w)).
  by rewrite H in Hf.
Qed.

Lemma select_message_ro id ctx : ro (select_message id ctx).
Proof. unfold select_message. ro_tac. Qed.
Lemma select_membership_ro c u ctx : ro (select_membership c u ctx).
Proof. unfold select_membership. ro_tac. Qed.
Lemma select_chat_messages_ro c b l t ctx : ro (select_chat_messages c b l t ctx).
Proof. unfold select_chat_messages. ro_tac. Qed.

Lemma pg_FindMembership_Ok chat user w m w' :
  undisturbed w → pg_FindMembership chat user w = (Ok m, w') →
  w_db w' = w_db w ∧ undisturbed w'
  ∧ ∃ c u, uuid_in chat = Some c ∧ uuid_in user = Some u ∧ db_members (w_db w) !! (c, u) = Some m.
Proof.
  unfold pg_FindMembership. intros Hw H. apply map_err_Ok_inv in H.
  apply call_ro_Ok in H as ((ctx & H) & ? & ?); [|intros; apply select_membership_ro|done].
  split_and!; [done..|]. unfold select_membership in H. stmt_inv.
  do 2 eexists. split_and!; by try apply cast_uuid_Ok.
Qed.

Lemma pg_msgs_GetByID_Ok id w m w' :
  undisturbed w → pg_msgs_GetByID id w = (Ok m, w') →
  w_db w' = w_db w ∧ undisturbed w'
  ∧ ∃ k, uuid_in id = Some k ∧ db_messages (w_db w) !! k = Some m.
Proof.
  unfold pg_msgs_GetByID. intros Hw H. apply map_err_Ok_inv in H.
  apply call_ro_Ok in H as ((ctx & H) & ? & ?); [|intros; apply select_message_ro|done].
  split_and!; [done..|]. unfold select_message in H. stmt_inv.
  eexists. split_and!; by try apply cast_uuid_Ok.
Qed.

Lemma requireChatMember_Ok chat user w x w' :
  undisturbed w → requireChatMember chat user w = (Ok x, w') →
  w_db w' = w_db w ∧ undisturbed w' ∧ is_member (w_db w) chat user.
Proof.
  unfold requireChatMember. intros Hw H. go_inv.
  match goal with H : chats_FindMembership _ _ _ = _ |- _ =>
    apply pg_FindMembership_Ok in H as (?&?&c&u&?&?&?) end; [|done].
  split_and!; [done..|]. exists c, u. split_and!; [done..|by eexists].
Qed.

Lemma parseMsgID_Ok raw mid :
  parseMsgID raw = Ok mid → mid = TrimSpace raw ∧ fits uuid_classes mid = true.
Proof.
  unfold parseMsgID. destruct (MatchString _ _) eqn:E; [|done]. intros [= <-].
  rewrite uuid_re_fits in E. by split.
Qed.
Lemma parseMsgChatID_Ok raw cid :
  parseMsgChatID raw = Ok cid → cid = TrimSpace raw ∧ fits uuid_classes cid = true.
Proof.
  unfold parseMsgChatID. destruct (MatchString _ _) eqn:E; [|done]. intros [= <-].
  rewrite uuid_re_fits in E. by split.
Qed.

(** The message a request designates: the live row of that id. *)
Definition designates (d : DB) (raw : string) (m : Message) : Prop :=
  fits uuid_classes (TrimSpace raw) = true
  ∧ db_messages d !! ascii_lower (TrimSpace raw) = Some m ∧ msg_DeletedAt m = None.

Lemma load_message_Ok raw w m w' :
  undisturbed w → load_message raw w = (Ok m, w') →
  w_db w' = w_db w ∧ undisturbed w' ∧ designates (w_db w) raw m.
Proof.
  unfold load_message. intros Hw H. go_inv.
  match goal with H : parseMsgID _ = _ |- _ => apply parseMsgID_Ok in H as [-> Hfit] end.
  match goal with H : msgs_GetByID _ _ = _ |- _ =>
    apply pg_msgs_GetByID_Ok in H as (?&?&k&Hk&Hm) end; [|done].
  rewrite (uuid_in_fits _ Hfit) in Hk. injection Hk as <-.
  stmt_inv. split_and!; try done.
Qed.

Lemma check_text_Ok {S} text (s : S) u s' :
  check_text text s = (Ok u, s') → s' = s ∧ text ≠ "" ∧ (String.length text ≤ msgTextMaxLen)%nat.
Proof.
  unfold check_text. intros H. go_inv. split; [done|].
  match goal with H : str_empty _ = false |- _ => apply String.eqb_neq in H end.
  match goal with H : (_ <? _)%nat = false |- _ => apply Nat.ltb_ge in H end. by split.
Qed.

Lemma message_outbox_Ok t a c p w ob w' :
  message_outbox t a c p w = (Ok ob, w') →
  ob = mkEnqueue (gen_uuid (w_ids w)) t AggregateTypeMessage a (Some c) (w_now w) 1 p
  ∧ w' = bump_ids w.
Proof. by intros [= <- <-]. Qed.

(** The reply a request designates: a live message of the chat. *)
Definition replies_to (d : DB) (cid : ID) (replyTo : option string) (reply : option ID) : Prop :=
  match reply with
  | None => ∀ raw, replyTo = Some raw → TrimSpace raw = ""
  | Some rid => ∃ raw rm, replyTo = Some raw ∧ rid = TrimSpace raw ∧ designates d raw rm
                          ∧ msg_ChatID rm = cid
  end.

Lemma check_reply_Ok cid replyTo w reply w' :
  undisturbed w → check_reply cid replyTo w = (Ok reply, w') →
  w_db w' = w_db w ∧ undisturbed w' ∧ replies_to (w_db w) cid replyTo reply.
Proof.
  intros Hw H. unfold check_reply in H. destruct replyTo as [raw|]; [|by go_inv].
  destruct (String.eqb_spec (TrimSpace raw) "") as [He|He].
  { go_inv. split_and!; [done..|]. by intros raw' [= <-]. }
  go_inv. stmt_inv.
  match goal with H : MatchString _ _ = true |- _ => rewrite uuid_re_fits in H; rename H into Hfit end.
  match goal with H : msgs_GetByID _ _ = _ |- _ =>
    apply pg_msgs_GetByID_Ok in H as (?&?&k&Hk&Hm) end; [|done].
  rewrite (uuid_in_fits _ Hfit) in Hk. injection Hk as <-.
  match goal with H : String.eqb _ _ = true |- _ => apply String.eqb_eq in H end.
  split_and!; [done..|]. exists raw. eexists. by split_and!.
Qed.
End reading.

(** ** The service over PostgreSQL *)
Section service.
Context {G : UuidGen} {GL : UuidGenLaws G}.
Variables (obs metrics : bool).
Abbreviation W := (pg_message_writer true obs).

Lemma inc_if_run b c w r w' :
  inc_if b c w = (r, w') → r = Ok () ∧ w_db w' = w_db w ∧ (undisturbed w → undisturbed w').
Proof. unfold inc_if, inc, sample. destruct b; by intros [= <- <-]. Qed.

(** The writer leaves the rest of the schedule undisturbed. *)
Lemma guar_undisturbed {A} (m : M A) w r w' :
  guar evolves m → undisturbed w → m w = (r, w') → undisturbed w'.
Proof.
  intros Hm Hw H. eapply undisturbed_later; [done|].
  by apply Hm in H as [_ ?]; [|apply undisturbed_guar; [apply _|done]].
Qed.

Lemma run_write_create m ob w row w' :
  undisturbed w → @CreateMessageWithOutbox W m ob w = (Ok row, w') →
  ∃ now, write_effect False (WCreate m ob) (Some row) now (w_db w) (w_db w').
Proof.
  intros Hw H. eexists. eapply (undisturbed_effect _ _ _ _ _ Hw), create_outcome.
  unfold run_write. by rewrite (bind_ok _ _ _ _ _ H).
Qed.
Lemma run_write_text c m t ob w u w' :
  undisturbed w → @UpdateMessageTextWithOutbox W c m t ob w = (Ok u, w') →
  undisturbed w' ∧ ∃ now, write_effect False (WText c m t ob) None now (w_db w) (w_db w').
Proof.
  intros Hw H.
  split; [eapply guar_undisturbed; [by apply (law_UpdateMessageText evolves (W:=W))|done|exact H]|].
  eexists. eapply (undisturbed_effect _ _ _ _ _ Hw), text_outcome.
  unfold run_write. by rewrite (bind_ok _ _ _ _ _ H).
Qed.
Lemma run_write_delete c m ob w u w' :
  undisturbed w → @SoftDeleteMessageWithOutbox W c m ob w = (Ok u, w') →
  ∃ now, write_effect False (WDelete c m ob) None now (w_db w) (w_db w').
Proof.
  intros Hw H. eexists. eapply (undisturbed_effect _ _ _ _ _ Hw), delete_outcome.
  unfold run_write. by rewrite (bind_ok _ _ _ _ _ H).
Qed.
Lemma run_write_read c u m ob w x w' :
  undisturbed w → @UpdateMemberReadWithOutbox W c u m ob w = (Ok x, w') →
  ∃ now, write_effect False (WRead c u m ob) None now (w_db w) (w_db w').
Proof.
  intros Hw H. eexists. eapply (undisturbed_effect _ _ _ _ _ Hw), read_outcome.
  unfold run_write. by rewrite (bind_ok _ _ _ _ _ H).
Qed.

(** [svc_inv]: a successful request taken apart step by step, the state
    of the tables carried from one step to the next. *)
Ltac svc_step :=
  go_inv_step ||
  match goal with
  | H : require_actor _ _ = (Ok _, _) |- _ => apply fail_when_Ok_inv in H as [? ->]
  | H : require_writer (Some _) _ = (Ok _, _) |- _ => injection H as <- <-
  | Hw : undisturbed ?w, H : requireChatMember _ _ ?w = (Ok _, _) |- _ =>
      apply (requireChatMember_Ok _ _ _ _ _ Hw) in H as (? & ? & ?)
  | Hw : undisturbed ?w, H : load_message _ ?w = (Ok _, _) |- _ =>
      apply (load_message_Ok _ _ _ _ Hw) in H as (? & ? & ?)
  | Hw : undisturbed ?w, H : check_reply _ _ ?w = (Ok _, _) |- _ =>
      apply (check_reply_Ok _ _ _ _ _ Hw) in H as (? & ? & ?)
  | H : check_text _ _ = (Ok _, _) |- _ => apply check_text_Ok in H as (-> & ? & ?)
  | H : parseMsgChatID _ = Ok _ |- _ => apply parseMsgChatID_Ok in H as [-> ?]
  | H : parseMsgID _ = Ok _ |- _ => apply parseMsgID_Ok in H as [-> ?]
  | H : inc_if _ _ _ = (Ok _, _) |- _ => apply inc_if_run in H as (_ & ? & ?)
  | H : negb _ = false |- _ => apply negb_false_iff in H
  | H : String.eqb _ _ = true |- _ => apply String.eqb_eq in H
  end.
Ltac same_db :=
  repeat match goal with
         | H : context [w_db (bump_ids ?w)] |- _ => change (w_db (bump_ids w)) with (w_db w) in H
         end;
  repeat match goal with H : w_db _ = _ |- _ => rewrite H in *; clear H end.
Ltac svc_inv := repeat svc_step; same_db.

Lemma outboxForMessageDeleted_Ok m w ob w' :
  outboxForMessageDeleted m w = (Ok ob, w') →
  ob = mkEnqueue (gen_uuid (w_ids w)) EventMessageDeleted AggregateTypeMessage (msg_ID m)
         (Some (msg_ChatID m)) (w_now w) 1 (Some (deleted_body m (w_now w))) ∧ w' = bump_ids w.
Proof. by intros [= <- <-]. Qed.
Lemma outboxForReadReceipt_Ok c u m w ob w' :
  outboxForReadReceipt c u m w = (Ok ob, w') →
  ob = mkEnqueue (gen_uuid (w_ids w)) EventMessageReadReceipt AggregateTypeReadState
         (u +:+ ":" +:+ m) (Some c) (w_now w) 1 (Some (receipt_body c u m)) ∧ w' = bump_ids w.
Proof. by intros [= <- <-]. Qed.

(** A row of a well-formed table: identifiers in canonical form. *)
Lemma wf_row d k m :
  wf d → db_messages d !! k = Some m →
  msg_ID m = k ∧ canonical (msg_ID m) ∧ canonical (msg_ChatID m).
Proof.
  intros Hwf Hm. destruct (wf_messages _ Hwf _ _ Hm) as (-> & ? & [c Hc] & _).
  split_and!; [done..|]. by destruct (wf_chats _ Hwf _ _ Hc) as (_ & ? & _).
Qed.

(** [edited f m d d' ev]: [m] rewritten by [f], [ev] in the outbox, and
    nothing else. *)
Definition edited (f : Message → Message) (m : Message) (d d' : DB) (ev : OutboxRec) : Prop :=
  db_messages d' = <[msg_ID m := f m]> (db_messages d) ∧ appended d d' ev
  ∧ db_chats d' = db_chats d ∧ db_users d' = db_users d
  ∧ db_members d' = db_members d ∧ db_sessions d' = db_sessions d.

Lemma changed_edited f raw m d d' ev :
  wf d → designates d raw m → message_changed False f (msg_ChatID m) (msg_ID m) d d' ev →
  edited f m d d' ev.
Proof.
  intros Hwf (_ & Hm & _) (k & c & m' & Hk & Hc & Ht & Hdb & Happ & Hrest).
  destruct (wf_row _ _ _ Hwf Hm) as (Hid & Hci & Hcc).
  rewrite uuid_in_canonical in Hk, Hc by done. simplify_eq.
  apply target_message_Some in Ht as (Hm' & _). rewrite <- Hid in Hm. simplify_eq.
  split; [done|]. split; [apply (recorded_appended False); [tauto|done]|done].
Qed.

Definition new_text_message (cid actor text : string) (reply : option ID) : Message :=
  mkMessage "" cid actor MessageTypeText (Some text) reply 0 0 None.

Definition text_accepted (text : string) : Prop :=
  text ≠ "" ∧ (String.length text ≤ msgTextMaxLen)%nat.

(** A post that succeeds, from the guards to the writes. *)
Lemma Create_Ok actor raw req w dto w' :
  undisturbed w → Create (Some W) metrics actor raw req w = (Ok dto, w') →
  let cid := TrimSpace raw in
  let text := TrimSpace (cmr_Text req) in
  is_member (w_db w) cid actor ∧ text_accepted text
  ∧ ∃ reply row eid at_,
      replies_to (w_db w) cid (cmr_ReplyToID req) reply
      ∧ message_created False (new_text_message cid actor text reply)
          (mkEnqueue eid EventMessageCreated AggregateTypeMessage "" (Some cid) at_ 1 None)
          row (w_db w) (w_db w')
      ∧ dto = toMessageDTO row.
Proof.
  intros Hw H. unfold Create in H. svc_inv.
  match goal with H : outboxForMessageCreated _ _ = _ |- _ => apply message_outbox_Ok in H as [-> ->] end.
  match goal with H : CreateMessageWithOutbox _ _ _ = _ |- _ =>
    apply run_write_create in H as (now & row & [= <-] & _ & Hc); [|done] end.
  same_db. split; [done|]. split; [done|].
  do 4 eexists. split; [done|]. split; [exact Hc|done].
Qed.

(** C2.  Posting a message: a request that succeeds was made by a member
    of the chat with a text of 1 to 8000 bytes after trimming and a reply
    to a live message of that chat, or none; the tables gain exactly that
    message, under a fresh id, as the last message of the chat, and one
    message.created event that carries it; the answer is the row stored. *)
Theorem create_message_correct actor raw req w dto w' :
  undisturbed w → Create (Some W) metrics actor raw req w = (Ok dto, w') →
  let cid := TrimSpace raw in
  let text := TrimSpace (cmr_Text req) in
  is_member (w_db w) cid actor ∧ text_accepted text
  ∧ ∃ reply row eid at_,
      replies_to (w_db w) cid (cmr_ReplyToID req) reply
      ∧ message_created False (new_text_message cid actor text reply)
          (mkEnqueue eid EventMessageCreated AggregateTypeMessage "" (Some cid) at_ 1 None)
          row (w_db w) (w_db w')
      ∧ dto = toMessageDTO row.
Proof. apply Create_Ok. Qed.

(** C3.  Editing a message: a request that succeeds was made by the
    author, a member of the chat, on a live message; it replaces the text
    by the trimmed new one and the time of the update, appends one
    message.updated event that carries the new row, changes nothing else
    and answers the new row. *)
Theorem patch_message_correct actor raw newText w dto w' :
  undisturbed w → wf (w_db w) → Patch (Some W) metrics actor raw newText w = (Ok dto, w') →
  let text := TrimSpace newText in
  text_accepted text
  ∧ ∃ m now ev p,
      designates (w_db w) raw m ∧ msg_SenderID m = actor
      ∧ is_member (w_db w) (msg_ChatID m) actor
      ∧ edited (set_text text now) m (w_db w) (w_db w') ev
      ∧ ob_event_type ev = EventMessageUpdated ∧ ob_aggregate_id ev = msg_ID m
      ∧ ob_published_at ev = None
      ∧ encodeMessageWireJSON (set_text text now m) = Ok p ∧ ob_payload ev = to_jsonb p
      ∧ dto = toMessageDTO (set_text text now m).
Proof.
  intros Hw Hwf H. unfold Patch in H. svc_inv.
  match goal with H : outboxForMessageUpdated ?m ?w0 = _ |- _ =>
    rename m into m0; apply message_outbox_Ok in H as [-> ->] end.
  match goal with H : UpdateMessageTextWithOutbox _ _ _ _ _ = _ |- _ =>
    apply run_write_text in H as (? & now & ev & p & k & m1 & Hch & Hev & Hk & Hm1 & Hp & Hagg);
    [|done] end.
  match goal with H : msgs_GetByID _ _ = _ |- _ =>
    apply pg_msgs_GetByID_Ok in H as (?&?&k'&Hk'&Hm2); [|done] end.
  same_db.
  match goal with H : designates _ _ _ |- _ => rename H into Hdes end.
  pose proof Hdes as (_ & Hm & Hlive). destruct (wf_row _ _ _ Hwf Hm) as (Hid & Hci & _).
  pose proof (changed_edited _ _ _ _ _ _ Hwf Hdes Hch) as Hed.
  rewrite uuid_in_canonical in Hk, Hk' by done. simplify_eq.
  pose proof (proj1 Hed) as Hdb. rewrite Hdb, lookup_insert_eq in Hm1. simplify_eq.
  destruct Hev as (?&?&?&?&?&?&?).
  split; [done|]. exists m0, now, ev, p. by split_and!.
Qed.

(** C4.  Deleting a message: a request that succeeds was made by the
    author, a member of the chat, on a live message; the message is
    marked deleted, its text kept, one message.deleted event naming the
    message is appended, and nothing else changes. *)
Theorem delete_message_correct actor raw w w' :
  undisturbed w → wf (w_db w) → Delete (Some W) metrics actor raw w = (Ok (), w') →
  ∃ m now at_ ev,
    designates (w_db w) raw m ∧ msg_SenderID m = actor
    ∧ is_member (w_db w) (msg_ChatID m) actor
    ∧ edited (set_deleted now) m (w_db w) (w_db w') ev
    ∧ ob_event_type ev = EventMessageDeleted ∧ ob_aggregate_id ev = msg_ID m
    ∧ ob_chat_id ev = Some (msg_ChatID m) ∧ ob_published_at ev = None
    ∧ ob_payload ev = to_jsonb (deleted_body m at_).
Proof.
  intros Hw Hwf H. unfold Delete in H. svc_inv.
  match goal with H : outboxForMessageDeleted ?m ?w0 = _ |- _ =>
    rename m into m0; rename w0 into w1; apply outboxForMessageDeleted_Ok in H as [-> ->] end.
  match goal with H : SoftDeleteMessageWithOutbox _ _ _ _ = _ |- _ =>
    apply run_write_delete in H as (now & ev & Hch & Hev & Hagg); [|done] end.
  same_db.
  match goal with H : designates _ _ _ |- _ => rename H into Hdes end.
  pose proof Hdes as (_ & Hm & Hlive). destruct (wf_row _ _ _ Hwf Hm) as (Hid & _ & Hcc).
  pose proof (changed_edited _ _ _ _ _ _ Hwf Hdes Hch) as Hed.
  destruct Hev as (?&?&?&Hcid&?&?&?). simpl in Hcid.
  rewrite (proj2 (cast_uuid_Ok _ _) (uuid_in_canonical _ Hcc)) in Hcid.
  exists m0, now, (w_now w1), ev. split_and!; try done; congruence.
Qed.

(** C5.  Reading a message: a receipt that succeeds was sent by a member
    of the chat of a live message; the member's read position becomes
    that message, one message.read_receipt event is appended, and nothing
    else changes. *)
Theorem mark_read_correct actor raw w res w' :
  undisturbed w → wf (w_db w) → MarkRead (Some W) metrics actor raw w = (Ok res, w') →
  ∃ m u mem now ev,
    designates (w_db w) raw m ∧ uuid_in actor = Some u
    ∧ db_members (w_db w) !! (msg_ChatID m, u) = Some mem
    ∧ db_members (w_db w')
        = <[(msg_ChatID m, u) := set_member_read (msg_ID m) now mem]> (db_members (w_db w))
    ∧ appended (w_db w) (w_db w') ev
    ∧ ob_event_type ev = EventMessageReadReceipt ∧ ob_chat_id ev = Some (msg_ChatID m)
    ∧ ob_payload ev = to_jsonb (receipt_body (msg_ChatID m) actor (msg_ID m))
    ∧ db_messages (w_db w') = db_messages (w_db w) ∧ db_chats (w_db w') = db_chats (w_db w)
    ∧ db_users (w_db w') = db_users (w_db w) ∧ db_sessions (w_db w') = db_sessions (w_db w)
    ∧ res = mkMarkRead (msg_ChatID m) (msg_ID m).
Proof.
  intros Hw Hwf H. unfold MarkRead in H. svc_inv.
  match goal with H : outboxForReadReceipt _ _ _ _ = _ |- _ =>
    apply outboxForReadReceipt_Ok in H as [-> ->] end.
  match goal with H : UpdateMemberReadWithOutbox _ _ _ _ _ = _ |- _ =>
    apply run_write_read in H
      as (now & ev & c & u & k & mem & Hc & Hu & Hk & Hmem & _ & Hset & Happ & Hev & Hagg & ?&?&?&?);
    [|done] end.
  same_db.
  match goal with H : designates _ _ _ |- _ => rename H into Hdes end.
  pose proof Hdes as (_ & Hm & Hlive). destruct (wf_row _ _ _ Hwf Hm) as (Hid & Hci & Hcc).
  destruct Hev as (?&?&?&Hcid&?&?&?). simpl in Hcid.
  rewrite (proj2 (cast_uuid_Ok _ _) (uuid_in_canonical _ Hcc)) in Hcid.
  rewrite uuid_in_canonical in Hk, Hc by done. simplify_eq.
  do 5 eexists. split_and!; try done; try congruence. apply (recorded_appended False); [tauto|]; congruence.
Qed.
End service.

(** ** Refused requests *)
Section refused.
Context {G : UuidGen} {GL : UuidGenLaws G}.
Variables (obs metrics : bool).
Abbreviation W := (pg_message_writer true obs).

(** A failure leaves the tables as they were or is reported as 500. *)
Definition safe {A} (m : M A) : Prop :=
  ∀ w e w', undisturbed w → m w = (Err e, w') →
    w_db w' ≡ w_db w ∨ HTTPStatus (Some e) = 500%Z.
Definition only500 {A} (m : M A) : Prop :=
  ∀ w e w', m w = (Err e, w') → HTTPStatus (Some e) = 500%Z.

Lemma safe_neutral {A} (m : M A) : neutral m → safe m.
Proof. intros Hm w e w' Hw H. left. by apply neutral_run in H as [-> _]. Qed.

Lemma safe_bind {A B} (m : M A) (k : A → M B) :
  neutral m → (∀ a, safe (k a)) → safe (m ≫= k).
Proof.
  intros Hm Hk w e w' Hw [(a & w1 & H1 & H2)|(e' & H & [= <-])]%bind_inv.
  - apply neutral_run in H1 as [<- Hw1]; [|done..]. by eapply Hk.
  - by apply (safe_neutral _ Hm _ _ _ Hw H).
Qed.

Lemma safe_bind_last {A B} (m : M A) (k : A → M B) :
  safe m → (∀ a, only500 (k a)) → safe (m ≫= k).
Proof.
  intros Hm Hk w e w' Hw [(a & w1 & H1 & H2)|(e' & H & [= <-])]%bind_inv.
  - right. by eapply Hk.
  - by eapply Hm.
Qed.

Lemma only500_ret {A} (a : A) : only500 (mret a).
Proof. by intros w e w' [=]. Qed.
Lemma only500_inc b c : only500 (inc_if b c).
Proof. by intros w e w' [? _]%inc_if_run. Qed.
Lemma only500_internal {A} (m : M A) what : only500 (map_err (internal_err what) m).
Proof. intros w e w' [(a & ? & _)|(e0 & [= ->] & _)]%map_err_inv; done. Qed.
Lemma only500_bind {A B} (m : M A) (k : A → M B) :
  only500 m → (∀ a, only500 (k a)) → only500 (m ≫= k).
Proof.
  intros Hm Hk w e w' [(a & w1 & H1 & H2)|(e' & H & [= <-])]%bind_inv;
    [by eapply Hk|by eapply Hm].
Qed.

(** A write whose error is translated by [not_found_or]. *)
Lemma safe_write {A} (m : M A) nf what x f :
  (∀ w r w', (a ← m; mret (f a)) w = (r, w') →
     write_outcome (draws (next_event w).2) x (pg_time (w_now (next_event w).2)) (w_db (next_event w).2) r (w_db w')) →
  safe (map_err (not_found_or nf what) m).
Proof.
  intros Hm w e w' Hw [(a & ? & _)|(e0 & [= ->] & H)]%map_err_inv; [done|].
  apply (bind_err _ (λ a, mret (f a))) in H.
  apply Hm, outcome_Err in H as [Hd|[t ->]].
  - left. by rewrite Hd, next_event_db.
  - by right.
Qed.

Lemma safe_require_writer {A} (k : MessageWriter → M A) :
  safe (k W) → safe (require_writer (Some W) ≫= k).
Proof. intros Hk w e w' Hw H. by apply Hk in H. Qed.

Lemma of_result_neutral {A} (r : result error A) : neutral (of_result r).
Proof. intros R HR. apply guar_of_result. Qed.
Lemma fail_when_neutral b e : neutral (fail_when b e).
Proof. intros R HR. apply guar_fail_when. Qed.

Ltac neutral_step :=
  first [ apply of_result_neutral | apply fail_when_neutral | apply require_actor_neutral
        | eapply requireChatMember_neutral; apply _ | eapply load_message_neutral; apply _
        | eapply check_reply_neutral; apply _ | apply check_text_neutral
        | apply message_outbox_neutral | apply outboxForMessageDeleted_neutral
        | apply outboxForReadReceipt_neutral ].
Ltac only500_tac :=
  repeat first [ apply only500_ret | apply only500_inc | apply only500_internal
               | apply only500_bind; [|intros ?] ].

(** C6.  A request the service refuses changes nothing: whatever fails
    during a request, the tables are as they were before it, or the error
    is reported as an internal one (HTTP 500). *)
Theorem msg_error_safe actor req w e w' :
  undisturbed w → run_msg (Some W) metrics actor req w = (Err e, w') →
  w_db w' ≡ w_db w ∨ HTTPStatus (Some e) = 500%Z.
Proof.
  revert w e w'. change (safe (run_msg (Some W) metrics actor req)).
  destruct req; simpl.
  - apply safe_bind; [eapply ListByChat_neutral; apply _|]. intros. apply safe_neutral. intros R HR. apply guar_ret.
  - apply safe_bind_last; [|intros; apply only500_ret].
    unfold Create. apply safe_bind; [neutral_step|intros _]. apply safe_require_writer.
    repeat (apply safe_bind; [neutral_step|intros ?]).
    apply safe_bind_last; [|intros; only500_tac].
    eapply safe_write. apply create_outcome.
  - apply safe_bind; [eapply Get_neutral; apply _|]. intros. apply safe_neutral. intros R HR. apply guar_ret.
  - apply safe_bind_last; [|intros; apply only500_ret].
    unfold Patch. apply safe_bind; [neutral_step|intros _]. apply safe_require_writer.
    repeat (apply safe_bind; [neutral_step|intros ?]).
    apply safe_bind_last; [|intros; only500_tac].
    eapply safe_write with (f := λ _, None). apply text_outcome.
  - unfold Delete. apply safe_bind; [neutral_step|intros _]. apply safe_require_writer.
    repeat (apply safe_bind; [neutral_step|intros ?]).
    apply safe_bind_last; [|intros; only500_tac].
    eapply safe_write with (f := λ _, None). apply delete_outcome.
  - apply safe_bind_last; [|intros; apply only500_ret].
    unfold MarkRead. apply safe_bind; [neutral_step|intros _]. apply safe_require_writer.
    repeat (apply safe_bind; [neutral_step|intros ?]).
    apply safe_bind_last; [|intros; only500_tac].
    eapply safe_write with (f := λ _, None). apply read_outcome.
Qed.
(** *** Strangers *)

(** [refused m w]: [m] reports an error at [w] and leaves the tables. *)
Definition refused {A} (m : M A) (w : World) : Prop :=
  ∀ r w', m w = (r, w') → (∃ e, r = Err e) ∧ w_db w' = w_db w.

Lemma refused_bind {A B} (m : M A) (k : A → M B) w :
  neutral m → undisturbed w →
  (∀ a w1, m w = (Ok a, w1) → undisturbed w1 → w_db w1 = w_db w → refused (k a) w1) →
  refused (m ≫= k) w.
Proof.
  intros Hm Hw Hk r w' [(a & w1 & H1 & H2)|(e & H & ->)]%bind_inv.
  - pose proof (neutral_run _ _ _ _ Hm Hw H1) as [Hd Hw1].
    rewrite <- Hd. by eapply Hk.
  - apply neutral_run in H as [-> _]; [|done..]. eauto.
Qed.

Lemma refused_first {A B} (m : M A) (k : A → M B) w : refused m w → refused (m ≫= k) w.
Proof.
  intros Hm r w' [(a & w1 & H1 & H2)|(e & H & ->)]%bind_inv.
  - by apply Hm in H1 as [[e ?] _].
  - apply Hm in H as [_ ->]. eauto.
Qed.

Lemma refused_membership {A} chat user (k : () → M A) w :
  undisturbed w → ¬ is_member (w_db w) chat user → refused (requireChatMember chat user ≫= k) w.
Proof.
  intros Hw Hm. apply refused_first. intros r w' H.
  pose proof (neutral_run _ _ _ _ (requireChatMember_neutral evolves chat user) Hw H) as [? _].
  split; [|done]. destruct r as [u|e]; [|eauto].
  by apply requireChatMember_Ok in H as (_ & _ & ?).
Qed.

Lemma refused_require_writer {A} (k : MessageWriter → M A) w :
  refused (k W) w → refused (require_writer (Some W) ≫= k) w.
Proof. done. Qed.

(** The chat a request is about: named by it, or that of its message. *)
Definition request_chat (d : DB) (req : msg_request) (chat : ID) : Prop :=
  match req with
  | MListByChat raw _ _ | MCreate raw _ => chat = TrimSpace raw
  | MGet raw | MPatch raw _ | MDelete raw | MMarkRead raw =>
      ∃ m, designates d raw m ∧ chat = msg_ChatID m
  end.

(** Strangers: a request of the message service by a user who is not a
    member of the chat it is about is refused and changes nothing. *)
Lemma msg_stranger_refused actor req w :
  undisturbed w →
  (∀ chat, request_chat (w_db w) req chat → ¬ is_member (w_db w) chat actor) →
  ∃ e w', run_msg (Some W) metrics actor req w = (Err e, w') ∧ w_db w' = w_db w.
Proof.
  intros Hw Hno. destruct (run_msg (Some W) metrics actor req w) as [r w'] eqn:H.
  enough (refused (run_msg (Some W) metrics actor req) w) as Hr
    by (apply Hr in H as [[e ->] Hd]; eauto).
  clear H.
  destruct req; simpl in Hno |- *.
  all: match goal with |- refused (_ ≫= _) _ => apply refused_first | _ => idtac end.
  all: unfold ListByChat, Create, Get, Patch, Delete, MarkRead, require_actor.
  all: apply refused_bind; [neutral_step|done|intros _ w1 _ Hw1 Hd1].
  all: try apply refused_require_writer.
  all: apply refused_bind; [neutral_step|done|intros a w2 Ha Hw2 Hd2].
  all: rewrite Hd1 in Hd2.
  1-2: injection Ha as Hp _; apply parseMsgChatID_Ok in Hp as [-> _];
       apply refused_membership; [done|]; rewrite Hd2; by apply Hno.
  all: assert (¬ is_member (w_db w) (msg_ChatID a) actor) as Ha'
         by (apply Hno; apply load_message_Ok in Ha as (_ & _ & Ha); [|done];
             rewrite Hd1 in Ha; eauto).
  all: try (apply refused_bind; [apply fail_when_neutral|done|intros _ w3 _ Hw3 Hd3]; rewrite Hd2 in Hd3).
  all: apply refused_membership; [done|congruence].
Qed.
End refused.

(** ** Witnesses *)
Abbreviation demo_writer := (Some (pg_message_writer true true)).
Definition demo_text : CreateMessageRequest := mkCreateMessage "  see you  " (Some msg2).

Lemma create_message_correct_witness :
  let run := Create demo_writer true alice chat1 demo_text demo in
  (dto_Text <$> (match run.1 with Ok m => Some m | Err _ => None end)) = Some (Some "see you")
  ∧ is_member demo_db chat1 alice.
Proof.
  assert (is_ok (Create demo_writer true alice chat1 demo_text demo).1 = true) as Hok by (vm_compute; reflexivity).
  split; [vm_compute; reflexivity|].
  destruct (Create demo_writer true alice chat1 demo_text demo) as [[dto|e] w'] eqn:E;
    [|discriminate Hok].
  apply (create_message_correct true true alice chat1 demo_text demo dto w'); [|exact E].
  apply (demo_undisturbed demo_db []).
Defined.

Lemma patch_message_correct_witness :
  let run := Patch demo_writer true alice msg1 "edited" demo in
  is_ok run.1 = true ∧ text_accepted "edited".
Proof.
  assert (is_ok (Patch demo_writer true alice msg1 "edited" demo).1 = true) as Hok by (vm_compute; reflexivity).
  split; [exact Hok|].
  destruct (Patch demo_writer true alice msg1 "edited" demo) as [[dto|e] w'] eqn:E;
    [|discriminate Hok].
  apply (patch_message_correct true true alice msg1 "edited" demo dto w'); [| |exact E].
  - apply (demo_undisturbed demo_db []).
  - apply demo_wf.
Defined.

Lemma delete_message_correct_witness :
  let run := Delete demo_writer true alice msg1 demo in
  is_ok run.1 = true ∧ ∃ m, designates demo_db msg1 m ∧ msg_SenderID m = alice.
Proof.
  assert (is_ok (Delete demo_writer true alice msg1 demo).1 = true) as Hok by (vm_compute; reflexivity).
  split; [exact Hok|].
  destruct (Delete demo_writer true alice msg1 demo) as [[[]|e] w'] eqn:E;
    [|discriminate Hok].
  destruct (delete_message_correct true true alice msg1 demo w') as (m & _ & _ & _ & Hd & Hs & _).
  - apply (demo_undisturbed demo_db []).
  - apply demo_wf.
  - exact E.
  - exists m. exact (conj Hd Hs).
Defined.

Lemma mark_read_correct_witness :
  let run := MarkRead demo_writer true alice msg2 demo in
  is_ok run.1 = true ∧ ∃ m, designates demo_db msg2 m.
Proof.
  assert (is_ok (MarkRead demo_writer true alice msg2 demo).1 = true) as Hok by (vm_compute; reflexivity).
  split; [exact Hok|].
  destruct (MarkRead demo_writer true alice msg2 demo) as [[res|e] w'] eqn:E;
    [|discriminate Hok].
  destruct (mark_read_correct true true alice msg2 demo res w') as (m & _ & _ & _ & _ & Hd & _).
  - apply (demo_undisturbed demo_db []).
  - apply demo_wf.
  - exact E.
  - exists m. exact Hd.
Defined.

Lemma msg_error_safe_witness :
  let run := run_msg demo_writer true bob (MDelete msg1) demo in
  is_ok run.1 = false ∧
  (w_db run.2 ≡ demo_db ∨ ∃ e, HTTPStatus (Some e) = 500%Z).
Proof.
  assert (is_ok (run_msg demo_writer true bob (MDelete msg1) demo).1 = false) as Hok by (vm_compute; reflexivity).
  split; [exact Hok|].
  destruct (run_msg demo_writer true bob (MDelete msg1) demo) as [[[]|e] w'] eqn:E;
    [discriminate Hok|].
  destruct (msg_error_safe true true bob (MDelete msg1) demo e w') as [H|H].
  - apply (demo_undisturbed demo_db []).
  - exact E.
  - left. exact H.
  - right. exists e. exact H.
Defined.
