(* ===== verification/Journal.v ===== *)
(** * The outbox as a journal

    The abstract specification of message storage: a view of the live
    messages by id, and the events that change it.  A reader who holds the
    live messages of some moment and applies the events that appeared
    since, in the order of their ids, holds the live messages of now;
    [journaled] is that refinement, and a guarantee of every request.
    Events do not appear in the order of their ids (World.transaction), so
    the events since a moment are a set of ids and not an interval. *)

From stdpp Require Import base strings gmap sets list sorting.
From S2P Require Import Prelude GoStrings Utf8 Uuid Json Errors GoTime Domain World Repository PgMessages PgChats PgUsers Guarantee Invariant Evolution Laws WriterTheorems MessageService MessageTheorems.

Local Open Scope Z_scope.

(** ** Views *)
Abbreviation view := (gmap ID json).

(** What a reader sees of a live message: its JSON, as jsonb stores it. *)
Definition shown (m : Message) : option json :=
  if live m then match encodeMessageWireJSON m with Ok j => Some (to_jsonb j) | Err _ => None end else None.
Definition live_view (d : DB) : view := omap shown (db_messages d).

(** The message an event is about: the one its payload names. *)
Definition subject (payload : json) : option ID :=
  match payload with
  | JObj kvs => match json_field "id" kvs with Some (JStr s) => uuid_in s | _ => None end
  | _ => None
  end.
Definition about (r : OutboxRec) : option ID :=
  if String.eqb (ob_event_type r) EventMessageCreated || String.eqb (ob_event_type r) EventMessageUpdated
     || String.eqb (ob_event_type r) EventMessageDeleted
  then subject (ob_payload r) else None.

(** The effect of an event on a view: the message is shown as the event
    carries it, or disappears; other events leave the view alone. *)
Definition apply_event (r : OutboxRec) (v : view) : view :=
  match about r with
  | None => v
  | Some k => if String.eqb (ob_event_type r) EventMessageDeleted then delete k v else <[k := ob_payload r]> v
  end.

(** [replay l v]: the events of [l], in the order of their ids. *)
Abbreviation events := (gmap Z OutboxRec).
Definition ids (l : events) : list Z := merge_sort Z.le (elements (dom l)).
Definition apply_id (l : events) (v : view) (k : Z) : view :=
  match l !! k with Some r => apply_event r v | None => v end.
Definition replay (l : events) (v : view) : view := foldl (apply_id l) v (ids l).

(** The events of a table, whether published or not, and those that
    appeared between two moments. *)
Definition unpublished (r : OutboxRec) : OutboxRec :=
  mkOutboxRec (ob_id r) (ob_event_id r) (ob_event_type r) (ob_aggregate_type r) (ob_aggregate_id r)
    (ob_chat_id r) (ob_occurred_at r) (ob_version r) (ob_payload r) None (ob_created_at r).
Definition log (d : DB) : events := unpublished <$> db_outbox d.
Definition new_events (d d' : DB) : events := log d' ∖ log d.

(** ** The order of replay, message by message *)
Section order.
Implicit Types (l : events) (v : view).

(** The event of id [k] is about the message [i]. *)
Abbreviation concerns l i := (λ k, (l !! k ≫= about) = Some i).

Lemma apply_event_other r v i : about r ≠ Some i → apply_event r v !! i = v !! i.
Proof.
  unfold apply_event. destruct (about r) as [k|]; [|done]. intros Hk.
  destruct (String.eqb _ _); [rewrite lookup_delete_ne|rewrite lookup_insert_ne]; congruence.
Qed.
Lemma apply_event_local r v1 v2 i : v1 !! i = v2 !! i → apply_event r v1 !! i = apply_event r v2 !! i.
Proof.
  intros H. unfold apply_event. destruct (about r) as [k|]; [|done].
  destruct (decide (k = i)) as [->|Hk];
    (destruct (String.eqb _ _); [|rewrite ?lookup_insert_eq, ?lookup_insert_ne by done];
     rewrite ?lookup_delete_eq, ?lookup_delete_ne by done; done).
Qed.

Lemma fold_local l ks v1 v2 i :
  v1 !! i = v2 !! i →
  foldl (apply_id l) v1 ks !! i = foldl (apply_id l) v2 (filter (concerns l i) ks) !! i.
Proof.
  revert v1 v2. induction ks as [|k ks IH]; intros v1 v2 Hv; [done|]. rewrite filter_cons. simpl.
  case_decide as Hk; simpl; apply IH; unfold apply_id in *; destruct (l !! k) as [r|] eqn:E; try done.
  - by apply apply_event_local.
  - by rewrite apply_event_other.
Qed.

Lemma fold_ext l l' ks v : (∀ k, k ∈ ks → l !! k = l' !! k) → foldl (apply_id l) v ks = foldl (apply_id l') v ks.
Proof.
  revert v. induction ks as [|k ks IH]; intros v H; [done|]. simpl. unfold apply_id at 2 4. rewrite (H k) by (by left).
  apply IH. intros. apply H. by right.
Qed.

Lemma ids_sorted l : StronglySorted Z.le (ids l).
Proof. apply StronglySorted_merge_sort; apply _. Qed.
Lemma ids_perm l : ids l ≡ₚ elements (dom l).
Proof. apply merge_sort_Permutation. Qed.
Lemma elem_of_ids l k : k ∈ ids l ↔ is_Some (l !! k).
Proof. by rewrite ids_perm, elem_of_elements, elem_of_dom. Qed.

(** The ids of two sets of events, when those of the first that are about
    a message come before those of the second. *)
Lemma ids_union l1 l2 i :
  l1 ##ₘ l2 →
  (∀ k1 k2, concerns l1 i k1 → concerns l2 i k2 → k1 < k2) →
  filter (concerns (l1 ∪ l2) i) (ids (l1 ∪ l2)) = filter (concerns l1 i) (ids l1) ++ filter (concerns l2 i) (ids l2).
Proof.
  intros Hd Ho. apply (StronglySorted_unique Z.le).
  - by apply StronglySorted_filter, ids_sorted.
  - apply StronglySorted_app_2; [|by apply StronglySorted_filter, ids_sorted..].
    intros k1 k2 [H1 _]%list_elem_of_filter [H2 _]%list_elem_of_filter. apply Z.lt_le_incl. by apply Ho.
  - apply NoDup_Permutation.
    + apply NoDup_filter. rewrite ids_perm. apply NoDup_elements.
    + apply NoDup_app. split_and!; [apply NoDup_filter; rewrite ids_perm; apply NoDup_elements| |
        apply NoDup_filter; rewrite ids_perm; apply NoDup_elements].
      intros k [_ H1%elem_of_ids]%list_elem_of_filter [_ H2%elem_of_ids]%list_elem_of_filter.
      destruct H1, H2. by eapply map_disjoint_spec.
    + intros k. rewrite elem_of_app, !list_elem_of_filter, !elem_of_ids.
      destruct (l1 !! k) as [r|] eqn:E.
      * rewrite (lookup_union_Some_l _ _ _ _ E). assert (l2 !! k = None) as -> by (by eapply map_disjoint_Some_l). simpl.
        split; [by left|by intros [?|[[=] _]]].
      * rewrite lookup_union_r by done. simpl. split; [by right|by intros [[[=] _]|?]].
Qed.

Lemma replay_union l1 l2 v :
  l1 ##ₘ l2 →
  (∀ i k1 k2, concerns l1 i k1 → concerns l2 i k2 → k1 < k2) →
  replay (l1 ∪ l2) v = replay l2 (replay l1 v).
Proof.
  intros Hd Ho. apply map_eq. intros i. unfold replay.
  rewrite (fold_local (l1 ∪ l2) _ v v) by done.
  rewrite (ids_union l1 l2 i Hd (Ho i)), foldl_app.
  rewrite (fold_local l2 _ _ (foldl (apply_id l1) v (filter (concerns l1 i) (ids l1)))) by (by apply fold_local).
  rewrite (fold_ext (l1 ∪ l2) l2), (fold_ext (l1 ∪ l2) l1); [done|..];
    intros k [_ [r Hr]%elem_of_ids]%list_elem_of_filter; rewrite Hr;
    [by apply lookup_union_Some_l|by apply lookup_union_Some_r].
Qed.

Lemma replay_empty v : replay ∅ v = v.
Proof. unfold replay, ids. by rewrite dom_empty_L, elements_empty. Qed.
Lemma replay_one k r v : replay {[k := r]} v = apply_event r v.
Proof.
  unfold replay, ids. rewrite dom_singleton_L, elements_singleton. simpl. unfold apply_id. by rewrite lookup_singleton_eq.
Qed.
End order.

(** ** The refinement: the new events take the view along; those about a
    message have larger ids than the old ones about it, and name it as
    their aggregate. *)
Record journaled (d d' : DB) : Prop := mkJournaled {
  jn_evolves : evolves d d';
  jn_about : wf d → ∀ k r, new_events d d' !! k = Some r →
    about r = event_message (ob_event_type r) (ob_aggregate_id r);
  jn_order : wf d → ∀ k r k' r', new_events d d' !! k = Some r → log d !! k' = Some r' →
    about_same (ob_event_type r) (ob_aggregate_id r) r' → k' < k;
  jn_view : wf d → live_view d' = replay (new_events d d') (live_view d)
}.

Lemma log_le d d' : evolves d d' → log d ⊆ log d'.
Proof.
  intros He. apply map_subseteq_spec. unfold log. intros k r. rewrite !lookup_fmap_Some. intros (r0 & <- & Hr).
  destruct (ev_outbox _ _ He k r0 Hr) as (r' & Hr' & [->|(_ & t & ->)]); by eexists; (split; [|exact Hr']).
Qed.

Lemma new_events_same d d' : log d' = log d → new_events d d' = ∅.
Proof. unfold new_events. intros ->. apply map_difference_diag. Qed.

(** Nothing to read: the same messages, the same events. *)
Lemma journaled_same d d' :
  evolves d d' → db_messages d' = db_messages d → log d' = log d → journaled d d'.
Proof.
  intros He Hm Hl%new_events_same. split; [done|intros _ k r; rewrite Hl; by intros ?..|].
  intros _. unfold live_view. by rewrite Hl, replay_empty, Hm.
Qed.

Lemma new_events_split d1 d2 d3 :
  log d1 ⊆ log d2 → log d2 ⊆ log d3 → new_events d1 d3 = new_events d1 d2 ∪ new_events d2 d3.
Proof.
  intros H1 H2. apply map_eq. intros k. unfold new_events.
  rewrite lookup_union, !lookup_difference.
  destruct (log d1 !! k) as [r1|] eqn:E1.
  - pose proof (lookup_weaken _ _ _ _ E1 H1) as E2. by rewrite E2.
  - destruct (log d2 !! k) as [r2|] eqn:E2; [by rewrite (lookup_weaken _ _ _ _ E2 H2)|]. by destruct (log d3 !! k).
Qed.

Lemma new_events_disjoint d1 d2 d3 : new_events d1 d2 ##ₘ new_events d2 d3.
Proof.
  apply map_disjoint_spec. unfold new_events. intros k r r'. rewrite !lookup_difference_Some.
  intros [H _] [_ H']. congruence.
Qed.

#[export] Instance journaled_guarantee : Guarantee journaled.
Proof.
  split; [split|].
  - intros d. by apply journaled_same.
  - intros d1 d2 d3 [E1 A1 O1 V1] [E2 A2 O2 V2].
    pose proof (log_le _ _ E1) as L1. pose proof (log_le _ _ E2) as L2.
    pose proof (new_events_split _ _ _ L1 L2) as Hnew.
    split; [by etransitivity|..]; intros Hwf; pose proof (ev_wf _ _ E1 Hwf) as Hwf2; rewrite Hnew.
    + intros k r [Hr|[_ Hr]]%lookup_union_Some_raw; eauto.
    + intros k r k' r' [Hr|[_ Hr]]%lookup_union_Some_raw Hr'; [by eapply O1|].
      eapply O2; [done..|]. by eapply lookup_weaken.
    + rewrite (V2 Hwf2), (V1 Hwf), replay_union; [done|apply new_events_disjoint|].
      intros i k1 k2 (r1 & H1 & Ha1)%bind_Some (r2 & H2 & Ha2)%bind_Some.
      eapply (O2 Hwf2 _ _ _ _ H2); [by apply lookup_difference_Some in H1 as [? _]|].
      rewrite (A1 Hwf _ _ H1) in Ha1. rewrite (A2 Hwf2 _ _ H2) in Ha2. split; [by eexists|congruence].
  - intros d d' [E _ _ _]. apply journaled_same; [by apply guarantee_rollback|done..].
Qed.

(** ** Statements that leave messages and events alone *)
Definition same_log (d d' : DB) : Prop :=
  db_messages d' = db_messages d ∧ log d' = log d.
#[export] Instance same_log_preorder : PreOrder same_log.
Proof.
  split; [by repeat split|]. intros d1 d2 d3 (M1 & L1) (M2 & L2). split; congruence.
Qed.

Lemma journaled_stmt {A} (f : stmt A) : stmt_guar evolves f → stmt_guar same_log f → stmt_guar journaled f.
Proof. intros He Hs ctx d a d' Hid H. destruct (Hs ctx d a d' Hid H). apply journaled_same; [by eapply He|done..]. Qed.

Ltac same_log_tac :=
  intros ? ? ? ? _ ?; stmt_inv; subst; by repeat split.

Lemma insert_member_row_log m d a d' : insert_member_row m d = (Ok a, d') → same_log d d'.
Proof. intros H. unfold insert_member_row in H. stmt_inv. subst. by repeat split. Qed.

Lemma insert_tuples_log args ts now d a d' : insert_tuples args ts now d = (Ok a, d') → same_log d d'.
Proof.
  revert d. induction ts as [|t ts IH]; intros d H; simpl in H; go_inv; [done|].
  etransitivity; [|by apply IH]. clear IH.
  match goal with H : insert_tuple _ _ _ _ = _ |- _ => unfold insert_tuple in H; rename H into Ht end. go_inv.
  repeat match goal with H : arg _ _ _ = (Ok _, _) |- _ => apply arg_Ok in H as [_ ->] end.
  destruct t as [u [p|r]]; simpl in *; go_inv;
    try match goal with H : arg _ _ _ = (Ok _, _) |- _ => apply arg_Ok in H as [_ ->] end;
    (case_decide; stmt_inv; [done|by eapply insert_member_row_log]).
Qed.

#[export] Instance journaled_chat_statements : ChatStatements journaled.
Proof.
  split; intros; apply journaled_stmt;
    [apply st_insert_chat| |apply st_insert_owner| |apply st_insert_member| |apply st_insert_members|
    |apply st_delete_member| |apply st_last_message| |apply st_member_read|].
  - unfold insert_chat. same_log_tac.
  - unfold insert_owner. intros ctx d a d' _ H. stmt_inv. by eapply insert_member_row_log.
  - unfold insert_member. intros ctx d a d' _ H. stmt_inv. by eapply insert_member_row_log.
  - intros ctx d a d' _ H. by eapply insert_tuples_log.
  - unfold delete_member. intros ctx d a d' _ H. stmt_inv. case_decide; stmt_inv; subst; by repeat split.
  - unfold update_last_message. intros ctx d a d' _ H. stmt_inv. destruct (db_chats _ !! _); stmt_inv; subst; by repeat split.
  - unfold update_member_read. intros ctx d a d' _ H. stmt_inv. destruct (db_members _ !! _); stmt_inv; subst; by repeat split.
Qed.

#[export] Instance journaled_user_statements : UserStatements journaled.
Proof.
  split; intros; apply journaled_stmt; [apply st_insert_user| |apply st_update_profile|].
  - unfold insert_user. same_log_tac.
  - unfold update_profile. intros ctx d a d' _ H. stmt_inv. destruct (db_users _ !! _); stmt_inv; subst; by repeat split.
Qed.

#[export] Instance journaled_session_statements : SessionStatements journaled.
Proof.
  split; intros; apply journaled_stmt;
    [apply st_insert_session| |apply st_revoke_session| |apply st_revoke_user_sessions| |apply st_session_revoked|].
  - unfold insert_session. same_log_tac.
  - unfold revoke_session. intros ctx d a d' _ H. stmt_inv. destruct (db_sessions _ !! _); stmt_inv; subst; by repeat split.
  - unfold revoke_user_sessions. same_log_tac.
  - unfold set_session_revoked. same_log_tac.
Qed.

#[export] Instance journaled_outbox_statements : OutboxStatements journaled.
Proof.
  intros id. apply journaled_stmt; [apply st_published|]. unfold update_published. intros ctx d a d' _ H. stmt_inv.
  destruct (db_outbox _ !! id) as [r|] eqn:E; [|done]. stmt_inv. subst. split; [done|].
  unfold log. simpl. rewrite fmap_insert. apply insert_id. by rewrite lookup_fmap, E.
Qed.

(** ** The writer *)

(** The events the service gives the writer. *)
Definition faithful (x : write) : Prop :=
  match x with
  | WCreate _ ob => oe_EventType ob = EventMessageCreated ∧ oe_Payload ob = None
  | WText _ _ _ ob => oe_EventType ob = EventMessageUpdated ∧ oe_Payload ob = None
  | WDelete _ mid ob =>
      oe_EventType ob = EventMessageDeleted ∧ subject (to_jsonb (explicit_payload ob)) = uuid_in mid
      ∧ uuid_in (oe_AggregateID ob) = uuid_in mid
  | WRead _ _ _ ob => oe_EventType ob = EventMessageReadReceipt
  end.

Lemma subject_wire m j : encodeMessageWireJSON m = Ok j → subject (to_jsonb j) = uuid_in (msg_ID m).
Proof.
  unfold encodeMessageWireJSON. destruct (json_time _) as [c|]; [|done]. destruct (json_time _) as [u|]; [|done].
  intros [= <-]. by destruct (msg_Text m), (msg_ReplyToID m).
Qed.
Lemma subject_deleted m now : subject (to_jsonb (deleted_body m now)) = uuid_in (msg_ID m).
Proof. done. Qed.

Lemma shown_live m p : msg_DeletedAt m = None → encodeMessageWireJSON m = Ok p → shown m = Some (to_jsonb p).
Proof. intros Hl He. unfold shown, live. by rewrite Hl, He. Qed.

Lemma recorded_journaled E d d' ev :
  evolves d d' → recorded E d d' ev → ob_published_at ev = None →
  (wf d → about ev = event_message (ob_event_type ev) (ob_aggregate_id ev)
          ∧ live_view d' = apply_event ev (live_view d)) →
  journaled d d'.
Proof.
  intros He (Hnew & Ho & _ & Hid) Hp Hv.
  assert (new_events d d' = {[ob_id ev := ev]}) as Hev.
  { assert (unpublished ev = ev) as Hu by (destruct ev; simpl in *; by subst).
    unfold new_events, log. rewrite Ho, fmap_insert, Hu. apply map_eq. intros k. rewrite lookup_difference.
    destruct (decide (k = ob_id ev)) as [->|Hk].
    - by rewrite lookup_fmap, Hnew, lookup_insert_eq, lookup_singleton_eq.
    - rewrite lookup_insert_ne, lookup_singleton_ne by done. by destruct (_ !! k). }
  split; [done|..]; intros Hwf; rewrite Hev; [..|by rewrite replay_one; apply Hv].
  - intros k r [<- <-]%lookup_singleton_Some. by apply Hv.
  - intros k r k' r' [<- <-]%lookup_singleton_Some Hr' Hs. unfold log in Hr'.
    apply lookup_fmap_Some in Hr' as (r0 & <- & Hr0).
    destruct Hid as [Hid|[_ (_ & _ & Hlater)]]; [destruct (wf_outbox _ Hwf _ _ Hr0); lia|].
    apply Z.nle_gt. intros Hle. apply Z.le_lteq in Hle as [Hlt|Heq]; [by apply (Hlater k' r0)|congruence].
Qed.

Lemma insert_live_view d d' k m p :
  db_messages d' = <[k := m]> (db_messages d) → msg_DeletedAt m = None → encodeMessageWireJSON m = Ok p →
  live_view d' = <[k := to_jsonb p]> (live_view d).
Proof.
  intros Hd Hl He. unfold live_view. rewrite Hd. apply omap_insert_Some. by apply shown_live.
Qed.

(** The event of a message shown, under the message's id. *)
Lemma event_effect ev v k v' :
  ob_event_type ev = EventMessageCreated ∨ ob_event_type ev = EventMessageUpdated →
  subject (ob_payload ev) = Some k → uuid_in (ob_aggregate_id ev) = Some k → v' = <[k := ob_payload ev]> v →
  about ev = event_message (ob_event_type ev) (ob_aggregate_id ev) ∧ v' = apply_event ev v.
Proof.
  intros Hty Hs Ha ->. unfold apply_event, about, event_message. by destruct Hty as [-> | ->]; rewrite Hs, Ha.
Qed.

Lemma write_journaled E x reply now d d' :
  faithful x → evolves d d' → write_effect E x reply now d d' → journaled d d'.
Proof.
  intros Hx He. destruct x as [m ob|chat mid text ob|chat mid ob|chat uid mid ob]; simpl in Hx.
  - destruct Hx as [Ht Hp]. intros (row & _ & _ & c & ev & p & Hst & _ & Hm & _ & _ & Hrec & Hev & Hpay & Hagg & _).
    destruct Hev as (_ & Hty & _ & _ & _ & Hpl & Hpub). apply (recorded_journaled _ d d' ev He Hrec Hpub). intros Hwf.
    unfold payload_of in Hpay. rewrite Hp in Hpay. destruct Hst as (_ & _ & _ & _ & _ & _ & Hlive).
    assert (db_messages d' !! msg_ID row = Some row) as Hrow by (by rewrite Hm, lookup_insert_eq).
    destruct (wf_row _ _ _ (ev_wf _ _ He Hwf) Hrow) as (_ & Hc & _).
    apply (event_effect _ _ (msg_ID row)); rewrite ?Hty, ?Hpl, ?Hagg; [by left| |by apply uuid_in_canonical|].
    + by rewrite (subject_wire _ _ Hpay), uuid_in_canonical.
    + by apply (insert_live_view d d' _ row).
  - destruct Hx as [Ht Hp]. intros (ev & p & k & m & (k' & c & m0 & Hk & _ & Htg & Hm & Hrec & _) & Hev & Hk' & Hm' & Hpay & Hagg).
    destruct Hev as (_ & Hty & _ & _ & _ & Hpl & Hpub). apply (recorded_journaled _ d d' ev He Hrec Hpub). intros Hwf.
    unfold payload_of in Hpay. rewrite Hp in Hpay. assert (k' = k) as -> by congruence.
    destruct (wf_row _ _ _ (ev_wf _ _ He Hwf) Hm') as (Hid & Hc & _).
    pose proof Hm' as Hm2. rewrite Hm, lookup_insert_eq in Hm2. injection Hm2 as <-.
    apply target_message_Some in Htg as (_ & _ & Hlive).
    apply (event_effect _ _ k); rewrite ?Hty, ?Hpl, ?Hagg; [by right| |done|].
    + by rewrite (subject_wire _ _ Hpay), uuid_in_canonical, Hid.
    + by apply (insert_live_view d d' k (set_text text now m0)).
  - destruct Hx as (Ht & Hs & Ha). intros (ev & (k & c & m & Hk & _ & _ & Hm & Hrec & _) & Hev & Hagg).
    destruct Hev as (_ & Hty & _ & _ & _ & Hpl & Hpub). apply (recorded_journaled _ d d' ev He Hrec Hpub). intros _.
    unfold apply_event, about, event_message. rewrite Hty, Hpl, Hagg, Ht, Hs, Ha, Hk. simpl. split; [done|].
    unfold live_view. rewrite Hm. by apply omap_insert_None.
  - intros (ev & c & u & k & m & _ & _ & _ & _ & _ & _ & Hrec & Hev & _ & Hm & _).
    destruct Hev as (_ & Hty & _ & _ & _ & _ & Hpub). apply (recorded_journaled _ d d' ev He Hrec Hpub). intros _.
    unfold apply_event, about, event_message, live_view. by rewrite Hty, Hx, Hm.
Qed.

Section requests.
Context {G : UuidGen} {GL : UuidGenLaws G}.

Lemma commit_journaled {A} obs (body : M A) x (f : A → option Message) :
  faithful x → guar evolves body →
  (∀ w a w', body w = (Ok a, w') → write_effect (draws w) x (f a) (pg_time (w_now w)) (w_db w) (w_db w')) →
  guar journaled (commitOutboxObs obs body).
Proof.
  intros Hx Hg He. unfold commitOutboxObs. guar_tac. apply (guar_atomic evolves).
  - intros d d'. apply jn_evolves.
  - intros d d' E. apply journaled_same; [by apply guarantee_rollback|done..].
  - done.
  - intros w a w' _ H Hev. eapply write_journaled; [exact Hx|exact Hev|by apply He].
Qed.

Variables (pool obs metrics : bool).
Abbreviation W := (pg_message_writer pool obs).

Lemma writer_journaled x : faithful x → guar journaled (run_write W x).
Proof.
  intros Hx. destruct x; cbn [run_write]; (apply guar_bind; [|intros; apply guar_ret]); simpl.
  - apply guar_bind; [apply guar_fail_when|intros _].
    apply (commit_journaled _ _ _ Some Hx); [apply create_message_tx_evolves|intros; by apply create_message_tx_effect].
  - apply (commit_journaled _ _ _ (λ _, None) Hx); [apply update_text_tx_evolves|intros; by eapply update_text_tx_effect].
  - apply (commit_journaled _ _ _ (λ _, None) Hx); [apply soft_delete_tx_evolves|intros; by eapply soft_delete_tx_effect].
  - apply (commit_journaled _ _ _ (λ _, None) Hx); [apply member_read_tx_evolves|intros; by eapply member_read_tx_effect].
Qed.

(** The method of a write, whose reply [run_write] wraps. *)
Lemma guar_reply {A B} (m : M A) (f : A → B) : guar journaled (a ← m; mret (f a)) → guar journaled m.
Proof.
  intros Hm w r w' Hw H.
  destruct (Hm w (match r with Ok a => Ok (f a) | Err e => Err e end) w' Hw) as [? ?]; [|done].
  unfold mbind, eff_bind. rewrite H. by destruct r.
Qed.

Lemma journaled_Create m ob :
  faithful (WCreate m ob) → guar journaled (@CreateMessageWithOutbox W m ob).
Proof. intros Hx. apply (guar_reply _ Some), (writer_journaled _ Hx). Qed.
Lemma journaled_Text chat mid text ob :
  faithful (WText chat mid text ob) → guar journaled (@UpdateMessageTextWithOutbox W chat mid text ob).
Proof. intros Hx. apply (guar_reply _ (λ _, @None Message)), (writer_journaled _ Hx). Qed.
Lemma journaled_Delete chat mid ob :
  faithful (WDelete chat mid ob) → guar journaled (@SoftDeleteMessageWithOutbox W chat mid ob).
Proof. intros Hx. apply (guar_reply _ (λ _, @None Message)), (writer_journaled _ Hx). Qed.
Lemma journaled_Read chat uid mid ob :
  faithful (WRead chat uid mid ob) → guar journaled (@UpdateMemberReadWithOutbox W chat uid mid ob).
Proof. intros Hx. apply (guar_reply _ (λ _, @None Message)), (writer_journaled _ Hx). Qed.

(** Every message request. *)
Ltac journal_part :=
  first
    [ apply neutral_guar; [apply _|];
      first [ eapply (requireChatMember_neutral evolves) | eapply (load_message_neutral evolves)
            | eapply (check_reply_neutral evolves) ]; apply _
    | apply neutral_guar; [apply _|]; unfold select_message; neutral_tac
    | apply journaled_Create; done | apply journaled_Text; done
    | apply journaled_Delete; done | apply journaled_Read; done ].
Ltac event_of Q :=
  eapply (guar_bind_post Q);
    [apply neutral_guar; [apply _|];
     first [apply message_outbox_neutral|apply outboxForMessageDeleted_neutral|apply outboxForReadReceipt_neutral]
    |by intros ? ? ? [= <- _]|intros ? ?].
Ltac journal_step :=
  match goal with
  | |- guar _ (require_writer _ ≫= _) => apply (require_writer_guar journaled); intros ? [= <-]
  | |- guar _ (outboxForMessageCreated _ ≫= _) => event_of (λ ob, oe_EventType ob = EventMessageCreated ∧ oe_Payload ob = None)
  | |- guar _ (outboxForMessageUpdated _ ≫= _) => event_of (λ ob, oe_EventType ob = EventMessageUpdated ∧ oe_Payload ob = None)
  | |- guar _ (outboxForMessageDeleted ?m ≫= _) =>
      event_of (λ ob, oe_EventType ob = EventMessageDeleted ∧ subject (to_jsonb (explicit_payload ob)) = uuid_in (msg_ID m) ∧ uuid_in (oe_AggregateID ob) = uuid_in (msg_ID m))
  | |- guar _ (outboxForReadReceipt _ _ _ ≫= _) => event_of (λ ob, oe_EventType ob = EventMessageReadReceipt)
  | |- _ => guar_step
  end.

Lemma msg_journaled actor req : guar journaled (run_msg (Some W) metrics actor req).
Proof.
  destruct req; simpl; try (apply guar_bind; [|intros; apply guar_ret]).
  1: apply neutral_guar; [apply _|]; eapply (ListByChat_neutral evolves); apply _.
  2: apply neutral_guar; [apply _|]; eapply (Get_neutral evolves); apply _.
  all: unfold Create, Patch, Delete, MarkRead, require_actor; repeat journal_step; journal_part.
Qed.
End requests.
