(* ===== verification/ChatService.v ===== *)
(** * Chat service

    internal/service/chat_service.go: direct and group chats, membership
    and the rules on who may add or remove whom, against the repository
    interfaces. *)

From stdpp Require Import base strings gmap sets list.
From S2P Require Import Prelude GoStrings Regex Uuid Json Errors GoTime Sha256 Domain Hub World Repository.

Definition chatListDefaultLimit : Z := 30.
Definition chatListMaxLimit : Z := 100.
Definition chatTitleMaxLen : nat := 255.
Definition chatAvatarMaxLen : nat := 2048.

(** ** dto/chat.go *)
Record CreateGroupChatRequest := mkCreateGroup {
  cgr_Title : string;
  cgr_AvatarURL : option string;
  cgr_MemberIDs : list string
}.
Record LastMessagePreview := mkPreview {
  lmp_ID : string;
  lmp_SenderID : string;
  lmp_Type : string;
  lmp_Text : option string;
  lmp_CreatedAt : Time
}.
Record ChatSummary := mkChatSummary {
  cs_ID : string;
  cs_Type : string;
  cs_Title : option string;
  cs_AvatarURL : option string;
  cs_CreatedAt : Time;
  cs_UpdatedAt : Time;
  cs_LastMessage : option LastMessagePreview;
  cs_UnreadCount : Z
}.
Record ChatDetail := mkChatDetail {
  cd_ID : string;
  cd_Type : string;
  cd_Title : option string;
  cd_AvatarURL : option string;
  cd_CreatedAt : Time;
  cd_UpdatedAt : Time
}.
Record ChatMemberDTO := mkMemberDTO {
  md_UserID : string;
  md_Role : string;
  md_JoinedAt : Time
}.

(** ** Pure parts *)
Definition parseChatID (raw : string) : result error ID :=
  let raw := TrimSpace raw in
  if MatchString chatUUIDRe raw then Ok raw else Err (Validation "invalid chat_id" None).
Definition parseUserIDParam (raw : string) : result error ID :=
  let raw := TrimSpace raw in
  if MatchString chatUUIDRe raw then Ok raw else Err (Validation "invalid user_id" None).

Definition directKey (a b : ID) : result error string :=
  if str_empty a || str_empty b then Err (Validation "invalid user id" None)
  else let '(s1, s2) := if str_gtb a b then (b, a) else (a, b) in
       Ok (sha256_hex (s1 +:+ "|" +:+ s2)).

Definition isUniqueViolation (e : error) : bool :=
  match as_pg_code e with Some c => String.eqb c "23505" | None => false end.

Definition assertKickRules (actor target : ChatMember) : result error () :=
  if String.eqb (cm_Role actor) ChatMemberRoleOwner then
    if String.eqb (cm_Role target) ChatMemberRoleOwner then Err (Forbidden "cannot remove owner")
    else Ok ()
  else if String.eqb (cm_Role actor) ChatMemberRoleAdmin then
    if String.eqb (cm_Role target) ChatMemberRoleMember then Ok ()
    else Err (Forbidden "admins can only remove members")
  else Err (Forbidden "insufficient role").

Definition chatDetail (c : Chat) : ChatDetail :=
  mkChatDetail (chat_ID c) (chat_Type c) (chat_Title c) (chat_AvatarURL c) (chat_CreatedAt c)
               (chat_UpdatedAt c).

Definition toChatSummary (row : ChatListRow) : ChatSummary :=
  let c := clr_Chat row in
  mkChatSummary (chat_ID c) (chat_Type c) (chat_Title c) (chat_AvatarURL c) (chat_CreatedAt c)
    (chat_UpdatedAt c)
    (match chat_LastMessageID c, clr_LastPreviewAt row, clr_LastPreviewSender row,
           clr_LastPreviewType row with
     | Some mid, Some at_, Some sender, Some ty =>
         Some (mkPreview mid sender ty (clr_LastPreviewText row) at_)
     | _, _, _, _ => None
     end)
    (clr_UnreadCount row).

Definition toMemberDTO (m : ChatMember) : ChatMemberDTO :=
  mkMemberDTO (cm_UserID m) (cm_Role m) (cm_JoinedAt m).

(** The page of ListMine. *)
Definition chat_page (limit offset : Z) : Page :=
  let limit := if (limit <=? 0)%Z then chatListDefaultLimit else limit in
  let limit := if (limit >? chatListMaxLimit)%Z then chatListMaxLimit else limit in
  mkPage limit (if (offset <? 0)%Z then 0%Z else offset).

Section service.
Context {CR : ChatRepository} {UR : UserRepository}.

Definition require_user (actor : ID) : M () :=
  fail_when (str_empty actor) (Unauthorized "missing user").

Definition requireMember (chat user : ID) : M () :=
  _ ← chats_FindMembership chat user
        ?! not_found_or (Forbidden "not a chat member") "lookup membership";
  mret ().

Definition requireMemberShip (chat user : ID) : M ChatMember :=
  chats_FindMembership chat user
    ?! not_found_or (Forbidden "not a chat member") "lookup membership".

(** The load of a chat in Get, AddMembers and RemoveMember. *)
Definition load_chat (cid : ID) : M Chat :=
  c ← chats_GetByID cid ?! not_found_or (NotFound "chat not found") "load chat";
  fail_when (chat_IsDeleted c) (NotFound "chat not found");;
  mret c.

(** One turn of the loop of CreateDirect; [None] is [continue]. *)
Definition direct_attempt (actor peer : ID) (key : string) : M (option ChatDetail) :=
  let both := [mkAdd actor ChatMemberRoleMember; mkAdd peer ChatMemberRoleMember] in
  found ← attempt (chats_GetDirectByKey key);
  match found with
  | Ok existing =>
      requireMember (chat_ID existing) actor;;
      _ ← attempt (chats_AddMembers (chat_ID existing) both);
      mret (Some (chatDetail existing))
  | Err e =>
      fail_when (negb (is_not_found e)) (Internal "lookup direct chat" (Some e));;
      created ← attempt (chats_CreateChat
        (mkChat "" ChatTypeDirect None None None 0 0 None None false (Some key)));
      match created with
      | Err e =>
          if isUniqueViolation e then mret None
          else throw (Internal "create direct chat" (Some e))
      | Ok chat =>
          chats_AddMembers (chat_ID chat) both ?! internal_err "add direct members";;
          mret (Some (chatDetail chat))
      end
  end.

Fixpoint direct_loop (attempts : nat) (actor peer : ID) (key : string) : M ChatDetail :=
  match attempts with
  | O => throw (Conflict "could not create or resolve direct chat")
  | S n =>
      r ← direct_attempt actor peer key;
      match r with
      | Some detail => mret detail
      | None => direct_loop n actor peer key
      end
  end.

Definition CreateDirect (actor : ID) (peerRaw : string) : M ChatDetail :=
  require_user actor;;
  let peer := TrimSpace peerRaw in
  fail_when (str_empty peer) (Validation "user_id is required" None);;
  fail_when (negb (MatchString chatUUIDRe peer)) (Validation "invalid user_id" None);;
  fail_when (String.eqb peer actor) (Validation "cannot start direct chat with yourself" None);;
  _ ← users_GetByID peer ?! not_found_or (NotFound "user not found") "load peer user";
  key ← of_result (directKey actor peer);
  direct_loop 3 actor peer key.

(** The loop over [in.MemberIDs] in CreateGroup: [seen] starts with the
    actor; the result is [others]. *)
Fixpoint group_members (actor : ID) (seen : gset ID) (raws : list string) : M (list ID) :=
  match raws with
  | [] => mret []
  | raw :: raws =>
      let id := TrimSpace raw in
      fail_when (str_empty id || negb (MatchString chatUUIDRe id))
                (Validation "invalid member_ids entry" None);;
      if String.eqb id actor then group_members actor seen raws
      else if decide (id ∈ seen) then group_members actor seen raws
      else
        _ ← users_GetByID id ?! not_found_or (NotFound "member user not found") "load member user";
        others ← group_members actor ({[id]} ∪ seen) raws;
        mret (id :: others)
  end.

(** [avatar]: trimmed, nil when blank. *)
Definition group_avatar (avatar : option string) : M (option string) :=
  match avatar with
  | None => mret None
  | Some raw =>
      let v := TrimSpace raw in
      fail_when (chatAvatarMaxLen <? String.length v)%nat (Validation "avatar_url too long" None);;
      mret (if str_empty v then None else Some v)
  end.

Definition CreateGroup (actor : ID) (req : CreateGroupChatRequest) : M ChatDetail :=
  require_user actor;;
  let title := TrimSpace (cgr_Title req) in
  fail_when (str_empty title) (Validation "title is required" None);;
  fail_when (chatTitleMaxLen <? String.length title)%nat (Validation "title too long" None);;
  avatar ← group_avatar (cgr_AvatarURL req);
  others ← group_members actor {[actor]} (cgr_MemberIDs req);
  c ← chats_CreateGroupWithMembers title avatar actor others ?! internal_err "create group chat";
  mret (chatDetail c).

Definition ListMine (actor : ID) (limit offset : Z) : M (list ChatSummary) :=
  require_user actor;;
  rows ← chats_ListUserChatsSummary actor (chat_page limit offset) ?! internal_err "list chats";
  mret (toChatSummary <$> rows).

Definition GetChat (actor : ID) (chatID : string) : M ChatDetail :=
  require_user actor;;
  cid ← of_result (parseChatID chatID);
  requireMember cid actor;;
  c ← load_chat cid;
  mret (chatDetail c).

Definition Members (actor : ID) (chatID : string) : M (list ChatMemberDTO) :=
  require_user actor;;
  cid ← of_result (parseChatID chatID);
  requireMember cid actor;;
  members ← chats_GetChatMembers cid ?! internal_err "list members";
  mret (toMemberDTO <$> members).

(** The loop over [in.UserIDs] in AddMembers. *)
Fixpoint collect_adds (seen : gset ID) (raws : list string) : M (list AddChatMember) :=
  match raws with
  | [] => mret []
  | raw :: raws =>
      let id := TrimSpace raw in
      fail_when (str_empty id || negb (MatchString chatUUIDRe id))
                (Validation "invalid user_ids entry" None);;
      if decide (id ∈ seen) then collect_adds seen raws
      else
        _ ← users_GetByID id ?! not_found_or (NotFound "user not found") "load user";
        adds ← collect_adds ({[id]} ∪ seen) raws;
        mret (mkAdd id ChatMemberRoleMember :: adds)
  end.

Definition may_add (m : ChatMember) : bool :=
  String.eqb (cm_Role m) ChatMemberRoleOwner || String.eqb (cm_Role m) ChatMemberRoleAdmin.

Definition AddMembers (actor : ID) (chatID : string) (userIDs : list string) : M (list ChatMemberDTO) :=
  require_user actor;;
  cid ← of_result (parseChatID chatID);
  c ← load_chat cid;
  fail_when (negb (String.eqb (chat_Type c) ChatTypeGroup))
            (Forbidden "only group chats accept new members");;
  actorMem ← requireMemberShip cid actor;
  fail_when (negb (may_add actorMem)) (Forbidden "insufficient role to add members");;
  adds ← collect_adds ∅ userIDs;
  fail_when (length adds =? 0)%nat (Validation "user_ids is required" None);;
  chats_AddMembers cid adds ?! internal_err "add members";;
  Members actor chatID.

Definition remove_row (cid tid : ID) : M () :=
  chats_RemoveMember cid tid ?! not_found_or (NotFound "member not found") "remove member".

Definition RemoveMember (actor : ID) (chatID targetUserID : string) : M () :=
  require_user actor;;
  cid ← of_result (parseChatID chatID);
  tid ← of_result (parseUserIDParam targetUserID);
  c ← load_chat cid;
  actorMem ← requireMemberShip cid actor;
  targetMem ← chats_FindMembership cid tid
                ?! not_found_or (NotFound "member not found") "lookup target member";
  if String.eqb actor tid then remove_row cid tid
  else
    fail_when (String.eqb (chat_Type c) ChatTypeDirect)
              (Forbidden "cannot remove other user from direct chat");;
    of_result (assertKickRules actorMem targetMem);;
    remove_row cid tid.
End service.
