(* ===== verification/ChatTheorems.v ===== *)
(** * Theorems on the chat service

    The service of ChatService over the PostgreSQL repositories: what each
    operation changes, who may call it and what it answers. *)

From stdpp Require Import base strings gmap sets list sorting.
From S2P Require Import Prelude GoStrings Utf8 Regex Uuid Json Errors GoTime Sha256 Domain Hub World Repository PgMessages PgChats PgUsers Guarantee Invariant Evolution Laws Calls Membership Scenario WriterTheorems MessageService MessageTheorems ChatService.

(** ** The requests of the service *)
Inductive chat_request : Type :=
| CDirect (peerRaw : string)
| CGroup (req : CreateGroupChatRequest)
| CList (limit offset : Z)
| CGet (chatID : string)
| CMembers (chatID : string)
| CAdd (chatID : string) (userIDs : list string)
| CRemove (chatID targetUserID : string).

Section requests.
Context {CR : ChatRepository} {UR : UserRepository}.

(** The effect of a request, its reply left aside. *)
Definition run_chat (actor : ID) (req : chat_request) : M () :=
  match req with
  | CDirect peer => _ ← CreateDirect actor peer; mret ()
  | CGroup r => _ ← CreateGroup actor r; mret ()
  | CList limit offset => _ ← ListMine actor limit offset; mret ()
  | CGet raw => _ ← GetChat actor raw; mret ()
  | CMembers raw => _ ← Members actor raw; mret ()
  | CAdd raw ids => _ ← AddMembers actor raw ids; mret ()
  | CRemove raw target => RemoveMember actor raw target
  end.
End requests.

(** ** Guarantees, against the interfaces *)
Section guarantees.
Context {CR : ChatRepository} {UR : UserRepository}.
Context (R : relation DB) {HR : Guarantee R} {CL : ChatLaws R CR} {UL : UserLaws R UR}.

Lemma requireMember_neutral chat user : neutral (requireMember chat user).
Proof. intros R' HR'. unfold requireMember. guar_tac. law_tac. Qed.
Lemma requireMemberShip_neutral chat user : neutral (requireMemberShip chat user).
Proof. intros R' HR'. unfold requireMemberShip. guar_tac. law_tac. Qed.
Lemma require_user_neutral actor : neutral (require_user actor).
Proof. intros R' HR'. apply guar_fail_when. Qed.
Lemma load_chat_neutral cid : neutral (load_chat cid).
Proof. intros R' HR'. unfold load_chat. guar_tac. law_tac. Qed.
Lemma group_avatar_neutral a : neutral (group_avatar a).
Proof. intros R' HR'. unfold group_avatar. guar_tac. Qed.
Lemma group_members_neutral actor seen raws : neutral (group_members actor seen raws).
Proof.
  intros R' HR'. revert seen. induction raws as [|raw raws IH]; intros seen; simpl; guar_tac.
  all: first [apply IH|law_tac].
Qed.
Lemma collect_adds_neutral seen raws : neutral (collect_adds seen raws).
Proof.
  intros R' HR'. revert seen. induction raws as [|raw raws IH]; intros seen; simpl; guar_tac.
  all: first [apply IH|law_tac].
Qed.
Lemma GetChat_neutral actor raw : neutral (GetChat actor raw).
Proof.
  intros R' HR'. unfold GetChat, require_user. guar_tac.
  - by apply requireMember_neutral.
  - by apply load_chat_neutral.
Qed.
Lemma Members_neutral actor raw : neutral (Members actor raw).
Proof.
  intros R' HR'. unfold Members, require_user. guar_tac.
  - by apply requireMember_neutral.
  - law_tac.
Qed.
Lemma ListMine_neutral actor limit offset : neutral (ListMine actor limit offset).
Proof. intros R' HR'. unfold ListMine, require_user. guar_tac. law_tac. Qed.

Lemma direct_loop_guar n actor peer key : guar R (direct_loop n actor peer key).
Proof.
  induction n as [|n IH]; simpl; [apply guar_throw|].
  apply guar_bind; [|intros [detail|]; [apply guar_ret|apply IH]].
  unfold direct_attempt. cbv zeta. apply guar_bind; [apply guar_attempt; law_tac|].
  intros [existing|e].
  - apply guar_bind; [apply requireMember_neutral, HR|intros _].
    apply guar_bind; [apply guar_attempt; law_tac|intros _]. apply guar_ret.
  - guar_tac; try law_tac. apply guar_attempt. law_tac.
Qed.

(** Every request keeps the guarantee of the repositories. *)
Lemma run_chat_guar actor req : guar R (run_chat actor req).
Proof.
  destruct req; simpl; try (apply guar_bind; [|intros; apply guar_ret]).
  - unfold CreateDirect, require_user. guar_tac; try law_tac. apply direct_loop_guar.
  - unfold CreateGroup, require_user. guar_tac; try law_tac.
    + apply group_avatar_neutral, HR.
    + apply group_members_neutral, HR.
  - apply ListMine_neutral, HR.
  - apply GetChat_neutral, HR.
  - apply Members_neutral, HR.
  - unfold AddMembers, require_user. guar_tac; try law_tac.
    all: first [apply load_chat_neutral, HR|apply requireMemberShip_neutral, HR
               |apply collect_adds_neutral, HR|apply Members_neutral, HR].
  - unfold RemoveMember, require_user, remove_row. guar_tac; try law_tac.
    all: first [apply load_chat_neutral, HR|apply requireMemberShip_neutral, HR].
Qed.
End guarantees.

(** ** Reading the tables *)
Definition is_user (d : DB) (x : ID) : Prop := ∃ u, uuid_in x = Some u ∧ in_dom (db_users d) u.
Definition live_chat (d : DB) (x cid : ID) (c : Chat) : Prop :=
  uuid_in x = Some cid ∧ db_chats d !! cid = Some c ∧ chat_IsDeleted c = false.
Definition member_row (d : DB) (cid : ID) (user : ID) (m : ChatMember) : Prop :=
  ∃ u, uuid_in user = Some u ∧ db_members d !! (cid, u) = Some m.

Section reading.
Context {G : UuidGen} {GL : UuidGenLaws G}.

Lemma select_chat_is id ctx d :
  (select_chat id ctx d).2 = d ∧
  ((select_chat id ctx d).1
     = match uuid_in id ≫= λ c, db_chats d !! c with Some a => Ok a | None => Err ErrNoRows end
   ∨ ∃ e, (select_chat id ctx d).1 = Err e ∧ is_not_found (mapErr e) = false).
Proof.
  unfold select_chat, cast_uuid. destruct (uuid_in id) as [c|]; [|split; [done|right; by eexists]].
  simpl. unfold mbind, eff_bind, option_bind. simpl. destruct (db_chats d !! c); (split; [done|by left]).
Qed.
Lemma select_direct_is key ctx d :
  (select_direct key ctx d).2 = d ∧
  ((select_direct key ctx d).1
     = match select1 (direct_with_key key) (db_chats d) with Some a => Ok a | None => Err ErrNoRows end
   ∨ ∃ e, (select_direct key ctx d).1 = Err e ∧ is_not_found (mapErr e) = false).
Proof. unfold select_direct, mbind, eff_bind. simpl. destruct (select1 _ _); (split; [done|by left]). Qed.
Lemma select_user_is id ctx d :
  (select_user id ctx d).2 = d ∧
  ((select_user id ctx d).1
     = match uuid_in id ≫= λ c, db_users d !! c with Some a => Ok a | None => Err ErrNoRows end
   ∨ ∃ e, (select_user id ctx d).1 = Err e ∧ is_not_found (mapErr e) = false).
Proof.
  unfold select_user, cast_uuid. destruct (uuid_in id) as [c|]; [|split; [done|right; by eexists]].
  simpl. unfold mbind, eff_bind, option_bind. simpl. destruct (db_users d !! c); (split; [done|by left]).
Qed.

Lemma load_chat_Ok x w c w' :
  undisturbed w → load_chat x w = (Ok c, w') →
  undisturbed w' ∧ w_db w' = w_db w ∧ ∃ cid, live_chat (w_db w) x cid c.
Proof.
  intros Hw H. unfold load_chat in H. go_inv.
  match goal with H : chats_GetByID _ _ = _ |- _ =>
    apply (lookup_Ok _ _ (select_chat_is x)) in H as (? & ? & (cid & ? & ?)%bind_Some); [|done] end.
  split_and!; [done..|]. by exists cid.
Qed.

Lemma requireMember_Ok chat user w x w' :
  undisturbed w → requireMember chat user w = (Ok x, w') →
  undisturbed w' ∧ w_db w' = w_db w ∧ is_member (w_db w) chat user.
Proof.
  intros Hw H. apply (requireChatMember_Ok chat user w x w') in Hw as (?&?&?); [done|exact H].
Qed.

Lemma requireMemberShip_Ok chat user w m w' cid :
  undisturbed w → uuid_in chat = Some cid → requireMemberShip chat user w = (Ok m, w') →
  undisturbed w' ∧ w_db w' = w_db w ∧ member_row (w_db w) cid user m.
Proof.
  unfold requireMemberShip. intros Hw Hc H%map_err_Ok_inv.
  apply pg_FindMembership_Ok in H as (?&?&c&u&Hc'&?&?); [|done].
  rewrite Hc in Hc'. injection Hc' as <-. split_and!; [done..|]. by exists u.
Qed.

Lemma users_GetByID_Ok x w u w' :
  undisturbed w → users_GetByID x w = (Ok u, w') →
  undisturbed w' ∧ w_db w' = w_db w ∧ is_user (w_db w) x.
Proof.
  intros Hw H. apply (lookup_Ok _ _ (select_user_is x)) in H as (? & ? & (k & ? & ?)%bind_Some); [|done].
  split_and!; [done..|]. exists k. split; [done|by eexists].
Qed.

Lemma parseChatID_Ok raw cid :
  parseChatID raw = Ok cid → cid = TrimSpace raw ∧ fits uuid_classes cid = true.
Proof. unfold parseChatID. rewrite uuid_re_fits. destruct (fits _ _) eqn:E; [by intros [= <-]|done]. Qed.
Lemma parseUserIDParam_Ok raw cid :
  parseUserIDParam raw = Ok cid → cid = TrimSpace raw ∧ fits uuid_classes cid = true.
Proof. unfold parseUserIDParam. rewrite uuid_re_fits. destruct (fits _ _) eqn:E; [by intros [= <-]|done]. Qed.

(** The loop of AddMembers: the distinct identifiers listed, all of them
    users. *)
Lemma collect_adds_Ok raws seen w adds w' :
  undisturbed w → collect_adds seen raws w = (Ok adds, w') →
  undisturbed w' ∧ w_db w' = w_db w
  ∧ Forall (λ a, add_Role a = ChatMemberRoleMember ∧ is_user (w_db w) (add_UserID a)) adds
  ∧ (∀ raw, raw ∈ raws → TrimSpace raw ∈ seen ∨ TrimSpace raw ∈ add_UserID <$> adds)
  ∧ (∀ x, x ∈ add_UserID <$> adds → x ∈ TrimSpace <$> raws).
Proof.
  revert seen w adds. induction raws as [|raw raws IH]; intros seen w adds Hw H; cbn [collect_adds] in H.
  - go_inv. split_and!; try done. all: by intros ? ?%elem_of_nil.
  - go_inv. case_decide as Hs.
    + apply IH in H as (Hw' & -> & Hf & H1 & H2); [|done]. split_and!; [done..| |].
      * intros r [->|Hr]%elem_of_cons; [by left|by apply H1].
      * intros y Hy%H2. by right.
    + go_inv; match goal with H : users_GetByID _ _ = _ |- _ =>
        apply users_GetByID_Ok in H as (Hw1 & Hd & Hu); [|done] end.
      match goal with H : collect_adds _ _ _ = _ |- _ =>
        apply IH in H as (Hw' & -> & Hf & H1 & H2); [|done] end.
      rewrite Hd in *. split_and!; [done|done|by constructor| |].
      * intros r [->|Hr]%elem_of_cons; [right; by left|].
        apply H1 in Hr as [[->%elem_of_singleton|?]%elem_of_union|?]; [right; by left|by left|right; by right].
      * intros y [->|Hy%H2]%elem_of_cons; [by left|by right].
Qed.

Lemma group_members_Ok actor raws seen w others w' :
  undisturbed w → group_members actor seen raws w = (Ok others, w') →
  undisturbed w' ∧ w_db w' = w_db w
  ∧ Forall (is_user (w_db w)) others
  ∧ (∀ raw, raw ∈ raws → TrimSpace raw = actor ∨ TrimSpace raw ∈ seen ∨ TrimSpace raw ∈ others)
  ∧ (∀ x, x ∈ others → x ∈ TrimSpace <$> raws ∧ x ≠ "" ∧ x ≠ actor).
Proof.
  revert seen w others. induction raws as [|raw raws IH]; intros seen w others Hw H; cbn [group_members] in H.
  - go_inv. split_and!; try done. all: by intros ? ?%elem_of_nil.
  - go_inv. destruct (String.eqb_spec (TrimSpace raw) actor) as [Ha|Ha]; [|case_decide as Hs].
    1,2: apply IH in H as (Hw' & -> & Hf & H1 & H2); [|done]; split_and!; [done..| |];
      [intros r [->|Hr]%elem_of_cons; [tauto|by apply H1]
      |intros y [? ?]%H2; split; [by right|done]].
    go_inv; match goal with H : users_GetByID _ _ = _ |- _ =>
      apply users_GetByID_Ok in H as (Hw1 & Hd & Hu); [|done] end.
    match goal with H : group_members _ _ _ _ = _ |- _ =>
      apply IH in H as (Hw' & -> & Hf & H1 & H2); [|done] end.
    rewrite Hd in *. split_and!; [done|done|by constructor| |].
    + intros r [->|Hr]%elem_of_cons; [right; right; by left|].
      apply H1 in Hr as [?|[[->%elem_of_singleton|?]%elem_of_union|?]];
        [by left|right; right; by left|tauto|right; right; by right].
    + intros y [->|Hy]%elem_of_cons.
      * split_and!; [by left| |done]. intros He. rewrite He in *. done.
      * apply H2 in Hy as [? ?]. split; [by right|done].
Qed.
End reading.

(** [chat_inv]: a successful request taken apart, the tables carried from
    one step to the next. *)
Ltac chat_step :=
  go_inv_step ||
  match goal with
  | H : require_user _ _ = (Ok _, _) |- _ => apply fail_when_Ok_inv in H as [? ->]
  | H : parseChatID _ = Ok _ |- _ => apply parseChatID_Ok in H as [-> ?]
  | H : parseUserIDParam _ = Ok _ |- _ => apply parseUserIDParam_Ok in H as [-> ?]
  | Hw : undisturbed ?w, H : load_chat _ ?w = (Ok _, _) |- _ =>
      let Hl := fresh "Hlive" in
      apply (load_chat_Ok _ _ _ _ Hw) in H as (? & ? & ? & Hl); pose proof (proj1 Hl)
  | Hw : undisturbed ?w, H : requireMember _ _ ?w = (Ok _, _) |- _ =>
      apply (requireMember_Ok _ _ _ _ _ Hw) in H as (? & ? & ?)
  | Hw : undisturbed ?w, H : users_GetByID _ ?w = (Ok _, _) |- _ =>
      apply (users_GetByID_Ok _ _ _ _ Hw) in H as (? & ? & ?)
  | Hw : undisturbed ?w, H : collect_adds _ _ ?w = (Ok _, _) |- _ =>
      apply (collect_adds_Ok _ _ _ _ _ Hw) in H as (? & ? & ? & ? & ?)
  | Hw : undisturbed ?w, H : group_members _ _ _ ?w = (Ok _, _) |- _ =>
      apply (group_members_Ok _ _ _ _ _ _ Hw) in H as (? & ? & ? & ? & ?)
  | Hw : undisturbed ?w, Hc : uuid_in ?chat = Some _, H : requireMemberShip ?chat _ ?w = (Ok _, _) |- _ =>
      apply (requireMemberShip_Ok _ _ _ _ _ _ Hw Hc) in H as (? & ? & ?)
  | H : negb _ = false |- _ => apply negb_false_iff in H
  | H : String.eqb _ _ = true |- _ => apply String.eqb_eq in H
  | H : String.eqb _ _ = false |- _ => apply String.eqb_neq in H
  end.
Ltac same_tables := repeat match goal with H : w_db _ = _ |- _ => rewrite H in *; clear H end.

Section service.
Context {G : UuidGen} {GL : UuidGenLaws G}.

(** The users a list of identifiers designates. *)
Definition designated (raws : list string) : list ID := omap (uuid_in ∘ TrimSpace) raws.

Lemma designated_spec raws u : u ∈ designated raws ↔ ∃ x, x ∈ TrimSpace <$> raws ∧ uuid_in x = Some u.
Proof.
  unfold designated. rewrite list_elem_of_omap. split.
  - intros (raw & Hr & Hu). exists (TrimSpace raw). split; [|done]. apply list_elem_of_fmap. eauto.
  - intros (x & (raw & -> & Hr)%list_elem_of_fmap & Hu). eauto.
Qed.
Lemma user_ids_spec ms u : u ∈ user_ids ms ↔ ∃ x, x ∈ add_UserID <$> ms ∧ uuid_in x = Some u.
Proof.
  unfold user_ids. rewrite list_elem_of_omap. split.
  - intros (m & Hr & Hu). exists (add_UserID m). split; [|done]. apply list_elem_of_fmap. eauto.
  - intros (x & (m & -> & Hr)%list_elem_of_fmap & Hu). eauto.
Qed.

Lemma Members_Ok actor raw w dtos w' :
  undisturbed w → Members actor raw w = (Ok dtos, w') →
  undisturbed w' ∧ w_db w' = w_db w
  ∧ ∃ cid, uuid_in (TrimSpace raw) = Some cid ∧ is_member (w_db w) cid actor
           ∧ dtos = toMemberDTO <$> members_of (w_db w) cid.
Proof.
  intros Hw H. unfold Members in H. repeat chat_step.
  match goal with H : chats_GetChatMembers _ _ = _ |- _ =>
    apply (call_ro_Ok _ _ _ _) in H as ((ctx & H) & ? & ?); [|intros; unfold select_members; ro_tac|done] end.
  unfold select_members in *. stmt_inv. same_tables.
  match goal with H : mret _ _ = (Ok _, _) |- _ => injection H as <- end. split_and!; [done..|].
  match goal with H : cast_uuid _ = Ok ?c |- _ => apply cast_uuid_Ok in H; exists c end.
  split_and!; try done.
  match goal with H : is_member _ _ _ |- _ => destruct H as (c & u & Hc & Hu & Hin) end. simplify_eq.
  exists c, u. split_and!; try done. apply uuid_in_canonical. by eapply uuid_in_is_canonical.
Qed.

Lemma nonempty_elem {A} (l : list A) : (length l =? 0)%nat = false → ∃ x, x ∈ l.
Proof. destruct l as [|x l]; [done|]. intros _. exists x. left. Qed.

(** C10.  Adding members: a request that succeeds was made by the owner or
    an admin of a live group, and lists at least one identifier, all of
    users; the users listed who were not members become members with the
    role member, the others stay as they were, nothing else changes, and
    the answer is the list of members after the addition. *)
Theorem add_members_correct actor raw ids w dtos w' :
  undisturbed w → AddMembers actor raw ids w = (Ok dtos, w') →
  ∃ cid c a now,
    live_chat (w_db w) (TrimSpace raw) cid c ∧ chat_Type c = ChatTypeGroup
    ∧ member_row (w_db w) cid actor a
    ∧ (cm_Role a = ChatMemberRoleOwner ∨ cm_Role a = ChatMemberRoleAdmin)
    ∧ ids ≠ [] ∧ Forall (λ r, is_user (w_db w) (TrimSpace r)) ids
    ∧ only_members (w_db w) (w_db w')
    ∧ members_added cid "member" now (designated ids) (db_members (w_db w)) (db_members (w_db w'))
    ∧ dtos = toMemberDTO <$> members_of (w_db w') cid.
Proof.
  intros Hw H. unfold AddMembers in H. repeat chat_step.
  match goal with H : Members _ _ _ = _, Ha : chats_AddMembers _ ?adds ?w1 = (_, ?w2) |- _ =>
    rename H into Hmem; rename Ha into Hrun end.
  eapply (pg_AddMembers_Ok _ _ "member") in Hrun; [|done|done|eapply Forall_impl; [eassumption|by intros ? [? _]]].
  destruct Hrun as (Hw2 & Honly & now & Hadd & _).
  apply Members_Ok in Hmem as (_ & Hd & cid & Hcid & _ & ->); [|done]. simplify_eq. same_tables.
  match goal with H : Forall _ ?l |- _ => rename H into Hall; rename l into adds end.
  match goal with H : ∀ raw, raw ∈ ids → _ |- _ => rename H into Hin end.
  match goal with H : ∀ x, x ∈ _ → _ |- _ => rename H into Hout end.
  assert (∀ r, r ∈ ids → TrimSpace r ∈ add_UserID <$> adds) as Hin'
    by (intros r Hr; destruct (Hin r Hr) as [?%elem_of_empty|?]; done).
  do 4 eexists. split_and!; [done|done|done| | | |done| |done].
  - unfold may_add in *. match goal with H : _ || _ = true |- _ => apply orb_true_iff in H end.
    by rewrite <- !String.eqb_eq.
  - match goal with H : (length adds =? 0)%nat = false |- _ => apply nonempty_elem in H as [y Hy] end.
    intros ->. specialize (Hout (add_UserID y) ltac:(by apply list_elem_of_fmap_2)). by apply elem_of_nil in Hout.
  - apply Forall_forall. intros r (m & -> & Hm)%Hin'%list_elem_of_fmap.
    rewrite Forall_forall in Hall. by apply Hall.
  - eapply members_added_ext; [|exact Hadd]. intros u _. rewrite user_ids_spec, designated_spec.
    split; intros (y & Hy & Hu); exists y; (split; [|done]); [by apply Hout|].
    apply list_elem_of_fmap in Hy as (r & -> & Hr). by apply Hin'.
Qed.

Definition may_kick (actor target : string) : Prop :=
  actor = ChatMemberRoleOwner ∧ target ≠ ChatMemberRoleOwner
  ∨ actor = ChatMemberRoleAdmin ∧ target = ChatMemberRoleMember.

Lemma assertKickRules_Ok a t : assertKickRules a t = Ok () ↔ may_kick (cm_Role a) (cm_Role t).
Proof.
  unfold assertKickRules, may_kick.
  destruct (String.eqb_spec (cm_Role a) ChatMemberRoleOwner) as [->|Ho].
  - destruct (String.eqb_spec (cm_Role t) ChatMemberRoleOwner); split; intros; naive_solver.
  - destruct (String.eqb_spec (cm_Role a) ChatMemberRoleAdmin) as [->|Ha].
    + destruct (String.eqb_spec (cm_Role t) ChatMemberRoleMember); split; intros; naive_solver.
    + split; [done|]. naive_solver.
Qed.

Lemma pg_RemoveMember_Ok chat user w u w' :
  undisturbed w → pg_RemoveMember chat user w = (Ok u, w') →
  ∃ c x t, uuid_in chat = Some c ∧ uuid_in user = Some x ∧ db_members (w_db w) !! (c, x) = Some t
    ∧ w_db w' = set_members (delete (c, x) (db_members (w_db w))) (w_db w).
Proof.
  intros Hw H. apply call_Ok in H as (_ & now & id & _ & _ & _ & H); [|done].
  unfold delete_member in H. stmt_inv. case_decide as Hd; stmt_inv; [|done].
  repeat match goal with H : cast_uuid _ = Ok _ |- _ => apply cast_uuid_Ok in H end.
  destruct Hd as [t Ht]. eauto 10.
Qed.

(** C11.  Removing a member: a request that succeeds was made by a member
    of a live chat, on a member of it; either the two identifiers are the
    same (leaving), or the chat is not a direct one and the actor is the
    owner and the target is not an owner, or the actor is an admin and the
    target a plain member; exactly that membership is deleted. *)
Theorem remove_member_correct actor raw target w w' :
  undisturbed w → RemoveMember actor raw target w = (Ok (), w') →
  ∃ cid c a tid t,
    live_chat (w_db w) (TrimSpace raw) cid c
    ∧ member_row (w_db w) cid actor a
    ∧ uuid_in (TrimSpace target) = Some tid ∧ db_members (w_db w) !! (cid, tid) = Some t
    ∧ (actor = TrimSpace target
       ∨ chat_Type c ≠ ChatTypeDirect ∧ may_kick (cm_Role a) (cm_Role t))
    ∧ w_db w' = set_members (delete (cid, tid) (db_members (w_db w))) (w_db w).
Proof.
  intros Hw H. unfold RemoveMember in H. repeat chat_step.
  match goal with H : chats_FindMembership _ _ _ = _ |- _ =>
    apply pg_FindMembership_Ok in H as (Hd & Hw2 & c' & tid & Hc' & Htid & Ht); [|done] end.
  simplify_eq. unfold remove_row in H.
  destruct (String.eqb_spec actor (TrimSpace target)) as [->|Hne]; [|repeat chat_step].
  all: go_inv; match goal with H : chats_RemoveMember _ _ _ = _ |- _ =>
    rename H into Hrun; apply pg_RemoveMember_Ok in Hrun; [|done];
    destruct Hrun as (c1 & usr & t1 & Hc1 & Husr & Ht1 & Hdb) end;
    simplify_eq; same_tables; simplify_eq.
  all: do 5 eexists; split_and!; try done; try (by left).
  right. split; [done|]. rewrite <- assertKickRules_Ok.
  match goal with H : assertKickRules _ _ = Ok ?u |- _ => by destruct u end.
Qed.

(** *** Groups *)
Lemma dedup_others_spec seen us x :
  x ∈ dedup_others seen us ↔ x ∈ us ∧ x ≠ "" ∧ x ∉ seen.
Proof.
  revert seen. induction us as [|u us IH]; intros seen; simpl.
  - rewrite elem_of_nil. tauto.
  - destruct (String.eqb_spec u "") as [->|Hu].
    { rewrite IH, elem_of_cons. naive_solver. }
    case_decide as Hs.
    { rewrite IH, elem_of_cons. naive_solver. }
    rewrite !elem_of_cons, IH, elem_of_union, elem_of_singleton.
    destruct (decide (x = u)); naive_solver.
Qed.

(** The rows CreateGroupWithMembers leaves, and where they go. *)
Record group_created (title : string) (avatar : option string) (owner id : ID) (now : Time)
    (us : list ID) (c : Chat) (d d' : DB) : Prop := mkGroupCreated {
  gc_row : c = mkChat id ChatTypeGroup (Some title) avatar (Some owner) now now None None false None;
  gc_fresh : canonical id ∧ db_chats d !! id = None;
  gc_owner : in_dom (db_users d) owner;
  gc_chats : db_chats d' = <[id := c]> (db_chats d);
  gc_members : members_added id "member" now us
                 (<[(id, owner) := new_member id owner ChatMemberRoleOwner now]> (db_members d))
                 (db_members d');
  gc_rest : db_users d' = db_users d ∧ db_messages d' = db_messages d
            ∧ db_sessions d' = db_sessions d ∧ db_outbox d' = db_outbox d
}.

Lemma create_group_tx_Ok title avatar creator others w c w' :
  create_group_tx title avatar creator others w = (Ok c, w') →
  ∃ owner id now,
    uuid_in creator = Some owner
    ∧ group_created title avatar owner id now (omap uuid_in (dedup_others {[creator]} others)) c
        (w_db w) (w_db w').
Proof.
  intros H. unfold create_group_tx in H. go_inv.
  match goal with H : tx_call (insert_group _ _ _) _ = _ |- _ =>
    apply tx_call_Ok in H as (e1 & SH1 & SHn1 & _) end.
  match goal with H : tx_call (insert_owner _ _) _ = _ |- _ =>
    apply tx_call_Ok in H as (e2 & SH2 & SHn2 & _) end.
  unfold insert_group in SH1. apply insert_chat_Ok in SH1 as (by_ & Hby & Hrow & Hin & Hfresh & Hd1).
  unfold insert_owner in SH2. go_inv.
  match goal with H : cast_uuid (chat_ID _) = Ok ?x |- _ => apply cast_uuid_Ok in H; rename H into Hcid; rename x into cid end.
  match goal with H : cast_uuid creator = Ok ?x |- _ => pose proof H as Hcr; apply cast_uuid_Ok in H; rename x into owner end.
  simpl in Hby. rewrite Hcr in Hby. injection Hby as <-.
  match goal with H : insert_member_row _ _ = _ |- _ => apply insert_member_row_Ok in H as (Hd2 & Hu & Hnone) end.
  assert (cid = gen_uuid (w_ids w)) as ->.
  { rewrite Hrow in Hcid. simpl in Hcid. rewrite uuid_in_canonical in Hcid by apply gen_uuid_canonical. by injection Hcid. }
  simpl in *. exists owner, (gen_uuid (w_ids w)), (pg_time (w_now w)). split; [done|].
  rewrite SHn1 in *. rewrite Hd1 in Hd2. simpl in Hd2.
  destruct (dedup_others {[creator]} others) as [|o os] eqn:Eo.
  - go_inv. split; simpl; rewrite ?Hd2; simpl; try done.
    apply members_added_nil.
  - match type of Hcid with uuid_in (chat_ID ?x) = _ => rename x into row end.
    pose proof (λ d a d', group_tuples_run (chat_ID row) (gen_uuid (w_ids w)) (pg_time (w_now w)) (o :: os) [] d a d' Hcid) as Hrun.
    change (length (@nil string) + 2)%nat with 2%nat in Hrun. cbn [app] in Hrun. destruct (group_tuples 2 (o :: os)) as [ts args].
    match goal with H : tx_call (insert_members_values _ _) _ = _ |- _ => apply tx_call_Ok in H as (e3 & SH3 & _) end.
    unfold insert_members_values in SH3. simpl in SH3. rewrite SHn2 in SH3.
    apply Hrun in SH3 as [Hd3 _]. rewrite Hd2 in Hd3.
    split; simpl; rewrite ?Hd3; simpl; try done.
    apply enlist_added.
Qed.

Lemma group_avatar_Ok a (w : World) v w' :
  group_avatar a w = (Ok v, w') →
  w' = w ∧ (∀ x, v = Some x → x ≠ "" ∧ (String.length x ≤ chatAvatarMaxLen)%nat ∧ ∃ raw, a = Some raw ∧ x = TrimSpace raw).
Proof.
  unfold group_avatar. destruct a as [raw|]; intros H; go_inv; [|done]. split; [done|].
  intros z. destruct (String.eqb_spec (TrimSpace raw) ""); [done|]. intros [= <-].
  match goal with H : (_ <? _)%nat = false |- _ => apply Nat.ltb_ge in H end. eauto.
Qed.

Definition title_accepted (title : string) : Prop :=
  title ≠ "" ∧ (String.length title ≤ chatTitleMaxLen)%nat.

(** C12.  Creating a group: a request that succeeds has a title of 1 to
    255 bytes after trimming and lists only users; a chat with a fresh id
    and that title is created, its owner the creator, its other members
    exactly the users listed, with the role member; nobody else, and
    nothing else changes; the answer describes the chat stored. *)
Theorem create_group_correct actor req w detail w' :
  undisturbed w → CreateGroup actor req w = (Ok detail, w') →
  let title := TrimSpace (cgr_Title req) in
  title_accepted title
  ∧ Forall (λ r, TrimSpace r = actor ∨ is_user (w_db w) (TrimSpace r)) (cgr_MemberIDs req)
  ∧ ∃ avatar owner id now c,
      uuid_in actor = Some owner
      ∧ group_created title avatar owner id now (designated (cgr_MemberIDs req)) c (w_db w) (w_db w')
      ∧ detail = chatDetail c.
Proof.
  intros Hw H. unfold CreateGroup in H. repeat chat_step.
  match goal with H : group_avatar _ _ = _ |- _ => apply group_avatar_Ok in H as [-> Hav] end.
  repeat chat_step.
  match goal with H : Forall _ ?l |- _ => rename H into Hall; rename l into others end.
  match goal with H : ∀ raw, raw ∈ cgr_MemberIDs req → _ |- _ => rename H into Hin end.
  match goal with H : ∀ x, x ∈ _ → _ |- _ => rename H into Hout end.
  match goal with H : chats_CreateGroupWithMembers _ _ _ _ ?w0 = _ |- _ =>
    rename H into Hrun; rename w0 into w1; simpl in Hrun end.
  apply transaction_Ok in Hrun as (w2 & Hrun & Hd2). apply create_group_tx_Ok in Hrun as (owner & id & now & Hown & Hg).
  rewrite next_event_db in Hg by done. rewrite <- Hd2 in Hg. same_tables.
  split. { split; [done|]. by apply Nat.ltb_ge. }
  split.
  - apply Forall_forall. intros r Hr. destruct (Hin r Hr) as [?|[?%elem_of_singleton|Ho]]; [by left..|].
    right. rewrite Forall_forall in Hall. by apply Hall.
  - do 5 eexists. split; [done|]. split; [|done].
    destruct Hg as [Hrow [Hcan Hfresh] Hdom Hchats Hmem Hrest]. split; try done.
    eapply members_added_ext; [|exact Hmem]. intros u Hu. rewrite designated_spec, list_elem_of_omap.
    assert (u ≠ owner) as Hne by (intros ->; by rewrite lookup_insert_eq in Hu).
    setoid_rewrite dedup_others_spec. setoid_rewrite not_elem_of_singleton. split.
    + intros (y & (Hy & _ & _) & Hyu). exists y. split; [by apply Hout|done].
    + intros (y & Hy & Hyu). exists y. split; [|done].
      apply list_elem_of_fmap in Hy as (r & -> & Hr).
      assert (TrimSpace r ≠ actor) by congruence.
      destruct (Hin r Hr) as [?|[?%elem_of_singleton|Ho]]; [done..|].
      split; [done|]. split; [|done]. by apply Hout.
Qed.

(** *** Direct chats *)
Lemma direct_with_key_spec key c : direct_with_key key c = true ↔ direct_key c = Some key.
Proof.
  unfold direct_with_key, direct_key.
  destruct (String.eqb (chat_Type c) "direct" && negb (chat_IsDeleted c)); simpl; [|by split].
  by rewrite bool_decide_eq_true.
Qed.

(** The direct chat of the key exists, the caller is in it, and the only
    change is that the two users are (again) among its members. *)
Definition direct_found (key : string) (actor peer a p : ID) (d d' : DB) (detail : ChatDetail) : Prop :=
  ∃ cid c, db_chats d !! cid = Some c ∧ direct_key c = Some key ∧ is_member d cid actor
    ∧ only_members d d'
    ∧ (db_members d' = db_members d
       ∨ ∃ now, members_added cid "member" now [a; p] (db_members d) (db_members d'))
    ∧ detail = chatDetail c.

(** There was none, and now there is one, with the two users in it. *)
Definition direct_created (key : string) (a p : ID) (d d' : DB) (detail : ChatDetail) : Prop :=
  (∀ k c, db_chats d !! k = Some c → direct_key c ≠ Some key)
  ∧ ∃ id t c t',
      canonical id ∧ db_chats d !! id = None
      ∧ c = mkChat id ChatTypeDirect None None None t t None None false (Some key)
      ∧ db_chats d' = <[id := c]> (db_chats d)
      ∧ members_added id "member" t' [a; p] (db_members d) (db_members d')
      ∧ db_users d' = db_users d ∧ db_messages d' = db_messages d
      ∧ db_sessions d' = db_sessions d ∧ db_outbox d' = db_outbox d
      ∧ detail = chatDetail c.

Section attempt.
Variables (actor peer a p : ID) (key : string).
Hypotheses (Ha : uuid_in actor = Some a) (Hp : uuid_in peer = Some p).
Let both := [mkAdd actor ChatMemberRoleMember; mkAdd peer ChatMemberRoleMember].

Lemma both_ids : user_ids both = [a; p].
Proof. unfold both, user_ids. simpl. unfold compose. simpl. by rewrite Ha, Hp. Qed.
Lemma both_roles : Forall (λ m, add_Role m = "member") both.
Proof. by repeat constructor. Qed.

Lemma pg_CreateChat_unique c w e w' :
  undisturbed w → pg_CreateChat c w = (Err e, w') → isUniqueViolation e = true →
  undisturbed w' ∧ w_db w' = w_db w.
Proof.
  intros Hw H He. destruct (call_Err _ _ _ _ Hw H) as (? & [[? _]|[m ->]]); [done|].
  discriminate He.
Qed.

Lemma direct_attempt_Ok w r w' :
  undisturbed w → wf (w_db w) → direct_attempt actor peer key w = (Ok r, w') →
  undisturbed w' ∧
  match r with
  | None => w_db w' = w_db w
  | Some detail =>
      direct_found key actor peer a p (w_db w) (w_db w') detail
      ∨ direct_created key a p (w_db w) (w_db w') detail
  end.
Proof.
  intros Hw Hwf H. unfold direct_attempt in H. cbv zeta in H. fold both in H.
  apply bind_Ok_inv in H as (found & w1 & Hf & H). unfold attempt in Hf.
  destruct (chats_GetDirectByKey key w) as [[c|e] w1'] eqn:E; injection Hf as <- <-.
  - apply (lookup_Ok _ _ (select_direct_is key)) in E as (Hw1 & Hd1 & Hc); [|done].
    apply select1_Some in Hc as (Hkey & cid & Hcid). rewrite direct_with_key_spec in Hkey.
    destruct (wf_chats _ Hwf _ _ Hcid) as (<- & Hcan & _).
    repeat chat_step. unfold attempt in *.
    match goal with H : (match ?m with (_, _) => _ end) = _ |- _ => destruct m as [r2 w3] eqn:Eadd; injection H as <- <- end.
    fold both in Eadd.
    eapply (pg_AddMembers_any _ _ "member") in Eadd;
      [|done|by apply uuid_in_canonical|by apply both_roles].
    destruct Eadd as (Hw3 & Honly & Hmem). rewrite both_ids in Hmem. same_tables.
    split; [done|]. left. exists (chat_ID c), c. by split_and!.
  - apply (lookup_Err _ _ (select_direct_is key)) in E as (Hw1 & Hd1 & Hnone); [|done].
    repeat chat_step. specialize (Hnone ltac:(done)).
    match goal with H : attempt (chats_CreateChat _) _ = (Ok ?r, _) |- _ => rename H into Hcr; rename r into cr end.
    unfold attempt in Hcr.
    match type of Hcr with (match ?m with (_, _) => _ end) = _ => destruct m as [r2 w3] eqn:Ecr end.
    injection Hcr as <- <-. destruct r2 as [c|e2].
    + repeat chat_step.
      match goal with H : chats_AddMembers _ _ _ = _ |- _ => rename H into Hadd end. fold both in Hadd.
      apply call_Ok in Ecr as (Hw3 & now & id & Hid & _ & _ & Hins); [|done].
      apply insert_chat_Ok in Hins as (by_ & [= <-] & Hrow & _ & Hfresh & Hd3). simpl in Hid, Hrow, Hfresh, Hd3.
      eapply (pg_AddMembers_Ok _ id "member") in Hadd;
        [|done|rewrite Hrow; by apply uuid_in_canonical|by apply both_roles].
      destruct Hadd as (Hw4 & Honly & t' & Hmem & _). rewrite both_ids in Hmem.
      rewrite Hd3, Hd1 in *. split; [done|]. right. split.
      * intros k c0 Hk. rewrite <- direct_with_key_spec. by rewrite (select1_None _ _ _ _ Hnone Hk).
      * exists id, (pg_time now), c, t'. unfold only_members in Honly. rewrite Honly. simpl in *. by split_and!.
    + destruct (isUniqueViolation e2) eqn:Eu; [|repeat chat_step].
      injection H as <- <-. eapply pg_CreateChat_unique in Ecr as [? Hd3]; [|done..].
      split; [done|]. by rewrite Hd3.
Qed.

Lemma direct_loop_Ok n w detail w' :
  undisturbed w → wf (w_db w) → direct_loop n actor peer key w = (Ok detail, w') →
  direct_found key actor peer a p (w_db w) (w_db w') detail
  ∨ direct_created key a p (w_db w) (w_db w') detail.
Proof.
  revert w. induction n as [|n IH]; intros w Hw Hwf H; cbn [direct_loop] in H; [done|].
  apply bind_Ok_inv in H as (r & w1 & Hr & H). apply direct_attempt_Ok in Hr as [Hw1 Hr]; [|done..].
  destruct r as [d|]; [by go_inv|]. rewrite <- Hr. apply IH; [done|by rewrite Hr|done].
Qed.
End attempt.

Lemma create_direct_Ok actor peerRaw w detail w' :
  undisturbed w → wf (w_db w) → canonical actor →
  CreateDirect actor peerRaw w = (Ok detail, w') →
  let peer := TrimSpace peerRaw in
  peer ≠ actor ∧
  ∃ p key,
    uuid_in peer = Some p ∧ in_dom (db_users (w_db w)) p ∧ directKey actor peer = Ok key
    ∧ (direct_found key actor peer actor p (w_db w) (w_db w') detail
       ∨ direct_created key actor p (w_db w) (w_db w') detail).
Proof.
  intros Hw Hwf Hact H. unfold CreateDirect in H. repeat chat_step.
  match goal with H : is_user _ _ |- _ => destruct H as (p & Hp & Hin) end.
  match goal with H : directKey _ _ = Ok ?k |- _ => rename H into Hkey; rename k into key end.
  match goal with H : direct_loop _ _ _ _ _ = _ |- _ => rename H into Hloop end.
  apply (direct_loop_Ok actor (TrimSpace peerRaw) actor p key (uuid_in_canonical _ Hact) Hp) in Hloop;
    [|done|by same_tables].
  split; [done|]. exists p, key. same_tables. by split_and!.
Qed.
End service.

(** ** The key of a pair *)
Lemma str_app_inj_len s t u v :
  String.length s = String.length t → s +:+ u = t +:+ v → s = t ∧ u = v.
Proof.
  revert t. induction s as [|c s IH]; intros [|c' t] Hl; try done.
  rewrite !str_app_cons. intros [= -> H]. apply IH in H as [-> ->]; [done|]. by injection Hl.
Qed.

(** The two identifiers in order. *)
Definition ordered (a b : ID) : ID * ID := if str_gtb a b then (b, a) else (a, b).

Lemma ordered_sym a b : ordered a b = ordered b a.
Proof.
  unfold ordered, str_gtb, String.ltb. rewrite (String.compare_antisym a b).
  destruct (String.compare b a) eqn:E; simpl; [|done..]. by apply String.compare_eq_iff in E as ->.
Qed.

Lemma directKey_eq a b :
  a ≠ "" → b ≠ "" → directKey a b = Ok (sha256_hex ((ordered a b).1 +:+ "|" +:+ (ordered a b).2)).
Proof.
  intros Ha Hb. unfold directKey, ordered.
  rewrite (proj2 (String.eqb_neq _ _) Ha), (proj2 (String.eqb_neq _ _) Hb). simpl.
  by destruct (str_gtb a b).
Qed.

Lemma directKey_sym a b : directKey a b = directKey b a.
Proof.
  destruct (String.eqb_spec a "") as [->|Ha]; [unfold directKey; simpl; by rewrite orb_true_r|].
  destruct (String.eqb_spec b "") as [->|Hb]; [unfold directKey; simpl; by rewrite orb_true_r|].
  by rewrite !directKey_eq, ordered_sym.
Qed.

(** The key of a pair of users is the digest of the two identifiers in
    order, so it does not depend on who asks, and two different pairs
    have different keys unless SHA-256 collides. *)
Theorem directKey_of_pair a b c d :
  canonical a → canonical b → canonical c → canonical d →
  directKey a b = Ok (sha256_hex ((ordered a b).1 +:+ "|" +:+ (ordered a b).2))
  ∧ directKey a b = directKey b a
  ∧ (directKey a b = directKey c d →
     (a = c ∧ b = d) ∨ (a = d ∧ b = c) ∨ ∃ x y, x ≠ y ∧ sha256_hex x = sha256_hex y).
Proof.
  intros Ha Hb Hc Hd. rewrite !directKey_eq by (by apply canonical_nonempty).
  split; [done|]. split; [by rewrite ordered_sym|]. intros [= Heq].
  destruct (decide ((ordered a b).1 +:+ "|" +:+ (ordered a b).2
                    = (ordered c d).1 +:+ "|" +:+ (ordered c d).2)) as [He|Hne]; [|eauto 10].
  assert (∀ x, canonical x → String.length x = 36%nat) as Hlen
    by (intros x [Hx _]; by apply fits_length in Hx).
  apply str_app_inj_len in He as [H1 H2]; [|unfold ordered; repeat case_match; simpl; by rewrite !Hlen].
  injection H2 as H2. unfold ordered in *. destruct (str_gtb a b), (str_gtb c d); simpl in *; subst; auto.
Qed.

(** ** Opening a direct chat *)
Section direct.
Context {G : UuidGen} {GL : UuidGenLaws G}.

(** The chat of a key. *)
Definition keeps_key (key : string) (cid : ID) (d : DB) : Prop :=
  ∃ c, db_chats d !! cid = Some c ∧ direct_key c = Some key.

Lemma keeps_key_evolves key cid d d' : evolves d d' → keeps_key key cid d → keeps_key key cid d'.
Proof.
  intros He (c & Hc & Hk). destruct (ev_chats _ _ He _ _ Hc) as (c' & Hc' & _ & Ht & Hd & _ & Hdel).
  exists c'. split; [done|]. revert Hk. unfold direct_key. by rewrite Ht, Hd, Hdel.
Qed.

(** The answer to a request is the chat of its key. *)
Lemma answer_keeps_key key actor peer a p d d' detail :
  wf d → (direct_found key actor peer a p d d' detail ∨ direct_created key a p d d' detail) →
  keeps_key key (cd_ID detail) d'.
Proof.
  intros Hwf [(cid & c & Hc & Hk & _ & Ho & _ & ->)|(_ & id & t & c & t' & _ & _ & -> & Hc & _ & _ & _ & _ & _ & ->)].
  - destruct (wf_chats _ Hwf _ _ Hc) as (<- & _). exists c. split; [|done]. by rewrite Ho.
  - eexists. split; [rewrite Hc; apply lookup_insert_eq|done].
Qed.

(** Once a chat has the key, a request for the key answers it. *)
Lemma answer_is_key key cid actor peer a p d d' detail :
  wf d → keeps_key key cid d → (direct_found key actor peer a p d d' detail ∨ direct_created key a p d d' detail) →
  cd_ID detail = cid ∧ db_chats d' = db_chats d.
Proof.
  intros Hwf (c & Hc & Hk) [(cid' & c' & Hc' & Hk' & _ & Ho & _ & ->)|(Hno & _)]; [|by destruct (Hno _ _ Hc)].
  rewrite Ho. split; [|done]. destruct (wf_chats _ Hwf _ _ Hc') as (<- & _).
  by apply (wf_direct_keys _ Hwf _ _ _ _ key Hc' Hc).
Qed.

(** C13.  Opening a direct chat: a request that succeeds names a user whose
    identifier is not written as the caller's, and answers the chat of the
    key of the two identifiers as they are written: the existing one, if
    the caller is a member of it, at most adding the two users to it; or,
    when there is none, a new one without title, with the two as its
    members.  Nothing else changes.  From then on every request of either
    of the two for the other, the identifiers written the same way, that
    succeeds answers that same chat and creates none.  (The key depends on
    the spelling: see [second_direct_chat] and [direct_with_oneself].) *)
Theorem create_direct_correct actor peerRaw w detail w' :
  undisturbed w → wf (w_db w) → canonical actor →
  CreateDirect actor peerRaw w = (Ok detail, w') →
  let peer := TrimSpace peerRaw in
  peer ≠ actor ∧
  (∃ p key,
    uuid_in peer = Some p ∧ in_dom (db_users (w_db w)) p ∧ directKey actor peer = Ok key
    ∧ (direct_found key actor peer actor p (w_db w) (w_db w') detail
       ∨ direct_created key actor p (w_db w) (w_db w') detail)) ∧
  ∀ asker other w2 detail2 w3,
    (asker = actor ∧ TrimSpace other = peer) ∨ (asker = peer ∧ TrimSpace other = actor) →
    canonical asker → evolves (w_db w') (w_db w2) → wf (w_db w2) → undisturbed w2 →
    CreateDirect asker other w2 = (Ok detail2, w3) →
    cd_ID detail2 = cd_ID detail ∧ db_chats (w_db w3) = db_chats (w_db w2).
Proof.
  intros Hw Hwf Hact H. apply create_direct_Ok in H as (Hne & p & key & Hp & Hin & Hkey & Hd); [|done..].
  split; [done|]. split; [by exists p, key|].
  intros asker other w2 detail2 w3 Hpair Hask He Hwf2 Hw2 H2.
  apply create_direct_Ok in H2 as (_ & p2 & key2 & _ & _ & Hkey2 & Hd2); [|done..].
  assert (key2 = key) as ->.
  { destruct Hpair as [[-> Ho]|[-> Ho]]; rewrite Ho in Hkey2; [congruence|]. rewrite directKey_sym in Hkey2. congruence. }
  eapply answer_is_key; [done| |exact Hd2]. eapply keeps_key_evolves; [exact He|]. eapply answer_keeps_key; [exact Hwf|exact Hd].
Qed.
End direct.

(** ** Strangers *)
Section refused.
Context {G : UuidGen} {GL : UuidGenLaws G}.

Lemma refused_member {A} chat user (k : () → M A) w :
  undisturbed w → ¬ is_member (w_db w) chat user → refused (requireMember chat user ≫= k) w.
Proof. intros Hw Hm. by apply (refused_membership chat user k w). Qed.

Lemma refused_membership_row {A} chat user (k : ChatMember → M A) w :
  undisturbed w → ¬ is_member (w_db w) chat user → refused (requireMemberShip chat user ≫= k) w.
Proof.
  intros Hw Hm. apply refused_first. intros r w' H.
  pose proof (neutral_run _ _ _ _ (requireMemberShip_neutral evolves chat user) Hw H) as [? _].
  split; [|done]. destruct r as [m|e]; [|eauto]. exfalso. apply Hm.
  unfold requireMemberShip in H. apply map_err_Ok_inv in H.
  apply pg_FindMembership_Ok in H as (_ & _ & c & u & Hc & Hu & Hr); [|done].
  exists c, u. split_and!; [done..|by eexists].
Qed.

(** The chat a request names, for the requests about one chat. *)
Definition names_chat (req : chat_request) (chat : ID) : Prop :=
  match req with
  | CGet raw | CMembers raw | CAdd raw _ | CRemove raw _ => chat = TrimSpace raw
  | _ => False
  end.

Ltac chat_neutral :=
  first [ apply of_result_neutral | apply fail_when_neutral | apply require_user_neutral
        | eapply load_chat_neutral; apply _ ].

(** The same for a request about a chat. *)
Lemma chat_stranger_refused actor req chat w :
  undisturbed w → names_chat req chat → ¬ is_member (w_db w) chat actor →
  ∃ e w', run_chat actor req w = (Err e, w') ∧ w_db w' = w_db w.
Proof.
  intros Hw Hch Hno. destruct (run_chat actor req w) as [r w'] eqn:H.
  enough (refused (run_chat actor req) w) as Hr by (apply Hr in H as [[e ->] Hd]; eauto).
  clear H. destruct req; simpl in Hch |- *; try done; subst chat.
  all: match goal with |- refused (_ ≫= λ _, mret _) _ => apply refused_first | _ => idtac end.
  all: unfold GetChat, Members, AddMembers, RemoveMember.
  all: apply refused_bind; [chat_neutral|done|intros _ w1 _ Hw1 Hd1].
  all: apply refused_bind; [chat_neutral|done|intros cid w2 Hp Hw2 Hd2].
  all: injection Hp as Hp _; apply parseChatID_Ok in Hp as [-> _].
  1,2: apply refused_member; [done|congruence].
  all: repeat (apply refused_bind; [chat_neutral|done|intros ? ? _ ? ?]).
  all: apply refused_membership_row; [done|congruence].
Qed.
(** C15.  Strangers: a request about a chat or a message, by a user who is
    not a member of the chat it is about, is refused and changes nothing. *)
Theorem strangers_refused actor w :
  undisturbed w →
  (∀ req chat, names_chat req chat → ¬ is_member (w_db w) chat actor →
     ∃ e w', run_chat actor req w = (Err e, w') ∧ w_db w' = w_db w)
  ∧ ∀ obs metrics req, (∀ chat, request_chat (w_db w) req chat → ¬ is_member (w_db w) chat actor) →
      ∃ e w', run_msg (Some (pg_message_writer true obs)) metrics actor req w = (Err e, w') ∧ w_db w' = w_db w.
Proof.
  intros Hw. split; intros; [by eapply chat_stranger_refused|by apply msg_stranger_refused].
Qed.
End refused.

(** ** Witnesses *)
Definition demo_group : CreateGroupChatRequest := mkCreateGroup " team " None [bob; bob].
Definition grouped : World := (CreateGroup alice demo_group demo).2.
Definition demo_group_id : ID :=
  match (CreateGroup alice demo_group demo).1 with Ok d => cd_ID d | Err _ => "" end.

Lemma grouped_undisturbed : undisturbed grouped.
Proof. apply quiet_undisturbed. vm_compute. reflexivity. Qed.

Lemma create_group_correct_witness :
  is_ok (CreateGroup alice demo_group demo).1 = true ∧ title_accepted "team".
Proof.
  assert (is_ok (CreateGroup alice demo_group demo).1 = true) as Hok by (vm_compute; reflexivity).
  split; [exact Hok|].
  destruct (CreateGroup alice demo_group demo) as [[detail|e] w'] eqn:E; [|discriminate Hok].
  apply (create_group_correct alice demo_group demo detail w'); [|exact E].
  apply (demo_undisturbed demo_db []).
Defined.

Lemma add_members_correct_witness :
  is_ok (AddMembers alice demo_group_id [carol; bob] grouped).1 = true
  ∧ ∃ cid c, live_chat (w_db grouped) demo_group_id cid c.
Proof.
  assert (is_ok (AddMembers alice demo_group_id [carol; bob] grouped).1 = true) as Hok
    by (vm_compute; reflexivity).
  split; [exact Hok|].
  destruct (AddMembers alice demo_group_id [carol; bob] grouped) as [[dtos|e] w'] eqn:E;
    [|discriminate Hok].
  destruct (add_members_correct alice demo_group_id [carol; bob] grouped dtos w' grouped_undisturbed E)
    as (cid & c & _ & _ & Hc & _).
  exists cid, c. vm_compute in Hc |- *. exact Hc.
Defined.

Lemma remove_member_correct_witness :
  is_ok (RemoveMember alice demo_group_id bob grouped).1 = true
  ∧ is_ok (RemoveMember bob demo_group_id alice grouped).1 = false
  ∧ ∃ tid, uuid_in bob = Some tid.
Proof.
  assert (is_ok (RemoveMember alice demo_group_id bob grouped).1 = true) as Hok by (vm_compute; reflexivity).
  split; [exact Hok|]. split; [vm_compute; reflexivity|].
  destruct (RemoveMember alice demo_group_id bob grouped) as [[[]|e] w'] eqn:E; [|discriminate Hok].
  destruct (remove_member_correct alice demo_group_id bob grouped w' grouped_undisturbed E)
    as (_ & _ & _ & tid & _ & _ & _ & Ht & _).
  exists tid. exact Ht.
Defined.

(** The chat of alice and carol, opened by alice and then by carol. *)
Definition after_carol : World := (CreateDirect alice carol demo).2.
Lemma after_carol_undisturbed : undisturbed after_carol.
Proof. apply quiet_undisturbed. vm_compute. reflexivity. Qed.
Lemma after_carol_wf : wf (w_db after_carol).
Proof.
  assert (guar evolves (run_chat alice (CDirect carol))) as Hg by (apply run_chat_guar; apply _).
  assert (∃ r, run_chat alice (CDirect carol) demo = (r, after_carol)) as [r E].
  { unfold after_carol, run_chat, mbind, eff_bind, mret, eff_ret. destruct (CreateDirect alice carol demo) as [[d|e] w']; eauto. }
  apply Hg in E as [He _]; [|apply undisturbed_guar; [apply _|apply quiet_undisturbed; reflexivity]].
  apply (ev_wf _ _ He), demo_wf.
Qed.

Lemma create_direct_correct_witness :
  carol ≠ alice ∧
  match (CreateDirect alice carol demo).1, (CreateDirect carol alice after_carol).1 with
  | Ok d1, Ok d2 => cd_ID d2 = cd_ID d1
  | _, _ => False
  end.
Proof.
  assert (is_ok (CreateDirect alice carol demo).1 = true) as Hok by (vm_compute; reflexivity).
  assert (is_ok (CreateDirect carol alice after_carol).1 = true) as Hok2 by (vm_compute; reflexivity).
  pose proof after_carol_undisturbed as Hu2. pose proof after_carol_wf as Hwf2. unfold after_carol in *.
  destruct (CreateDirect alice carol demo) as [[detail|e] w'] eqn:E; [|discriminate Hok]. cbn [snd fst] in *.
  destruct (CreateDirect carol alice w') as [[detail2|e] w3] eqn:E2; [|discriminate Hok2]. cbn [snd fst] in *.
  destruct (create_direct_correct alice carol demo detail w') as (Hne & _ & Hagain).
  - apply (demo_undisturbed demo_db []).
  - apply demo_wf.
  - apply demo_canonical.
  - exact E.
  - split; [exact Hne|]. destruct demo_canonical as (_ & _ & Hcarol & _).
    apply (Hagain carol alice w' detail2 w3); [right; split; reflexivity|exact Hcarol|reflexivity|exact Hwf2|exact Hu2|exact E2].
Defined.

Lemma directKey_of_pair_witness : directKey alice bob = directKey bob alice.
Proof.
  destruct demo_canonical as (Ha & Hb & Hc & Hd & _).
  exact (proj1 (proj2 (directKey_of_pair alice bob carol chat1 Ha Hb Hc Hd))).
Defined.

Lemma strangers_refused_witness :
  (∃ e w', run_chat carol (CRemove demo_group_id bob) grouped = (Err e, w') ∧ w_db w' = w_db grouped)
  ∧ ∃ e w', run_msg demo_writer true carol (MCreate chat1 demo_text) grouped = (Err e, w') ∧ w_db w' = w_db grouped.
Proof.
  destruct (strangers_refused carol grouped) as [Hc Hm]; [apply grouped_undisturbed|]. split.
  - apply (Hc (CRemove demo_group_id bob) demo_group_id); [vm_compute; reflexivity|].
    intros (c & u & H1 & H2 & [m H3]).
    vm_compute in H1, H2. injection H1 as <-. injection H2 as <-. vm_compute in H3. discriminate H3.
  - apply (Hm true true (MCreate chat1 demo_text)). intros chat -> (c & u & H1 & H2 & [m H3]).
    vm_compute in H1, H2. injection H1 as <-. injection H2 as <-. vm_compute in H3. discriminate H3.
Defined.

(** ** Identifiers compared as text

    The service compares identifiers as the client wrote them, PostgreSQL
    compares UUIDs: the caller's own identifier in upper case passes for
    another user, and opens a direct chat with the caller alone. *)
Definition alice_upper : ID := "A0000000-0000-4000-8000-000000000001".

Example direct_with_oneself :
  match CreateDirect alice alice_upper demo with
  | (Ok d, w) => (cm_UserID <$> members_of (w_db w) (cd_ID d)) = [alice]
  | (Err _, _) => False
  end.
Proof. vm_compute. reflexivity. Qed.

(** The same spelling makes a second direct chat of one pair. *)
Definition bob_upper : ID := "B0000000-0000-4000-8000-000000000002".
Definition after_bob : World := (CreateDirect alice bob demo).2.
Example second_direct_chat :
  match (CreateDirect alice bob demo).1, (CreateDirect alice bob_upper after_bob).1 with
  | Ok d1, Ok d2 => String.eqb (cd_ID d1) (cd_ID d2) = false
  | _, _ => False
  end.
Proof. vm_compute. reflexivity. Qed.

(** CreateDirect is not a transaction: when adding the members fails, the
    chat stays without members, and both users are refused from then on. *)
Definition orphaned : World :=
  set_sched [] (CreateDirect alice carol (demo_world demo_db
    (faults [NoFault; NoFault; NoFault; FailBefore "connection reset"]))).2.
Example orphan_locks_pair :
  is_ok (CreateDirect alice carol (demo_world demo_db
    (faults [NoFault; NoFault; NoFault; FailBefore "connection reset"]))).1 = false
  ∧ (CreateDirect alice carol orphaned).1 = Err (Forbidden "not a chat member")
  ∧ (CreateDirect carol alice orphaned).1 = Err (Forbidden "not a chat member").
Proof. vm_compute. split_and!; reflexivity. Qed.
