(* ===== verification/Credentials.v ===== *)
(** * Passwords and access tokens

    internal/pkg/auth.  The packages it calls (golang.org/x/crypto/bcrypt
    and github.com/golang-jwt/jwt) and crypto/rand's generator are
    parameters: type classes of their operations, with the documented
    behaviour the program relies on as classes of laws. *)

From stdpp Require Import base strings list.
From S2P Require Import Prelude GoStrings Utf8 Json Errors GoTime Domain Hub World.

(** [time.Duration(n) * time.Second], an int64 product. *)
Definition wrap64 (z : Z) : Z := ((z + 2 ^ 63) mod 2 ^ 64 - 2 ^ 63)%Z.
Definition duration_seconds (n : Z) : Z := wrap64 (n * second).

(** ** bcrypt *)
Class Bcrypt := {
  bcrypt_generate : nat → string → result error string;  (* the salt, the password *)
  bcrypt_compare : string → string → result error ()     (* the hash, the password *)
}.

Class BcryptLaws (B : Bcrypt) := {
  (** GenerateFromPassword fails on passwords longer than 72 bytes and on
      no other. *)
  bcrypt_generate_ok n p : (String.length p ≤ 72)%nat → is_ok (bcrypt_generate n p) = true;
  bcrypt_generate_long n p : (72 < String.length p)%nat → is_ok (bcrypt_generate n p) = false;
  (** The hash is 60 characters of ASCII and matches its password. *)
  bcrypt_hash_text n p h : bcrypt_generate n p = Ok h → is_ascii h = true ∧ String.length h = 60%nat ∧ no_nul h = true;
  bcrypt_compare_ok n p h : bcrypt_generate n p = Ok h → bcrypt_compare h p = Ok ()
}.

Definition HashPassword {B : Bcrypt} (salt : nat) (password : string) : result error string :=
  if str_empty password then Err (ErrPlain "auth: empty password")
  else match bcrypt_generate salt password with
       | Ok h => Ok h
       | Err e => Err (ErrWrapf "auth: hash password" e)
       end.

Definition ComparePassword {B : Bcrypt} (hash password : string) : result error () :=
  if str_empty hash then Err (ErrPlain "auth: empty hash")
  else match bcrypt_compare hash password with
       | Ok _ => Ok ()
       | Err e => Err (ErrWrapf "auth: compare password" e)
       end.

(** ** Access tokens *)

(** AccessClaims: the times are NumericDates, in seconds, and pointers: a
    token may lack any of them. *)
Record AccessClaims := mkClaims {
  cl_UserID : string;
  cl_Subject : string;
  cl_IssuedAt : option Z;
  cl_NotBefore : option Z;
  cl_ExpiresAt : option Z
}.

(** jwt.NewNumericDate truncates to seconds. *)
Definition numeric_date (t : Time) : Z := (t / second)%Z.

(** The operations of the package: [jwt_sign alg claims key] is SignedString;
    [jwt_decode token] is ParseUnverified, the algorithm the header names
    and the claims decoded into AccessClaims, other claims being dropped;
    [jwt_verify alg key token] is the Verify of the signing method, on the
    signature of the token; [jwt_parse keyfunc token now] is
    ParseWithClaims, whose key function sees the algorithm. *)
Class Jwt := {
  jwt_sign : string → AccessClaims → string → result error string;
  jwt_decode : string → option (string * AccessClaims);
  jwt_verify : string → string → string → bool;
  jwt_parse : (string → result error string) → string → Time → result error AccessClaims
}.

Definition SigningMethodHS256 : string := "HS256".

(** The validator of the package with no options: a time that is absent
    is not checked, and iat never is. *)
Definition claims_valid (c : AccessClaims) (now : Time) : bool :=
  match cl_ExpiresAt c with Some e => (now <? e * second)%Z | None => true end
  && match cl_NotBefore c with Some n => (n * second <=? now)%Z | None => true end.

(** What JSON keeps of the claims as they are: texts that are UTF-8, and
    dates that a float64 holds exactly. *)
Definition date_exact (d : option Z) : bool := match d with Some d => (Z.abs d <=? 2 ^ 53)%Z | None => true end.
Definition claims_exact (c : AccessClaims) : bool :=
  ValidString (cl_UserID c) && ValidString (cl_Subject c)
  && date_exact (cl_IssuedAt c) && date_exact (cl_NotBefore c) && date_exact (cl_ExpiresAt c).

Class JwtLaws (J : Jwt) := {
  (** A token signed with HS256 names it in its header and verifies under
      its key; its claims are read back. *)
  jwt_sign_ok c key : is_ok (jwt_sign SigningMethodHS256 c key) = true;
  jwt_token_nonempty c key tok : jwt_sign SigningMethodHS256 c key = Ok tok → tok ≠ "";
  jwt_sign_decode c key tok :
    jwt_sign SigningMethodHS256 c key = Ok tok → claims_exact c = true →
    jwt_decode tok = Some (SigningMethodHS256, c);
  jwt_sign_verify c key tok :
    jwt_sign SigningMethodHS256 c key = Ok tok → jwt_verify SigningMethodHS256 key tok = true;
  (** ParseWithClaims decodes the token, asks for the key, verifies the
      signature under it and validates the times. *)
  jwt_parse_Ok kf tok now c :
    jwt_parse kf tok now = Ok c ↔
    ∃ alg key, jwt_decode tok = Some (alg, c) ∧ kf alg = Ok key ∧ jwt_verify alg key tok = true
               ∧ claims_valid c now = true
}.

Definition GenerateAccessToken {J : Jwt} (secret userID : string) (ttl : Z) (now : Time) : result error string :=
  if str_empty secret then Err (ErrPlain "auth: empty jwt secret")
  else if str_empty userID then Err (ErrPlain "auth: empty user id")
  else if (ttl <=? 0)%Z then Err (ErrPlain "auth: non-positive ttl")
  else jwt_sign SigningMethodHS256
         (mkClaims userID userID (Some (numeric_date now)) (Some (numeric_date now)) (Some (numeric_date (now + ttl))))
         secret.

Definition access_keyfunc (secret : string) (alg : string) : result error string :=
  if String.eqb alg SigningMethodHS256 then Ok secret
  else Err (ErrPlain ("auth: unexpected signing method " +:+ alg)).

Definition ParseAccessToken {J : Jwt} (secret tokenString : string) (now : Time) : result error AccessClaims :=
  if str_empty secret then Err (ErrPlain "auth: empty jwt secret")
  else if str_empty tokenString then Err (ErrPlain "auth: empty token")
  else match jwt_parse (access_keyfunc secret) tokenString now with
       | Err e => Err (ErrWrapf "auth: parse access token" e)
       | Ok c =>
           let c := if str_empty (cl_UserID c) && negb (str_empty (cl_Subject c))
                    then mkClaims (cl_Subject c) (cl_Subject c) (cl_IssuedAt c) (cl_NotBefore c) (cl_ExpiresAt c)
                    else c in
           if str_empty (cl_UserID c) then Err (ErrPlain "auth: missing user_id claim") else Ok c
       end.

(** ** Random blocks: [rand.Read] of 32 bytes *)
Class Rand := rand_block : nat → list nat.
Class RandLaws (R : Rand) := {
  rand_length n : length (rand_block n) = 32%nat;
  rand_bytes n : Forall (λ b, b < 256)%nat (rand_block n)
}.

Definition rand_read {R : Rand} : M (list nat) := λ w, (Ok (rand_block (w_rand w)), bump_rand w).
