(* ===== verification/AuthService.v ===== *)
(** * Authentication service

    internal/service/auth_service.go: registration, login, refresh token
    rotation and logout, against the repository interfaces and the
    password and token interfaces of Credentials. *)

From Stdlib Require Import Ascii.
From stdpp Require Import base strings gmap list pretty.
From S2P Require Import Prelude GoStrings Utf8 Regex Uuid Json Errors GoTime Sha256 Domain Hub World Repository Credentials.

(** ** Expressions *)
Definition nick_byte (c : ascii) : bool := is_alpha c || is_digit c || Ascii.eqb c "_"%char.
Definition nicknameRe : regexp := rep_between 3 32 (Cls nick_byte).

Definition one_of (s : string) (c : ascii) : bool := has_byte c s.
Definition local_byte (c : ascii) : bool := is_alpha c || is_digit c || one_of "._%+-" c.
Definition domain_byte (c : ascii) : bool := is_alpha c || is_digit c || one_of ".-" c.
Definition emailRe : regexp :=
  Cat (plus (Cls local_byte))
    (Cat (lit "@") (Cat (plus (Cls domain_byte)) (Cat (lit ".") (rep_at_least 2 (Cls is_alpha))))).

(** ** dto/auth.go *)
Record RegisterRequest := mkRegister { rr_Email : string; rr_Nickname : string; rr_Password : string }.
Record LoginRequest := mkLogin { lr_Email : string; lr_Password : string }.
Record UserPublic := mkUserPublic { pub_ID : string; pub_Email : string; pub_Nickname : string }.
Record TokenPair := mkTokens {
  tp_AccessToken : string;
  tp_RefreshToken : string;
  tp_ExpiresIn : Z;
  tp_TokenType : string
}.
Record AuthResponse := mkAuthResponse { ar_User : UserPublic; ar_Tokens : TokenPair }.
Record ClientMeta := mkMeta { meta_UserAgent : string; meta_IP : string }.

(** config.JWTConfig *)
Record JWTConfig := mkJWT { jwt_Secret : string; jwt_AccessTTLSeconds : Z; jwt_RefreshTTLSeconds : Z }.

(** ** Pure parts *)
Definition validateCredentials (email nickname password : string) : result error () :=
  if str_empty email || str_empty nickname || str_empty password then
    Err (Validation "email, nickname and password are required" None)
  else if (320 <? String.length email)%nat then Err (Validation "email too long" None)
  else if negb (MatchString emailRe email) then Err (Validation "invalid email format" None)
  else if negb (MatchString nicknameRe nickname) then
    Err (Validation "nickname must be 3-32 chars: letters, digits, underscore" None)
  else if (String.length password <? 8)%nat || (128 <? String.length password)%nat then
    Err (Validation "password length must be 8-128" None)
  else Ok ().

Definition hashRefreshToken (plain : string) : string := sha256_hex plain.

Definition strOrNil (s : string) : option string :=
  let s := TrimSpace s in if str_empty s then None else Some s.

Definition trimIP (ip : string) : string :=
  let ip := TrimSpace ip in
  let ip := match SplitHostPort ip with Some (host, _) => host | None => ip end in
  if (45 <? String.length ip)%nat then str_take 45 ip else ip.

(** [strings.TrimSpace(strings.ToLower(in.Email))] *)
Definition normalize_email (email : string) : string := TrimSpace (ToLower email).

Definition user_public (u : User) : UserPublic := mkUserPublic (user_ID u) (user_Email u) (user_Nickname u).

Section service.
Context {G : UuidGen} {B : Bcrypt} {J : Jwt} {RD : Rand} {UR : UserRepository} {SR : SessionRepository}.
Variable cfg : JWTConfig.

(** [auth.HashPassword], its salt drawn from the random source. *)
Definition hash_password (password : string) : M string := λ w,
  (HashPassword (w_rand w) password, bump_rand w).

Definition newRefreshPlain : M string :=
  b ← rand_read;
  mret (hex_encode b).

Definition newAccessToken (userID : string) : M string :=
  now ← time_now;
  of_result (GenerateAccessToken (TrimSpace (jwt_Secret cfg)) userID
               (duration_seconds (jwt_AccessTTLSeconds cfg)) now)
    ?! internal_err "sign access token".

(** The refresh time-to-live, checked. *)
Definition refresh_ttl : M Z :=
  let ttl := duration_seconds (jwt_RefreshTTLSeconds cfg) in
  fail_when (ttl <=? 0)%Z (Internal "invalid refresh ttl" (Some (ErrPlain ("refresh_ttl_seconds=" +:+ pretty (jwt_RefreshTTLSeconds cfg)))));;
  mret ttl.

Definition new_session (userID hash : string) (meta : ClientMeta) (expires : Time) : RefreshSession :=
  mkSession "" userID hash (strOrNil (meta_UserAgent meta)) (strOrNil (trimIP (meta_IP meta)))
            expires 0 None.

Definition token_pair (access refresh : string) : TokenPair :=
  mkTokens access refresh (jwt_AccessTTLSeconds cfg) "Bearer".

Definition issueTokens (userID : ID) (meta : ClientMeta) : M TokenPair :=
  access ← newAccessToken userID;
  plain ← newRefreshPlain;
  let hash := hashRefreshToken plain in
  ttl ← refresh_ttl;
  now ← time_now;
  _ ← sessions_Create (new_session userID hash meta (now + ttl)) ?! internal_err "create refresh session";
  mret (token_pair access plain).

(** [if _, err := lookup; err == nil { Conflict } else if !Is(err, NotFound) { Internal }] *)
Definition require_absent {A} (lookup : M A) (conflict what : string) : M () :=
  r ← attempt lookup;
  match r with
  | Ok _ => throw (Conflict conflict)
  | Err e => fail_when (negb (is_not_found e)) (Internal what (Some e))
  end.

Definition Register (req : RegisterRequest) (meta : ClientMeta) : M AuthResponse :=
  let email := normalize_email (rr_Email req) in
  let nick := TrimSpace (rr_Nickname req) in
  of_result (validateCredentials email nick (rr_Password req));;
  require_absent (users_GetByEmail email) "email already registered" "lookup user by email";;
  require_absent (users_GetByNickname nick) "nickname already taken" "lookup user by nickname";;
  hash ← hash_password (rr_Password req) ?! (λ e, Validation "password" (Some e));
  u ← users_Create (mkUser "" email hash nick None None None 0 0 None false) ?! internal_err "create user";
  tokens ← issueTokens (user_ID u) meta;
  mret (mkAuthResponse (user_public u) tokens).

Definition Login (req : LoginRequest) (meta : ClientMeta) : M AuthResponse :=
  let email := normalize_email (lr_Email req) in
  fail_when (str_empty email || str_empty (lr_Password req))
            (Validation "email and password are required" None);;
  u ← users_GetByEmail email ?! not_found_or (Unauthorized "invalid credentials") "lookup user";
  fail_when (negb (user_IsActive u)) (Forbidden "account disabled");;
  of_result (ComparePassword (user_PasswordHash u) (lr_Password req))
    ?! (λ _, Unauthorized "invalid credentials");;
  tokens ← issueTokens (user_ID u) meta;
  mret (mkAuthResponse (user_public u) tokens).

Definition invalid_refresh : error := Unauthorized "invalid refresh token".

Definition Refresh (refreshPlain : string) (meta : ClientMeta) : M TokenPair :=
  let plain := TrimSpace refreshPlain in
  fail_when (str_empty plain) (Validation "refresh_token is required" None);;
  let oldHash := hashRefreshToken plain in
  sess ← sessions_GetByTokenHash oldHash ?! not_found_or invalid_refresh "lookup session";
  access ← newAccessToken (sess_UserID sess);
  newPlain ← newRefreshPlain;
  let newHash := hashRefreshToken newPlain in
  ttl ← refresh_ttl;
  now ← time_now;
  _ ← sessions_RotateRefresh oldHash (new_session (sess_UserID sess) newHash meta (now + ttl))
        ?! not_found_or invalid_refresh "rotate refresh session";
  mret (token_pair access newPlain).

Definition Logout (refreshPlain : string) : M () :=
  let plain := TrimSpace refreshPlain in
  fail_when (str_empty plain) (Validation "refresh_token is required" None);;
  let h := hashRefreshToken plain in
  sess ← sessions_GetByTokenHash h ?! not_found_or invalid_refresh "lookup session";
  sessions_Revoke (sess_ID sess) ?! not_found_or invalid_refresh "revoke session".

Definition LogoutAll (userID : ID) : M () :=
  fail_when (str_empty userID) (Unauthorized "missing user");;
  sessions_RevokeAllByUser userID ?! internal_err "revoke sessions".
End service.
