(* ===== verification/Redis.v ===== *)
(** * Redis: tickets, presence, typing and Pub/Sub

    internal/repository/redis, service/presence_service.go and
    service/ws_ticket_service.go.  The server is third-party code: a class
    of the commands the program issues, on a keyspace observed through
    [redis_get], with their documented behaviour as a class of laws.  Commands
    are atomic; a command can fail without effect or after it, as the
    schedule says. *)

From Stdlib Require Import Ascii.
From stdpp Require Import base strings gmap list.
From S2P Require Import Prelude GoStrings Json Errors GoTime Domain Hub World Credentials.

Local Open Scope Z_scope.

(** ** The server *)
Abbreviation Keyspace := (gmap string (string * Time)).

Class RedisServer := {
  redis_get : Time → string → Keyspace → option string;                 (* what a reader sees *)
  redis_set : Time → string → string → Z → Keyspace → Keyspace;          (* SET key value PX ttl *)
  redis_setnx : Time → string → string → Z → Keyspace → bool * Keyspace; (* SET key value PX ttl NX *)
  redis_del : Time → string → Keyspace → Keyspace;
  redis_exists : Time → string → Keyspace → Z;
  redis_getdel : Time → string → Keyspace → option string * Keyspace;
  redis_publish : string → string → list (string * string) → list (string * string)
}.

(** Expiry has the resolution of the server's clock, a millisecond. *)
Definition expires (now ttl now' : Time) : Prop := now + ttl + 2 * millisecond ≤ now'.
Definition lasts (now ttl now' : Time) : Prop := now ≤ now' ∧ now' < now + ttl - 2 * millisecond.

Class RedisLaws (R : RedisServer) := {
  redis_get_same ks now now' key v :
    redis_get now' key ks = Some v → now ≤ now' → redis_get now key ks = Some v;
  redis_set_other now now' key v ttl key' ks :
    key' ≠ key → redis_get now' key' (redis_set now key v ttl ks) = redis_get now' key' ks;
  redis_set_lasts now now' key v ttl ks :
    lasts now ttl now' → redis_get now' key (redis_set now key v ttl ks) = Some v;
  redis_set_get now now' key v ttl ks v' :
    redis_get now' key (redis_set now key v ttl ks) = Some v' → v' = v ∧ ¬ expires now ttl now';
  redis_setnx_taken now key v ttl ks v' :
    redis_get now key ks = Some v' → redis_setnx now key v ttl ks = (false, ks);
  redis_setnx_free now key v ttl ks :
    redis_get now key ks = None → redis_setnx now key v ttl ks = (true, redis_set now key v ttl ks);
  redis_del_same now now' key ks : redis_get now' key (redis_del now key ks) = None;
  redis_del_other now now' key key' ks :
    key' ≠ key → redis_get now' key' (redis_del now key ks) = redis_get now' key' ks;
  redis_exists_get now key ks :
    redis_exists now key ks = match redis_get now key ks with Some _ => 1 | None => 0 end;
  redis_getdel_is now key ks :
    redis_getdel now key ks = (redis_get now key ks, redis_del now key ks);
  (** A message reaches a subscriber at most once. *)
  redis_publish_at_most channel payload st :
    redis_publish channel payload st = st ∨ redis_publish channel payload st = st ++ [(channel, payload)]
}.

Section commands.
Context {R : RedisServer}.
Definition cmd_set (key v : string) (ttl : Z) : M () :=
  remote_call (λ now w, ((), set_redis (redis_set now key v ttl (w_redis w)) w)).
Definition cmd_setnx (key v : string) (ttl : Z) : M bool :=
  remote_call (λ now w, let '(b, ks) := redis_setnx now key v ttl (w_redis w) in (b, set_redis ks w)).
Definition cmd_del (key : string) : M () :=
  remote_call (λ now w, ((), set_redis (redis_del now key (w_redis w)) w)).
Definition cmd_exists (key : string) : M Z :=
  remote_call (λ now w, (redis_exists now key (w_redis w), w)).
Definition cmd_getdel (key : string) : M (option string) :=
  remote_call (λ now w, let '(v, ks) := redis_getdel now key (w_redis w) in (v, set_redis ks w)).
Definition cmd_publish (channel payload : string) : M () :=
  remote_call (λ _ w, ((), set_pubsub (redis_publish channel payload (w_pubsub w)) w)).
End commands.

(** ** Repositories *)
Definition presenceKeyPrefix : string := "goflow:presence:user:".
Definition DefaultPresenceTTL : Z := 45 * second.
Definition presenceKey (userID : ID) : string := presenceKeyPrefix +:+ userID.

Definition typingKeyPrefix : string := "goflow:typing:".
Definition DefaultTypingTTL : Z := 8 * second.
Definition typingKey (chatID userID : ID) : string := typingKeyPrefix +:+ chatID +:+ ":" +:+ userID.

Definition chatChannelPrefix : string := "goflow:chat:".
Definition chatChannel (chatID : string) : string := chatChannelPrefix +:+ chatID.

Definition wsTicketKeyPrefix : string := "goflow:ws:ticket:".

Section repositories.
Context {R : RedisServer} {RN : Rand}.
(** [r != nil && r.rdb != nil] *)
Variable rdb : bool.

(** PresenceRepository *)
Definition SetOnline (userID : ID) : M () :=
  if negb rdb then mret () else
  fail_when (str_empty userID) (ErrPlain "presence: empty user id");;
  cmd_set (presenceKey userID) "1" DefaultPresenceTTL.
Definition SetOffline (userID : ID) : M () :=
  if negb rdb || str_empty userID then mret () else cmd_del (presenceKey userID).
Definition IsOnline (userID : ID) : M bool :=
  if negb rdb || str_empty userID then mret false
  else n ← cmd_exists (presenceKey userID); mret (n >? 0).

(** TypingRepository *)
Definition StartTyping (chatID userID : ID) : M () :=
  if negb rdb then mret () else
  fail_when (str_empty chatID || str_empty userID) (ErrPlain "typing: empty chat or user id");;
  cmd_set (typingKey chatID userID) "1" DefaultTypingTTL.
Definition StopTyping (chatID userID : ID) : M () :=
  if negb rdb || str_empty chatID || str_empty userID then mret () else cmd_del (typingKey chatID userID).

(** WSTicketStore *)
Definition ticket_default_ttl : Z := 2 * minute.
Definition ticket_ttl (ttl : Z) : Z := if ttl <=? 0 then ticket_default_ttl else ttl.

Definition Issue (userID : ID) (ttl : Z) : M string :=
  fail_when (negb rdb) (ErrPlain "ws ticket: nil client");;
  raw ← rand_read;
  let ticket := hex_encode (take 16 raw) in
  ok ← cmd_setnx (wsTicketKeyPrefix +:+ ticket) userID (ticket_ttl ttl);
  fail_when (negb ok) (ErrPlain "ws ticket: collision");;
  mret ticket.

Definition Consume (ticket : string) : M ID :=
  fail_when (negb rdb) (ErrPlain "ws ticket: nil client");;
  let ticket := TrimSpace ticket in
  fail_when (str_empty ticket) (ErrPlain "ws ticket: empty");;
  val ← cmd_getdel (wsTicketKeyPrefix +:+ ticket);
  match val with
  | None => throw (ErrPlain "invalid or expired ticket")
  | Some val =>
      let uid := TrimSpace val in
      fail_when (str_empty uid) (ErrPlain "ws ticket: invalid payload");;
      mret uid
  end.

(** PubSubRepository *)
Definition PublishChatEvent (chatID payload : string) : M () :=
  fail_when (negb rdb) (ErrPlain "pubsub: nil client");;
  fail_when (str_empty (TrimSpace chatID)) (ErrPlain "pubsub: empty chat id");;
  cmd_publish (chatChannel chatID) payload.

(** The loop over the messages the subscription receives until it is
    closed; an error of the handler ends it. *)
Fixpoint subscribe_loop (handler : string → string → M ()) (msgs : list (string * string)) : M () :=
  match msgs with
  | [] => mret ()
  | (channel, payload) :: msgs =>
      let chatID := TrimPrefix channel chatChannelPrefix in
      (if str_empty chatID then mret () else handler chatID payload);;
      subscribe_loop handler msgs
  end.

(** The messages received so far are taken from the stream. *)
Definition receive_all : M (list (string * string)) := λ w, (Ok (w_pubsub w), set_pubsub [] w).
Definition SubscribeChatEvents (handler : string → string → M ()) : M () :=
  fail_when (negb rdb) (ErrPlain "pubsub: nil client");;
  msgs ← receive_all;
  subscribe_loop handler msgs.
End repositories.

(** ** Services *)
Section services.
Context {R : RedisServer} {RN : Rand}.
(** The repository of the service, if it has one, and whether that has a
    client. *)
Variable repo : option bool.

(** PresenceService *)
Definition svc_SetOnline (userID : ID) : M () :=
  match repo with Some rdb => SetOnline rdb userID | None => mret () end.
Definition svc_SetOffline (userID : ID) : M () :=
  match repo with Some rdb => SetOffline rdb userID | None => mret () end.
Definition svc_IsOnline (userID : ID) : M bool :=
  match repo with Some rdb => IsOnline rdb userID | None => mret false end.
Definition Touch (userID : ID) : M () := svc_SetOnline userID.

(** The notifier drops errors. *)
Definition Connected (userID : ID) : M () := _ ← attempt (svc_SetOnline userID); mret ().
Definition Disconnected (userID : ID) : M () := _ ← attempt (svc_SetOffline userID); mret ().
Definition Activity (userID : ID) : M () := _ ← attempt (Touch userID); mret ().

(** WSTicketService: [ttl] is the one the constructor keeps. *)
Definition NewWSTicketService (ttl : Z) : Z := ticket_ttl ttl.
Definition IssueTicket (ttl : Z) (userID : ID) : M (string * Z) :=
  match repo with
  | None => throw (Internal "ws ticket store not configured" None)
  | Some rdb =>
      fail_when (str_empty userID) (Unauthorized "missing user");;
      tok ← Issue rdb userID ttl ?! internal_err "issue ws ticket";
      mret (tok, ttl / second)
  end.
End services.
