(* ===== verification/Toys.v ===== *)
(** * Concrete third-party code

    A password hash, a token format, a random source and a Redis server
    that satisfy the laws of Credentials and Redis: what the witnesses
    evaluate.  They stand for bcrypt, golang-jwt, crypto/rand and Redis,
    and are not part of the model of the program. *)

From Stdlib Require Import Ascii.
From stdpp Require Import base strings gmap list pretty countable.
From S2P Require Import Prelude GoStrings Utf8 Json JsonCodec JsonRoundtrip Errors GoTime Sha256 Domain Hub Metrics World Credentials Redis.

(** ** A hash of 60 characters *)
Definition toy_hash (p : string) : string := str_take 60 (sha256_hex p).
#[export] Instance toy_bcrypt : Bcrypt := {|
  bcrypt_generate n p := if (72 <? String.length p)%nat then Err (ErrPlain "too long") else Ok (toy_hash p);
  bcrypt_compare h p := if String.eqb h (toy_hash p) then Ok () else Err (ErrPlain "mismatch")
|}.

Lemma str_take_forall p n s : str_forall p s = true → str_forall p (str_take n s) = true.
Proof.
  revert n. induction s as [|c s IH]; intros [|n]; try done. simpl.
  intros [-> ?]%andb_true_iff. by apply IH.
Qed.
Lemma str_take_length_eq n s : (n ≤ String.length s)%nat → String.length (str_take n s) = n.
Proof. revert s. induction n as [|n IH]; intros [|c s] H; simpl in *; try lia. rewrite IH; lia. Qed.
Lemma hex_plain c : is_hex c = true → byte_in 0 127 c = true ∧ Ascii.eqb c zero = false.
Proof. by destruct c as [[] [] [] [] [] [] [] []]. Qed.
Lemma hex_text s : str_forall is_hex s = true → is_ascii s = true ∧ no_nul s = true.
Proof.
  unfold is_ascii, no_nul. induction s as [|c s IH]; [done|]. simpl.
  intros [[H1 H2]%hex_plain [H3 H4]%IH]%andb_true_iff. by rewrite H1, H2, H3, H4.
Qed.

#[export] Instance toy_bcrypt_laws : BcryptLaws toy_bcrypt.
Proof.
  split; simpl.
  - intros n p H. by rewrite (proj2 (Nat.ltb_ge _ _)).
  - intros n p H. by rewrite (proj2 (Nat.ltb_lt _ _)).
  - intros n p h. destruct (_ <? _)%nat; [done|]. intros [= <-]. unfold toy_hash.
    destruct (hex_text (str_take 60 (sha256_hex p))) as [? ?]; [by apply str_take_forall, hex_encode_hex|].
    split_and!; [done| |done]. apply str_take_length_eq. rewrite length_sha256_hex. lia.
  - intros n p h. destruct (_ <? _)%nat; [done|]. intros [= <-]. by rewrite String.eqb_refl.
Qed.

(** ** Tokens: the algorithm, the key and the claims as a JSON array, its
    texts in hexadecimal *)
Fixpoint to_hex (s : string) : string :=
  match s with
  | EmptyString => EmptyString
  | String c r => String (hex_digit (byte_of c / 16)) (String (hex_digit (byte_of c mod 16)) (to_hex r))
  end.
Fixpoint of_hex (s : string) : option string :=
  match s with
  | EmptyString => Some EmptyString
  | String a (String b r) =>
      x ← hex_val a; y ← hex_val b; r ← of_hex r; Some (String (z_byte (x * 16 + y)) r)
  | _ => None
  end.

Lemma of_to_hex s : of_hex (to_hex s) = Some s.
Proof.
  induction s as [|c s IH]; [done|]. cbn [to_hex of_hex]. pose proof (byte_z_range c) as Hc.
  assert (byte_of c = Z.to_nat (byte_z c)) as -> by (unfold byte_z; lia).
  assert (∀ n, (0 <= n < 256)%Z → (Z.to_nat n / 16 = Z.to_nat (n / 16) ∧ Z.to_nat n mod 16 = Z.to_nat (n mod 16))%nat) as Hdiv.
  { intros n Hn. split; apply Nat2Z.inj; rewrite ?Nat2Z.inj_div, ?Nat2Z.inj_mod, !Z2Nat.id;
      try apply Z.div_pos; try apply Z.mod_pos_bound; lia. }
  destruct (Hdiv _ Hc) as [-> ->].
  rewrite !hex_val_digit by (Z.div_mod_to_equations; lia). cbn [mbind option_bind]. rewrite IH.
  cbn [mbind option_bind]. do 2 f_equal. apply z_byte_eq. Z.div_mod_to_equations. lia.
Qed.
Lemma to_hex_valid s : ValidString (to_hex s) = true.
Proof.
  apply ascii_ValidString, hex_text. induction s as [|c s IH]; [done|]. cbn [to_hex str_forall].
  unfold byte_of. pose proof (nat_ascii_bounded c) as Hc. rewrite !hex_digit_hex, IH; [done| |].
  - apply Nat.mod_upper_bound. lia.
  - apply Nat.Div0.div_lt_upper_bound. exact Hc.
Qed.

Definition date_tree (d : option Z) : json := match d with Some d => JNum d | None => JNull end.
Definition tree_date (j : json) : option (option Z) :=
  match j with JNum d => Some (Some d) | JNull => Some None | _ => None end.
Lemma tree_date_tree d : tree_date (date_tree d) = Some d.
Proof. by destruct d. Qed.

Definition toy_tree (alg : string) (c : AccessClaims) (key : string) : json :=
  JArr [JStr (to_hex alg); JStr (to_hex key); JStr (to_hex (cl_UserID c)); JStr (to_hex (cl_Subject c));
        date_tree (cl_IssuedAt c); date_tree (cl_NotBefore c); date_tree (cl_ExpiresAt c)].
(** The algorithm and the claims, and the key. *)
Definition toy_read (tok : string) : option (string * AccessClaims * string) :=
  match json_read tok with
  | Some (JArr [JStr a; JStr k; JStr u; JStr s; i; n; e]) =>
      a ← of_hex a; k ← of_hex k; u ← of_hex u; s ← of_hex s;
      i ← tree_date i; n ← tree_date n; e ← tree_date e; Some (a, mkClaims u s i n e, k)
  | _ => None
  end.
Definition toy_sign (alg : string) (c : AccessClaims) (key : string) : string := json_write (toy_tree alg c key).
Definition toy_decode (tok : string) : option (string * AccessClaims) := fst <$> toy_read tok.
Definition toy_verify (alg key tok : string) : bool :=
  match toy_read tok with Some (alg', _, key') => String.eqb alg alg' && String.eqb key key' | None => false end.
Definition toy_parse (kf : string → result error string) (tok : string) (now : Time) : result error AccessClaims :=
  match toy_decode tok with
  | Some (alg, c) =>
      match kf alg with
      | Ok key => if toy_verify alg key tok && claims_valid c now then Ok c else Err (ErrPlain "token is invalid")
      | Err e => Err e
      end
  | None => Err (ErrPlain "token is malformed")
  end.
#[export] Instance toy_jwt : Jwt := {|
  jwt_sign alg c key := Ok (toy_sign alg c key);
  jwt_decode := toy_decode;
  jwt_verify := toy_verify;
  jwt_parse := toy_parse
|}.

Lemma toy_read_sign alg c key : toy_read (toy_sign alg c key) = Some (alg, c, key).
Proof.
  unfold toy_read, toy_sign. rewrite json_value_read.
  - unfold toy_tree. rewrite !of_to_hex. cbn [mbind option_bind]. rewrite !tree_date_tree. by destruct c.
  - unfold toy_tree. cbn [json_valid forallb]. rewrite !to_hex_valid.
    by destruct (cl_IssuedAt c), (cl_NotBefore c), (cl_ExpiresAt c).
Qed.

#[export] Instance toy_jwt_laws : JwtLaws toy_jwt.
Proof.
  split; simpl.
  - done.
  - by intros c key tok [= <-].
  - intros c key tok [= <-] _. unfold toy_decode. by rewrite toy_read_sign.
  - intros c key tok [= <-]. unfold toy_verify. by rewrite toy_read_sign, !String.eqb_refl.
  - intros kf tok now c. unfold toy_parse. destruct (toy_decode tok) as [[alg c']|]; [|by split; [|intros (? & ? & ? & _)]].
    destruct (kf alg) as [key|] eqn:Ek; [|split; [done|]; intros (a & k & [= -> ->] & Hk & _); congruence].
    split.
    + destruct (_ && _) eqn:E; [|done]. intros [= ->]. apply andb_true_iff in E as [? ?]. eauto 10.
    + intros (a & k & [= -> ->] & Hk & Hv & Hc). assert (k = key) as -> by congruence. by rewrite Hv, Hc.
Qed.

(** ** Random blocks: the counter *)
#[export] Instance toy_rand : Rand := λ n, (n mod 256) :: repeat 0%nat 31.
#[export] Instance toy_rand_laws : RandLaws toy_rand.
Proof.
  split; intros n; unfold rand_block, toy_rand; [done|].
  constructor; [apply Nat.mod_upper_bound; lia|]. repeat (constructor; [lia|]). constructor.
Qed.

(** ** Redis: expiry to the nanosecond, every message delivered *)
Definition toy_get (now : Time) (key : string) (ks : Keyspace) : option string :=
  '(v, e) ← ks !! key; if (now <? e)%Z then Some v else None.
#[export] Instance toy_redis : RedisServer := {|
  redis_get := toy_get;
  redis_set now key v ttl ks := <[key := (v, (now + ttl)%Z)]> ks;
  redis_setnx now key v ttl ks :=
    match toy_get now key ks with
    | Some _ => (false, ks)
    | None => (true, <[key := (v, (now + ttl)%Z)]> ks)
    end;
  redis_del now key ks := delete key ks;
  redis_exists now key ks := match toy_get now key ks with Some _ => 1%Z | None => 0%Z end;
  redis_getdel now key ks := (toy_get now key ks, delete key ks);
  redis_publish channel payload st := st ++ [(channel, payload)]
|}.

#[export] Instance toy_redis_laws : RedisLaws toy_redis.
Proof.
  split; simpl; unfold toy_get.
  - intros ks now now' key v. destruct (ks !! key) as [[v' e]|]; simpl; [|done].
    destruct (now' <? e)%Z eqn:E; [|done]. intros [= ->] ?. apply Z.ltb_lt in E.
    by rewrite (proj2 (Z.ltb_lt _ _)) by lia.
  - intros. by rewrite lookup_insert_ne.
  - intros now now' key v ttl ks [? ?]. rewrite lookup_insert_eq. simpl.
    rewrite (proj2 (Z.ltb_lt _ _)); [done|]. unfold millisecond, microsecond in *. lia.
  - intros now now' key v ttl ks v'. rewrite lookup_insert_eq. simpl.
    destruct (now' <? _)%Z eqn:E; [|done]. intros [= ->]. split; [done|]. apply Z.ltb_lt in E.
    unfold expires, millisecond, microsecond. lia.
  - intros now key v ttl ks v' ->. done.
  - intros now key v ttl ks ->. done.
  - intros. by rewrite lookup_delete_eq.
  - intros. by rewrite lookup_delete_ne.
  - done.
  - done.
  - by right.
Qed.

(** ** A registry that compares names *)
Definition toy_register (x : registrable) (r : list registrable) : result error (list registrable) :=
  match x with
  | Application c =>
      if existsb (λ y, match y with Application c' => String.eqb (cl_Name c') (cl_Name c) | _ => false end) r
      then Err (ErrPlain "duplicate metrics collector registration attempted") else Ok (x :: r)
  | _ => if bool_decide (x ∈ r) then Err (ErrPlain "duplicate metrics collector registration attempted") else Ok (x :: r)
  end.
#[export] Instance toy_prometheus : Prometheus := {|
  prom_Registry := list registrable;
  prom_NewRegistry := [];
  prom_Register := toy_register;
  WithLabelValues c vs :=
    if bool_decide (length vs = length (cl_Labels c)) && forallb ValidString vs then Ok ()
    else Err (ErrPlain "label values")
|}.

Lemma toy_register_Ok x r r' : toy_register x r = Ok r' → r' = x :: r.
Proof. unfold toy_register. destruct x; repeat case_match; congruence. Qed.

#[export] Instance toy_prometheus_laws : PrometheusLaws toy_prometheus.
Proof.
  refine {| in_registry x (r : prom_Registry toy_prometheus) := x ∈ (r : list registrable) |}; simpl.
  - intros x. apply not_elem_of_nil.
  - intros x r r' ->%toy_register_Ok y. apply elem_of_cons.
  - intros x r Hx _ Hr. unfold toy_register. rewrite bool_decide_eq_false_2 by done. destruct Hx as [-> | ->]; eauto.
  - intros c r _ _ Hr. unfold toy_register. destruct (existsb _ _) eqn:E; [|eauto].
    apply existsb_exists in E as ([| |c'] & Hin%list_elem_of_In & He); [done..|].
    apply String.eqb_eq in He. by destruct (Hr c').
  - intros c vs. by destruct (_ && _).
Qed.
