(* ===== verification/Broadcaster.v ===== *)
(** * Broadcaster

    transport/ws/broadcaster.go: fan-out of an envelope to the members of a
    chat, through Redis Pub/Sub or in this process only. *)

From stdpp Require Import base strings gmap list.
From S2P Require Import Prelude GoStrings Json WsEvents Errors Domain Hub World Repository Credentials Redis.

Section broadcaster.
Context {R : RedisServer} {CR : ChatRepository}.
(** [b], [b.hub] and [b.chats] are not nil; [b.pub], and whether it has a
    client. *)
Variables (wired : bool) (pub : option bool).

Definition hub_SendToUser (payload : string) (uid : ID) : M () := λ w,
  (Ok (), set_hub (SendToUser uid payload (w_hub w)) w).

Fixpoint send_all (payload : string) (members : list ChatMember) : M () :=
  match members with
  | [] => mret ()
  | m :: ms => hub_SendToUser payload (cm_UserID m);; send_all payload ms
  end.

Definition deliverPayload (chatID : ID) (payload : string) : M () :=
  if negb wired then mret ()
  else
    members ← chats_GetChatMembers chatID;
    send_all payload members.

Definition DeliverEnvelopeBytes (chatID : ID) (payload : string) : M () := deliverPayload chatID payload.

Definition PublishToChat (chatID : ID) (event : string) (data meta : any) : M () :=
  if negb wired then mret ()
  else
    let payload := MarshalEnvelope event data meta in
    match pub with
    | Some rdb => PublishChatEvent rdb chatID payload
    | None => deliverPayload chatID payload
    end.

Definition StartRedisRelay : M () :=
  match pub with
  | None => mret ()
  | Some rdb => SubscribeChatEvents rdb deliverPayload
  end.
End broadcaster.
