(* ===== verification/Kafka.v ===== *)
(** * Kafka

    internal/kafka.  The broker is third-party code: a class of its append
    operation on the topic's log, with the order of the messages of one key
    as the law the program relies on (a message may be written more than
    once, by the writer's own retries). *)

From stdpp Require Import base strings gmap list.
From S2P Require Import Prelude GoStrings Json JsonCodec JsonStruct Errors GoTime Domain Hub World.

Local Open Scope Z_scope.

Abbreviation Topic := (list (string * string)).

Class KafkaBroker := kafka_append : string → string → Topic → Topic.
Class KafkaLaws (K : KafkaBroker) :=
  kafka_append_key : ∀ key value t,
    (∃ n, filter (λ m, m.1 = key) (kafka_append key value t)
          = filter (λ m, m.1 = key) t ++ replicate (S n) (key, value))
    ∧ ∀ key', key' ≠ key →
        filter (λ m, m.1 = key') (kafka_append key value t) = filter (λ m, m.1 = key') t.

(** ** DomainEvent *)
Record DomainEvent := mkDomainEvent {
  ev_EventID : string;
  ev_EventType : string;
  ev_AggregateType : string;
  ev_AggregateID : string;
  ev_ChatID : string;
  ev_OccurredAt : Time;
  ev_Version : Z;
  ev_Payload : option json
}.

(** A nil RawMessage is written as null; an empty chat id is left out. *)
Definition event_tree (ev : DomainEvent) (at_ : json) : json :=
  JObj ([("event_id", JStr (ev_EventID ev)); ("event_type", JStr (ev_EventType ev));
         ("aggregate_type", JStr (ev_AggregateType ev)); ("aggregate_id", JStr (ev_AggregateID ev))]
        ++ (if str_empty (ev_ChatID ev) then [] else [("chat_id", JStr (ev_ChatID ev))])
        ++ [("occurred_at", at_); ("version", JNum (ev_Version ev));
            ("payload", default JNull (ev_Payload ev))]).

Definition event_Marshal (ev : DomainEvent) : result error string :=
  match marshal_time (ev_OccurredAt ev) with
  | Some at_ => Ok (json_write (event_tree ev at_))
  | None => Err (ErrPlain "json: error calling MarshalJSON for type time.Time: year outside of range [0,9999]")
  end.

(** [json.Unmarshal(raw, &ev)] *)
Definition event_Unmarshal (raw : string) : option DomainEvent :=
  j ← json_read raw;
  kvs ← struct_members j;
  let '(id, ok1) := string_field "event_id" kvs in
  let '(typ, ok2) := string_field "event_type" kvs in
  let '(atyp, ok3) := string_field "aggregate_type" kvs in
  let '(aid, ok4) := string_field "aggregate_id" kvs in
  let '(chat, ok5) := string_field "chat_id" kvs in
  let '(at_, ok6) := time_field "occurred_at" kvs in
  let '(version, ok7) := int_field "version" kvs in
  if ok1 && ok2 && ok3 && ok4 && ok5 && ok6 && ok7
  then Some (mkDomainEvent id typ atyp aid chat at_ version (raw_field "payload" kvs)) else None.

(** ** Producer *)

(** [*Producer]: nil when there are no brokers or no topic. *)
Definition NewProducer (brokers : list string) (topic : string) : bool :=
  negb ((length brokers =? 0)%nat || str_empty topic).

Section producer.
Context {K : KafkaBroker}.

(** Publishing through a nil producer does nothing and succeeds. *)
Definition Publish (producer : bool) (key value : string) : M () :=
  if negb producer then mret ()
  else remote_call (λ _ w, ((), set_kafka (kafka_append key value (w_kafka w)) w)).
End producer.
