(* ===== verification/Relay.v ===== *)
(** * Outbox relay and Kafka consumer

    internal/worker: the relay polls the outbox and publishes each pending
    event, to Kafka or to the local connections; the consumer fans the
    events of the topic out to the local connections. *)

From stdpp Require Import base strings gmap list.
From S2P Require Import Prelude GoStrings Json JsonCodec WsEvents Errors GoTime Domain Hub Metrics World Repository Credentials Redis Broadcaster Kafka.

Local Open Scope Z_scope.

(** The relay: [r.Kafka] (nil, or a producer, itself possibly nil),
    [r.Fallback != nil], [r.UseKafka], [r.Metrics != nil]. *)
Record OutboxRelay := mkRelay {
  rl_Kafka : option bool;
  rl_Fallback : bool;
  rl_UseKafka : bool;
  rl_Metrics : bool
}.

Section relay.
Context {K : KafkaBroker} {OR : OutboxRepository}.
(** [DeliverEnvelopeBytes] of the deliverer. *)
Variable deliver : ID → string → M ().

Definition row_event (row : OutboxRow) : DomainEvent :=
  mkDomainEvent (row_EventID row) (row_EventType row) (row_AggregateType row) (row_AggregateID row)
    (default "" (row_ChatID row)) (row_OccurredAt row) (row_Version row) (Some (row_Payload row)).

Definition publish_key (ev : DomainEvent) : string :=
  if str_empty (ev_ChatID ev) then ev_AggregateID ev else ev_ChatID ev.

(** The [any] a payload decodes to; [null] decodes to nil. *)
Definition payload_any (payload : json) : any :=
  match payload with JNull => ANil | j => AValue (to_any j) end.

Definition local_envelope (eventType : string) (payload : json) : string :=
  MarshalEnvelope eventType (payload_any payload) (AValue JEmpty).

Definition publishLocal (eventType : string) (payload : json) (chatID : ID) : M () :=
  deliver chatID (local_envelope eventType payload).

Definition publish_row (r : OutboxRelay) (row : OutboxRow) (b : string) : M () :=
  match rl_UseKafka r, rl_Kafka r with
  | true, Some producer => Publish producer (publish_key (row_event row)) b
  | _, _ =>
      match rl_Fallback r, row_ChatID row with
      | true, Some chat => publishLocal (row_EventType row) (row_Payload row) chat
      | _, _ => mret ()
      end
  end.

Definition relay_row (r : OutboxRelay) (row : OutboxRow) : M () :=
  match event_Marshal (row_event row) with
  | Err _ => mret ()
  | Ok b =>
      pub ← attempt (publish_row r row b);
      match pub with
      | Err _ => inc_if (rl_Metrics r) RelayPubFail
      | Ok _ =>
          inc_if (rl_Metrics r) RelayPubOK;;
          _ ← attempt (outbox_MarkPublished (row_ID row));
          mret ()
      end
  end.

Fixpoint relay_rows (r : OutboxRelay) (rows : list OutboxRow) : M () :=
  match rows with
  | [] => mret ()
  | row :: rows => relay_row r row;; relay_rows r rows
  end.

Definition relay_batch : Z := 100.
Definition tick (r : OutboxRelay) : M () :=
  inc_if (rl_Metrics r) RelayIter;;
  rows ← attempt (outbox_FetchPending relay_batch);
  match rows with
  | Err _ => mret ()
  | Ok rows => relay_rows r rows
  end.

(** [Run], for [n] ticks of the timer before it is cancelled. *)
Fixpoint relay_run (r : OutboxRelay) (n : nat) : M () :=
  match n with O => mret () | S n => tick r;; relay_run r n end.
End relay.

(** ** Consumer *)
Section consumer.
Variable deliver : ID → string → M ().

(** A message that does not decode, and a delivery that fails, are
    errors; an event without chat is dropped. *)
Definition FanoutKafkaDomainEvent (bc : bool) (raw : string) : M () :=
  if negb bc then mret () else
  match event_Unmarshal raw with
  | None => throw (ErrPlain "kafka decode")
  | Some ev =>
      if str_empty (ev_ChatID ev) then mret ()
      else
        let data := match ev_Payload ev with Some p => payload_any p | None => AValue JEmpty end in
        deliver (ev_ChatID ev) (MarshalEnvelope (ev_EventType ev) data (AValue JEmpty))
  end.

(** [Run], on what ReadMessage returns until the context ends: a message,
    or an error, after which it is called again. *)
Fixpoint consume (metrics : bool) (reads : list (option (string * string))) : M () :=
  match reads with
  | [] => mret ()
  | None :: reads => consume metrics reads
  | Some (_, value) :: reads =>
      r ← attempt (FanoutKafkaDomainEvent true value);
      inc_if metrics (if is_ok r then KafkaHandled
                      else KafkaFail);;
      consume metrics reads
  end.
End consumer.
