(* ===== verification/EventRoundtrip.v ===== *)
(** * The two publication paths agree

    A domain event decodes to what was encoded, and fanning out an event
    read from Kafka delivers the envelope the relay delivers itself when
    there is no Kafka. *)

From Stdlib Require Import Ascii.
From stdpp Require Import base strings gmap list.
From S2P Require Import Prelude GoStrings Utf8 Json JsonCodec JsonRoundtrip JsonStruct WsEvents Errors GoTime TimeRoundtrip Domain Hub World Repository Credentials Redis Broadcaster Kafka Relay.

Local Open Scope Z_scope.

(** What the columns hold: valid texts, a 64-bit version. *)
Record event_ok (ev : DomainEvent) : Prop := mkEventOk {
  eo_id : ValidString (ev_EventID ev) = true;
  eo_type : ValidString (ev_EventType ev) = true;
  eo_atype : ValidString (ev_AggregateType ev) = true;
  eo_aid : ValidString (ev_AggregateID ev) = true;
  eo_chat : ValidString (ev_ChatID ev) = true;
  eo_version : in_int64 (ev_Version ev) = true;
  eo_payload : json_valid (default JNull (ev_Payload ev)) = true
}.

Lemma digits_ascii s : str_forall is_digit s = true → is_ascii s = true.
Proof.
  apply str_forall_impl. intros c. unfold is_digit, byte_in. rewrite !andb_true_iff, !Nat.leb_le. lia.
Qed.
Lemma pad_ascii w n : is_ascii (pad w n) = true.
Proof. apply digits_ascii, pad_go_digits. done. Qed.
Lemma drop_zeros_forall p s : str_forall p s = true → str_forall p (drop_zeros s) = true.
Proof.
  destruct (drop_zeros_split s) as (z & Hz & _). rewrite Hz at 1. rewrite str_forall_app.
  by intros [_ ?]%andb_true_iff.
Qed.
Lemma frac_ascii n : is_ascii (frac_digits n) = true.
Proof.
  unfold frac_digits. destruct (_ =? _); [done|]. unfold is_ascii. rewrite str_forall_app, str_forall_rev.
  rewrite drop_zeros_forall; [done|]. rewrite str_forall_rev. apply pad_ascii.
Qed.
Lemma format_valid t : ValidString (format_rfc3339nano t) = true.
Proof.
  apply ascii_ValidString. unfold format_rfc3339nano. destruct (civil_of_days _) as [[y m] d].
  pose proof pad_ascii as Hp. pose proof (frac_ascii (t mod second)) as Hf. unfold is_ascii in *.
  by rewrite !str_forall_app, !Hp, Hf.
Qed.

Lemma marshal_time_inv t j :
  marshal_time t = Some j →
  j = JStr (format_rfc3339nano t) ∧ parse_rfc3339 (format_rfc3339nano t) = Some t.
Proof.
  unfold marshal_time. destruct (btw _ _ _) eqn:E; [|done]. intros [= <-]. split; [done|].
  unfold btw in E. rewrite andb_true_iff in E. apply parse_format_rfc3339. lia.
Qed.

(** The fields of an encoded event. *)
Section fields.
Variables (a b c d e : string) (f v p : json).
Let kvs (chat : list (string * json)) : list (string * json) :=
  [("event_id", JStr a); ("event_type", JStr b); ("aggregate_type", JStr c); ("aggregate_id", JStr d)]
  ++ chat ++ [("occurred_at", f); ("version", v); ("payload", p)].

Lemma event_fields chat :
  chat = [] ∨ chat = [("chat_id", JStr e)] →
  field_values "event_id" (kvs chat) = [JStr a] ∧ field_values "event_type" (kvs chat) = [JStr b]
  ∧ field_values "aggregate_type" (kvs chat) = [JStr c] ∧ field_values "aggregate_id" (kvs chat) = [JStr d]
  ∧ field_values "chat_id" (kvs chat) = chat.*2
  ∧ field_values "occurred_at" (kvs chat) = [f] ∧ field_values "version" (kvs chat) = [v]
  ∧ field_values "payload" (kvs chat) = [p].
Proof. intros [->| ->]; vm_compute; split_and!; reflexivity. Qed.
End fields.

Lemma event_tree_valid ev t :
  event_ok ev → json_valid (event_tree ev (JStr (format_rfc3339nano t))) = true.
Proof.
  intros [H1 H2 H3 H4 H5 _ H7]. unfold event_tree. cbn [json_valid]. rewrite !forallb_app.
  cbn [forallb fst snd json_valid]. rewrite H1, H2, H3, H4, H7, format_valid.
  destruct (str_empty (ev_ChatID ev)); cbn [forallb fst snd json_valid]; rewrite ?H5; vm_compute; reflexivity.
Qed.

Lemma event_decode ev b :
  event_ok ev → event_Marshal ev = Ok b →
  event_Unmarshal b = Some (mkDomainEvent (ev_EventID ev) (ev_EventType ev) (ev_AggregateType ev)
    (ev_AggregateID ev) (ev_ChatID ev) (ev_OccurredAt ev) (ev_Version ev) (Some (default JNull (ev_Payload ev)))).
Proof.
  intros Hok. unfold event_Marshal. destruct (marshal_time _) as [j|] eqn:Ht; [|done]. intros Hb.
  assert (b = json_write (event_tree ev j)) as -> by congruence. clear Hb.
  apply marshal_time_inv in Ht as [-> Hparse]. unfold event_Unmarshal.
  rewrite json_value_read by (by apply event_tree_valid). cbn [mbind option_bind]. unfold event_tree.
  cbn [struct_members mbind option_bind].
  pose proof (event_fields (ev_EventID ev) (ev_EventType ev) (ev_AggregateType ev) (ev_AggregateID ev)
    (ev_ChatID ev) (JStr (format_rfc3339nano (ev_OccurredAt ev))) (JNum (ev_Version ev))
    (default JNull (ev_Payload ev))
    (if str_empty (ev_ChatID ev) then [] else [("chat_id", JStr (ev_ChatID ev))])
    ltac:(destruct (str_empty _); auto)) as (F1 & F2 & F3 & F4 & F5 & F6 & F7 & F8).
  unfold string_field, time_field, int_field, raw_field.
  rewrite F1, F2, F3, F4, F5, F6, F7, F8. cbn [foldl fst snd].
  rewrite Hparse, (eo_version _ Hok). cbn [foldl fst snd].
  destruct (str_empty (ev_ChatID ev)) eqn:Ee; cbn [fmap list_fmap foldl fst snd andb]; [|done].
  apply String.eqb_eq in Ee. by rewrite Ee.
Qed.

(** C27.  A domain event survives the trip through Kafka: decoding the
    bytes the producer was given yields the event, its times to the
    nanosecond and its payload as a value. *)
Theorem event_roundtrip ev b :
  event_ok ev → event_Marshal ev = Ok b → is_Some (ev_Payload ev) → event_Unmarshal b = Some ev.
Proof.
  intros Hok Hb [p Hp]. rewrite (event_decode ev b Hok Hb). destruct ev. simpl in *. by subst.
Qed.

(** C28.  The two paths agree: for an outbox row of a chat, consuming the
    message the relay writes to Kafka does exactly what the relay does
    itself without Kafka: it delivers the same envelope to the same chat,
    with the same result. *)
Theorem paths_agree deliver row chat b :
  row_ChatID row = Some chat → chat ≠ "" → event_ok (row_event row) →
  event_Marshal (row_event row) = Ok b →
  FanoutKafkaDomainEvent deliver true b ≡ publishLocal deliver (row_EventType row) (row_Payload row) chat.
Proof.
  intros Hc Hne Hok Hb w. unfold FanoutKafkaDomainEvent. cbn [negb].
  rewrite (event_decode _ _ Hok Hb). unfold row_event. cbn [ev_ChatID ev_Payload ev_EventType]. rewrite Hc.
  cbn [default option_map]. apply String.eqb_neq in Hne. simpl. by rewrite Hne.
Qed.

Definition demo_event : DomainEvent :=
  mkDomainEvent "e1" "message.created" "message" "m1" "c1" 1767323045123450000 1
    (Some (JObj [("text", JStr "<hi>"); ("reply_to_id", JNull)])).
Definition demo_row : OutboxRow :=
  mkOutboxRow 7 "e1" "message.created" "message" "m1" (Some "c1") 1767323045123450000 1
    (JObj [("text", JStr "<hi>"); ("id", JStr "m1")]).

Lemma event_roundtrip_witness :
  ∃ b, event_Marshal demo_event = Ok b ∧ event_Unmarshal b = Some demo_event.
Proof.
  assert (is_ok (event_Marshal demo_event) = true) as Hok by (vm_compute; reflexivity).
  destruct (event_Marshal demo_event) as [b|e] eqn:E; [|discriminate Hok]. exists b. split; [reflexivity|].
  apply event_roundtrip; [split; vm_compute; reflexivity|exact E|by eexists].
Defined.

Lemma paths_agree_witness :
  ∃ b, event_Marshal (row_event demo_row) = Ok b
  ∧ ∀ deliver, FanoutKafkaDomainEvent deliver true b ≡ publishLocal deliver "message.created" (row_Payload demo_row) "c1".
Proof.
  assert (is_ok (event_Marshal (row_event demo_row)) = true) as Hok by (vm_compute; reflexivity).
  destruct (event_Marshal (row_event demo_row)) as [b|e] eqn:E; [|discriminate Hok].
  exists b. split; [reflexivity|]. intros deliver.
  apply (paths_agree deliver demo_row "c1"); [reflexivity|discriminate|split; vm_compute; reflexivity|exact E].
Defined.
