(* ===== verification/RelayTheorems.v ===== *)
(** * What the outbox relay promises

    With Kafka, an event is marked published only after it was written to
    the topic (at least once), whatever fails; when nothing fails, the
    relay publishes everything pending, in order, in a bounded number of
    ticks. *)

From stdpp Require Import base strings gmap list sorting.
From S2P Require Import Prelude GoStrings Json Errors GoTime Domain Hub Metrics World Repository PgMessages Guarantee Invariant Calls Credentials Redis Broadcaster Kafka Relay Scenario EventRoundtrip.

Local Open Scope Z_scope.

(** ** The topic *)
Definition written (m : string * string) (w : World) : nat := length (filter (λ x, x = m) (w_kafka w)).

Section topic.
Context {K : KafkaBroker} {KL : KafkaLaws K}.

Lemma filter_message (m : string * string) (t : Topic) :
  filter (λ x, x = m) t = filter (λ x, x = m) (filter (λ x, x.1 = m.1) t).
Proof. rewrite list_filter_filter. apply list_filter_iff. intros x. split; [by intros ->|tauto]. Qed.

Lemma filter_replicate_eq {A} `{EqDecision A} n (x : A) : filter (λ y, y = x) (replicate n x) = replicate n x.
Proof. induction n as [|n IH]; [done|]. cbn [replicate]. by rewrite filter_cons_True, IH. Qed.

Lemma append_written key value t m :
  (length (filter (λ x, x = m) t) ≤ length (filter (λ x, x = m) (kafka_append key value t)))%nat ∧
  (m = (key, value) →
   (length (filter (λ x, x = m) t) < length (filter (λ x, x = m) (kafka_append key value t)))%nat).
Proof.
  destruct (kafka_append_key key value t) as [[n Hn] Ho].
  rewrite (filter_message m t), (filter_message m (kafka_append key value t)).
  destruct (decide (m.1 = key)) as [Hk|Hk].
  - rewrite Hk, Hn, filter_app, length_app. split; [lia|]. intros ->. rewrite filter_replicate_eq, length_replicate. lia.
  - rewrite Ho by done. split; [done|]. by intros ->.
Qed.
End topic.

(** ** Ticks under any schedule of faults *)
Section faults.
Context {G : UuidGen} {GL : UuidGenLaws G} {K : KafkaBroker} {KL : KafkaLaws K}.
Variable deliver : ID → string → M ().

Definition rec_event (rec : OutboxRec) : DomainEvent := row_event (outbox_row rec).

(** The message of an event has been written between two states. *)
Definition published_in (w w' : World) (rec : OutboxRec) : Prop :=
  ∃ b, event_Marshal (rec_event rec) = Ok b
       ∧ (written (publish_key (rec_event rec), b) w < written (publish_key (rec_event rec), b) w')%nat.

Record advances (w w' : World) : Prop := mkAdvances {
  adv_undisturbed : undisturbed w → undisturbed w';
  adv_tables : set_outbox ∅ (w_db w') = set_outbox ∅ (w_db w);
  adv_written : ∀ m, (written m w ≤ written m w')%nat;
  adv_new : ∀ id, db_outbox (w_db w) !! id = None → db_outbox (w_db w') !! id = None;
  adv_rows : ∀ id rec, db_outbox (w_db w) !! id = Some rec →
    ∃ rec', db_outbox (w_db w') !! id = Some rec' ∧
      (rec' = rec ∨ pending rec = true ∧ (∃ t, rec' = set_published t rec) ∧ published_in w w' rec)
}.

Lemma published_in_mono w0 w1 w2 w3 rec :
  (∀ m, written m w0 ≤ written m w1)%nat → (∀ m, written m w2 ≤ written m w3)%nat →
  published_in w1 w2 rec → published_in w0 w3 rec.
Proof.
  intros H1 H2 (b & Hb & Hlt). exists b. split; [done|].
  specialize (H1 (publish_key (rec_event rec), b)). specialize (H2 (publish_key (rec_event rec), b)). lia.
Qed.

#[local] Instance advances_preorder : PreOrder advances.
Proof.
  split.
  - intros w. split; eauto.
  - intros w1 w2 w3 [U1 T1 W1 N1 R1] [U2 T2 W2 N2 R2]. split; [auto|congruence| |auto|].
    { intros m. etransitivity; [apply W1|apply W2]. }
    intros id rec Hrec. destruct (R1 id rec Hrec) as (rec2 & Hrec2 & C1).
    destruct (R2 id rec2 Hrec2) as (rec3 & Hrec3 & C2). exists rec3. split; [done|].
    destruct C1 as [->|(Hp & [t ->] & Hpub)]; destruct C2 as [->|(Hp2 & [t2 ->] & Hpub2)].
    + by left.
    + right. split_and!; eauto. by eapply (published_in_mono w1 w2 w3 w3).
    + right. split_and!; eauto. by eapply (published_in_mono w1 w1 w2 w3).
    + discriminate.
Qed.

(** A step that leaves tables, schedule and topic alone. *)
Lemma advances_same w w' :
  w_db w' = w_db w → w_sched w' = w_sched w → w_kafka w' = w_kafka w → advances w w'.
Proof.
  intros Hd Hs Hk. split.
  - unfold undisturbed. by rewrite Hs.
  - by rewrite Hd.
  - intros m. unfold written. by rewrite Hk.
  - by rewrite Hd.
  - rewrite Hd. eauto.
Qed.

Lemma advances_inc b c w r w' : inc_if b c w = (r, w') → advances w w'.
Proof. destruct b; intros [= _ <-]; by apply advances_same. Qed.

Lemma next_event_kafka w : w_kafka (next_event w).2 = w_kafka w.
Proof. unfold next_event. by destruct (w_sched w). Qed.

Lemma Publish_advances key b w r w' :
  undisturbed w → Publish true key b w = (r, w') →
  advances w w' ∧ w_db w' = w_db w ∧ (is_ok r = true → (written (key, b) w < written (key, b) w')%nat).
Proof.
  intros Hu Hcall%remote_call_inv. destruct (next_event w) as [e w1] eqn:E. simpl in Hcall.
  pose proof (next_event_kafka w) as Hk. rewrite E in Hk. simpl in Hk.
  apply next_event_undisturbed in E as [Hd Hu1]; [|done].
  assert (w' = w1 ∧ is_ok r = false ∨ w' = set_kafka (kafka_append key b (w_kafka w1)) w1) as Hw'.
  { destruct Hcall as [(a & -> & [= _ <-])|(m & -> & [->| ->])]; auto. }
  destruct Hw' as [[-> Hr]| ->].
  - split_and!; [|done|by rewrite Hr].
    split; [done|by rewrite Hd|unfold written; by rewrite Hk|by rewrite Hd|rewrite Hd; eauto].
  - rewrite Hk. split_and!; [|done|].
    + split; [done|by simpl; rewrite Hd| |by simpl; rewrite Hd|simpl; rewrite Hd; eauto].
      intros m. unfold written. simpl. apply append_written.
    + intros _. unfold written. simpl. by apply append_written.
Qed.

(** The rows fetched are rows of the table, up to the publication mark. *)
Definition row_in (row : OutboxRow) (w : World) : Prop :=
  ∃ rec, db_outbox (w_db w) !! row_ID row = Some rec ∧ outbox_row rec = row.

Lemma row_in_advances row w w' : advances w w' → row_in row w → row_in row w'.
Proof.
  intros Ha (rec & Hrec & Hrow). destruct (adv_rows _ _ Ha _ _ Hrec) as (rec' & Hrec' & Hcase).
  exists rec'. split; [done|]. by destruct Hcase as [->|(_ & [t ->] & _)].
Qed.

Lemma update_published_inv id d ctx d' a :
  update_published id ctx d = (Ok a, d') →
  ∃ rec, db_outbox d !! id = Some rec ∧ pending rec = true
         ∧ d' = set_outbox (<[id := set_published (sc_now ctx) rec]> (db_outbox d)) d.
Proof.
  unfold update_published, mbind, eff_bind, get_state. destruct (db_outbox d !! id) as [rec|]; [|done].
  destruct (pending rec) eqn:Hp; [|done]. intros [= _ <-]. eauto.
Qed.

(** Marking an event whose message was written since [w0]. *)
Lemma MarkPublished_advances w0 w id rec r w' :
  advances w0 w → undisturbed w →
  db_outbox (w_db w) !! id = Some rec → published_in w0 w rec →
  pg_MarkPublished id w = (r, w') → advances w0 w'.
Proof.
  intros Ha Hu Hrec Hpub Hcall.
  destruct (call_outside _ _ _ _ Hcall) as (_ & _ & _ & Hk).
  pose proof (call_later _ _ _ _ Hu Hcall) as Hu'.
  destruct Ha as [HU HT HW HN HR].
  assert (∀ m, written m w0 ≤ written m w')%nat as HW' by (intros m; unfold written; rewrite Hk; apply HW).
  apply call_any in Hcall as [Hd|(ctx & a & Hd)]; [| |done].
  - split; [done|congruence|done|by rewrite Hd|]. rewrite Hd. intros k rk Hk0.
    destruct (HR k rk Hk0) as (rk' & ? & Hcase). exists rk'. split; [done|].
    destruct Hcase as [?|(? & ? & Hp)]; [by left|right]. split_and!; [done..|].
    eapply (published_in_mono w0 w0 w w'); [done| |done]. intros m. unfold written. by rewrite Hk.
  - apply update_published_inv in Hd as (rec1 & Hrec1 & Hpend & Hd). assert (rec1 = rec) as -> by congruence. split.
    + done.
    + by rewrite Hd.
    + done.
    + intros k Hkn. rewrite Hd. simpl. rewrite lookup_insert_ne; [by apply HN|].
      intros ->. rewrite HN in Hrec1; done.
    + intros k rk Hk0. rewrite Hd. simpl. destruct (HR k rk Hk0) as (rk' & Hrk' & Hcase).
      destruct (decide (k = id)) as [->|Hne].
      * rewrite lookup_insert_eq. eexists. split; [done|]. simplify_eq.
        destruct Hcase as [->|(_ & [t ->] & _)]; [|discriminate]. right. split_and!; [done|eauto|].
        eapply (published_in_mono w0 w0 w w'); [done| |done]. intros m. unfold written. by rewrite Hk.
      * rewrite lookup_insert_ne by done. exists rk'. split; [done|].
        destruct Hcase as [?|(? & ? & Hp)]; [by left|right]. split_and!; [done..|].
        eapply (published_in_mono w0 w0 w w'); [done| |done]. intros m. unfold written. by rewrite Hk.
Qed.

(** The relay of the configuration with Kafka. *)
Definition kafka_relay (fallback metrics : bool) : OutboxRelay := mkRelay (Some true) fallback true metrics.

Lemma attempt_inv {S E A} (m : eff S E A) s r s' :
  attempt m s = (r, s') → ∃ x, r = Ok x ∧ m s = (x, s').
Proof. unfold attempt. destruct (m s) as [x s1]. intros [= <- <-]. eauto. Qed.

Lemma relay_row_advances fb b row w r w' :
  undisturbed w → row_in row w → relay_row deliver (kafka_relay fb b) row w = (r, w') → advances w w'.
Proof.
  intros Hu (rec & Hrec & Hrow). unfold relay_row.
  destruct (event_Marshal (row_event row)) as [msg|e] eqn:Hm; [|intros [= _ <-]; reflexivity].
  change (publish_row deliver (kafka_relay fb b) row msg) with (Publish true (publish_key (row_event row)) msg).
  intros [(pub & w1 & Hpub & Hrun)|(e & H & _)]%bind_inv; [|by apply attempt_inv in H as (? & ? & _)].
  apply attempt_inv in Hpub as (x & [= ->] & Hpub).
  apply Publish_advances in Hpub as (Ha & Hd & Hlt); [|done].
  destruct x as [[]|e]; [|etransitivity; [exact Ha|by eapply advances_inc]].
  specialize (Hlt eq_refl).
  apply bind_inv in Hrun as [(u & w2 & Hinc & Hrun)|(e & H & _)]; [|by destruct b].
  pose proof (advances_inc _ _ _ _ _ Hinc) as Ha2.
  assert (w_db w2 = w_db w1 ∧ w_kafka w2 = w_kafka w1) as [Hd2 Hk2] by (by destruct b; injection Hinc as _ <-).
  assert (advances w w2) as Hall by (by etransitivity).
  apply bind_inv in Hrun as [(m & w3 & Hmark & [= _ <-])|(e & H & _)]; [|by apply attempt_inv in H as (? & ? & _)].
  apply attempt_inv in Hmark as (x & _ & Hmark).
  eapply (MarkPublished_advances w w2 (row_ID row) rec); [done| | | |exact Hmark].
  - by apply (adv_undisturbed _ _ Hall).
  - by rewrite Hd2, Hd.
  - exists msg. unfold rec_event. rewrite Hrow. split; [done|]. unfold written in *. by rewrite Hk2.
Qed.

Lemma relay_rows_advances fb b rows w r w' :
  undisturbed w → Forall (λ row, row_in row w) rows →
  relay_rows deliver (kafka_relay fb b) rows w = (r, w') → advances w w'.
Proof.
  revert w. induction rows as [|row rows IH]; intros w Hu Hin; [intros [= _ <-]; reflexivity|].
  apply Forall_cons in Hin as [Hrow Hrows]. cbn [relay_rows].
  intros [(u & w1 & Hrun & Hrest)|(e & Hrun & _)]%bind_inv.
  - apply relay_row_advances in Hrun as Ha; [|done..]. etransitivity; [exact Ha|].
    apply IH in Hrest; [done|by apply (adv_undisturbed _ _ Ha)|].
    eapply Forall_impl; [exact Hrows|]. intros row' ?. by eapply row_in_advances.
  - by apply relay_row_advances in Hrun.
Qed.

Lemma elem_of_pending d rec :
  rec ∈ pending_events d ↔ pending rec = true ∧ ∃ k, db_outbox d !! k = Some rec.
Proof.
  unfold pending_events. rewrite merge_sort_Permutation, list_elem_of_filter, list_elem_of_fmap.
  split.
  - intros (Hp & [k r] & -> & Hin). split; [done|]. exists k. by apply elem_of_map_to_list.
  - intros (Hp & k & Hk). split; [done|]. exists (k, rec). split; [done|]. by apply elem_of_map_to_list.
Qed.

Lemma FetchPending_Ok n w rows w' :
  undisturbed w → pg_FetchPending n w = (Ok rows, w') →
  undisturbed w' ∧ w_db w' = w_db w ∧ rows = outbox_row <$> take (Z.to_nat (fetch_limit n)) (pending_events (w_db w)).
Proof.
  intros Hu Hcall. apply call_Ok in Hcall as (Hu' & now & id & _ & _ & _ & Hf); [|done].
  injection Hf as <- <-. done.
Qed.

Lemma FetchPending_advances n w r w' : undisturbed w → pg_FetchPending n w = (r, w') → advances w w'.
Proof.
  intros Hu Hcall. pose proof (call_later _ _ _ _ Hu Hcall) as Hu'.
  assert (w_db w' = w_db w) as Hd.
  { destruct (call_read_only_db (select_pending (fetch_limit n)) w r w') as [? _]; try done. }
  destruct (call_outside _ _ _ _ Hcall) as (_ & _ & _ & Hk).
  split; [done|by rewrite Hd|unfold written; by rewrite Hk|by rewrite Hd|rewrite Hd; eauto].
Qed.

Lemma pending_row_in w rows :
  wf (w_db w) → Forall (λ rec, rec ∈ pending_events (w_db w)) rows →
  Forall (λ row, row_in row w) (outbox_row <$> rows).
Proof.
  intros Hwf Hall. apply Forall_fmap. eapply Forall_impl; [exact Hall|].
  intros rec (_ & k & Hk)%elem_of_pending. destruct (wf_outbox _ Hwf k rec Hk) as [<- _].
  exists rec. done.
Qed.

Lemma tick_advances fb b w r w' :
  wf (w_db w) → undisturbed w → tick deliver (kafka_relay fb b) w = (r, w') → advances w w'.
Proof.
  intros Hwf Hu. unfold tick.
  intros [(u & w1 & Hinc & Hrun)|(e & H & _)]%bind_inv; [|by destruct b].
  pose proof (advances_inc _ _ _ _ _ Hinc) as Ha1.
  assert (w_db w1 = w_db w ∧ undisturbed w1) as [Hd1 Hu1] by (by destruct b; injection Hinc as _ <-).
  apply bind_inv in Hrun as [(x & w2 & Hf & Hrun)|(e & H & _)]; [|by apply attempt_inv in H as (? & ? & _)].
  apply attempt_inv in Hf as (rows & [= ->] & Hf).
  pose proof (FetchPending_advances _ _ _ _ Hu1 Hf) as Ha2.
  destruct rows as [rows|e]; [|injection Hrun as _ <-; by etransitivity].
  apply FetchPending_Ok in Hf as (Hu2 & Hd2 & ->); [|done].
  etransitivity; [exact Ha1|]. etransitivity; [exact Ha2|].
  apply relay_rows_advances in Hrun; [done|done|].
  apply pending_row_in; [by rewrite Hd2, Hd1|]. rewrite Hd2. apply Forall_forall.
  intros rec Hrec. by apply elem_of_take in Hrec as (i & Hi & _); apply list_elem_of_lookup_2 in Hi.
Qed.

(** C29.  Nothing is lost: under any schedule of failures (of PostgreSQL or
    of Kafka, before or after their effect), a tick of the relay with Kafka
    changes the tables only by marking pending events as published, and
    every event it marks has been written to the topic, under its chat's
    key, during the tick. *)
Theorem relay_at_least_once fb b w r w' :
  wf (w_db w) → undisturbed w → tick deliver (kafka_relay fb b) w = (r, w') →
  set_outbox ∅ (w_db w') = set_outbox ∅ (w_db w) ∧
  (∀ id, db_outbox (w_db w) !! id = None → db_outbox (w_db w') !! id = None) ∧
  ∀ id rec, db_outbox (w_db w) !! id = Some rec →
    ∃ rec', db_outbox (w_db w') !! id = Some rec' ∧
      (rec' = rec ∨ pending rec = true ∧ (∃ t, rec' = set_published t rec) ∧ published_in w w' rec).
Proof.
  intros Hwf Hu Hrun. destruct (tick_advances _ _ _ _ _ Hwf Hu Hrun) as [_ HT _ HN HR]. done.
Qed.
End faults.

(** ** Ticks when nothing fails *)

(** [l'] is [l] with every element repeated at least once. *)
Inductive stutters {A} : list A → list A → Prop :=
| stutters_nil : stutters [] []
| stutters_cons n x l l' : stutters l l' → stutters (x :: l) (replicate (S n) x ++ l').

Section quiet.
Context {G : UuidGen} {GL : UuidGenLaws G} {K : KafkaBroker} {KL : KafkaLaws K}.
Variable deliver : ID → string → M ().

(** The Kafka message of an event. *)
Definition message_of (rec : OutboxRec) : string * string :=
  (publish_key (rec_event rec), match event_Marshal (rec_event rec) with Ok b => b | Err _ => "" end).
Definition sendable (rec : OutboxRec) : Prop := is_ok (event_Marshal (rec_event rec)) = true.

Definition append_all (msgs : list (string * string)) (t : Topic) : Topic :=
  foldl (λ t m, kafka_append m.1 m.2 t) t msgs.

Lemma append_all_key key msgs t :
  ∃ new, filter (λ m, m.1 = key) (append_all msgs t) = filter (λ m, m.1 = key) t ++ new
         ∧ stutters (filter (λ m, m.1 = key) msgs) new.
Proof.
  revert t. induction msgs as [|[k v] msgs IH]; intros t.
  - exists []. rewrite app_nil_r. split; [done|constructor].
  - cbn [append_all foldl fst snd]. destruct (IH (kafka_append k v t)) as (new & Hnew & Hst).
    change (foldl _ _ msgs) with (append_all msgs (kafka_append k v t)). rewrite Hnew.
    destruct (kafka_append_key k v t) as [[n Hn] Ho]. destruct (decide (k = key)) as [->|Hk].
    + rewrite Hn, filter_cons_True by done. eexists. rewrite <- app_assoc. split; [done|by constructor].
    + rewrite Ho, filter_cons_False by done. eauto.
Qed.

(** Marking the first pending event leaves the others. *)
Lemma pending_mark d rec l t :
  map_Forall (outbox_ok d) (db_outbox d) → pending_events d = rec :: l →
  pending_events (set_outbox (<[ob_id rec := set_published t rec]> (db_outbox d)) d) = l
  ∧ db_outbox d !! ob_id rec = Some rec ∧ pending rec = true.
Proof.
  intros Hok Hp. assert (pending rec = true ∧ ∃ k, db_outbox d !! k = Some rec) as (Hpend & k & Hk)
    by (apply elem_of_pending; rewrite Hp; left).
  destruct (Hok k rec Hk) as [<- _]. split_and!; [|done|done].
  assert (StronglySorted by_id (pending_events d)) as Hs.
  { apply StronglySorted_merge_sort; apply _. }
  rewrite Hp in Hs. apply StronglySorted_cons in Hs as [_ Hs].
  assert (db_outbox d = <[ob_id rec := rec]> (delete (ob_id rec) (db_outbox d))) as Hd
    by (by rewrite insert_delete_eq, insert_id).
  set (m := delete (ob_id rec) (db_outbox d)) in *.
  assert (m !! ob_id rec = None) as Hm by apply lookup_delete_eq.
  assert (pending_events d ≡ₚ rec :: filter (λ r, pending r = true) (map_to_list m).*2) as Hperm.
  { unfold pending_events. rewrite merge_sort_Permutation, Hd, map_to_list_insert by done.
    cbn [fmap list_fmap snd]. by rewrite filter_cons_True. }
  apply (StronglySorted_unique_strong by_id).
  - intros r1 r2 H1 H2 Hle1 Hle2. unfold by_id in *.
    apply elem_of_pending in H1 as (Hp1 & k1 & Hk1). simpl in Hk1.
    assert (k1 ≠ ob_id rec) as Hne by (intros ->; rewrite lookup_insert_eq in Hk1; by simplify_eq).
    rewrite lookup_insert_ne in Hk1 by done.
    assert (r2 ∈ pending_events d) as (_ & k2 & Hk2)%elem_of_pending by (rewrite Hp; by right).
    destruct (Hok _ _ Hk1) as [<- _]. destruct (Hok _ _ Hk2) as [<- _].
    assert (ob_id r1 = ob_id r2) as He by lia. congruence.
  - apply StronglySorted_merge_sort; apply _.
  - done.
  - unfold pending_events at 1. cbn [set_outbox db_outbox]. rewrite merge_sort_Permutation, Hd, insert_insert_eq.
    rewrite map_to_list_insert by done. cbn [fmap list_fmap snd]. rewrite filter_cons_False by done.
    apply (Permutation_cons_inv (a := rec)). by rewrite <- Hperm, Hp.
Qed.

Record relayed (msgs : list (string * string)) (rest : list OutboxRec) (w w' : World) : Prop := mkRelayed {
  rel_quiet : quiet w';
  rel_ok : map_Forall (outbox_ok (w_db w')) (db_outbox (w_db w'));
  rel_rest : pending_events (w_db w') = rest;
  rel_topic : w_kafka w' = append_all msgs (w_kafka w)
}.

Lemma outbox_ok_mark d rec t :
  map_Forall (outbox_ok d) (db_outbox d) → db_outbox d !! ob_id rec = Some rec →
  let d' := set_outbox (<[ob_id rec := set_published t rec]> (db_outbox d)) d in
  map_Forall (outbox_ok d') (db_outbox d').
Proof.
  intros Hok Hrec. simpl. apply map_Forall_insert_2; [|exact Hok].
  destruct (Hok _ _ Hrec) as [_ ?]. by split.
Qed.

Lemma inc_if_Ok b c w :
  ∃ w', inc_if b c w = (Ok (), w') ∧ w_db w' = w_db w ∧ w_sched w' = w_sched w ∧ w_kafka w' = w_kafka w.
Proof. destruct b; eexists; split; done. Qed.

Lemma relay_row_quiet fb b rec rest w :
  quiet w → map_Forall (outbox_ok (w_db w)) (db_outbox (w_db w)) →
  pending_events (w_db w) = rec :: rest → sendable rec →
  ∃ w', relay_row deliver (kafka_relay fb b) (outbox_row rec) w = (Ok (), w') ∧ relayed [message_of rec] rest w w'.
Proof.
  intros Hq Hok Hp Hs. destruct (pending_mark _ _ _ (pg_time (w_now w)) Hok Hp) as (Hrest & Hrec & Hpend).
  unfold relay_row. fold (rec_event rec). unfold sendable in Hs. unfold message_of.
  destruct (event_Marshal (rec_event rec)) as [msg|e]; [|done].
  change (publish_row deliver (kafka_relay fb b) (outbox_row rec) msg) with (Publish true (publish_key (rec_event rec)) msg).
  set (w1 := set_kafka (kafka_append (publish_key (rec_event rec)) msg (w_kafka w)) w).
  assert (attempt (Publish true (publish_key (rec_event rec)) msg) w = (Ok (Ok ()), w1)) as Hpub
    by (unfold attempt, Publish; cbn [negb]; by rewrite remote_call_quiet).
  erewrite bind_ok by exact Hpub. cbv beta iota.
  destruct (inc_if_Ok b RelayPubOK w1) as (w2 & Hinc & Hd2 & Hs2 & Hk2).
  erewrite bind_ok by exact Hinc.
  assert (quiet w2) as Hq2 by (unfold quiet; by rewrite Hs2).
  assert (pg_MarkPublished (ob_id rec) w2
          = (Ok (), set_db (set_outbox (<[ob_id rec := set_published (pg_time (w_now w2)) rec]> (db_outbox (w_db w2))) (w_db w2))
                           (bump_ids w2))) as Hmark.
  { unfold pg_MarkPublished. rewrite call_quiet by done. unfold update_published, mbind, eff_bind, get_state.
    rewrite Hd2. change (w_db w1) with (w_db w). by rewrite Hrec, Hpend. }
  eexists. split.
  { unfold mbind, eff_bind, attempt, outbox_MarkPublished, pg_outbox_repository. cbn [row_ID outbox_row].
    rewrite Hmark. reflexivity. }
  assert (w_db w2 = w_db w) as Hd by (by rewrite Hd2).
  destruct (pending_mark _ _ _ (pg_time (w_now w2)) Hok Hp) as (Hrest2 & _ & _).
  split; simpl; rewrite ?Hd.
  - done.
  - by apply outbox_ok_mark.
  - done.
  - by rewrite Hk2.
Qed.

Lemma relay_rows_quiet fb b recs rest w :
  quiet w → map_Forall (outbox_ok (w_db w)) (db_outbox (w_db w)) →
  pending_events (w_db w) = recs ++ rest → Forall sendable recs →
  ∃ w', relay_rows deliver (kafka_relay fb b) (outbox_row <$> recs) w = (Ok (), w')
        ∧ relayed (message_of <$> recs) rest w w'.
Proof.
  revert w. induction recs as [|rec recs IH]; intros w Hq Hok Hp Hall.
  - exists w. split; [done|]. by split.
  - apply Forall_cons in Hall as [Hs Hall].
    destruct (relay_row_quiet fb b rec (recs ++ rest) w Hq Hok Hp Hs) as (w1 & Hrun & [Hq1 Hok1 Hp1 Hk1]).
    destruct (IH w1 Hq1 Hok1 Hp1 Hall) as (w2 & Hrun2 & [Hq2 Hok2 Hp2 Hk2]).
    exists w2. cbn [fmap list_fmap relay_rows]. split; [by rewrite (bind_ok _ _ _ _ _ Hrun)|].
    split; [done..|]. by rewrite Hk2, Hk1.
Qed.

Lemma tick_quiet fb b w :
  quiet w → map_Forall (outbox_ok (w_db w)) (db_outbox (w_db w)) →
  Forall sendable (pending_events (w_db w)) →
  ∃ w', tick deliver (kafka_relay fb b) w = (Ok (), w') ∧
        relayed (message_of <$> take 100 (pending_events (w_db w))) (drop 100 (pending_events (w_db w))) w w'.
Proof.
  intros Hq Hok Hall. unfold tick.
  destruct (inc_if_Ok b RelayIter w) as (w1 & Hinc & Hd1 & Hs1 & Hk1).
  erewrite bind_ok by exact Hinc. assert (quiet w1) as Hq1 by (unfold quiet; by rewrite Hs1).
  assert (attempt (outbox_FetchPending relay_batch) w1
          = (Ok (Ok (outbox_row <$> take 100 (pending_events (w_db w)))), bump_ids w1)) as Hf.
  { unfold attempt, outbox_FetchPending, pg_outbox_repository, pg_FetchPending. rewrite call_quiet by done.
    unfold select_pending, mbind, eff_bind, get_state, mret, eff_ret. rewrite <- Hd1. by destruct w1. }
  erewrite bind_ok by exact Hf. cbv beta iota.
  destruct (relay_rows_quiet fb b (take 100 (pending_events (w_db w))) (drop 100 (pending_events (w_db w)))
              (bump_ids w1)) as (w2 & Hrun & [Hq2 Hok2 Hp2 Hk2]).
  - done.
  - simpl. by rewrite Hd1.
  - simpl. by rewrite Hd1, take_drop.
  - by apply Forall_take.
  - exists w2. split; [exact Hrun|]. split; [done..|]. simpl in Hk2. by rewrite Hk2, Hk1.
Qed.
End quiet.

Lemma relayed_trans msgs1 msgs2 rest1 rest2 `{K : KafkaBroker} w0 w1 w2 :
  relayed msgs1 rest1 w0 w1 → relayed msgs2 rest2 w1 w2 → relayed (msgs1 ++ msgs2) rest2 w0 w2.
Proof.
  intros [_ _ _ Hk1] [? ? ? Hk2]. split; [done..|].
  rewrite Hk2, Hk1. unfold append_all. by rewrite foldl_app.
Qed.

Section drain.
Context {G : UuidGen} {GL : UuidGenLaws G} {K : KafkaBroker} {KL : KafkaLaws K}.
Variable deliver : ID → string → M ().

Lemma run_quiet fb b n w :
  quiet w → map_Forall (outbox_ok (w_db w)) (db_outbox (w_db w)) →
  Forall sendable (pending_events (w_db w)) →
  ∃ w', relay_run deliver (kafka_relay fb b) n w = (Ok (), w') ∧
        relayed (message_of <$> take (n * 100) (pending_events (w_db w)))
                (drop (n * 100) (pending_events (w_db w))) w w'.
Proof.
  revert w. induction n as [|n IH]; intros w Hq Hok Hall.
  - exists w. split; [done|]. by split.
  - destruct (tick_quiet deliver fb b w Hq Hok Hall) as (w1 & Hrun & Hr1).
    pose proof Hr1 as [Hq1 Hok1 Hp1 Hk1].
    destruct (IH w1 Hq1 Hok1) as (w2 & Hrun2 & Hr2); [rewrite Hp1; by apply Forall_drop|].
    exists w2. cbn [relay_run]. split; [by rewrite (bind_ok _ _ _ _ _ Hrun)|].
    rewrite Hp1 in Hr2. rewrite drop_drop in Hr2.
    replace (S n * 100)%nat with (100 + n * 100)%nat by lia.
    rewrite <- (take_take_drop (pending_events (w_db w)) 100 (n * 100)), fmap_app.
    by eapply relayed_trans.
Qed.

(** C30.  When nothing fails, the relay drains the outbox: [n] ticks publish
    any 100 * n pending events, after which none is pending; the messages
    of a chat reach the topic in the order of the outbox, each at least
    once, after what was there. *)
Theorem relay_drains fb b n w :
  wf (w_db w) → quiet w → Forall sendable (pending_events (w_db w)) →
  (length (pending_events (w_db w)) ≤ n * 100)%nat →
  ∃ w', relay_run deliver (kafka_relay fb b) n w = (Ok (), w') ∧ pending_events (w_db w') = [] ∧
    ∀ key, ∃ new, filter (λ m, m.1 = key) (w_kafka w') = filter (λ m, m.1 = key) (w_kafka w) ++ new
                  ∧ stutters (filter (λ m, m.1 = key) (message_of <$> pending_events (w_db w))) new.
Proof.
  intros Hwf Hq Hall Hn. destruct (run_quiet fb b n w Hq (wf_outbox _ Hwf) Hall) as (w' & Hrun & [_ _ Hp Hk]).
  exists w'. split; [done|]. split; [by rewrite Hp, drop_ge|].
  intros key. rewrite Hk, take_ge by lia. apply append_all_key.
Qed.
End drain.

(** ** Witnesses *)
#[export] Instance toy_kafka : KafkaBroker := λ key value t, t ++ [(key, value)].
#[export] Instance toy_kafka_laws : KafkaLaws toy_kafka.
Proof.
  intros key value t. unfold kafka_append, toy_kafka. split.
  - exists 0%nat. by rewrite filter_app, filter_cons_True.
  - intros key' Hk. rewrite filter_app, filter_cons_False by (simpl; congruence). by rewrite app_nil_r.
Qed.

Definition demo_rec (id : Z) (eid : ID) (text : string) : OutboxRec :=
  mkOutboxRec id eid "message.created" "message" msg1 (Some chat1) t0 1 (JObj [("text", JStr text)]) None t0.
Definition outbox_db : DB :=
  set_outbox_seq 2 (set_outbox (<[1 := demo_rec 1 alice "one"]> {[2 := demo_rec 2 bob "two"]}) demo_db).

Lemma outbox_db_wf : wf outbox_db.
Proof.
  destruct demo_wf as [? ? ? ? ? _ ? ? ? _]. split; [done..| | | | |]; try done.
  - unfold outbox_db. simpl. forall_rows; split; simpl; lia.
  - unfold outbox_db. simpl. apply (unique_by_image _ _ (λ e, if String.eqb e alice then Some 1 else Some 2)).
    forall_rows; intros b [= <-]; vm_compute; reflexivity.
Qed.

Lemma outbox_db_sendable : Forall sendable (pending_events outbox_db).
Proof.
  assert (forallb (λ r, is_ok (event_Marshal (rec_event r))) (pending_events outbox_db) = true) as H
    by (vm_compute; reflexivity).
  revert H. generalize (pending_events outbox_db). intros l H. apply Forall_forall. intros r Hr.
  rewrite forallb_forall in H. exact (H r (proj1 (list_elem_of_In l r) Hr)).
Qed.

Definition deliver_none : ID → string → M () := λ _ _, mret ().

Lemma relay_at_least_once_witness :
  let w := demo_world outbox_db (faults [NoFault; FailAfter "timeout"; FailAfter "timeout"]) in
  ∃ w', tick deliver_none (kafka_relay true true) w = (Ok (), w') ∧
    set_outbox ∅ (w_db w') = set_outbox ∅ (w_db w).
Proof.
  intros w. assert (is_ok (tick deliver_none (kafka_relay true true) w).1 = true) as Hok by (vm_compute; reflexivity).
  destruct (tick deliver_none (kafka_relay true true) w) as [[[]|e] w'] eqn:E; [|discriminate Hok].
  exists w'. split; [reflexivity|].
  destruct (relay_at_least_once deliver_none true true w (Ok ()) w') as [H _].
  - apply outbox_db_wf.
  - apply demo_undisturbed.
  - exact E.
  - exact H.
Defined.

Lemma relay_drains_witness :
  ∃ w', relay_run deliver_none (kafka_relay true true) 1 (demo_world outbox_db []) = (Ok (), w')
        ∧ pending_events (w_db w') = [].
Proof.
  destruct (relay_drains deliver_none true true 1 (demo_world outbox_db [])) as (w' & Hrun & Hp & _).
  - apply outbox_db_wf.
  - apply demo_quiet.
  - exact outbox_db_sendable.
  - vm_compute. lia.
  - exists w'. split; [exact Hrun|exact Hp].
Defined.

(** With a Kafka configuration that names no broker or no topic, the
    producer is a nil pointer in a non-nil interface: publishing succeeds
    without a message, and the event is lost. *)
Example nil_producer_loses_events :
  let r := mkRelay (Some (NewProducer [] "goflow.events")) true true true in
  let w' := (tick deliver_none r (demo_world outbox_db [])).2 in
  pending_events (w_db w') = [] ∧ w_kafka w' = [].
Proof. vm_compute. split; reflexivity. Qed.

(** A failure to publish does not stop the batch: a later event of the
    same chat overtakes the one that failed. *)
Example later_event_overtakes :
  let w := demo_world outbox_db (faults [NoFault; FailBefore "broker not available"]) in
  let w' := (tick deliver_none (kafka_relay true true) w).2 in
  ob_id <$> pending_events (w_db w') = [1] ∧ length (w_kafka w') = 1%nat.
Proof. vm_compute. split; reflexivity. Qed.
