(* ===== verification/BroadcastTheorems.v ===== *)
(** * What the broadcaster promises

    A payload delivered to a chat is queued once on every connection of
    the chat's members and on no other connection. *)

From stdpp Require Import base strings gmap sets list sorting.
From S2P Require Import Prelude GoStrings Uuid Json Errors Domain Hub HubTheorems World Repository PgChats Invariant Guarantee Calls Credentials Redis Broadcaster Toys Scenario.

Local Open Scope Z_scope.

Section fan_out.
Variable payload : string.

Definition fan_out (us : list ID) (h : Hub) : Hub := foldl (λ h u, SendToUser u payload h) h us.

(** The connections a payload for the users [us] is queued on. *)
Definition reached (us : list ID) (h : Hub) (p : nat) (c : Client) : Prop :=
  p ∈ user_set (c_userID c) h ∧ c_userID c ∈ us.
#[export] Instance reached_dec us h p c : Decision (reached us h p c).
Proof. unfold reached. apply _. Defined.

Lemma fan_out_spec us h :
  NoDup us → hub_ok h →
  h_clients (fan_out us h) = h_clients h ∧ hub_ok (fan_out us h) ∧
  ∀ p c, h_heap h !! p = Some c →
    h_heap (fan_out us h) !! p = Some (if decide (reached us h p c) then enqueue payload c else c).
Proof.
  revert h. induction us as [|u us IH]; intros h Hnd Hok.
  - split_and!; [done..|]. intros p c Hc. rewrite decide_False; [done|]. intros [_ []%not_elem_of_nil].
  - apply NoDup_cons in Hnd as [Hu Hnd]. cbn [fan_out foldl].
    destruct (IH (SendToUser u payload h) Hnd (SendToUser_ok u payload h Hok)) as (Hcl & Hok' & Hp).
    split_and!; [done..|]. intros p c Hc. pose proof (SendToUser_lookup u payload h p) as Hl.
    assert (∀ u', user_set u' (SendToUser u payload h) = user_set u' h) as Hus by done.
    unfold fan_out in Hp. case_decide as Hin.
    + assert (c_userID c = u) as Huser.
      { unfold user_set in Hin. destruct (h_clients h !! u) as [s|] eqn:E; simpl in Hin; [|set_solver].
        destruct (ho_users _ Hok u s p E Hin) as (c' & ? & <-). congruence. }
      rewrite Hc in Hl. simpl fmap in Hl. rewrite (Hp p _ Hl).
      rewrite decide_False by (unfold reached; rewrite enqueue_user, Huser; tauto).
      rewrite decide_True; [done|]. unfold reached. rewrite Huser. split; [done|left].
    + rewrite Hc in Hl. rewrite (Hp p _ Hl).
      f_equal. apply decide_ext. unfold reached. rewrite Hus, elem_of_cons. split; [tauto|]. intros [? [He|?]]; [|tauto].
      by rewrite He in *.
Qed.
End fan_out.

Section broadcast.
Context {G : UuidGen} {GL : UuidGenLaws G} {R : RedisServer}.
Variable pub : option bool.

Lemma send_all_run payload ms w :
  send_all payload ms w = (Ok (), set_hub (fan_out payload (cm_UserID <$> ms) (w_hub w)) w).
Proof.
  revert w. induction ms as [|m ms IH]; intros w; [by destruct w|]. cbn [send_all].
  rewrite (bind_ok _ _ _ _ _ (eq_refl : hub_SendToUser payload (cm_UserID m) w = (Ok (), _))). by rewrite IH.
Qed.

Lemma elem_of_members_of d cid u :
  wf d → u ∈ cm_UserID <$> members_of d cid ↔ is_Some (db_members d !! (cid, u)).
Proof.
  intros Hwf. unfold members_of. rewrite list_elem_of_fmap. split.
  - intros (m & -> & Hm). rewrite merge_sort_Permutation, list_elem_of_filter in Hm.
    destruct Hm as [Hc (k & Hk & Hm)%list_elem_of_fmap]. destruct k as [k m']. simpl in Hk. subst m'.
    apply elem_of_map_to_list in Hm. destruct (wf_members _ Hwf k m Hm) as [-> _].
    apply String.eqb_eq in Hc. rewrite <- Hc. eauto.
  - intros [m Hm]. destruct (wf_members _ Hwf _ m Hm) as [[= -> ->] _]. exists m. split; [done|].
    rewrite merge_sort_Permutation, list_elem_of_filter, String.eqb_refl. split; [done|].
    apply list_elem_of_fmap. exists ((cm_ChatID m, cm_UserID m), m). split; [done|]. by apply elem_of_map_to_list.
Qed.

Lemma NoDup_members_of d cid : wf d → NoDup (cm_UserID <$> members_of d cid).
Proof.
  intros Hwf. unfold members_of. rewrite merge_sort_Permutation.
  assert (∀ kv, kv ∈ map_to_list (db_members d) → kv.1 = (cm_ChatID kv.2, cm_UserID kv.2)) as Hkeys.
  { intros [k m] Hm%elem_of_map_to_list. by destruct (wf_members _ Hwf k m Hm) as [? _]. }
  pose proof (NoDup_fst_map_to_list (db_members d)) as Hnd. revert Hkeys Hnd.
  generalize (map_to_list (db_members d)). intros l. induction l as [|[k m] l IH]; intros Hkeys Hnd; [constructor|].
  cbn [fmap list_fmap] in *. apply NoDup_cons in Hnd as [Hk Hnd].
  specialize (IH (λ kv H, Hkeys kv (list_elem_of_further _ _ _ H)) Hnd). cbn [snd].
  destruct (decide (String.eqb (cm_ChatID m) cid = true)) as [Hc|Hc];
    [rewrite filter_cons_True by done|by rewrite filter_cons_False].
  cbn [fmap list_fmap]. constructor; [|done]. intros (m' & Hu & Hm')%list_elem_of_fmap.
  apply list_elem_of_filter in Hm' as [Hc' ([k' m''] & Heq & Hm')%list_elem_of_fmap]. simpl in Heq. subst m''.
  apply Hk, list_elem_of_fmap. exists (k', m'). split; [|done].
  pose proof (Hkeys (k, m) (list_elem_of_here _ _)) as H1. pose proof (Hkeys (k', m') (list_elem_of_further _ _ _ Hm')) as H2.
  simpl in *. apply String.eqb_eq in Hc, Hc'. congruence.
Qed.

(** A payload delivered to a chat is queued once on each connection the hub
    holds for a member of the chat (unless the queue is full), and on no
    other connection; the tables do not change. *)
Theorem deliver_to_members chat payload w w' :
  wf (w_db w) → undisturbed w → hub_ok (w_hub w) →
  deliverPayload true chat payload w = (Ok (), w') →
  ∃ cid, uuid_in chat = Some cid ∧ w_db w' = w_db w
    ∧ h_clients (w_hub w') = h_clients (w_hub w) ∧ hub_ok (w_hub w')
    ∧ ∀ p c, h_heap (w_hub w) !! p = Some c →
        h_heap (w_hub w') !! p
        = Some (if decide (p ∈ user_set (c_userID c) (w_hub w) ∧ is_Some (db_members (w_db w) !! (cid, c_userID c)))
                then enqueue payload c else c).
Proof.
  intros Hwf Hu Hh. unfold deliverPayload. cbn [negb]. intros (ms & w1 & Hcall & Hrun)%bind_Ok_inv.
  rewrite send_all_run in Hrun. injection Hrun as <-.
  pose proof (proj1 (call_outside _ _ _ _ Hcall)) as Hhub.
  apply call_Ok in Hcall as (_ & now & id & _ & _ & _ & Hf); [|done]. unfold select_members in Hf.
  apply bind_Ok_inv in Hf as (cid & d & Hcast & Hf). unfold of_result, cast_uuid in Hcast.
  destruct (uuid_in chat) as [cid'|] eqn:Ecid; [|done]. injection Hcast as <- <-.
  unfold mbind, eff_bind, get_state, mret, eff_ret in Hf. injection Hf as <- Hd.
  exists cid'. split; [done|]. simpl. rewrite <- Hd, Hhub.
  destruct (fan_out_spec payload (cm_UserID <$> members_of (w_db w) cid') (w_hub w)) as (H1 & H2 & H3);
    [by apply NoDup_members_of|done|]. split_and!; [done..|].
  intros p c Hc. rewrite (H3 p c Hc). f_equal. apply decide_ext. unfold reached. by rewrite elem_of_members_of.
Qed.
End broadcast.

(** Two connections of alice, one of bob, one of carol (not a member). *)
Definition demo_hub : Hub :=
  Register 4 (newClient 4 carol (Register 3 (newClient 3 bob
    (Register 2 (newClient 2 alice (Register 1 (newClient 1 alice NewHub))))))).
Lemma demo_hub_ok : hub_ok demo_hub.
Proof.
  unfold demo_hub. apply Register_fresh_ok; [|reflexivity]. apply Register_fresh_ok; [|reflexivity].
  apply Register_fresh_ok; [|reflexivity]. apply Register_fresh_ok; [|reflexivity]. apply hub_init_inv.
Qed.

Lemma deliver_to_members_witness :
  ∃ w', deliverPayload true chat1 "frame" (set_hub demo_hub demo) = (Ok (), w')
  ∧ (c_send <$> h_heap (w_hub w') !! 2%nat) = Some ["frame"]
  ∧ (c_send <$> h_heap (w_hub w') !! 4%nat) = Some [].
Proof.
  assert (is_ok (deliverPayload true chat1 "frame" (set_hub demo_hub demo)).1 = true) as Hok
    by (vm_compute; reflexivity).
  destruct (deliverPayload true chat1 "frame" (set_hub demo_hub demo)) as [[[]|e] w'] eqn:E; [|discriminate Hok].
  exists w'. split; [reflexivity|].
  destruct (deliver_to_members chat1 "frame" (set_hub demo_hub demo) w') as (cid & Hcid & _ & _ & _ & H).
  - apply demo_wf.
  - apply quiet_undisturbed. reflexivity.
  - apply demo_hub_ok.
  - exact E.
  - assert (cid = chat1) as -> by (vm_compute in Hcid; injection Hcid as <-; reflexivity).
    split; [rewrite (H 2%nat (mkClient alice [] [] false)) by reflexivity
           |rewrite (H 4%nat (mkClient carol [] [] false)) by reflexivity]; vm_compute; reflexivity.
Defined.
