(* ===== verification/WsService.v ===== *)
(** * WebSocket events

    internal/service/ws_service.go: the handling of one inbound frame, and
    the read loop of transport/ws/client.go that feeds it. *)

From stdpp Require Import base strings gmap sets list.
From S2P Require Import Prelude GoStrings Json JsonCodec JsonStruct JsonRaw WsEvents Errors Domain Hub Metrics World Repository Credentials Redis Broadcaster MessageService.

Local Open Scope Z_scope.

(** The text of a RawMessage that may be absent. *)
Definition metaOrEmpty (m : option string) : any :=
  match m with Some text => if str_empty text then ARaw "{}" else ARaw text | None => ARaw "{}" end.

(** [map[string]any{"code": code, "message": message}] *)
Definition error_body (code message : string) : any :=
  AValue (JObj [("code", JStr code); ("message", JStr message)]).
Definition error_frame (code message : string) (meta : any) : string :=
  MarshalEnvelope EventError (error_body code message) meta.

Definition wsErrorFrame (err : error) (meta : any) : string :=
  match As err with
  | Some ae => error_frame (ae_Kind ae) (ae_Message ae) meta
  | None => error_frame "internal" (err_text err) meta
  end.

(** The members of the [data] of a frame; [None] when it is absent, not
    an object, or null (which sets nothing). *)
Definition data_members (data : option string) : option (list (string * json)) :=
  text ← data; j ← json_read text; struct_members j.

Section service.
Context {G : UuidGen} {R : RedisServer} {MR : MessageRepository} {CR : ChatRepository}.
(** The message service's writer and metrics; [s.presence] and [s.typing],
    if set, with their Redis repositories; the broadcaster. *)
Variables (writer : option MessageWriter) (metrics : bool).
Variables (presence : option (option bool)) (typing : option bool).
Variables (wired : bool) (pub : option bool).

Definition validation_frame (message : string) (meta : any) : list string :=
  [error_frame "validation_failed" message meta].

Definition handleMessageSend (userID : ID) (data : option string) (meta : any) : M (list string) :=
  let invalid := mret (validation_frame "invalid message.send data" meta) in
  match data_members data with
  | None => invalid
  | Some kvs =>
      let '(chat, ok1) := string_field "chat_id" kvs in
      let '(text, ok2) := string_field "text" kvs in
      let '(reply, ok3) := opt_string_field "reply_to_id" kvs in
      if negb (ok1 && ok2 && ok3) then invalid
      else
        r ← attempt (Create writer metrics userID (TrimSpace chat) (mkCreateMessage text reply));
        match r with
        | Err err => mret [wsErrorFrame err meta]
        | Ok _ => mret []
        end
  end.

Definition handleMessageRead (userID : ID) (data : option string) (meta : any) : M (list string) :=
  let invalid := mret (validation_frame "invalid message.read data" meta) in
  match data_members data with
  | None => invalid
  | Some kvs =>
      let '(mid, ok) := string_field "message_id" kvs in
      if negb ok then invalid
      else
        r ← attempt (MarkRead writer metrics userID (TrimSpace mid));
        match r with
        | Err err => mret [wsErrorFrame err meta]
        | Ok _ => mret []
        end
  end.

(** [if s.typing != nil { _ = s.typing.StopTyping / StartTyping }] *)
Definition update_typing (event : string) (cid userID : ID) : M () :=
  match typing with
  | None => mret ()
  | Some rdb =>
      _ ← attempt (if String.eqb event EventTypingStop then StopTyping rdb cid userID
                   else StartTyping rdb cid userID);
      mret ()
  end.

Definition typing_event (event : string) : string :=
  if String.eqb event EventTypingStop then EventTypingStopped else EventTypingStarted.
Definition typing_payload (cid userID : ID) : json :=
  JObj [("chat_id", JStr cid); ("user_id", JStr userID)].

Definition handleTyping (userID : ID) (event : string) (data : option string) (meta : any) : M (list string) :=
  let invalid := mret (validation_frame "invalid typing payload" meta) in
  match data_members data with
  | None => invalid
  | Some kvs =>
      let '(chat, ok) := string_field "chat_id" kvs in
      if negb ok then invalid
      else
        match parseMsgChatID (TrimSpace chat) with
        | Err err => mret [wsErrorFrame err meta]
        | Ok cid =>
            r ← attempt (chats_FindMembership cid userID);
            match r with
            | Err err =>
                if is_not_found err then mret [error_frame "forbidden" "not a chat member" meta]
                else mret [wsErrorFrame err meta]
            | Ok _ =>
                update_typing event cid userID;;
                _ ← attempt (PublishToChat wired pub cid (typing_event event)
                               (AValue (typing_payload cid userID)) meta);
                mret []
            end
        end
  end.

(** [if s.presence != nil { s.presence.Activity(ctx, userID) }] *)
Definition touch_presence (userID : ID) : M () :=
  match presence with Some repo => Activity repo userID | None => mret () end.

(** The envelope: its event, data and meta, and whether it decoded. *)
Definition read_envelope (payload : string) : string * option string * option string * bool :=
  match raw_struct payload with
  | None => ("", None, None, false)
  | Some (kvs, is_struct) =>
      let '(event, ok) := string_field "event" (members_of_raw kvs) in
      (event, raw_text_field "data" kvs, raw_text_field "meta" kvs, ok && is_struct)
  end.

Definition HandleEvent (userID : ID) (payload : string) : M (list string) :=
  let '(event, data, meta, ok) := read_envelope payload in
  let meta := metaOrEmpty meta in
  if negb ok then mret (validation_frame "invalid json envelope" meta)
  else
    touch_presence userID;;
    if String.eqb event EventPing then mret [MarshalEnvelope EventPong (AValue JEmpty) meta]
    else if String.eqb event EventMessageSend then handleMessageSend userID data meta
    else if String.eqb event EventMessageRead then handleMessageRead userID data meta
    else if String.eqb event EventTypingStart || String.eqb event EventTypingStop then
      handleTyping userID event data meta
    else mret (validation_frame "unknown event" meta).
End service.

(** ** The read loop of a connection *)
Section client.
Context {P : Prometheus}.
Variables (handle : ID → string → M (list string)) (metrics : bool).

Definition on_hub (f : Hub → Hub) : M () := λ w, (Ok (), set_hub (f (w_hub w)) w).

(** The answers go to the connection's queue. *)
Fixpoint queue_all (p : nat) (outs : list string) : M () :=
  match outs with
  | [] => mret ()
  | b :: outs =>
      inc_with_if metrics WSOutbound [EnvelopeEventName b];;
      on_hub (on_client (enqueue b) p);;
      queue_all p outs
  end.

(** One frame; an error of the handler is written past the queue. *)
Definition read_step (p : nat) (userID : ID) (message : string) : M () :=
  inc_with_if metrics WSInbound [EnvelopeEventName message];;
  r ← attempt (handle userID message);
  match r with
  | Err err =>
      inc_with_if metrics WSErrors ["handler"];;
      on_hub (on_client (write_wire (error_frame "internal" (err_text err) ANil)) p)
  | Ok outs => queue_all p outs
  end.

(** [conn.SetReadLimit(maxMessageSize)]: reading a longer frame fails,
    and the loop ends. *)
Definition maxMessageSize : nat := 65536.
Definition read_frame (p : nat) (userID : ID) (message : string) : M bool :=
  if (maxMessageSize <? String.length message)%nat then mret false
  else read_step p userID message;; mret true.

Fixpoint read_loop (p : nat) (userID : ID) (frames : list string) : M () :=
  match frames with
  | [] => mret ()
  | f :: frames => go ← read_frame p userID f; if (go : bool) then read_loop p userID frames else mret ()
  end.

(** The deferred calls, made when the loop ends or panics. *)
Definition end_pump (onDisconnect : ID → M ()) (p : nat) (userID : ID) : M () :=
  onDisconnect userID;;
  on_hub (Unregister p).

(** [readPump] on the frames received until the connection ends. *)
Definition readPump (onDisconnect : ID → M ()) (p : nat) (userID : ID) (frames : list string) : M () :=
  r ← attempt (read_loop p userID frames);
  end_pump onDisconnect p userID;;
  of_result r.
End client.

(** ** The handler

    transport/ws/handler.go.  The WebSocket upgrade is a library call:
    [upgraded] says whether it succeeded. *)
Section handler.
Context {P : Prometheus} {R : RedisServer}.
Variables (tickets : option bool) (presence : option (option bool)) (metrics : bool).

Definition NewHandler_allowed (allowedOrigins : list string) : list string :=
  filter (λ t, str_empty t = false) (TrimSpace <$> allowedOrigins).

Definition originOK (allowed : list string) (origin : string) : bool :=
  if str_empty origin then true
  else if (length allowed =? 0)%nat then false
  else existsb (String.eqb origin) allowed.

(** The response when the connection is not upgraded, or the user and the
    new connection. *)
Inductive ws_outcome : Type :=
| Refused (status : Z) (body : string)
| UpgradeFailed
| Opened (uid : ID) (p : nat).

Definition next_client (h : Hub) : nat := fresh (dom (h_heap h) : gset nat).

(** [newClient] and [hub.Register] *)
Definition register_client (uid : ID) : M nat := λ w,
  let p := next_client (w_hub w) in
  (Ok p, set_hub (Register p (newClient p uid (w_hub w))) w).

Definition connected (uid : ID) : M () :=
  match presence with Some repo => Connected repo uid | None => mret () end.
Definition disconnected (uid : ID) : M () :=
  match presence with Some repo => Disconnected repo uid | None => mret () end.

(** [ServeHTTP] up to the start of the two loops. *)
Definition ServeHTTP (allowed : list string) (origin ticket : string) (upgraded : bool) : M ws_outcome :=
  if negb (originOK allowed (TrimSpace origin)) then mret (Refused 403 "forbidden origin")
  else
    match tickets with
    | None => mret (Refused 503 "ws not configured")
    | Some rdb =>
        let ticket := TrimSpace ticket in
        if str_empty ticket then mret (Refused 401 "missing ticket")
        else
          r ← attempt (Consume rdb ticket);
          match r with
          | Err _ => mret (Refused 401 "invalid or expired ticket")
          | Ok uid =>
              if str_empty uid then mret (Refused 401 "invalid or expired ticket")
              else if negb upgraded then
                inc_with_if metrics WSErrors ["upgrade"];; mret UpgradeFailed
              else
                connected uid;;
                p ← register_client uid;
                mret (Opened uid p)
          end
    end.
End handler.
