(* ===== verification/AuthTheorems.v ===== *)
(** * Theorems on the authentication service

    The service of AuthService over the PostgreSQL repositories: accounts,
    access tokens, and the life of a refresh session, for any bcrypt, JWT
    and random source that satisfy the laws of Credentials. *)

From stdpp Require Import base strings gmap list.
From S2P Require Import Prelude GoStrings Utf8 Regex Uuid Json Errors GoTime Sha256 Domain Hub World Repository PgMessages PgUsers Guarantee Invariant Evolution Laws Calls Membership Scenario WriterTheorems MessageTheorems ChatTheorems Credentials AuthService Toys.

(** ** Access tokens *)
Section tokens.
Context {J : Jwt} {JL : JwtLaws J}.

(** The claims ParseAccessToken answers: the subject where the user_id
    claim is missing. *)
Definition claims_user (c : AccessClaims) : ID :=
  if str_empty (cl_UserID c) then cl_Subject c else cl_UserID c.

(** What ParseAccessToken accepts. *)
Lemma ParseAccessToken_Ok secret tok now c :
  ParseAccessToken secret tok now = Ok c ↔
  secret ≠ "" ∧ tok ≠ "" ∧ ∃ c0,
    jwt_decode tok = Some (SigningMethodHS256, c0) ∧ jwt_verify SigningMethodHS256 secret tok = true
    ∧ claims_valid c0 now = true ∧ claims_user c0 ≠ ""
    ∧ c = (if str_empty (cl_UserID c0)
           then mkClaims (cl_Subject c0) (cl_Subject c0) (cl_IssuedAt c0) (cl_NotBefore c0) (cl_ExpiresAt c0) else c0).
Proof.
  unfold ParseAccessToken, claims_user. destruct (String.eqb_spec secret "") as [|Hs]; [by split; [|intros [? _]]|].
  destruct (String.eqb_spec tok "") as [|Ht]; [by split; [|intros (_ & ? & _)]|].
  split.
  - destruct (jwt_parse _ tok now) as [c0|e] eqn:E; [|done].
    apply jwt_parse_Ok in E as (alg & key & Hdec & Hk & Hver & Hval).
    unfold access_keyfunc in Hk. destruct (String.eqb_spec alg SigningMethodHS256) as [->|]; [|done].
    injection Hk as <-. intros Hc. split_and!; [done..|]. exists c0. split_and!; [done..| |].
    + revert Hc. destruct (String.eqb_spec (cl_UserID c0) "") as [He|He]; [|done]. intros Hc Hsub.
      rewrite Hsub, String.eqb_refl in Hc. cbn in Hc. by rewrite He in Hc.
    + revert Hc. destruct (String.eqb_spec (cl_UserID c0) "") as [He|He]; cbn.
      * destruct (String.eqb_spec (cl_Subject c0) "") as [Hsub|Hsub]; cbn; [by rewrite He|].
        destruct (String.eqb_spec (cl_Subject c0) ""); [done|]. by intros [= <-].
      * destruct (String.eqb_spec (cl_UserID c0) ""); [done|]. by intros [= <-].
  - intros (_ & _ & c0 & Hdec & Hver & Hval & Hu & ->).
    rewrite (proj2 (jwt_parse_Ok (access_keyfunc secret) tok now c0)) by (do 2 eexists; done).
    destruct (String.eqb_spec (cl_UserID c0) "") as [He|He]; cbn.
    + destruct (String.eqb_spec (cl_Subject c0) ""); [done|]. cbn. by destruct (String.eqb_spec (cl_Subject c0) "").
    + by destruct (String.eqb_spec (cl_UserID c0) "").
Qed.

(** C16.  Access tokens: the token made for a user is accepted exactly from
    the second it is made in until it expires, its life in whole seconds,
    and then for that user.  A token is accepted, and for a user, exactly
    when its header names HS256, its signature verifies under the secret,
    the times it carries (exp and nbf; it may lack either) admit the
    moment, and the user is its user_id or, where that is missing, its
    subject, and is not empty. *)
Theorem access_token_correct secret user ttl now tok :
  GenerateAccessToken secret user ttl now = Ok tok → ValidString user = true →
  (0 ≤ numeric_date now ∧ numeric_date (now + ttl) ≤ 2 ^ 53)%Z →
  (∀ now' u, (∃ c, ParseAccessToken secret tok now' = Ok c ∧ cl_UserID c = u) ↔
     (numeric_date now * second ≤ now' < numeric_date (now + ttl) * second)%Z ∧ u = user)
  ∧ (∀ tok' now' u, (∃ c, ParseAccessToken secret tok' now' = Ok c ∧ cl_UserID c = u) ↔
       tok' ≠ "" ∧ u ≠ "" ∧ ∃ c0,
         jwt_decode tok' = Some (SigningMethodHS256, c0) ∧ jwt_verify SigningMethodHS256 secret tok' = true
         ∧ (∀ e, cl_ExpiresAt c0 = Some e → (now' < e * second)%Z)
         ∧ (∀ n, cl_NotBefore c0 = Some n → (n * second ≤ now')%Z)
         ∧ u = if decide (cl_UserID c0 = "") then cl_Subject c0 else cl_UserID c0).
Proof.
  unfold GenerateAccessToken.
  destruct (String.eqb_spec secret "") as [|Hs]; [done|].
  destruct (String.eqb_spec user "") as [|Hu]; [done|].
  destruct (Z.leb_spec ttl 0) as [|Httl]; [done|]. intros Hsign Hvu [Hlo Hhi].
  assert (numeric_date now ≤ numeric_date (now + ttl))%Z as Hle
    by (apply Z.div_le_mono; [done|]; lia).
  split.
  - intros now' u. setoid_rewrite ParseAccessToken_Ok. unfold claims_user.
    pose proof (jwt_token_nonempty _ _ _ Hsign) as Hne. pose proof (jwt_sign_verify _ _ _ Hsign) as Hver.
    apply jwt_sign_decode in Hsign; [|unfold claims_exact, date_exact; simpl; rewrite Hvu, !(proj2 (Z.leb_le _ _)) by lia; done].
    assert (∀ c0, jwt_decode tok = Some (SigningMethodHS256, c0) → cl_UserID c0 = user ∧
              (claims_valid c0 now' = true ↔ (numeric_date now * second ≤ now' < numeric_date (now + ttl) * second)%Z)) as Hc.
    { intros c0. rewrite Hsign. intros [= <-]. split; [done|]. unfold claims_valid. simpl.
      rewrite andb_true_iff, Z.ltb_lt, Z.leb_le. tauto. }
    split.
    + intros (c & (_ & _ & c0 & Hdec & _ & Hval & _ & ->) & <-). destruct (Hc c0 Hdec) as [Huser Hiff].
      split; [by apply Hiff|]. rewrite Huser. by destruct (String.eqb_spec user "").
    + intros [Hn ->]. eexists. split; [split_and!; [done..|]; eexists; split_and!; [done|done|by apply (Hc _ Hsign)|..]|].
      * simpl. by destruct (String.eqb_spec user "").
      * done.
      * simpl. by destruct (String.eqb_spec user "").
  - intros tok' now' u. setoid_rewrite ParseAccessToken_Ok. unfold claims_user.
    assert (∀ c0, claims_valid c0 now' = true ↔ (∀ e, cl_ExpiresAt c0 = Some e → (now' < e * second)%Z)
              ∧ (∀ n, cl_NotBefore c0 = Some n → (n * second ≤ now')%Z)) as Hval.
    { intros c0. unfold claims_valid. rewrite andb_true_iff.
      destruct (cl_ExpiresAt c0), (cl_NotBefore c0); rewrite ?Z.ltb_lt, ?Z.leb_le; naive_solver. }
    setoid_rewrite Hval. split.
    + intros (c & (_ & Ht & c0 & ? & ? & [? ?] & Hne & ->) & <-). destruct (String.eqb_spec (cl_UserID c0) "") as [He|He].
      * cbn. split_and!; [done..|]. exists c0. by rewrite decide_True.
      * split_and!; [done..|]. exists c0. by rewrite decide_False.
    + intros (Ht & Hne & c0 & ? & ? & ? & ? & ->). destruct (decide _) as [He|He]; (eexists; split; [split_and!;
        [done..|]; exists c0; split_and!; try done|]).
      * by rewrite He.
      * by rewrite He.
      * by destruct (String.eqb_spec (cl_UserID c0) "").
      * by destruct (String.eqb_spec (cl_UserID c0) "").
Qed.
End tokens.

(** ** The requests of the service *)
Inductive auth_request : Type :=
| ARegister (req : RegisterRequest)
| ALogin (req : LoginRequest)
| ARefresh (refreshPlain : string)
| ALogout (refreshPlain : string)
| ALogoutAll (userID : ID).

Section requests.
Context {G : UuidGen} {B : Bcrypt} {J : Jwt} {RD : Rand} {UR : UserRepository} {SR : SessionRepository}.
Variable cfg : JWTConfig.

Definition run_auth (meta : ClientMeta) (req : auth_request) : M () :=
  match req with
  | ARegister r => _ ← Register cfg r meta; mret ()
  | ALogin r => _ ← Login cfg r meta; mret ()
  | ARefresh plain => _ ← Refresh cfg plain meta; mret ()
  | ALogout plain => Logout plain
  | ALogoutAll user => LogoutAll user
  end.

(** *** Guarantees, against the interfaces *)
Context {GL : UuidGenLaws G} (R : relation DB) {HR : Guarantee R}.
Context {UL : UserLaws R UR} {SL : SessionLaws R SR}.

Lemma hash_password_neutral p : neutral (hash_password p).
Proof. intros R' HR' w r w' Hw [= <- <-]. split; [reflexivity|by intros P]. Qed.
Lemma newRefreshPlain_neutral : neutral newRefreshPlain.
Proof.
  intros R' HR'. unfold newRefreshPlain. apply guar_bind; [|intros; apply guar_ret].
  intros w r w' Hw [= <- <-]. split; [reflexivity|by intros P].
Qed.
Lemma newAccessToken_neutral u : neutral (newAccessToken cfg u).
Proof. intros R' HR'. unfold newAccessToken. guar_tac. Qed.
Lemma refresh_ttl_neutral : neutral (refresh_ttl cfg).
Proof. intros R' HR'. unfold refresh_ttl. guar_tac. Qed.
Lemma require_absent_neutral {A} (l : M A) c what : neutral l → neutral (require_absent l c what).
Proof. intros Hl R' HR'. unfold require_absent. apply guar_bind; [by apply guar_attempt, Hl|]. intros [x|e]; guar_tac. Qed.

Ltac auth_part :=
  first [ law_tac
        | apply neutral_guar; [assumption|];
          first [ apply hash_password_neutral | apply newRefreshPlain_neutral | apply newAccessToken_neutral
                | apply refresh_ttl_neutral ] ].

Lemma issueTokens_guar u meta : guar R (issueTokens cfg u meta).
Proof. unfold issueTokens. guar_tac; auth_part. Qed.

Lemma run_auth_guar meta req : guar R (run_auth meta req).
Proof.
  destruct req; simpl; try (apply guar_bind; [|intros; apply guar_ret]).
  - unfold Register. apply guar_bind; [apply guar_of_result|intros _].
    apply guar_bind; [apply require_absent_neutral; [eapply law_users_GetByEmail; eassumption|done]|intros _].
    apply guar_bind; [apply require_absent_neutral; [eapply law_users_GetByNickname; eassumption|done]|intros _].
    guar_tac; try auth_part. apply issueTokens_guar.
  - unfold Login. guar_tac; try auth_part. apply issueTokens_guar.
  - unfold Refresh. guar_tac; auth_part.
  - unfold Logout. guar_tac; auth_part.
  - unfold LogoutAll. guar_tac; auth_part.
Qed.
End requests.

(** ** Accounts and sessions in the tables *)
Section service.
Context {G : UuidGen} {GL : UuidGenLaws G} {B : Bcrypt} {J : Jwt} {RD : Rand}.
Variable cfg : JWTConfig.

Lemma by_email_is email ctx d :
  (select_user_by_email email ctx d).2 = d ∧
  ((select_user_by_email email ctx d).1
     = match select1 (email_is email) (db_users d) with Some a => Ok a | None => Err ErrNoRows end
   ∨ ∃ e, (select_user_by_email email ctx d).1 = Err e ∧ is_not_found (mapErr e) = false).
Proof.
  unfold select_user_by_email, text_param, fail_when, mbind, eff_bind. destruct (negb _); simpl.
  - split; [done|]. right. by eexists.
  - destruct (select1 _ _); (split; [done|by left]).
Qed.
Lemma by_nickname_is nick ctx d :
  (select_user_by_nickname nick ctx d).2 = d ∧
  ((select_user_by_nickname nick ctx d).1
     = match select1 (nickname_is nick) (db_users d) with Some a => Ok a | None => Err ErrNoRows end
   ∨ ∃ e, (select_user_by_nickname nick ctx d).1 = Err e ∧ is_not_found (mapErr e) = false).
Proof.
  unfold select_user_by_nickname, text_param, fail_when, mbind, eff_bind. destruct (negb _); simpl.
  - split; [done|]. right. by eexists.
  - destruct (select1 _ _); (split; [done|by left]).
Qed.
Lemma select_session_is h now ctx d :
  (select_session h now ctx d).2 = d ∧
  ((select_session h now ctx d).1
     = match select1 (session_is h (pg_time now)) (db_sessions d) with Some a => Ok a | None => Err ErrNoRows end
   ∨ ∃ e, (select_session h now ctx d).1 = Err e ∧ is_not_found (mapErr e) = false).
Proof. unfold select_session, mbind, eff_bind. simpl. destruct (select1 _ _); (split; [done|by left]). Qed.

(** A session opened: one new row, the digest of a fresh token. *)
Definition session_opened (user : ID) (hash : string) (meta : ClientMeta) (expires : Time) (d d' : DB) : Prop :=
  ∃ id u now,
    canonical id ∧ uuid_in user = Some u ∧ in_dom (db_users d) u ∧ db_sessions d !! id = None
    ∧ (∀ k s, db_sessions d !! k = Some s → sess_TokenHash s ≠ hash)
    ∧ d' = set_sessions
             (<[id := mkSession id u hash (strOrNil (meta_UserAgent meta)) (strOrNil (trimIP (meta_IP meta)))
                        (pg_time expires) now None]> (db_sessions d)) d.

Lemma insert_session_opened user hash meta expires ctx d s d' :
  canonical (sc_id ctx) →
  insert_session (new_session user hash meta expires) ctx d = (Ok s, d') →
  session_opened user hash meta expires d d'.
Proof.
  intros Hid H. unfold insert_session in H. stmt_inv. simpl in *.
  match goal with H : cast_uuid _ = Ok _ |- _ => apply cast_uuid_Ok in H end.
  do 3 eexists. split_and!; try done.
  intros k s' Hk. apply String.eqb_neq.
  match goal with H : select1 _ _ = None |- _ => by apply (select1_None _ _ k s' H) end.
Qed.

(** A sequence of steps that do not touch the database. *)
Lemma newAccessToken_Ok user w tok w' :
  newAccessToken cfg user w = (Ok tok, w') →
  w' = w ∧ GenerateAccessToken (TrimSpace (jwt_Secret cfg)) user
             (duration_seconds (jwt_AccessTTLSeconds cfg)) (w_now w) = Ok tok.
Proof. unfold newAccessToken. intros H. apply bind_Ok_inv in H as (now & w1 & [= <- <-] & H). by go_inv. Qed.
Lemma newRefreshPlain_Ok w p w' :
  newRefreshPlain w = (Ok p, w') → w' = bump_rand w ∧ p = hex_encode (rand_block (w_rand w)).
Proof. unfold newRefreshPlain. intros H. apply bind_Ok_inv in H as (b & w1 & [= <- <-] & H). by go_inv. Qed.
Lemma refresh_ttl_Ok w t w' : refresh_ttl cfg w = (Ok t, w') → w' = w ∧ t = duration_seconds (jwt_RefreshTTLSeconds cfg).
Proof. unfold refresh_ttl. intros H. by go_inv. Qed.

(** The pair a request answers: an access token of the user, made now, and
    a fresh refresh token. *)
Definition pair_for (user : ID) (w : World) (tp : TokenPair) : Prop :=
  GenerateAccessToken (TrimSpace (jwt_Secret cfg)) user
    (duration_seconds (jwt_AccessTTLSeconds cfg)) (w_now w) = Ok (tp_AccessToken tp)
  ∧ tp_RefreshToken tp = hex_encode (rand_block (w_rand w))
  ∧ tp_ExpiresIn tp = jwt_AccessTTLSeconds cfg ∧ tp_TokenType tp = "Bearer".

Definition refresh_expiry (w : World) : Time := (w_now w + duration_seconds (jwt_RefreshTTLSeconds cfg))%Z.

Lemma issueTokens_Ok user meta w tp w' :
  undisturbed w → issueTokens cfg user meta w = (Ok tp, w') →
  undisturbed w' ∧ pair_for user w tp
  ∧ session_opened user (hashRefreshToken (tp_RefreshToken tp)) meta (refresh_expiry w) (w_db w) (w_db w').
Proof.
  intros Hw H. unfold issueTokens in H. cbv zeta in H. go_inv.
  match goal with H : newAccessToken _ _ _ = _ |- _ => apply newAccessToken_Ok in H as [-> Hacc] end.
  match goal with H : newRefreshPlain _ = _ |- _ => apply newRefreshPlain_Ok in H as [-> ->] end.
  match goal with H : refresh_ttl _ _ = _ |- _ => apply refresh_ttl_Ok in H as [-> ->] end.
  match goal with H : time_now _ = _ |- _ => injection H as <- <- end.
  match goal with H : sessions_Create _ _ = _ |- _ => rename H into Hc end.
  apply call_Ok in Hc as (Hw' & now & id & Hid & _ & _ & Hc); [|done].
  split; [done|]. split; [by split_and!|]. by eapply insert_session_opened in Hc.
Qed.

Lemma hash_password_Ok p w h w' :
  hash_password p w = (Ok h, w') → w' = bump_rand w ∧ bcrypt_generate (w_rand w) p = Ok h.
Proof.
  unfold hash_password, HashPassword. intros [= H <-]. split; [done|].
  destruct (str_empty p); [done|]. destruct (bcrypt_generate _ _); [by injection H as <-|done].
Qed.

Lemma require_absent_Ok f row c what w u w' :
  (∀ ctx d, (f ctx d).2 = d ∧
     ((f ctx d).1 = match row d with Some a => Ok a | None => Err ErrNoRows end
      ∨ ∃ e, (f ctx d).1 = Err e ∧ is_not_found (mapErr e) = false)) →
  undisturbed w → require_absent (A := User) (call f ?! mapErr) c what w = (Ok u, w') →
  undisturbed w' ∧ w_db w' = w_db w ∧ row (w_db w) = None.
Proof.
  intros Hf Hw H. unfold require_absent in H. apply bind_Ok_inv in H as (r & w1 & Hr & H).
  unfold attempt in Hr. destruct ((call f ?! mapErr) w) as [[x|e] w2] eqn:E; injection Hr as <- <-; [done|].
  apply (lookup_Err _ _ Hf) in E as (? & ? & Hn); [|done]. go_inv.
  match goal with H : negb _ = false |- _ => apply negb_false_iff in H end. auto.
Qed.

(** An account created: one new row. *)
Definition account_created (email nick hash id : ID) (d d' : DB) : Prop :=
  canonical id ∧ db_users d !! id = None
  ∧ (∀ k u, db_users d !! k = Some u → pg_lower (user_Email u) ≠ pg_lower email)
  ∧ ∃ now, d' = set_users (<[id := mkUser id email hash nick None None None now now None true]> (db_users d)) d.

(** C17.  Registration: a request that succeeds has valid credentials, an
    email and a nickname that nobody has, whatever their case; it creates
    the account, with a bcrypt hash of the password, and one session for
    it, and answers the account and a pair of tokens for it. *)
Theorem register_correct req meta w resp w' :
  undisturbed w → Register cfg req meta w = (Ok resp, w') →
  let email := normalize_email (rr_Email req) in
  let nick := TrimSpace (rr_Nickname req) in
  validateCredentials email nick (rr_Password req) = Ok ()
  ∧ (∀ k u, db_users (w_db w) !! k = Some u → pg_lower (user_Nickname u) ≠ pg_lower nick)
  ∧ ∃ id salt hash d1 w1,
      bcrypt_generate salt (rr_Password req) = Ok hash
      ∧ account_created email nick hash id (w_db w) d1
      ∧ pair_for id w1 (ar_Tokens resp)
      ∧ session_opened id (hashRefreshToken (tp_RefreshToken (ar_Tokens resp))) meta (refresh_expiry w1) d1 (w_db w')
      ∧ ar_User resp = mkUserPublic id email nick.
Proof.
  intros Hw H. unfold Register in H. cbv zeta in H. go_inv.
  match goal with H : validateCredentials _ _ _ = Ok ?u |- _ => rename H into Hv; destruct u end.
  match goal with H : require_absent (users_GetByEmail _) _ _ _ = _ |- _ =>
    apply (require_absent_Ok _ _ _ _ _ _ _ (by_email_is _)) in H as (Hw1 & Hd1 & _); [|done] end.
  match goal with H : require_absent (users_GetByNickname _) _ _ _ = _ |- _ =>
    apply (require_absent_Ok _ _ _ _ _ _ _ (by_nickname_is _)) in H as (Hw2 & Hd2 & Hnick); [|done] end.
  match goal with H : hash_password _ _ = _ |- _ => apply hash_password_Ok in H as [-> Hhash] end.
  match goal with H : users_Create _ _ = _ |- _ => rename H into Hc end.
  apply call_Ok in Hc as (Hw3 & now & id & Hid & _ & _ & Hc); [|done].
  match goal with H : issueTokens _ _ _ _ = _ |- _ => apply issueTokens_Ok in H as (_ & Hpair & Hopen); [|done] end.
  unfold insert_user in Hc. stmt_inv. injection Hc as <- Hd8. simpl in *. rewrite Hd2, Hd1 in *.
  split; [done|]. split.
  { intros k u Hk. apply String.eqb_neq. by apply (select1_None _ _ k u Hnick). }
  do 5 eexists. split; [exact Hhash|]. split; [|split; [exact Hpair|split; [exact Hopen|done]]].
  split_and!; [exact Hid|done| |by exists (pg_time now)].
  intros k u Hk. apply String.eqb_neq.
  match goal with H : select1 _ _ = None |- _ => by apply (select1_None _ _ k u H) end.
Qed.

(** C18.  Login: a request that succeeds names the email of an active
    account, whatever its case, with a password bcrypt accepts for the
    account's hash; it only adds a session for that account, and answers
    the account and a pair of tokens for it. *)
Theorem login_correct req meta w resp w' :
  undisturbed w → wf (w_db w) → Login cfg req meta w = (Ok resp, w') →
  ∃ k u w1,
    db_users (w_db w) !! k = Some u
    ∧ pg_lower (user_Email u) = pg_lower (normalize_email (lr_Email req))
    ∧ user_IsActive u = true ∧ bcrypt_compare (user_PasswordHash u) (lr_Password req) = Ok ()
    ∧ pair_for k w1 (ar_Tokens resp)
    ∧ session_opened k (hashRefreshToken (tp_RefreshToken (ar_Tokens resp))) meta (refresh_expiry w1)
        (w_db w) (w_db w')
    ∧ ar_User resp = user_public u.
Proof.
  intros Hw Hwf H. unfold Login in H. cbv zeta in H. go_inv.
  match goal with H : users_GetByEmail _ _ = (Ok ?u, ?w1) |- _ => rename H into Hu; rename u into usr end.
  match goal with H : issueTokens _ _ _ _ = _ |- _ => rename H into Hiss end.
  apply (lookup_Ok _ _ (by_email_is _)) in Hu as (Hw1 & Hd1 & Hs); [|done].
  apply issueTokens_Ok in Hiss as (_ & Hpair & Hopen); [|done].
  apply select1_Some in Hs as (He & k & Hk). apply String.eqb_eq in He.
  destruct (wf_users _ Hwf _ _ Hk) as [Hid _]. rewrite Hid, Hd1 in *.
  match goal with H : ComparePassword _ _ = Ok ?u |- _ => rename H into Hcmp; destruct u end.
  do 3 eexists. split_and!; try done.
  - by match goal with H : negb (user_IsActive _) = false |- _ => apply negb_false_iff in H end.
  - unfold ComparePassword in Hcmp. destruct (str_empty (user_PasswordHash usr)); [done|].
    destruct (bcrypt_compare (user_PasswordHash usr) (lr_Password req)) as [[]|]; done.
Qed.

(** ** Refresh sessions *)

(** No valid session has the digest. *)
Definition dead (h : string) (now : Time) (d : DB) : Prop :=
  ∀ k s, db_sessions d !! k = Some s → sess_TokenHash s = h → session_valid now s = false.
(** The session of the digest is revoked: it will never be valid again. *)
Definition revoked (h : string) (d : DB) : Prop :=
  ∃ k s, db_sessions d !! k = Some s ∧ sess_TokenHash s = h ∧ is_Some (sess_RevokedAt s).

Lemma revoked_evolves h d d' : revoked h d → evolves d d' → revoked h d'.
Proof.
  intros (k & s & Hk & Hh & Hr) He. destruct (ev_sessions _ _ He _ _ Hk) as (s' & Hk' & [->|(t & ->)]).
  - by exists k, s.
  - exists k, (set_revoked t s). split_and!; [done..|by eexists].
Qed.

Lemma revoked_dead h now d : wf d → revoked h d → dead h now d.
Proof.
  intros Hwf (k & s & Hk & Hh & Hr) k' s' Hk' Hh'.
  assert (k' = k) as -> by (eapply (wf_hashes _ Hwf); [exact Hk'|exact Hk|unfold hash_key; by rewrite Hh'|unfold hash_key; by rewrite Hh]).
  simplify_eq. unfold session_valid. by destruct Hr as [t ->].
Qed.

Lemma dead_select h now d : dead h now d → select1 (session_is h now) (db_sessions d) = None.
Proof.
  intros Hdead. destruct (select1 _ _) as [s|] eqn:E; [|done].
  apply select1_Some in E as (Hs & k & Hk). unfold session_is in Hs. apply andb_true_iff in Hs as [Hh Hv].
  apply String.eqb_eq in Hh. by rewrite (Hdead k s Hk Hh) in Hv.
Qed.

(** The lookup of the session of a token. *)
Lemma GetByTokenHash_Ok h w s w' :
  undisturbed w → sessions_GetByTokenHash h w = (Ok s, w') →
  undisturbed w' ∧ w_db w' = w_db w
  ∧ select1 (session_is h (pg_time (w_now w))) (db_sessions (w_db w)) = Some s.
Proof.
  intros Hw H. simpl in H. unfold pg_GetByTokenHash in H. apply bind_Ok_inv in H as (now & w1 & [= <- <-] & H).
  by apply (lookup_Ok _ _ (select_session_is _ _)) in H as (? & ? & ?).
Qed.

(** A token without a valid session is refused, and changes nothing. *)
Lemma dead_lookup_refused h {A} (k : RefreshSession → M A) f w :
  undisturbed w → dead h (pg_time (w_now w)) (w_db w) →
  refused ((sessions_GetByTokenHash h ?! f) ≫= k) w.
Proof.
  intros Hw Hdead. apply refused_first. intros r w' H.
  destruct r as [s|e].
  - exfalso. apply map_err_Ok_inv, GetByTokenHash_Ok in H as (_ & _ & Hs); [|done].
    by rewrite dead_select in Hs.
  - assert (neutral (map_err f (sessions_GetByTokenHash h))) as Hn
      by (apply neutral_map_err; intros R HR; by apply (law_sessions_GetByTokenHash evolves)).
    apply (neutral_run _ _ _ _ Hn Hw) in H as [-> _]. eauto.
Qed.

Lemma refresh_dead_refused plain meta w :
  undisturbed w → dead (hashRefreshToken (TrimSpace plain)) (pg_time (w_now w)) (w_db w) →
  refused (Refresh cfg plain meta) w.
Proof.
  intros Hw Hdead. unfold Refresh. cbv zeta.
  apply refused_bind; [apply fail_when_neutral|done|]. intros _ w1 [_ ->]%fail_when_Ok_inv _ _.
  by apply dead_lookup_refused.
Qed.
Lemma logout_dead_refused plain w :
  undisturbed w → dead (hashRefreshToken (TrimSpace plain)) (pg_time (w_now w)) (w_db w) →
  refused (Logout plain) w.
Proof.
  intros Hw Hdead. unfold Logout. cbv zeta.
  apply refused_bind; [apply fail_when_neutral|done|]. intros _ w1 [_ ->]%fail_when_Ok_inv _ _.
  by apply dead_lookup_refused.
Qed.

(** A revoked token stays refused, however the tables evolve. *)
Lemma revoked_refused plain meta d w :
  revoked (hashRefreshToken (TrimSpace plain)) d → evolves d (w_db w) → wf (w_db w) → undisturbed w →
  refused (Refresh cfg plain meta) w.
Proof.
  intros Hr He Hwf Hw. apply refresh_dead_refused; [done|]. apply revoked_dead; [done|].
  by eapply revoked_evolves.
Qed.

Lemma session_row d k s :
  wf d → db_sessions d !! k = Some s → sess_ID s = k ∧ canonical k.
Proof. intros Hwf Hk. by destruct (wf_sessions _ Hwf _ _ Hk) as (? & ? & _). Qed.

Lemma session_unique d h now1 now2 s1 s2 :
  wf d → select1 (session_is h now1) (db_sessions d) = Some s1 →
  select1 (session_is h now2) (db_sessions d) = Some s2 → s1 = s2.
Proof.
  intros Hwf (Hs1 & k1 & Hk1)%select1_Some (Hs2 & k2 & Hk2)%select1_Some.
  unfold session_is in *. apply andb_true_iff in Hs1 as [Hh1 _], Hs2 as [Hh2 _].
  apply String.eqb_eq in Hh1, Hh2.
  assert (k1 = k2) as -> by (eapply (wf_hashes _ Hwf); [exact Hk1|exact Hk2|by unfold hash_key; rewrite Hh1|by unfold hash_key; rewrite Hh2]).
  congruence.
Qed.

Lemma rotate_refresh_tx_Ok h new w s' w' s now :
  wf (w_db w) → select1 (session_is h now) (db_sessions (w_db w)) = Some s →
  rotate_refresh_tx h new w = (Ok s', w') →
  ∃ t ctx d1, canonical (sc_id ctx)
    ∧ d1 = set_sessions (<[sess_ID s := set_revoked t s]> (db_sessions (w_db w))) (w_db w)
    ∧ insert_session new ctx d1 = (Ok s', w_db w').
Proof.
  intros Hwf Hs H. unfold rotate_refresh_tx in H. go_inv.
  match goal with H : tx_call (select_session_for_update _) _ = _ |- _ => rename H into SH1 end.
  match goal with H : tx_call (set_session_revoked _) _ = _ |- _ => rename H into SH2 end.
  apply tx_call_Ok in SH1 as (? & SH1 & _), SH2 as (? & SH2 & _). apply tx_call_Ok in H as (? & H & _).
  unfold select_session_for_update in SH1. go_inv. apply scan_row_Ok in SH1 as [Hid Hd1].
  destruct (select1 _ _) as [s2|] eqn:E in Hid; [|done]. injection Hid as Hid.
  pose proof (session_unique _ _ _ _ _ _ Hwf Hs E) as <-.
  apply select1_Some in Hs as (_ & k & Hk). destruct (session_row _ _ _ Hwf Hk) as [Hk1 Hcan].
  unfold set_session_revoked in SH2. stmt_inv.
  match goal with H : cast_uuid _ = Ok _ |- _ => apply cast_uuid_Ok in H; rewrite <- Hid, Hk1, uuid_in_canonical in H by done; injection H as <- end.
  injection SH2 as _ Hd2. rewrite Hd1 in Hd2. do 3 eexists. split; [|split; [reflexivity|]].
  2: { rewrite Hk1, <- (alter_alt_Some _ _ _ _ Hk), Hd2. exact H. }
  apply gen_uuid_canonical.
Qed.

(** C19.  A refresh token works once: after a refresh that succeeds, its
    session is revoked, exactly one session of the same user is added,
    that of the new token, and nothing else changes; and however the
    tables evolve from there, the old token is refused. *)
Theorem refresh_single_use plain meta w tp w' :
  undisturbed w → wf (w_db w) → Refresh cfg plain meta w = (Ok tp, w') →
  let h := hashRefreshToken (TrimSpace plain) in
  (∃ k s t w1,
     db_sessions (w_db w) !! k = Some s ∧ sess_TokenHash s = h ∧ session_valid (pg_time (w_now w)) s = true
     ∧ pair_for (sess_UserID s) w1 tp
     ∧ session_opened (sess_UserID s) (hashRefreshToken (tp_RefreshToken tp)) meta (refresh_expiry w1)
         (set_sessions (<[k := set_revoked t s]> (db_sessions (w_db w))) (w_db w)) (w_db w'))
  ∧ ∀ w2 meta' r w3, evolves (w_db w') (w_db w2) → wf (w_db w2) → undisturbed w2 →
      Refresh cfg plain meta' w2 = (r, w3) → is_ok r = false ∧ w_db w3 = w_db w2.
Proof.
  intros Hw Hwf H. unfold Refresh in H. cbv zeta in H. go_inv. intros h.
  match goal with H : sessions_GetByTokenHash _ _ = (Ok ?x, ?y) |- _ =>
    rename H into Hget; rename x into s; rename y into wa end.
  apply GetByTokenHash_Ok in Hget as (Hwa & Hda & Hs); [|done].
  match goal with H : newAccessToken _ _ _ = _ |- _ => apply newAccessToken_Ok in H as [-> Hacc] end.
  match goal with H : newRefreshPlain _ = _ |- _ => apply newRefreshPlain_Ok in H as [-> ->] end.
  match goal with H : refresh_ttl _ _ = _ |- _ => apply refresh_ttl_Ok in H as [-> ->] end.
  match goal with H : time_now _ = _ |- _ => injection H as <- <- end.
  match goal with H : sessions_RotateRefresh _ _ _ = _ |- _ => rename H into Hrot end.
  apply transaction_Ok in Hrot as (w2 & Hrot & Hd2).
  assert (w_db (next_event (bump_rand wa)).2 = w_db w) as Hd1 by (by rewrite next_event_db).
  rewrite <- Hd1 in Hs, Hwf. pose proof (rotate_refresh_tx_Ok _ _ _ _ _ _ _ Hwf Hs Hrot) as (t & ctx & d1 & Hid & -> & Hins).
  rewrite <- Hd2 in Hins. apply insert_session_opened in Hins; [|done].
  rewrite Hd1 in *. apply select1_Some in Hs as (Hh & k & Hk). destruct (session_row _ _ _ Hwf Hk) as [Hk1 _].
  rewrite Hk1 in Hins. unfold session_is in Hh. apply andb_true_iff in Hh as [Hh Hv]. apply String.eqb_eq in Hh.
  split; [by exists k, s, t, wa|].
  intros w3 meta' r w4 He Hwf3 Hw3 Hrun.
  assert (refused (Refresh cfg plain meta') w3) as Hr.
  { eapply revoked_refused; [|exact He|done..].
    destruct Hins as (id & u & now & _ & _ & _ & Hfresh & _ & Hd). simpl in Hfresh.
    exists k, (set_revoked t s). split_and!; [|done|by eexists].
    rewrite Hd. simpl. rewrite lookup_insert_ne; [by rewrite lookup_insert_eq|].
    intros ->. by rewrite lookup_insert_eq in Hfresh. }
  apply Hr in Hrun as [[e ->] ?]. done.
Qed.

Lemma pg_Revoke_Ok id w u w' :
  undisturbed w → canonical id → pg_Revoke id w = (Ok u, w') →
  ∃ s t, db_sessions (w_db w) !! id = Some s ∧ unrevoked s = true
    ∧ w_db w' = set_sessions (<[id := set_revoked t s]> (db_sessions (w_db w))) (w_db w).
Proof.
  intros Hw Hc H. apply call_Ok in H as (_ & now & i & _ & _ & _ & H); [|done].
  unfold revoke_session in H. go_inv.
  match goal with H : cast_uuid _ = Ok _ |- _ => apply cast_uuid_Ok in H; rewrite uuid_in_canonical in H by done; injection H as <- end.
  destruct (db_sessions (w_db w) !! id) as [s|] eqn:E; [|done]. destruct (unrevoked s) eqn:Eu; [|done].
  injection H as _ <-. by exists s, (pg_time now).
Qed.

(** C20.  Logout: a request that succeeds revokes the session of the
    token, which was valid, and nothing else; the token is revoked, and
    however the tables evolve from there, it is refused. *)
Theorem logout_correct plain meta w w' :
  undisturbed w → wf (w_db w) → Logout plain w = (Ok (), w') →
  let h := hashRefreshToken (TrimSpace plain) in
  (∃ k s t,
     db_sessions (w_db w) !! k = Some s ∧ sess_TokenHash s = h ∧ session_valid (pg_time (w_now w)) s = true
     ∧ w_db w' = set_sessions (<[k := set_revoked t s]> (db_sessions (w_db w))) (w_db w))
  ∧ revoked h (w_db w')
  ∧ ∀ w2 r w3, evolves (w_db w') (w_db w2) → wf (w_db w2) → undisturbed w2 →
      Refresh cfg plain meta w2 = (r, w3) → is_ok r = false ∧ w_db w3 = w_db w2.
Proof.
  intros Hw Hwf H. unfold Logout in H. cbv zeta in H. go_inv. intros h.
  match goal with H : sessions_GetByTokenHash _ _ = (Ok ?x, ?y) |- _ =>
    rename H into Hget; rename x into s; rename y into wa end.
  apply GetByTokenHash_Ok in Hget as (Hwa & Hda & Hs); [|done].
  apply select1_Some in Hs as (Hh & k & Hk). destruct (session_row _ _ _ Hwf Hk) as [Hk1 Hcan].
  rewrite Hk1 in H. apply pg_Revoke_Ok in H as (s' & t & Hs' & _ & Hd); [|done..].
  rewrite Hda in *. simplify_eq.
  unfold session_is in Hh. apply andb_true_iff in Hh as [Hh Hv]. apply String.eqb_eq in Hh.
  split; [by exists (sess_ID s), s, t|].
  assert (revoked h (w_db w')) as Hrev.
  { exists (sess_ID s), (set_revoked t s).
    rewrite Hd. simpl. rewrite lookup_insert_eq. split_and!; [done..|by eexists]. }
  split; [done|]. intros w2 r w3 He Hwf3 Hw3 Hrun.
  assert (refused (Refresh cfg plain meta) w2) as Hr by (by eapply revoked_refused; [|exact He|..]).
  apply Hr in Hrun as [[e ->] ?]. done.
Qed.

(** C21.  Logging out everywhere: a request that succeeds revokes every
    session of the user that was not revoked, and touches no other row;
    every refresh token of the user is refused from then on. *)
Theorem logout_all_correct user meta w w' :
  undisturbed w → wf (w_db w) → LogoutAll user w = (Ok (), w') →
  ∃ u, uuid_in user = Some u
  ∧ (∀ k s, db_sessions (w_db w) !! k = Some s →
       ∃ s', db_sessions (w_db w') !! k = Some s'
         ∧ (sess_UserID s = u → is_Some (sess_RevokedAt s'))
         ∧ (sess_UserID s ≠ u ∨ is_Some (sess_RevokedAt s) → s' = s))
  ∧ w_db w' = set_sessions (db_sessions (w_db w')) (w_db w)
  ∧ ∀ k s plain w2 r w3,
      db_sessions (w_db w) !! k = Some s → sess_UserID s = u →
      sess_TokenHash s = hashRefreshToken (TrimSpace plain) →
      revoked (hashRefreshToken (TrimSpace plain)) (w_db w') ∧ (
      evolves (w_db w') (w_db w2) → wf (w_db w2) → undisturbed w2 →
      Refresh cfg plain meta w2 = (r, w3) → is_ok r = false ∧ w_db w3 = w_db w2).
Proof.
  intros Hw Hwf H. unfold LogoutAll in H. go_inv.
  apply call_Ok in H as (_ & now & i & _ & _ & _ & H); [|done].
  unfold revoke_user_sessions in H. go_inv.
  match goal with H : cast_uuid _ = Ok ?x |- _ => apply cast_uuid_Ok in H; rename x into u end.
  injection H as Hd. exists u. split; [done|].
  assert (∀ k s, db_sessions (w_db w) !! k = Some s →
    ∃ s', db_sessions (w_db w') !! k = Some s'
         ∧ (sess_UserID s = u → is_Some (sess_RevokedAt s'))
         ∧ sess_TokenHash s' = sess_TokenHash s
         ∧ (sess_UserID s ≠ u ∨ is_Some (sess_RevokedAt s) → s' = s)) as Hrows.
  { intros k s Hk. rewrite <- Hd. simpl. rewrite lookup_fmap, Hk. simpl. eexists. split; [done|].
    unfold unrevoked. destruct (String.eqb_spec (sess_UserID s) u), (sess_RevokedAt s) eqn:Er; simpl; rewrite ?Er;
      split_and!; try done; intros; try by eexists. destruct_or?; [done|]. by destruct H0. }
  split_and!.
  - intros k s (s' & ? & ? & ? & ?)%Hrows. eauto.
  - by rewrite <- Hd.
  - intros k s plain w2 r w3 Hk Hu Hh.
    destruct (Hrows k s Hk) as (s' & Hk' & Hr' & Hh' & _).
    assert (revoked (hashRefreshToken (TrimSpace plain)) (w_db w')) as Hrev
      by (exists k, s'; split_and!; [done|congruence|auto]).
    split; [done|]. intros He Hwf3 Hw3 Hrun.
    assert (refused (Refresh cfg plain meta) w2) as Hr by (by eapply revoked_refused; [|exact He|..]).
    apply Hr in Hrun as [[e ->] ?]. done.
Qed.

Lemma GetByEmail_quiet email w :
  quiet w → text_ok email = true →
  pg_GetByEmail email w
  = (match select1 (email_is email) (db_users (w_db w)) with Some u => Ok u | None => Err ErrNotFound end, bump_ids w).
Proof.
  intros Hq Ht. unfold pg_GetByEmail, map_err. rewrite call_quiet by done.
  unfold select_user_by_email, text_param, opt_ok. rewrite Ht.
  unfold mbind, eff_bind. simpl. destruct (select1 _ _); [|done]. simpl. by destruct w as [[]].
Qed.

(** The accounts of an email, whatever its case: there is at most one. *)
Definition account_of (email : string) (d : DB) (u : User) : Prop :=
  ∃ k, db_users d !! k = Some u ∧ pg_lower (user_Email u) = pg_lower email.
Lemma account_unique email d u v : wf d → account_of email d u → account_of email d v → u = v.
Proof.
  intros Hwf (k & Hk & He) (k' & Hk' & He').
  assert (k = k') as <- by (eapply (wf_emails _ Hwf); try done; unfold email_key; congruence). congruence.
Qed.
Lemma select_account email d :
  match select1 (email_is email) (db_users d) with
  | Some u => account_of email d u
  | None => ∀ u, ¬ account_of email d u
  end.
Proof.
  destruct (select1 _ _) as [u|] eqn:E.
  - apply select1_Some in E as (Heq & k & Hk). exists k. split; [done|]. by apply String.eqb_eq in Heq.
  - intros u (k & Hk & He). apply (select1_None _ _ _ _ E) in Hk. unfold email_is in Hk. by rewrite He, String.eqb_refl in Hk.
Qed.

(** C22.  What Login says of an email when the password is not the one of
    its account: nothing in the tables changes, and the error is the same
    one, "invalid credentials", for an email nobody has and for an active
    account; only a disabled account is told apart ("account disabled",
    whatever the password).  Any other error is an internal one, and
    comes from a failed query, or an email that is no text. *)
Theorem login_uniform req meta w r w' :
  let email := normalize_email (lr_Email req) in
  wf (w_db w) → undisturbed w → email ≠ "" → lr_Password req ≠ "" →
  (∀ u, account_of email (w_db w) u → is_ok (bcrypt_compare (user_PasswordHash u) (lr_Password req)) = false) →
  Login cfg req meta w = (r, w') →
  w_db w' = w_db w ∧ ∃ e, r = Err e ∧
  ((e = Unauthorized "invalid credentials" ∧ ∀ u, account_of email (w_db w) u → user_IsActive u = true) ∨
   (e = Forbidden "account disabled" ∧ ∃ u, account_of email (w_db w) u ∧ user_IsActive u = false) ∨
   (HTTPStatus (Some e) = 500%Z ∧ (¬ quiet w ∨ text_ok email = false))).
Proof.
  cbv zeta. intros Hwf Hu He Hp Hno. unfold Login. cbv zeta.
  rewrite (proj2 (String.eqb_neq _ _) He), (proj2 (String.eqb_neq _ _) Hp).
  rewrite (bind_ok (fail_when (false || false) _) _ w () w) by done.
  intros [(u & w1 & Hget%map_err_Ok_inv & Hrun)|(e & Hget & ->)]%bind_inv.
  - apply (lookup_Ok _ _ (by_email_is _)) in Hget as (Hu1 & Hd1 & Hs); [|done].
    pose proof (select_account (normalize_email (lr_Email req)) (w_db w)) as Hacc. rewrite Hs in Hacc.
    unfold fail_when in Hrun. destruct (user_IsActive u) eqn:Eact; cbn [negb] in Hrun.
    + assert (w' = w1 ∧ r = Err (Unauthorized "invalid credentials")) as [-> ->].
      { specialize (Hno u Hacc). revert Hrun. unfold mbind, eff_bind, mret, eff_ret, map_err, of_result, ComparePassword.
        destruct (str_empty _); [by intros [= <- <-]|]. destruct (bcrypt_compare _ _); [done|by intros [= <- <-]]. }
      split; [done|]. eexists. split; [done|]. left. split; [done|].
      intros v Hv. by rewrite (account_unique _ _ _ _ Hwf Hv Hacc).
    + injection Hrun as <- <-. split; [done|]. eexists. split; [done|]. right. left. eauto.
  - apply map_err_inv in Hget as [(? & ? & _)|(e' & [= ->] & Hget)]; [done|].
    pose proof Hget as Hget'. apply (lookup_Err _ _ (by_email_is _)) in Hget as (Hu1 & Hd1 & Hn); [|done].
    split; [done|]. eexists. split; [done|]. unfold not_found_or. destruct (is_not_found e') eqn:En.
    + left. split; [done|]. intros v Hv. exfalso.
      pose proof (select_account (normalize_email (lr_Email req)) (w_db w)) as Hacc. rewrite (Hn eq_refl) in Hacc.
      by apply (Hacc v).
    + right. right. split; [done|]. destruct (text_ok (normalize_email (lr_Email req))) eqn:Et; [left|by right].
      intros Hq. cbn in Hget'. rewrite GetByEmail_quiet in Hget' by done.
      destruct (select1 _ _); [done|]. injection Hget' as <- _. done.
Qed.
End service.

(** ** Witnesses *)
Definition demo_cfg : JWTConfig := mkJWT "secret" 900 2592000.
Definition demo_meta : ClientMeta := mkMeta "curl" "127.0.0.1:5000".
Definition dave_register : RegisterRequest := mkRegister "Dave@Example.com " " dave_1 " "password".
Definition dave_login : LoginRequest := mkLogin "dave@EXAMPLE.com" "password".
Definition with_dave : World := (Register demo_cfg dave_register demo_meta demo).2.
Definition dave_refresh : string :=
  match (Register demo_cfg dave_register demo_meta demo).1 with
  | Ok r => tp_RefreshToken (ar_Tokens r) | Err _ => "" end.
Definition dave_id : ID :=
  match (Register demo_cfg dave_register demo_meta demo).1 with
  | Ok r => pub_ID (ar_User r) | Err _ => "" end.

Lemma with_dave_quiet : quiet with_dave.
Proof. vm_compute. reflexivity. Qed.
Lemma with_dave_wf : wf (w_db with_dave).
Proof.
  assert (guar evolves (run_auth demo_cfg demo_meta (ARegister dave_register))) as Hg
    by (apply run_auth_guar; apply _).
  unfold with_dave. destruct (Register demo_cfg dave_register demo_meta demo) as [r w'] eqn:E.
  assert (run_auth demo_cfg demo_meta (ARegister dave_register) demo
          = (match r with Ok _ => Ok () | Err e => Err e end, w')) as Hrun.
  { simpl. unfold mbind, eff_bind. rewrite E. by destruct r. }
  apply Hg in Hrun as [He _]; [|apply undisturbed_guar; [apply _|apply (demo_undisturbed demo_db [])]].
  apply (ev_wf _ _ He), demo_wf.
Qed.

(** A token without exp, as another holder of the secret may sign it. *)
Definition eternal_token : string :=
  match jwt_sign SigningMethodHS256 (mkClaims alice "" None None None) "secret" with Ok tok => tok | Err _ => "" end.

Lemma access_token_correct_witness :
  ∃ tok, GenerateAccessToken "secret" alice minute t0 = Ok tok
  ∧ (∃ c, ParseAccessToken "secret" tok (t0 + second) = Ok c ∧ cl_UserID c = alice)
  ∧ (∃ c, ParseAccessToken "secret" eternal_token (t0 + 60000 * minute) = Ok c ∧ cl_UserID c = alice)
  ∧ is_ok (ParseAccessToken "other" tok (t0 + second)) = false.
Proof.
  assert (match GenerateAccessToken "secret" alice minute t0 with
          | Ok tok => is_ok (ParseAccessToken "other" tok (t0 + second))
          | Err _ => true
          end = false) as Hother by (vm_compute; reflexivity).
  destruct (GenerateAccessToken "secret" alice minute t0) as [tok|e] eqn:Htok; [|discriminate Hother].
  destruct (access_token_correct "secret" alice minute t0 tok Htok) as [H H2];
    [vm_compute; reflexivity|vm_compute; split; congruence|].
  exists tok. split; [reflexivity|]. split; [|split; [|exact Hother]].
  - apply H. split; [vm_compute; split; congruence|reflexivity].
  - apply H2. split; [vm_compute; discriminate|]. split; [discriminate|].
    exists (mkClaims alice "" None None None). split; [vm_compute; reflexivity|]. split; [vm_compute; reflexivity|].
    split; [discriminate|]. split; [discriminate|reflexivity].
Defined.

Lemma register_correct_witness :
  is_ok (Register demo_cfg dave_register demo_meta demo).1 = true
  ∧ validateCredentials "dave@example.com" "dave_1" "password" = Ok ().
Proof.
  assert (is_ok (Register demo_cfg dave_register demo_meta demo).1 = true) as Hok by (vm_compute; reflexivity).
  split; [exact Hok|].
  destruct (Register demo_cfg dave_register demo_meta demo) as [[resp|e] w'] eqn:E; [|discriminate Hok].
  apply (register_correct demo_cfg dave_register demo_meta demo resp w'); [|exact E].
  apply (demo_undisturbed demo_db []).
Defined.

Lemma login_correct_witness :
  is_ok (Login demo_cfg dave_login demo_meta with_dave).1 = true
  ∧ ∃ k u, db_users (w_db with_dave) !! k = Some u ∧ user_IsActive u = true.
Proof.
  assert (is_ok (Login demo_cfg dave_login demo_meta with_dave).1 = true) as Hok by (vm_compute; reflexivity).
  split; [exact Hok|].
  destruct (Login demo_cfg dave_login demo_meta with_dave) as [[resp|e] w'] eqn:E; [|discriminate Hok].
  destruct (login_correct demo_cfg dave_login demo_meta with_dave resp w') as (k & u & _ & Hk & _ & Hact & _).
  - apply quiet_undisturbed, with_dave_quiet.
  - apply with_dave_wf.
  - exact E.
  - exists k, u. exact (conj Hk Hact).
Defined.

Lemma refresh_single_use_witness :
  is_ok (Refresh demo_cfg dave_refresh demo_meta with_dave).1 = true
  ∧ is_ok (Refresh demo_cfg dave_refresh demo_meta (Refresh demo_cfg dave_refresh demo_meta with_dave).2).1 = false.
Proof.
  assert (is_ok (Refresh demo_cfg dave_refresh demo_meta with_dave).1 = true) as Hok by (vm_compute; reflexivity).
  assert (quiet (Refresh demo_cfg dave_refresh demo_meta with_dave).2) as Hq by (vm_compute; reflexivity).
  split; [exact Hok|].
  assert (guar evolves (run_auth demo_cfg demo_meta (ARefresh dave_refresh))) as Hg
    by (apply run_auth_guar; apply _).
  destruct (Refresh demo_cfg dave_refresh demo_meta with_dave) as [[tp|e] w'] eqn:E; [|discriminate Hok].
  destruct (refresh_single_use demo_cfg dave_refresh demo_meta with_dave tp w') as [_ Hafter].
  - apply quiet_undisturbed, with_dave_quiet.
  - apply with_dave_wf.
  - exact E.
  - assert (run_auth demo_cfg demo_meta (ARefresh dave_refresh) with_dave = (Ok (), w')) as Hrun
      by (unfold run_auth, mbind, eff_bind; rewrite E; reflexivity).
    apply Hg in Hrun as [He _]; [|apply undisturbed_guar; [apply _|apply quiet_undisturbed, with_dave_quiet]].
    destruct (Refresh demo_cfg dave_refresh demo_meta w') as [r w3] eqn:E2.
    cbn [snd]. rewrite E2. cbn [fst].
    apply (Hafter w' demo_meta r w3); [reflexivity| |apply quiet_undisturbed, Hq|exact E2].
    apply (ev_wf _ _ He), with_dave_wf.
Defined.

Lemma logout_correct_witness :
  is_ok (Logout dave_refresh with_dave).1 = true
  ∧ ∃ k s, db_sessions (w_db with_dave) !! k = Some s.
Proof.
  assert (is_ok (Logout dave_refresh with_dave).1 = true) as Hok by (vm_compute; reflexivity).
  split; [exact Hok|].
  destruct (Logout dave_refresh with_dave) as [[[]|e] w'] eqn:E; [|discriminate Hok].
  destruct (logout_correct demo_cfg dave_refresh demo_meta with_dave w') as [(k & s & _ & Hk & _) _].
  - apply quiet_undisturbed, with_dave_quiet.
  - apply with_dave_wf.
  - exact E.
  - exists k, s. exact Hk.
Defined.

Lemma logout_all_correct_witness :
  is_ok (LogoutAll dave_id with_dave).1 = true ∧ ∃ u, uuid_in dave_id = Some u.
Proof.
  assert (is_ok (LogoutAll dave_id with_dave).1 = true) as Hok by (vm_compute; reflexivity).
  split; [exact Hok|].
  destruct (LogoutAll dave_id with_dave) as [[[]|e] w'] eqn:E; [|discriminate Hok].
  destruct (logout_all_correct demo_cfg dave_id demo_meta with_dave w') as (u & Hu & _).
  - apply quiet_undisturbed, with_dave_quiet.
  - apply with_dave_wf.
  - exact E.
  - exists u. exact Hu.
Defined.

(** A wrong password: the answer for an active account, for an email nobody
    has, and for a disabled account. *)
Definition demo_disabled : World :=
  demo_world (set_users (<[carol := mkUser carol "carol@example.com" "hash" "carol" None None None t0 t0 None false]>
                          (db_users demo_db)) demo_db) [].
Definition wrong_login (email : string) (w : World) : result error AuthResponse :=
  (Login demo_cfg (mkLogin email "wrong") demo_meta w).1.
Example disabled_account_told :
  wrong_login "alice@example.com" demo_disabled = Err (Unauthorized "invalid credentials")
  ∧ wrong_login "nobody@example.com" demo_disabled = Err (Unauthorized "invalid credentials")
  ∧ wrong_login "carol@example.com" demo_disabled = Err (Forbidden "account disabled").
Proof. vm_compute. auto. Qed.

Lemma login_uniform_witness :
  ∃ w', Login demo_cfg (mkLogin "alice@example.com" "wrong") demo_meta demo
        = (Err (Unauthorized "invalid credentials"), w') ∧ w_db w' = demo_db.
Proof.
  destruct (Login demo_cfg (mkLogin "alice@example.com" "wrong") demo_meta demo) as [r w'] eqn:E.
  destruct (login_uniform demo_cfg (mkLogin "alice@example.com" "wrong") demo_meta demo r w')
    as (Hd & e & -> & Hcase).
  - apply demo_wf.
  - apply quiet_undisturbed. reflexivity.
  - vm_compute. discriminate.
  - discriminate.
  - assert (map_Forall (λ _ u, is_ok (bcrypt_compare (user_PasswordHash u) "wrong") = false) (db_users demo_db)) as Hall
      by (unfold demo_db; cbn [db_users]; forall_rows; vm_compute; reflexivity).
    intros u (k & Hk & _). exact (Hall k u Hk).
  - exact E.
  - assert (map_Forall (λ _ u, user_IsActive u = true) (db_users demo_db)) as Hall
      by (unfold demo_db; cbn [db_users]; forall_rows; reflexivity).
    exists w'. destruct Hcase as [[-> _]|[(_ & u & (k & Hk & _) & Hna)|(_ & [Hq|Ht])]].
    + split; [reflexivity|exact Hd].
    + rewrite (Hall k u Hk) in Hna. discriminate Hna.
    + exfalso. apply Hq. reflexivity.
    + vm_compute in Ht. discriminate Ht.
Defined.
