(* ===== verification/RedisTheorems.v ===== *)
(** * What tickets and presence promise

    Properties of the Redis-backed stores, against the laws of the server:
    a ticket works once and for its lifetime, and presence holds for its
    window. *)

From Stdlib Require Import Ascii.
From stdpp Require Import base strings gmap list.
From S2P Require Import Prelude GoStrings Uuid Json Errors GoTime Domain Hub World Credentials Redis Toys Scenario.

Local Open Scope Z_scope.

(** ** Sequences of commands *)
Inductive redis_op :=
| RIssue (uid : ID) (ttl : Z)
| RConsume (ticket : string)
| ROnline (uid : ID)
| ROffline (uid : ID)
| RTyping (start : bool) (chat uid : ID).

Section ops.
Context {RS : RedisServer} {RN : Rand}.

(** The ticket the next [Issue] draws. *)
Definition next_ticket (w : World) : string := hex_encode (take 16 (rand_block (w_rand w))).
Definition ticket_key (t : string) : string := wsTicketKeyPrefix +:+ t.

Definition run_redis (op : redis_op) (w : World) : World :=
  match op with
  | RIssue uid ttl => (Issue true uid ttl w).2
  | RConsume t => (Consume true t w).2
  | ROnline uid => (SetOnline true uid w).2
  | ROffline uid => (SetOffline true uid w).2
  | RTyping start chat uid => (if start then StartTyping true chat uid w else StopTyping true chat uid w).2
  end.

(** The key an operation may write. *)
Definition op_key (op : redis_op) (w : World) : string :=
  match op with
  | RIssue _ _ => ticket_key (next_ticket w)
  | RConsume t => ticket_key (TrimSpace t)
  | ROnline uid | ROffline uid => presenceKey uid
  | RTyping _ chat uid => typingKey chat uid
  end.

Fixpoint run_ops (ops : list redis_op) (w : World) : World :=
  match ops with [] => w | op :: ops => run_ops ops (run_redis op w) end.
Fixpoint avoids (key : string) (ops : list redis_op) (w : World) : Prop :=
  match ops with
  | [] => True
  | op :: ops => op_key op w ≠ key ∧ avoids key ops (run_redis op w)
  end.

(** Readers of [key] see the same in both states. *)
Definition same_key (key : string) (w w' : World) : Prop :=
  (∀ now, redis_get now key (w_redis w') = redis_get now key (w_redis w)) ∧ w_now w ≤ w_now w'.

#[export] Instance same_key_preorder key : PreOrder (same_key key).
Proof.
  split; [by intros w; split|]. intros w1 w2 w3 [H1 ?] [H2 ?]. split; [|lia].
  intros now. by rewrite H2, H1.
Qed.

Lemma next_event_redis w e w1 :
  next_event w = (e, w1) → w_redis w1 = w_redis w ∧ w_rand w1 = w_rand w ∧ w_now w ≤ w_now w1.
Proof.
  unfold next_event. destruct (w_sched w); intros [= <- <-]; split_and!; try done. simpl. lia.
Qed.

Lemma redis_call_inv {A} (f : Time → World → A * World) w r w' :
  remote_call f w = (r, w') →
  ∃ w1, w_redis w1 = w_redis w ∧ w_rand w1 = w_rand w ∧ w_now w ≤ w_now w1 ∧
    ((∃ a, r = Ok a ∧ f (w_now w1) w1 = (a, w')) ∨
     (∃ e, r = Err e ∧ (w' = w1 ∨ w' = (f (w_now w1) w1).2))).
Proof.
  destruct (next_event w) as [e w1] eqn:E. intros H%remote_call_inv. rewrite E in H. simpl in H.
  apply next_event_redis in E as (? & ? & ?). exists w1. naive_solver.
Qed.

(** Keys of different kinds differ. *)
Lemma ticket_not_presence t u : ticket_key t ≠ presenceKey u.
Proof. discriminate. Qed.
Lemma ticket_not_typing t c u : ticket_key t ≠ typingKey c u.
Proof. discriminate. Qed.

Context {RL : RedisLaws RS}.

Lemma call_frame {A} (f : Time → World → A * World) key w r w' :
  (∀ now w1, same_key key w1 (f now w1).2) → remote_call f w = (r, w') → same_key key w w'.
Proof.
  intros Hf (w1 & H1 & _ & Hn & H)%redis_call_inv.
  assert (same_key key w w1) as Hw by (split; [intros; by rewrite H1|done]).
  specialize (Hf (w_now w1) w1). etransitivity; [exact Hw|].
  destruct H as [(a & -> & H)|(e & -> & [->| ->])]; [by rewrite H in Hf|done|done].
Qed.

Lemma set_frame key key' v ttl w r w' :
  key' ≠ key → cmd_set key' v ttl w = (r, w') → same_key key w w'.
Proof.
  intros Hk. apply call_frame. intros now w1. split; [|done]. intros now'. simpl.
  apply redis_set_other. congruence.
Qed.
Lemma del_frame key key' w r w' : key' ≠ key → cmd_del key' w = (r, w') → same_key key w w'.
Proof.
  intros Hk. apply call_frame. intros now w1. split; [|done]. intros now'. simpl.
  apply redis_del_other. congruence.
Qed.
Lemma setnx_frame key key' v ttl w r w' :
  key' ≠ key → cmd_setnx key' v ttl w = (r, w') → same_key key w w'.
Proof.
  intros Hk. apply call_frame. intros now w1. destruct (redis_get now key' (w_redis w1)) as [v'|] eqn:E.
  - rewrite (redis_setnx_taken _ _ _ _ _ _ E). split; [|done]. intros now'. done.
  - rewrite (redis_setnx_free _ _ _ _ _ E). split; [|done]. intros now'. simpl.
    apply redis_set_other. congruence.
Qed.
Lemma getdel_frame key key' w r w' : key' ≠ key → cmd_getdel key' w = (r, w') → same_key key w w'.
Proof.
  intros Hk. apply call_frame. intros now w1. rewrite redis_getdel_is. split; [|done]. intros now'. simpl.
  apply redis_del_other. congruence.
Qed.

Lemma op_frame op key w : op_key op w ≠ key → same_key key w (run_redis op w).
Proof.
  destruct op as [uid ttl|t|uid|uid|[] chat uid]; cbn [op_key run_redis]; intros Hk.
  - unfold Issue. cbn [negb fail_when]. unfold mbind, eff_bind, rand_read, mret, eff_ret, bump_rand.
    destruct (cmd_setnx _ _ _ _) as [[[]|e] w'] eqn:E; apply (setnx_frame key) in E; try done.
  - unfold Consume. cbn [negb fail_when]. unfold fail_when, mbind, eff_bind, mret, eff_ret, throw.
    destruct (str_empty (TrimSpace t)); [done|].
    destruct (cmd_getdel _ _) as [[[v|]|e] w'] eqn:E; apply (getdel_frame key) in E; try done.
    destruct (str_empty (TrimSpace v)); done.
  - unfold SetOnline. cbn [negb]. unfold fail_when, mbind, eff_bind, mret, eff_ret, throw.
    destruct (str_empty uid); [done|]. destruct (cmd_set _ _ _ _) as [r w'] eqn:E.
    by apply (set_frame key) in E.
  - unfold SetOffline. cbn [negb orb]. destruct (str_empty _); [done|].
    destruct (cmd_del _ _) as [r w'] eqn:E. by apply (del_frame key) in E.
  - unfold StartTyping. cbn [negb]. unfold fail_when, mbind, eff_bind, mret, eff_ret, throw.
    destruct (_ || _); [done|]. destruct (cmd_set _ _ _ _) as [r w'] eqn:E.
    by apply (set_frame key) in E.
  - unfold StopTyping. cbn [negb orb]. destruct (_ || _); [done|].
    destruct (cmd_del _ _) as [r w'] eqn:E. by apply (del_frame key) in E.
Qed.

Lemma ops_frame ops key w : avoids key ops w → same_key key w (run_ops ops w).
Proof.
  revert w. induction ops as [|op ops IH]; intros w; cbn [avoids run_ops]; [done|].
  intros [Hop Hops]. etransitivity; [by apply op_frame|by apply IH].
Qed.
End ops.

(** ** Tickets *)
Section tickets.
Context {RS : RedisServer} {RL : RedisLaws RS} {RN : Rand} {RNL : RandLaws RN}.

Lemma ticket_text bs : length bs = 32%nat → let t := hex_encode (take 16 bs) in TrimSpace t = t ∧ t ≠ "".
Proof.
  intros Hbs t. split.
  - apply trim_space_id, trimmed_visible. eapply str_forall_impl; [|apply hex_encode_hex].
    apply is_hex_visible.
  - intros Ht. apply (f_equal String.length) in Ht. unfold t in Ht.
    rewrite hex_encode_length, length_take, Hbs in Ht. done.
Qed.

(** What a successful [Issue] stored. *)
Lemma Issue_Ok uid ttl w t w1 :
  Issue true uid ttl w = (Ok t, w1) →
  (TrimSpace t = t ∧ t ≠ "") ∧
  ∃ ks, w_redis w1 = redis_set (w_now w1) (ticket_key t) uid (ticket_ttl ttl) ks.
Proof.
  unfold Issue. cbn [negb]. intros Hrun. go_inv.
  match goal with Hr : rand_read _ = _ |- _ => injection Hr as <- <- end.
  match goal with Hc : cmd_setnx _ _ _ _ = _, Hb : negb _ = false |- _ => rename Hc into Hcall, Hb into Htaken end.
  split; [apply ticket_text, rand_length|].
  apply redis_call_inv in Hcall as (w2 & Hr & _ & _ & [(b & [= <-] & Hset)|(e & He & _)]); [|done].
  destruct (redis_get (w_now w2) (ticket_key (hex_encode (take 16 (rand_block (w_rand w))))) (w_redis w2)) as [v|] eqn:E.
  - unfold ticket_key in E. rewrite (redis_setnx_taken _ _ _ _ _ _ E) in Hset. injection Hset as <- <-. discriminate.
  - unfold ticket_key in *. rewrite (redis_setnx_free _ _ _ _ _ E) in Hset. injection Hset as <- <-. simpl. eauto.
Qed.

Lemma cmd_getdel_inv key w r w' :
  cmd_getdel key w = (r, w') →
  w_now w ≤ w_now w' ∧
  (∀ v, r = Ok v → v = redis_get (w_now w') key (w_redis w) ∧ ∀ now, redis_get now key (w_redis w') = None) ∧
  (quiet w → r = Ok (redis_get (w_now w') key (w_redis w))).
Proof.
  intros Hcall. pose proof Hcall as (w2 & Hr & _ & Hn & Hcase)%redis_call_inv. rewrite redis_getdel_is in Hcase.
  split_and!.
  - by destruct Hcase as [(a & _ & [= _ <-])|(e & _ & [->| ->])].
  - intros v ->. destruct Hcase as [(a & [= <-] & [= <- <-])|(e & ? & _)]; [|done]. simpl.
    rewrite Hr. split; [done|]. intros now. apply redis_del_same.
  - intros Hq. unfold cmd_getdel in Hcall. rewrite remote_call_quiet, redis_getdel_is in Hcall by done.
    by injection Hcall as <- <-.
Qed.

(** [Consume] reads the key and removes it. *)
Lemma Consume_spec t w r w' :
  TrimSpace t = t → t ≠ "" → Consume true t w = (r, w') →
  (∀ v, r = Ok v →
     (∃ val, redis_get (w_now w') (ticket_key t) (w_redis w) = Some val ∧ v = TrimSpace val)
     ∧ ∀ now, redis_get now (ticket_key t) (w_redis w') = None) ∧
  (quiet w →
     r = match redis_get (w_now w') (ticket_key t) (w_redis w) with
         | None => Err (ErrPlain "invalid or expired ticket")
         | Some val => if str_empty (TrimSpace val) then Err (ErrPlain "ws ticket: invalid payload")
                       else Ok (TrimSpace val)
         end).
Proof.
  intros Ht Hne. unfold Consume. cbn [negb]. rewrite Ht.
  assert (str_empty t = false) as -> by (by apply String.eqb_neq).
  unfold fail_when, mbind, eff_bind, mret, eff_ret, throw. fold (ticket_key t).
  destruct (cmd_getdel (ticket_key t) w) as [r1 w1] eqn:Hcall.
  apply cmd_getdel_inv in Hcall as (_ & Hok & Hquiet). intros Hrun.
  assert (w' = w1) as -> by (destruct r1 as [[val|]|e]; [destruct (str_empty _)|..]; by injection Hrun as _ <-).
  split.
  - intros v ->. destruct r1 as [[val|]|e]; [|done..].
    destruct (str_empty (TrimSpace val)); [done|]. injection Hrun as <-.
    destruct (Hok _ eq_refl) as [<- ?]. eauto.
  - intros Hq. rewrite (Hquiet Hq) in Hrun. destruct (redis_get _ _ _) as [val|]; [|congruence].
    destruct (str_empty _); congruence.
Qed.

Lemma Consume_none t w r w' :
  TrimSpace t = t → t ≠ "" → Consume true t w = (r, w') →
  (∀ now, redis_get now (ticket_key t) (w_redis w) = None) → is_ok r = false.
Proof.
  intros Ht Hne H Hnone. apply Consume_spec in H as (H & _); [|done..].
  destruct r as [v|e]; [|done]. destruct (H v eq_refl) as [(val & Hval & _) _]. by rewrite Hnone in Hval.
Qed.

(** C25.  A ticket works once and for its lifetime.  After it was issued
    to a user, and whatever other commands run, consuming it gives that
    user or an error; never once its lifetime is over, always before when
    Redis answers; and once it has been consumed it is refused for ever, as
    long as the generator does not draw it again. *)
Theorem ticket_correct uid ttl w t w1 ops r w3 :
  TrimSpace uid = uid → uid ≠ "" →
  Issue true uid ttl w = (Ok t, w1) →
  avoids (ticket_key t) ops w1 →
  Consume true t (run_ops ops w1) = (r, w3) →
  (∀ v, r = Ok v → v = uid ∧ ¬ expires (w_now w1) (ticket_ttl ttl) (w_now w3)) ∧
  (quiet (run_ops ops w1) → lasts (w_now w1) (ticket_ttl ttl) (w_now w3) → r = Ok uid) ∧
  (is_ok r = true → ∀ ops', avoids (ticket_key t) ops' w3 →
     is_ok (Consume true t (run_ops ops' w3)).1 = false).
Proof.
  intros Htrim Hne ([Ht Hte] & ks & Hks)%Issue_Ok Hops Hrun.
  destruct (ops_frame _ _ _ Hops) as [Hsame _].
  pose proof (Consume_spec _ _ _ _ Ht Hte Hrun) as (Hok & Hquiet).
  assert (uid = TrimSpace uid ∧ str_empty (TrimSpace uid) = false) as [_ Hemp]
    by (rewrite Htrim; split; [done|by apply String.eqb_neq]).
  split_and!.
  - intros v ->. destruct (Hok v eq_refl) as [(val & Hval & ->) _]. rewrite Hsame, Hks in Hval.
    apply redis_set_get in Hval as [-> ?]. done.
  - intros Hq Hl. rewrite (Hquiet Hq), Hsame, Hks, redis_set_lasts by done. by rewrite Hemp, Htrim.
  - intros Hr ops' Hops'. destruct r as [v|e]; [|done]. destruct (Hok v eq_refl) as [_ Hnone].
    destruct (ops_frame _ _ _ Hops') as [Hsame' _].
    destruct (Consume true t (run_ops ops' w3)) as [r' w5] eqn:E.
    apply (Consume_none _ _ _ _ Ht Hte E). intros now. rewrite Hsame'. apply Hnone.
Qed.
End tickets.

(** ** Presence *)
Section presence.
Context {RS : RedisServer} {RL : RedisLaws RS} {RN : Rand}.

Lemma SetOnline_Ok uid w w1 :
  SetOnline true uid w = (Ok (), w1) →
  uid ≠ "" ∧ ∃ ks, w_redis w1 = redis_set (w_now w1) (presenceKey uid) "1" DefaultPresenceTTL ks.
Proof.
  unfold SetOnline. cbn [negb]. intros Hrun. go_inv.
  match goal with Hc : cmd_set _ _ _ _ = _ |- _ => rename Hc into Hcall end.
  split; [by apply String.eqb_neq|].
  apply redis_call_inv in Hcall as (w2 & Hr & _ & _ & [(b & _ & [= _ <-])|(e & He & _)]); [|done].
  simpl. eauto.
Qed.

Lemma SetOffline_Ok uid w w1 :
  uid ≠ "" → SetOffline true uid w = (Ok (), w1) →
  ∀ now, redis_get now (presenceKey uid) (w_redis w1) = None.
Proof.
  intros Hu%String.eqb_neq. unfold SetOffline. cbn [negb orb]. rewrite Hu. intros Hcall now.
  apply redis_call_inv in Hcall as (w2 & Hr & _ & _ & [(b & _ & [= _ <-])|(e & He & _)]); [|done].
  apply redis_del_same.
Qed.

Lemma IsOnline_Ok uid w b w' :
  uid ≠ "" → IsOnline true uid w = (Ok b, w') →
  b = match redis_get (w_now w') (presenceKey uid) (w_redis w) with Some _ => true | None => false end.
Proof.
  intros Hu%String.eqb_neq. unfold IsOnline. cbn [negb orb]. rewrite Hu. intros Hrun.
  apply bind_Ok_inv in Hrun as (n & w1 & Hcall & [= <- <-]).
  apply redis_call_inv in Hcall as (w2 & Hr & _ & _ & [(b & [= <-] & [= <- <-])|(e & He & _)]); [|done].
  rewrite redis_exists_get, Hr. by destruct (redis_get _ _ _).
Qed.

(** C26.  Presence: once a user was marked online (or refreshed), and as
    long as no other command touches that user's mark, the user is online
    for the whole window of 45 seconds and offline after it; once marked
    offline, the user is offline until marked online again. *)
Theorem presence_window uid w w1 ops b w3 :
  (SetOnline true uid w = (Ok (), w1) ∨ (uid ≠ "" ∧ SetOffline true uid w = (Ok (), w1))) →
  avoids (presenceKey uid) ops w1 →
  IsOnline true uid (run_ops ops w1) = (Ok b, w3) →
  (SetOnline true uid w = (Ok (), w1) →
     (lasts (w_now w1) DefaultPresenceTTL (w_now w3) → b = true) ∧
     (expires (w_now w1) DefaultPresenceTTL (w_now w3) → b = false)) ∧
  (SetOffline true uid w = (Ok (), w1) → b = false).
Proof.
  intros Hstart Hops Hon. destruct (ops_frame _ _ _ Hops) as [Hsame _].
  assert (uid ≠ "") as Hu by (destruct Hstart as [[? _]%SetOnline_Ok|[? _]]; done).
  apply IsOnline_Ok in Hon as ->; [|done]. rewrite Hsame. split.
  - intros [_ [ks ->]]%SetOnline_Ok. split.
    + intros Hl. by rewrite redis_set_lasts.
    + intros He. destruct (redis_get _ _ _) as [v|] eqn:E; [|done].
      by apply redis_set_get in E as [_ ?].
  - intros Hoff. by rewrite (SetOffline_Ok _ _ _ Hu Hoff).
Qed.
End presence.

(** ** Witnesses *)
Definition demo_ticket : string := hex_encode (take 16 (rand_block 0)).
Definition demo_issued : World := (Issue true alice (2 * minute) demo).2.
Definition demo_ops : list redis_op := [ROnline alice; RConsume "other"; RTyping true chat1 bob].

Lemma ticket_correct_witness :
  Issue true alice (2 * minute) demo = (Ok demo_ticket, demo_issued)
  ∧ (Consume true demo_ticket (run_ops demo_ops demo_issued)).1 = Ok alice
  ∧ is_ok (Consume true demo_ticket
             (run_ops [RIssue bob 0] (Consume true demo_ticket (run_ops demo_ops demo_issued)).2)).1 = false.
Proof.
  assert (Issue true alice (2 * minute) demo = (Ok demo_ticket, demo_issued)) as E
    by (vm_compute; reflexivity).
  split; [exact E|].
  destruct (ticket_correct alice (2 * minute) demo demo_ticket demo_issued demo_ops
              (Consume true demo_ticket (run_ops demo_ops demo_issued)).1
              (Consume true demo_ticket (run_ops demo_ops demo_issued)).2) as (_ & H2 & H3).
  - vm_compute. reflexivity.
  - discriminate.
  - exact E.
  - repeat split; vm_compute; discriminate.
  - apply surjective_pairing.
  - assert ((Consume true demo_ticket (run_ops demo_ops demo_issued)).1 = Ok alice) as Hr.
    { apply H2; [vm_compute; reflexivity|split; vm_compute; [discriminate|reflexivity]]. }
    split; [exact Hr|]. apply H3; [by rewrite Hr|]. repeat split; vm_compute; discriminate.
Defined.

Lemma presence_window_witness :
  (SetOnline true alice demo).1 = Ok ()
  ∧ (IsOnline true alice (run_ops [RIssue bob 0; ROffline bob] (SetOnline true alice demo).2)).1 = Ok true.
Proof.
  assert (SetOnline true alice demo = (Ok (), (SetOnline true alice demo).2)) as E
    by (vm_compute; reflexivity).
  split; [by rewrite E|].
  destruct (presence_window alice demo (SetOnline true alice demo).2 [RIssue bob 0; ROffline bob] true
              (IsOnline true alice (run_ops [RIssue bob 0; ROffline bob] (SetOnline true alice demo).2)).2) as [H _].
  - left. exact E.
  - repeat split; vm_compute; discriminate.
  - vm_compute. reflexivity.
  - destruct (H E) as [Hon _]. vm_compute. reflexivity.
Defined.
