(* ===== verification/UserService.v ===== *)
(** * User service

    internal/service/user_service.go: profiles, their update and search. *)

From stdpp Require Import base strings gmap list.
From S2P Require Import Prelude GoStrings Regex Uuid Json Errors GoTime Domain Hub World Repository AuthService.

Definition userNicknameRe : regexp := nicknameRe.
Definition userSearchDefaultLimit : Z := 20.
Definition userSearchMaxLimit : Z := 50.
Definition userNameMaxLen : nat := 100.
Definition userAvatarMaxLen : nat := 2048.

(** ** dto/user.go *)
Record UserSelf := mkUserSelf {
  us_ID : string;
  us_Email : string;
  us_Nickname : string;
  us_FirstName : option string;
  us_LastName : option string;
  us_AvatarURL : option string;
  us_IsActive : bool;
  us_CreatedAt : Time;
  us_UpdatedAt : Time;
  us_LastSeen : option Time
}.
Record UserCard := mkUserCard {
  uc_ID : string;
  uc_Nickname : string;
  uc_FirstName : option string;
  uc_LastName : option string;
  uc_AvatarURL : option string;
  uc_IsActive : bool
}.
Record PatchUserRequest := mkPatchUser {
  pu_Nickname : option string;
  pu_FirstName : option string;
  pu_LastName : option string;
  pu_AvatarURL : option string
}.

Definition toUserSelf (u : User) : UserSelf :=
  mkUserSelf (user_ID u) (user_Email u) (user_Nickname u) (user_FirstName u) (user_LastName u)
    (user_AvatarURL u) (user_IsActive u) (user_CreatedAt u) (user_UpdatedAt u) (user_LastSeenAt u).
Definition toUserCard (u : User) : UserCard :=
  mkUserCard (user_ID u) (user_Nickname u) (user_FirstName u) (user_LastName u) (user_AvatarURL u)
    (user_IsActive u).

(** [if p != nil { v := TrimSpace(p); if len(v) > max { error }; p = &v }] *)
Definition trim_field (max : nat) (message : string) (p : option string) : M (option string) :=
  match p with
  | None => mret None
  | Some raw =>
      let v := TrimSpace raw in
      fail_when (max <? String.length v)%nat (Validation message None);;
      mret (Some v)
  end.

(** The page of Search. *)
Definition search_page (limit offset : Z) : Page :=
  let limit := if (limit <=? 0)%Z then userSearchDefaultLimit else limit in
  let limit := if (limit >? userSearchMaxLimit)%Z then userSearchMaxLimit else limit in
  mkPage limit (if (offset <? 0)%Z then 0%Z else offset).

Section service.
Context {UR : UserRepository}.

Definition Me (userID : ID) : M UserSelf :=
  fail_when (str_empty userID) (Unauthorized "missing user");;
  u ← users_GetByID userID ?! not_found_or (NotFound "user not found") "load user";
  mret (toUserSelf u).

Definition check_nickname (userID : ID) (nick : option string) : M (option string) :=
  match nick with
  | None => mret None
  | Some raw =>
      let nick := TrimSpace raw in
      fail_when (negb (MatchString userNicknameRe nick))
                (Validation "nickname must be 3-32 chars: letters, digits, underscore" None);;
      r ← attempt (users_GetByNickname nick);
      match r with
      | Ok other => fail_when (negb (String.eqb (user_ID other) userID)) (Conflict "nickname already taken")
      | Err e => fail_when (negb (is_not_found e)) (Internal "lookup nickname" (Some e))
      end;;
      mret (Some nick)
  end.

Definition no_fields (p : PatchUserRequest) : bool :=
  match p with mkPatchUser None None None None => true | _ => false end.

Definition UpdateMe (userID : ID) (p : PatchUserRequest) : M UserSelf :=
  fail_when (str_empty userID) (Unauthorized "missing user");;
  fail_when (no_fields p) (Validation "no fields to update" None);;
  nick ← check_nickname userID (pu_Nickname p);
  first ← trim_field userNameMaxLen "first_name too long" (pu_FirstName p);
  last ← trim_field userNameMaxLen "last_name too long" (pu_LastName p);
  avatar ← trim_field userAvatarMaxLen "avatar_url too long" (pu_AvatarURL p);
  users_UpdateProfile (mkProfileParams userID nick first last avatar)
    ?! not_found_or (NotFound "user not found") "update profile";;
  u ← users_GetByID userID ?! internal_err "reload user";
  mret (toUserSelf u).

Definition Search (q : string) (limit offset : Z) : M (list UserCard) :=
  let q := TrimSpace q in
  fail_when (str_empty q) (Validation "q is required" None);;
  rows ← users_Search q (search_page limit offset) ?! internal_err "search users";
  mret (toUserCard <$> rows).

Definition GetUserByID (idRaw : string) : M UserCard :=
  let id := TrimSpace idRaw in
  fail_when (negb (MatchString userUUIDRe id)) (Validation "invalid user id" None);;
  u ← users_GetByID id ?! not_found_or (NotFound "user not found") "load user";
  mret (toUserCard u).
End service.
