(* ===== verification/UserTheorems.v ===== *)
(** * Theorems on the user service, and on every request

    The user service of UserService over the PostgreSQL repositories, and
    the guarantee every request of the four services keeps. *)

From stdpp Require Import base strings gmap list.
From S2P Require Import Prelude GoStrings Utf8 Regex Uuid Json Errors GoTime Domain Hub World Repository PgMessages PgChats PgUsers Guarantee Invariant Evolution Laws Calls Scenario WriterTheorems MessageService MessageTheorems ChatService ChatTheorems Credentials AuthService AuthTheorems Toys UserService.

Inductive user_request : Type :=
| UMe (userID : ID)
| UUpdate (userID : ID) (p : PatchUserRequest)
| USearch (q : string) (limit offset : Z)
| UGet (idRaw : string).

Section requests.
Context {UR : UserRepository}.

Definition run_user (req : user_request) : M () :=
  match req with
  | UMe u => _ ← Me u; mret ()
  | UUpdate u p => _ ← UpdateMe u p; mret ()
  | USearch q limit offset => _ ← Search q limit offset; mret ()
  | UGet id => _ ← GetUserByID id; mret ()
  end.

Context (R : relation DB) {HR : Guarantee R} {UL : UserLaws R UR}.

Lemma check_nickname_guar u n : guar R (check_nickname u n).
Proof.
  unfold check_nickname. destruct n; [|apply guar_ret]. cbv zeta.
  apply guar_bind; [apply guar_fail_when|intros _].
  apply guar_bind; [apply guar_attempt; law_tac|intros [x|e]]; guar_tac.
Qed.
Lemma trim_field_guar max m p : guar R (trim_field max m p).
Proof. unfold trim_field. guar_tac. Qed.

Lemma run_user_guar req : guar R (run_user req).
Proof.
  destruct req; simpl; (apply guar_bind; [|intros; apply guar_ret]).
  - unfold Me. guar_tac. law_tac.
  - unfold UpdateMe. guar_tac; try law_tac.
    all: first [apply check_nickname_guar|apply trim_field_guar].
  - unfold Search. guar_tac. law_tac.
  - unfold GetUserByID. guar_tac. law_tac.
Qed.
End requests.

(** ** Updating a profile *)
Section service.
Context {G : UuidGen} {GL : UuidGenLaws G}.

Definition trimmed_to (max : nat) (p v : option string) : Prop :=
  v = TrimSpace <$> p ∧ ∀ x, v = Some x → (String.length x ≤ max)%nat.

Lemma trim_field_Ok max m p (w : World) v w' :
  trim_field max m p w = (Ok v, w') → w' = w ∧ trimmed_to max p v.
Proof.
  unfold trim_field, trimmed_to. destruct p as [raw|]; intros H; go_inv; [|done].
  match goal with H : (_ <? _)%nat = false |- _ => apply Nat.ltb_ge in H end.
  split_and!; try done. by intros ? [= <-].
Qed.

(** A nickname the caller may take: well formed, and the row PostgreSQL
    finds for it, whatever its case, is the caller's own. *)
Definition nickname_free (d : DB) (user nick : string) : Prop :=
  MatchString userNicknameRe nick = true
  ∧ ∀ u, select1 (nickname_is nick) (db_users d) = Some u → user_ID u = user.

Lemma check_nickname_Ok user p w v w' :
  undisturbed w → check_nickname user p w = (Ok v, w') →
  undisturbed w' ∧ w_db w' = w_db w ∧ v = TrimSpace <$> p
  ∧ ∀ n, v = Some n → nickname_free (w_db w) user n.
Proof.
  intros Hw H. unfold check_nickname in H. destruct p as [raw|]; [|by go_inv]. cbv zeta in H.
  apply bind_Ok_inv in H as (u & w1 & [Hre ->]%fail_when_Ok_inv & H). apply negb_false_iff in Hre.
  apply bind_Ok_inv in H as (r & w1 & Hr & H). unfold attempt in Hr.
  destruct (users_GetByNickname (TrimSpace raw) w) as [[x|e] w2] eqn:E; injection Hr as <- <-; go_inv.
  - apply (lookup_Ok _ _ (by_nickname_is _)) in E as (? & ? & Hs); [|done].
    split_and!; [done..|]. intros n [= <-]. split; [done|]. rewrite Hs. intros u' [= <-].
    match goal with H : negb _ = false |- _ => by apply negb_false_iff, String.eqb_eq in H end.
  - apply (lookup_Err _ _ (by_nickname_is _)) in E as (? & ? & Hs); [|done].
    match goal with H : negb _ = false |- _ => apply negb_false_iff in H; apply Hs in H end.
    split_and!; [done..|]. intros n [= <-]. split; [done|]. by rewrite H0.
Qed.

(** C23.  Updating a profile: a request that succeeds names a field; the
    fields given are trimmed and within their bounds, the nickname is well
    formed and not another user's; the caller's row takes them and keeps
    the others, no other row changes, and the answer is the new row. *)
Theorem update_me_correct user p w self w' :
  undisturbed w → UpdateMe user p w = (Ok self, w') →
  no_fields p = false
  ∧ ∃ k u now nick first last avatar,
      uuid_in user = Some k ∧ db_users (w_db w) !! k = Some u
      ∧ nick = TrimSpace <$> pu_Nickname p ∧ (∀ n, nick = Some n → nickname_free (w_db w) user n)
      ∧ trimmed_to userNameMaxLen (pu_FirstName p) first ∧ trimmed_to userNameMaxLen (pu_LastName p) last
      ∧ trimmed_to userAvatarMaxLen (pu_AvatarURL p) avatar
      ∧ let u' := set_profile (mkProfileParams user nick first last avatar) now u in
        w_db w' = set_users (<[k := u']> (db_users (w_db w))) (w_db w) ∧ self = toUserSelf u'.
Proof.
  intros Hw H. unfold UpdateMe in H. go_inv.
  match goal with H : check_nickname _ _ _ = _ |- _ =>
    apply check_nickname_Ok in H as (Hw1 & Hd1 & -> & Hfree); [|done] end.
  repeat match goal with H : trim_field _ _ _ _ = _ |- _ => apply trim_field_Ok in H as [-> ?] end.
  match goal with H : users_UpdateProfile _ _ = _ |- _ => rename H into Hup end.
  match goal with H : users_GetByID _ _ = _ |- _ => rename H into Hget end.
  apply call_Ok in Hup as (Hw2 & now & i & _ & _ & _ & Hup); [|done].
  unfold update_profile in Hup. stmt_inv.
  match goal with H : cast_uuid _ = Ok ?x |- _ => apply cast_uuid_Ok in H as Hk; rename x into k end.
  destruct (db_users (w_db _) !! k) as [u|] eqn:Eu; [|done]. injection Hup as _ Hd2.
  apply (lookup_Ok _ _ (select_user_is user)) in Hget as (_ & Hd3 & Hrow); [|done].
  simpl in Hk. rewrite Hk in Hrow. simpl in Hrow. rewrite <- Hd2, Hd1 in *. simpl in Hrow.
  rewrite lookup_insert_eq in Hrow. injection Hrow as <-.
  split; [done|]. do 7 eexists. split_and!; try done. exact (conj Hd3 eq_refl).
Qed.
End service.

(** ** Every request *)
Inductive request : Type :=
| ReqMessage (actor : ID) (r : msg_request)
| ReqChat (actor : ID) (r : chat_request)
| ReqAuth (meta : ClientMeta) (r : auth_request)
| ReqUser (r : user_request).

Section every.
Context {G : UuidGen} {GL : UuidGenLaws G} {B : Bcrypt} {J : Jwt} {RD : Rand}.
Variables (cfg : JWTConfig) (obs metrics : bool) (writer_pool : bool).

Definition run_request (r : request) : M () :=
  match r with
  | ReqMessage actor r => run_msg (Some (pg_message_writer writer_pool obs)) metrics actor r
  | ReqChat actor r => run_chat actor r
  | ReqAuth meta r => run_auth cfg meta r
  | ReqUser r => run_user r
  end.

(** Several requests, one after the other, whatever each answers. *)
Fixpoint serve (rs : list request) : M () :=
  match rs with
  | [] => mret ()
  | r :: rs => _ ← attempt (run_request r); serve rs
  end.

Lemma run_request_guar r : guar evolves (run_request r).
Proof.
  destruct r; simpl.
  - eapply run_msg_guar; try apply _. intros W [= <-]. apply _.
  - apply run_chat_guar; apply _.
  - apply run_auth_guar; apply _.
  - apply run_user_guar; apply _.
Qed.

Lemma serve_guar rs : guar evolves (serve rs).
Proof.
  induction rs as [|r rs IH]; simpl; [apply guar_ret|].
  apply guar_bind; [apply guar_attempt, run_request_guar|by intros].
Qed.

(** Whatever requests arrive and whatever fails: while the other
    processes also keep to it, the tables stay well formed (keys, foreign
    keys, unique emails, direct keys, token digests and event ids), no
    message, event, session, user or chat disappears, the text of a
    deleted message is frozen, authorship and identifiers never change, a
    revoked session stays revoked and a published event published. *)
Theorem requests_evolve rs w r w' :
  env evolves w → wf (w_db w) → serve rs w = (r, w') →
  evolves (w_db w) (w_db w') ∧ wf (w_db w').
Proof.
  intros Hw Hwf H. apply serve_guar in H as [He _]; [|done]. split; [done|]. by apply (ev_wf _ _ He).
Qed.
End every.

Definition demo_requests : list request :=
  [ReqMessage alice (MDelete msg1); ReqChat alice (CDirect carol); ReqAuth demo_meta (ARegister dave_register);
   ReqUser (UGet bob); ReqMessage carol (MCreate chat1 demo_text)].
Lemma requests_evolve_witness :
  let w' := (serve demo_cfg true true true demo_requests (demo_world demo_db (faults [NoFault; FailAfter "lost"]))).2 in
  evolves demo_db (w_db w') ∧ wf (w_db w').
Proof.
  destruct (serve demo_cfg true true true demo_requests (demo_world demo_db (faults [NoFault; FailAfter "lost"])))
    as [r w'] eqn:E.
  apply (requests_evolve demo_cfg true true true demo_requests
           (demo_world demo_db (faults [NoFault; FailAfter "lost"])) r w').
  - apply undisturbed_guar; [apply _|]. apply demo_undisturbed.
  - apply demo_wf.
  - exact E.
Defined.

Definition demo_patch : PatchUserRequest := mkPatchUser (Some " Alice_2 ") None (Some "Smith") None.
Lemma update_me_correct_witness :
  is_ok (UpdateMe alice demo_patch demo).1 = true ∧ no_fields demo_patch = false.
Proof.
  assert (is_ok (UpdateMe alice demo_patch demo).1 = true) as Hok by (vm_compute; reflexivity).
  split; [exact Hok|].
  destruct (UpdateMe alice demo_patch demo) as [[self|e] w'] eqn:E; [|discriminate Hok].
  apply (update_me_correct alice demo_patch demo self w'); [|exact E].
  apply (demo_undisturbed demo_db []).
Defined.
