(* ===== verification/WsTheorems.v ===== *)
(** * What WebSocket connections promise

    Who may open a connection, and whom a typing event reaches. *)

From Stdlib Require Import Ascii.
From stdpp Require Import base strings gmap sets list.
From S2P Require Import Prelude GoStrings Uuid Json JsonCodec JsonStruct WsEvents Errors GoTime Domain Hub HubTheorems Metrics World Repository PgChats Invariant Guarantee Laws Calls Scenario Regex Credentials Redis RedisTheorems Broadcaster BroadcastTheorems RelayTheorems MessageService MessageTheorems WsService Toys.

Local Open Scope Z_scope.

Section typing.
Context {G : UuidGen} {GL : UuidGenLaws G} {R : RedisServer}.

(** A request to Redis leaves the tables and the hub alone. *)
Lemma redis_outside {A} (f : Time → World → A * World) w r w' :
  (∀ now w1, w_db (f now w1).2 = w_db w1 ∧ w_hub (f now w1).2 = w_hub w1 ∧ w_sched (f now w1).2 = w_sched w1) →
  undisturbed w → remote_call f w = (r, w') →
  undisturbed w' ∧ w_db w' = w_db w ∧ w_hub w' = w_hub w.
Proof.
  intros Hf Hu Hcall%remote_call_inv. assert (w_hub (next_event w).2 = w_hub w) as Hh
    by (unfold next_event; by destruct (w_sched w)).
  destruct (next_event w) as [e w1] eqn:E. simpl in Hcall, Hh.
  apply next_event_undisturbed in E as [Hd Hu1]; [|done]. destruct (Hf (w_now w1) w1) as (H1 & H2 & H3).
  destruct Hcall as [(a & _ & Ha)|(m & _ & [->| ->])];
    [rewrite Ha in H1, H2, H3; simpl in *|done|]; split_and!; try congruence; unfold undisturbed in *; by rewrite H3.
Qed.

Lemma remote_call_pubsub {A} (f : Time → World → A * World) w r w' :
  (∀ now w1, w_pubsub (f now w1).2 = w_pubsub w1) → remote_call f w = (r, w') → w_pubsub w' = w_pubsub w.
Proof.
  intros Hf Hcall%remote_call_inv.
  assert (w_pubsub (next_event w).2 = w_pubsub w) as Hp by (unfold next_event; by destruct (w_sched w)).
  specialize (Hf (w_now (next_event w).2) (next_event w).2).
  destruct Hcall as [(a & _ & Ha)|(m & _ & [->| ->])]; [rewrite Ha in Hf; simpl in Hf|done|]; congruence.
Qed.

Lemma update_typing_outside typing ev cid uid w r w' :
  undisturbed w → update_typing typing ev cid uid w = (r, w') →
  undisturbed w' ∧ w_db w' = w_db w ∧ w_hub w' = w_hub w ∧ w_pubsub w' = w_pubsub w.
Proof.
  intros Hu. unfold update_typing. destruct typing as [rdb|]; [|by intros [= _ <-]].
  assert (∀ m : M (), (∀ r1 w1, m w = (r1, w1) →
            undisturbed w1 ∧ w_db w1 = w_db w ∧ w_hub w1 = w_hub w ∧ w_pubsub w1 = w_pubsub w) →
            (_ ← attempt m; mret ()) w = (r, w') →
            undisturbed w' ∧ w_db w' = w_db w ∧ w_hub w' = w_hub w ∧ w_pubsub w' = w_pubsub w) as Hatt.
  { intros m Hm. unfold mbind, eff_bind, attempt. destruct (m w) as [r1 w1] eqn:E. intros [= _ <-]. by eapply Hm. }
  assert (∀ f r1 w1, (∀ now w2, w_db (f now w2).2 = w_db w2 ∧ w_hub (f now w2).2 = w_hub w2
                               ∧ w_sched (f now w2).2 = w_sched w2 ∧ w_pubsub (f now w2).2 = w_pubsub w2) →
            remote_call (A:=()) f w = (r1, w1) →
            undisturbed w1 ∧ w_db w1 = w_db w ∧ w_hub w1 = w_hub w ∧ w_pubsub w1 = w_pubsub w) as Hcmd.
  { intros f r1 w1 Hf Hrun. pose proof Hrun as (? & ? & ?)%redis_outside; [|intros; by destruct (Hf now w0) as (? & ? & ? & _)|done].
    apply remote_call_pubsub in Hrun; [done|]. intros now w0. by destruct (Hf now w0) as (_ & _ & _ & ?). }
  apply Hatt. intros r1 w1. destruct (String.eqb ev EventTypingStop).
  - unfold StopTyping, cmd_del. destruct (_ || _); [by intros [= _ <-]|]. by apply Hcmd.
  - unfold StartTyping, cmd_set. destruct (negb rdb); [by intros [= _ <-]|].
    unfold fail_when. destruct (_ || _); [by intros [= _ <-]|]. unfold mbind, eff_bind, mret, eff_ret. by apply Hcmd.
Qed.

(** The channel of a chat names it. *)
Lemma prefix_app p s : String.prefix p (p +:+ s) = true.
Proof. induction p as [|c p IH]; [by destruct s|]. simpl. by destruct (ascii_dec c c). Qed.
Lemma drop_app p s : str_drop (String.length p) (p +:+ s) = s.
Proof. by induction p. Qed.
Lemma trim_channel chat : TrimPrefix (chatChannel chat) chatChannelPrefix = chat.
Proof. unfold TrimPrefix, HasPrefix, chatChannel. by rewrite prefix_app, drop_app. Qed.

(** What delivering a payload to a chat leaves of the hub. *)
Definition delivered (cid : ID) (payload : string) (d : DB) (h h' : Hub) : Prop :=
  ∀ p c, h_heap h !! p = Some c →
    h_heap h' !! p = Some (if decide (p ∈ user_set (c_userID c) h ∧ is_Some (db_members d !! (cid, c_userID c)))
                           then enqueue payload c else c).

(** Whatever [deliverPayload] reports, only members' connections changed. *)
Lemma deliver_any chat payload w r w' :
  wf (w_db w) → undisturbed w → hub_ok (w_hub w) → deliverPayload true chat payload w = (r, w') →
  w_db w' = w_db w ∧ w_pubsub w' = w_pubsub w
  ∧ (w_hub w' = w_hub w ∨ ∃ cid, uuid_in chat = Some cid ∧ delivered cid payload (w_db w) (w_hub w) (w_hub w')).
Proof.
  intros Hwf Hu Hh Hrun. assert (w_pubsub w' = w_pubsub w) as Hp.
  { unfold deliverPayload in Hrun. cbn [negb] in Hrun.
    apply bind_inv in Hrun as [(ms & w1 & Hcall & Hrun)|(e' & Hcall & _)];
      [rewrite send_all_run in Hrun; injection Hrun as _ <-|]; by apply call_outside in Hcall as (_ & _ & ? & _). }
  destruct r as [[]|e].
  - apply deliver_to_members in Hrun as (cid & Hcid & Hd & _ & _ & Hdel); [|done..]. eauto 10.
  - unfold deliverPayload in Hrun. cbn [negb] in Hrun.
    apply bind_inv in Hrun as [(ms & w1 & Hcall & Hrun)|(e' & Hcall & _)]; [by rewrite send_all_run in Hrun|].
    split_and!; [|done|left; by apply (call_outside _ _ _ _ Hcall)].
    apply call_read_only_db in Hcall as [? _]; [done| |done]. intros ctx d. unfold select_members.
    unfold mbind, eff_bind, of_result. by destruct (cast_uuid chat).
Qed.

(** The relay of a message received on a chat's channel. *)
Lemma relay_any chat payload v r v' :
  chat ≠ "" → wf (w_db v) → undisturbed v → hub_ok (w_hub v) → w_pubsub v = [(chatChannel chat, payload)] →
  StartRedisRelay true (Some true) v = (r, v') →
  w_db v' = w_db v ∧ w_pubsub v' = []
  ∧ (w_hub v' = w_hub v ∨ ∃ cid, uuid_in chat = Some cid ∧ delivered cid payload (w_db v) (w_hub v) (w_hub v')).
Proof.
  intros Hne Hwf Hu Hh Hps. unfold StartRedisRelay, SubscribeChatEvents, fail_when. cbn [negb].
  unfold mbind, eff_bind, mret, eff_ret, receive_all. rewrite Hps. cbn [subscribe_loop].
  rewrite trim_channel. destruct (str_empty chat) eqn:E; [by apply String.eqb_eq in E|].
  unfold mbind, eff_bind, mret, eff_ret. destruct (deliverPayload _ _ _ _) as [x v1] eqn:Ed.
  apply deliver_any in Ed; [|done..]. destruct x as [[]|e]; by intros [= _ <-].
Qed.

(** What a published typing event leads to: it goes to the chat's channel
    in Redis, or nowhere when Redis fails; each server that receives it
    there hands it to connections of members of the chat only, and a
    broadcaster without Pub/Sub does so at once. *)
Definition broadcast_to_members (pub : option bool) (chat cid : ID) (payload : string) (w w' : World) : Prop :=
  match pub with
  | Some rdb =>
      w_hub w' = w_hub w
      ∧ (w_pubsub w' = w_pubsub w ∨ (rdb = true ∧ w_pubsub w' = redis_publish (chatChannel chat) payload (w_pubsub w)))
      ∧ ∀ v r v', wf (w_db v) → undisturbed v → hub_ok (w_hub v) → w_pubsub v = [(chatChannel chat, payload)] →
          StartRedisRelay true (Some true) v = (r, v') →
          w_db v' = w_db v ∧ w_pubsub v' = []
          ∧ (w_hub v' = w_hub v ∨ delivered cid payload (w_db v) (w_hub v) (w_hub v'))
  | None =>
      w_pubsub w' = w_pubsub w ∧ (w_hub w' = w_hub w ∨ delivered cid payload (w_db w) (w_hub w) (w_hub w'))
  end.

Lemma cmd_publish_any channel payload w r w' :
  undisturbed w → cmd_publish channel payload w = (r, w') →
  w_db w' = w_db w ∧ w_hub w' = w_hub w
  ∧ (w_pubsub w' = w_pubsub w ∨ w_pubsub w' = redis_publish channel payload (w_pubsub w)).
Proof.
  intros Hu Hrun. pose proof Hrun as (_ & Hd & Hh)%redis_outside; [|by intros|done]. split_and!; [done..|].
  apply remote_call_inv in Hrun.
  assert (w_pubsub (next_event w).2 = w_pubsub w) as Hp by (unfold next_event; by destruct (w_sched w)).
  destruct Hrun as [(a & _ & [= _ <-])|(m & _ & [->| ->])]; simpl; rewrite ?Hp; auto.
Qed.

Lemma attempt_publish pub chat cid ev data meta w r w' :
  chat ≠ "" → uuid_in chat = Some cid → wf (w_db w) → undisturbed w → hub_ok (w_hub w) →
  attempt (PublishToChat true pub chat ev data meta) w = (r, w') →
  w_db w' = w_db w ∧ broadcast_to_members pub chat cid (MarshalEnvelope ev data meta) w w'.
Proof.
  intros Hne Hcid Hwf Hu Hh (x & -> & Hrun)%attempt_inv. unfold PublishToChat in Hrun. cbn [negb] in Hrun.
  destruct pub as [rdb|]; simpl.
  - assert (w_db w' = w_db w ∧ w_hub w' = w_hub w ∧ (w_pubsub w' = w_pubsub w
      ∨ rdb = true ∧ w_pubsub w' = redis_publish (chatChannel chat) (MarshalEnvelope ev data meta) (w_pubsub w)))
      as (? & ? & ?).
    { unfold PublishChatEvent, fail_when in Hrun. unfold mbind, eff_bind, mret, eff_ret, throw in Hrun.
      destruct rdb; cbn [negb] in Hrun; [|injection Hrun as _ <-; auto].
      destruct (str_empty _); [injection Hrun as _ <-; auto|].
      apply cmd_publish_any in Hrun as (? & ? & [?|?]); auto. }
    split_and!; [done..|]. intros v y v' ?????. destruct (relay_any chat (MarshalEnvelope ev data meta) v y v')
      as (? & ? & [?|(cid' & ? & ?)]); [done..|auto|]. assert (cid' = cid) as -> by congruence. auto.
  - apply deliver_any in Hrun as (? & ? & [?|(cid' & ? & ?)]); [by auto| |done..].
    assert (cid' = cid) as -> by congruence. auto.
Qed.

Lemma parse_chat_nonempty raw chat : parseMsgChatID raw = Ok chat → chat ≠ "".
Proof. unfold parseMsgChatID. destruct (MatchString _ _) eqn:E; [|done]. intros [= <-] He. by rewrite He in E. Qed.

Lemma wsErrorFrame_is err meta : ∃ code message, wsErrorFrame err meta = error_frame code message meta.
Proof. unfold wsErrorFrame. destruct (As err); eauto. Qed.

(** The chat a typing frame names. *)
Definition typing_chat (data : option string) (chat : ID) : Prop :=
  ∃ kvs raw, data_members data = Some kvs ∧ string_field "chat_id" kvs = (raw, true)
           ∧ parseMsgChatID (TrimSpace raw) = Ok chat.

(** C34.  Typing events: whatever the data, the tables do not change.
    Either the sender gets one error event and nothing else happens to the
    connections, Redis or Pub/Sub; or the sender is a member of the chat
    named, gets no frame, and the started or stopped event naming the two
    is published to that chat's channel (or is lost, when Redis fails),
    from where every server hands it to connections of that chat's members
    only.  A broadcaster without Pub/Sub hands it to them itself. *)
Theorem typing_members_only typing pub uid ev data meta w outs w' :
  wf (w_db w) → undisturbed w → hub_ok (w_hub w) →
  handleTyping typing true pub uid ev data meta w = (Ok outs, w') →
  w_db w' = w_db w ∧
  ((∃ code message, outs = [error_frame code message meta]
      ∧ w_hub w' = w_hub w ∧ w_redis w' = w_redis w ∧ w_pubsub w' = w_pubsub w) ∨
   (outs = [] ∧ ∃ chat cid u,
      typing_chat data chat ∧ uuid_in chat = Some cid ∧ uuid_in uid = Some u
      ∧ is_Some (db_members (w_db w) !! (cid, u))
      ∧ broadcast_to_members pub chat cid
          (MarshalEnvelope (typing_event ev) (AValue (typing_payload chat uid)) meta) w w')).
Proof.
  intros Hwf Hu Hh. unfold handleTyping. cbv zeta.
  assert (∀ l, (mret l : M (list string)) w = (Ok outs, w') → (∃ code message, l = [error_frame code message meta]) →
            w_db w' = w_db w ∧ (∃ code message, outs = [error_frame code message meta]
              ∧ w_hub w' = w_hub w ∧ w_redis w' = w_redis w ∧ w_pubsub w' = w_pubsub w))
    as Hrefuse by (intros l [= <- <-] (? & ? & ->); eauto 10).
  destruct (data_members data) as [kvs|] eqn:Ekvs; [|intros H; destruct (Hrefuse _ H) as [? ?]; [by do 2 eexists|by split; [|left]]].
  destruct (string_field "chat_id" kvs) as [raw ok] eqn:Esf.
  destruct ok; cbn [negb]; [|intros H; destruct (Hrefuse _ H) as [? ?]; [by do 2 eexists|by split; [|left]]].
  destruct (parseMsgChatID (TrimSpace raw)) as [chat|e] eqn:Epc;
    [|intros H; destruct (Hrefuse _ H) as [? ?]; [destruct (wsErrorFrame_is e meta) as (? & ? & ->); by do 2 eexists|by split; [|left]]].
  intros (x & w1 & (y & [= ->] & Hfind)%attempt_inv & Hrun)%bind_Ok_inv.
  assert (w_hub w1 = w_hub w ∧ w_redis w1 = w_redis w ∧ w_pubsub w1 = w_pubsub w) as (Hh1 & Hr1 & Hp1).
  { destruct y; [apply map_err_Ok_inv in Hfind|apply map_err_inv in Hfind as [(? & ? & _)|(? & _ & Hfind)]; [done|]];
      apply call_outside in Hfind as (? & ? & ? & _); done. }
  destruct y as [m|e].
  - apply pg_FindMembership_Ok in Hfind as (Hd1 & Hu1 & cid & u & Hcid & Huid & Hm); [|done].
    apply bind_Ok_inv in Hrun as (t & w2 & Ht & Hrun).
    apply update_typing_outside in Ht as (Hu2 & Hd2 & Hh2 & Hp2); [|done].
    apply bind_Ok_inv in Hrun as (b & w3 & Hpub & [= <- <-]).
    apply (attempt_publish _ _ cid) in Hpub as [Hd3 Hcase];
      [|by eapply parse_chat_nonempty|done|by rewrite Hd2, Hd1|done|by rewrite Hh2, Hh1].
    split; [congruence|]. right. split; [done|]. exists chat, cid, u. split_and!; try done; [by exists kvs, raw|].
    revert Hcase. unfold broadcast_to_members. rewrite Hd2, Hd1, Hh2, Hh1, Hp2, Hp1. done.
  - assert (w_db w1 = w_db w) as Hd1.
    { apply map_err_inv in Hfind as [(? & ? & _)|(e' & _ & Hfind)]; [done|].
      apply (neutral_run _ _ _ _ (neutral_call _ (select_membership_ro _ _)) Hu) in Hfind as [? _]. done. }
    split; [by destruct (is_not_found e); injection Hrun as _ <-|left].
    destruct (wsErrorFrame_is e meta) as (? & ? & Hw). rewrite Hw in Hrun.
    destruct (is_not_found e); injection Hrun as <- <-; eauto 10.
Qed.
End typing.

(** ** Opening a connection *)
Section opening.
Context {P : Prometheus} {G : UuidGen} {RS : RedisServer} {RL : RedisLaws RS}.

Lemma cmd_getdel_outside key w r w' :
  undisturbed w → cmd_getdel key w = (r, w') → undisturbed w' ∧ w_db w' = w_db w ∧ w_hub w' = w_hub w.
Proof. apply redis_outside. intros now w1. by destruct (redis_getdel _ _ _). Qed.

Lemma Consume_outside t w r w' :
  undisturbed w → Consume true t w = (r, w') → undisturbed w' ∧ w_db w' = w_db w ∧ w_hub w' = w_hub w.
Proof.
  intros Hu. unfold Consume. cbn [negb]. unfold fail_when, mbind, eff_bind, mret, eff_ret, throw.
  destruct (str_empty (TrimSpace t)); [by intros [= _ <-]|].
  destruct (cmd_getdel _ w) as [[[v|]|e] w1] eqn:E; apply cmd_getdel_outside in E; try done;
    [destruct (str_empty (TrimSpace v))|..]; by intros [= _ <-].
Qed.

(** The notifier writes only the user's mark. *)
Lemma connected_outside presence uid key w r w' :
  (∀ u, presenceKey u ≠ key) → undisturbed w → connected presence uid w = (r, w') →
  w_db w' = w_db w ∧ w_hub w' = w_hub w ∧ (∀ now, redis_get now key (w_redis w') = redis_get now key (w_redis w)).
Proof.
  intros Hk Hu. unfold connected, Connected. destruct presence as [repo|]; [|by intros [= _ <-]].
  unfold mbind, eff_bind, attempt. destruct (svc_SetOnline repo uid w) as [r1 w1] eqn:E. intros [= _ <-].
  revert E. unfold svc_SetOnline, SetOnline. destruct repo as [[]|]; cbn [negb]; [|by intros [= _ <-]..].
  unfold fail_when. destruct (str_empty uid); [by intros [= _ <-]|].
  unfold mbind, eff_bind, mret, eff_ret. intros E.
  apply (set_frame key) in E as E2; [|apply Hk]. destruct E2 as [E2 _].
  apply redis_outside in E as (_ & ? & ?); done.
Qed.

Lemma origin_refused allowed origin :
  origin ≠ "" → origin ∉ allowed → originOK allowed origin = false.
Proof.
  intros Hne Hin. unfold originOK. destruct (str_empty origin) eqn:E; [by apply String.eqb_eq in E|].
  destruct (_ =? _)%nat; [done|]. destruct (existsb _ _) eqn:Ex; [|done].
  apply existsb_exists in Ex as (o & Ho & ->%String.eqb_eq). by apply list_elem_of_In in Ho.
Qed.

Lemma origin_accepted allowed origin : originOK allowed origin = true → origin = "" ∨ origin ∈ allowed.
Proof.
  intros Hok. destruct (decide (origin = "")); [by left|right]. destruct (decide (origin ∈ allowed)); [done|].
  by rewrite origin_refused in Hok.
Qed.

Lemma inc_with_if_outside metrics v vs w r w' :
  inc_with_if metrics v vs w = (r, w') → w_db w' = w_db w ∧ w_hub w' = w_hub w.
Proof.
  unfold inc_with_if, inc_with. destruct metrics; [|by intros [= _ <-]].
  unfold mbind, eff_bind, of_result. destruct (WithLabelValues v vs); by intros [= _ <-].
Qed.

(** Unless a connection is opened, the tables and the hub stay as they are. *)
Lemma ServeHTTP_refused presence metrics allowed origin ticket upgraded w r w' :
  undisturbed w → ServeHTTP (Some true) presence metrics allowed origin ticket upgraded w = (r, w') →
  (∀ uid p, r ≠ Ok (Opened uid p)) → w_db w' = w_db w ∧ w_hub w' = w_hub w.
Proof.
  intros Hu. unfold ServeHTTP. destruct (originOK _ _); cbn [negb]; [|by intros [= _ <-]].
  destruct (str_empty _); [by intros [= _ <-]|].
  intros [(x & w1 & (y & [= ->] & Hc)%attempt_inv & Hrun)|(e & (y & [=] & _)%attempt_inv & _)]%bind_inv Hno.
  apply Consume_outside in Hc as (Hu1 & Hd1 & Hh1); [|done].
  destruct y as [u|e]; [|by injection Hrun as _ <-]. destruct (str_empty u); [by injection Hrun as _ <-|].
  destruct upgraded; cbn [negb] in Hrun.
  - exfalso. apply bind_inv in Hrun as [([] & w2 & _ & Hrun)|(e & Hcon & _)].
    + apply bind_inv in Hrun as [(q & w3 & _ & [= <- _])|(e & [=] & _)]. by eapply Hno.
    + unfold connected, Connected in Hcon. destruct presence; [|done].
      unfold mbind, eff_bind, attempt in Hcon. by destruct (svc_SetOnline _ _ _).
  - rewrite <- Hd1, <- Hh1. apply bind_inv in Hrun as [([] & w2 & Hi & [= _ <-])|(e & Hi & _)];
      by apply inc_with_if_outside in Hi.
Qed.

(** C35.  Opening a WebSocket.  With a forbidden origin the answer is 403
    and nothing changes: the ticket is not used up.  A connection is opened
    only for an empty or allowed origin and a ticket Redis knew, for the
    user the ticket names; the ticket is used up; the new connection is
    registered under that user with an empty queue and every other
    connection is as it was; the tables do not change.  Any other outcome
    leaves the connections and the tables as they were. *)
Theorem ws_open_correct presence metrics allowed origin ticket upgraded w :
  undisturbed w →
  let serve := ServeHTTP (Some true) presence metrics allowed origin ticket upgraded w in
  (TrimSpace origin ≠ "" → TrimSpace origin ∉ allowed → serve = (Ok (Refused 403 "forbidden origin"), w)) ∧
  (∀ uid p w', serve = (Ok (Opened uid p), w') →
     (TrimSpace origin = "" ∨ TrimSpace origin ∈ allowed) ∧ upgraded = true ∧ uid ≠ ""
     ∧ (∃ now val, redis_get now (ticket_key (TrimSpace ticket)) (w_redis w) = Some val ∧ uid = TrimSpace val)
     ∧ (∀ now, redis_get now (ticket_key (TrimSpace ticket)) (w_redis w') = None)
     ∧ w_db w' = w_db w
     ∧ h_heap (w_hub w) !! p = None
     ∧ h_heap (w_hub w') = <[p := mkClient uid [] [] false]> (h_heap (w_hub w))
     ∧ user_set uid (w_hub w') = {[p]} ∪ user_set uid (w_hub w)
     ∧ (∀ u, u ≠ uid → user_set u (w_hub w') = user_set u (w_hub w))
     ∧ h_active (w_hub w') = h_active (w_hub w) + 1) ∧
  (∀ r w', serve = (r, w') → (∀ uid p, r ≠ Ok (Opened uid p)) → w_db w' = w_db w ∧ w_hub w' = w_hub w).
Proof.
  intros Hu serve. split; [|split]; subst serve.
  { intros Hne Hin. unfold ServeHTTP. by rewrite (origin_refused _ _ Hne Hin). }
  2:{ intros r w'. by apply ServeHTTP_refused. }
  intros uid p w'. unfold ServeHTTP. destruct (originOK allowed (TrimSpace origin)) eqn:Eo; cbn [negb]; [|done].
  destruct (str_empty (TrimSpace ticket)) eqn:Et; [done|].
  intros (x & w1 & (y & [= ->] & Hc)%attempt_inv & Hrun)%bind_Ok_inv. destruct y as [u|e]; [|done].
  destruct (str_empty u) eqn:Eu; [done|]. destruct upgraded; cbn [negb] in Hrun;
    [|by apply bind_Ok_inv in Hrun as (? & ? & _ & [= ])].
  apply bind_Ok_inv in Hrun as ([] & w2 & Hcon & Hrun). apply bind_Ok_inv in Hrun as (q & w3 & Hreg & [= -> -> <-]).
  injection Hreg as <- <-. apply String.eqb_neq in Et, Eu.
  destruct (Consume_spec (TrimSpace ticket) w (Ok uid) w1) as [Hok _]; [apply trim_space_idem|done|done|].
  destruct (Hok uid eq_refl) as [(val & Hval & Huid) Hnone].
  apply Consume_outside in Hc as (Hu1 & Hd1 & Hh1); [|done].
  apply (connected_outside _ _ (ticket_key (TrimSpace ticket))) in Hcon as (Hd2 & Hh2 & Hr2); [|by intros u ?%symmetry%ticket_not_presence|done].
  assert (h_heap (w_hub w2) !! next_client (w_hub w2) = None) as Hfresh.
  { apply not_elem_of_dom. exact (is_fresh (dom (h_heap (w_hub w2)) : gset nat)). }
  rewrite Hh2, Hh1 in Hfresh |- *. simpl.
  assert (h_heap (newClient (next_client (w_hub w)) uid (w_hub w)) !! next_client (w_hub w)
          = Some (mkClient uid [] [] false)) as Hnew by apply lookup_insert_eq.
  split_and!; try done.
  - by apply origin_accepted.
  - eauto.
  - intros now. by rewrite Hr2.
  - congruence.
  - unfold Hub.Register. by rewrite Hnew.
  - by rewrite (user_set_Register _ _ _ _ Hnew), decide_True.
  - intros u Hne. by rewrite (user_set_Register _ _ _ _ Hnew), decide_False.
  - unfold Hub.Register. by rewrite Hnew.
Qed.
End opening.

(** ** Witnesses *)
Definition ws_demo : World := set_hub demo_hub demo_issued.
Definition demo_open : result error ws_outcome * World :=
  ServeHTTP (Some true) (Some (Some true)) true ["https://chat.example"] " https://chat.example" demo_ticket true ws_demo.

Lemma ws_open_correct_witness :
  (∃ p w', demo_open = (Ok (Opened alice p), w') ∧ user_set alice (w_hub w') = {[p]} ∪ user_set alice demo_hub) ∧
  ServeHTTP (Some true) (Some (Some true)) true ["https://chat.example"] "https://evil.example" demo_ticket true ws_demo
  = (Ok (Refused 403 "forbidden origin"), ws_demo).
Proof.
  assert (undisturbed ws_demo) as Hu by (apply quiet_undisturbed; vm_compute; reflexivity).
  split.
  - assert (match demo_open.1 with Ok (Opened uid _) => String.eqb uid alice | _ => false end = true) as Hok
      by (vm_compute; reflexivity).
    destruct demo_open as [[[| |uid p]|e] w'] eqn:E; try discriminate Hok.
    apply String.eqb_eq in Hok. subst uid. exists p, w'. split; [reflexivity|].
    destruct (ws_open_correct (Some (Some true)) true ["https://chat.example"] " https://chat.example" demo_ticket true
                ws_demo Hu) as (_ & Hopen & _).
    apply Hopen in E. apply E.
  - destruct (ws_open_correct (Some (Some true)) true ["https://chat.example"] "https://evil.example" demo_ticket true
                ws_demo Hu) as (Hforbid & _ & _).
    apply Hforbid; [discriminate|]. apply (bool_decide_unpack _). vm_compute. exact I.
Defined.

Definition typing_data : string := json_write (JObj [("chat_id", JStr chat1)]).
Definition typing_run (pub : option bool) (uid : ID) : result error (list string) * World :=
  handleTyping (Some true) true pub uid EventTypingStart (Some typing_data) (ARaw "{}") (set_hub demo_hub demo).
Definition typing_demo_frame : string :=
  MarshalEnvelope EventTypingStarted (AValue (typing_payload chat1 alice)) (ARaw "{}").

(** A member's event is published; a stranger gets the error; and the
    server that receives the event queues it for the members. *)
Example typing_published :
  w_pubsub (typing_run (Some true) alice).2 = [(chatChannel chat1, typing_demo_frame)]
  ∧ (typing_run (Some true) carol).1 = Ok [error_frame "forbidden" "not a chat member" (ARaw "{}")]
  ∧ let heap := h_heap (w_hub (StartRedisRelay true (Some true) (typing_run (Some true) alice).2).2) in
    (λ p, c_send <$> heap !! p) <$> [1; 2; 3; 4]%nat
    = [Some [typing_demo_frame]; Some [typing_demo_frame]; Some [typing_demo_frame]; Some []].
Proof. vm_compute. repeat split. Qed.

Lemma typing_members_only_witness :
  (∃ w', typing_run (Some true) alice = (Ok [], w') ∧ w_db w' = demo_db) ∧
  (∃ code message w', typing_run (Some true) carol = (Ok [error_frame code message (ARaw "{}")], w')
                      ∧ w_hub w' = demo_hub) ∧
  (∃ w', typing_run None alice = (Ok [], w') ∧ w_pubsub w' = []).
Proof.
  assert (wf (w_db (set_hub demo_hub demo))) as Hwf by apply demo_wf.
  assert (undisturbed (set_hub demo_hub demo)) as Hu by (apply quiet_undisturbed; reflexivity).
  pose proof demo_hub_ok as Hh.
  assert (match (typing_run (Some true) alice).1 with Ok [] => true | _ => false end = true) as Ha by (vm_compute; reflexivity).
  assert (match (typing_run (Some true) carol).1 with Ok [f] => true | _ => false end = true) as Hc by (vm_compute; reflexivity).
  assert (match (typing_run None alice).1 with Ok [] => true | _ => false end = true) as Hn by (vm_compute; reflexivity).
  destruct (typing_run (Some true) alice) as [[[|f l]|e] w'] eqn:E; try discriminate Ha.
  destruct (typing_run (Some true) carol) as [[[|g [|g' l]]|e] w2] eqn:E2; try discriminate Hc.
  destruct (typing_run None alice) as [[[|f l]|e] w3] eqn:E3; try discriminate Hn.
  split; [|split].
  - exists w'. split; [reflexivity|]. exact (proj1 (typing_members_only _ _ _ _ _ _ _ _ _ Hwf Hu Hh E)).
  - destruct (typing_members_only _ _ _ _ _ _ _ _ _ Hwf Hu Hh E2) as [_ [(code & message & Hg & H & _)|(H & _)]].
    + exists code, message, w2. split; [injection Hg as ->; reflexivity|exact H].
    + discriminate H.
  - exists w3. split; [reflexivity|].
    destruct (typing_members_only _ _ _ _ _ _ _ _ _ Hwf Hu Hh E3) as [_ [(code & message & H & _)|(_ & chat & cid & u & _ & _ & _ & _ & H & _)]].
    + discriminate H.
    + exact H.
Defined.

(** ** The handler of frames never fails

    Every error becomes a frame for the sender, so readPump never calls
    writeDirect: writePump is the only goroutine that writes to the
    connection, as gorilla/websocket requires. *)
Definition answers {A} (m : M A) : Prop := ∀ w, is_ok (m w).1 = true.
Lemma answers_ret {A} (a : A) : answers (mret a).
Proof. done. Qed.
Lemma answers_attempt {A} (m : M A) : answers (attempt m).
Proof. intros w. unfold attempt. by destruct (m w). Qed.
Lemma answers_bind {A B} (m : M A) (k : A → M B) : answers m → (∀ a, answers (k a)) → answers (m ≫= k).
Proof.
  intros Hm Hk w. specialize (Hm w). unfold mbind, eff_bind. destruct (m w) as [[a|e] w1]; [apply Hk|done].
Qed.

Lemma HandleEvent_answers `{G : UuidGen, R : RedisServer, MR : MessageRepository, CR : ChatRepository}
    writer metrics presence typing wired pub uid payload :
  answers (HandleEvent writer metrics presence typing wired pub uid payload).
Proof.
  unfold HandleEvent, handleMessageSend, handleMessageRead, handleTyping, touch_presence, update_typing, Activity.
  repeat first
    [ apply answers_ret | apply answers_attempt | apply answers_bind; [|intros ?]
    | match goal with
      | |- answers (let _ := _ in _) => cbv zeta
      | |- answers (match ?x with _ => _ end) => destruct x
      end ].
Qed.

(** A turn of the read loop writes nothing past the queue. *)
Lemma read_step_queues `{Prometheus, G : UuidGen, R : RedisServer, MR : MessageRepository, CR : ChatRepository}
    writer metrics presence typing wired pub met p uid message w :
  let handle := HandleEvent writer metrics presence typing wired pub in
  read_step handle met p uid message w
  = (inc_with_if met WSInbound [EnvelopeEventName message];; outs ← handle uid message; queue_all met p outs) w.
Proof.
  intros handle. unfold read_step, mbind, eff_bind, attempt. destruct (inc_with_if _ _ _ w) as [[[]|e] w1]; [|done].
  pose proof (HandleEvent_answers writer metrics presence typing wired pub uid message w1) as Ha. fold handle in Ha.
  destruct (handle uid message w1) as [[outs|e] w2]; [done|discriminate Ha].
Qed.
