(* ===== verification/Conn.v ===== *)
(** * The life of a connection

    The deadlines of transport/ws/client.go: readPump, its pong handler,
    writePump with its ticker, and what ends them.  The two goroutines of a
    connection take the steps of [step]; time passes between them.  Of
    gorilla/websocket, the network and the Go runtime the model assumes
    what they document: a blocked read or write returns when its deadline
    has passed or the connection is closed, a write on a closed connection
    fails, and a ticker drops the ticks nobody receives in time.  [eps] is
    the time the runtime may take to wake a goroutine. *)

From stdpp Require Import base list relations.
From S2P Require Import Prelude GoTime Domain.

Local Open Scope Z_scope.

Definition writeWait : Z := 10 * second.
Definition pongWait : Z := 60 * second.
Definition pingPeriod : Z := pongWait * 9 / 10.

(** Where the goroutines are: readPump in ReadMessage, in HandleEvent or
    returned; writePump in its select, in WriteMessage or returned. *)
Inductive reader : Type := Reading | Handling | ReaderDone.
Inductive frame : Type := TextMessage | PingMessage.
Inductive writer : Type := Selecting | Writing (f : frame) | WriterDone.

Record conn := mkConn {
  cn_now : Time;
  cn_readDeadline : Time;
  cn_writeDeadline : Time;
  cn_tick : Time;             (* the next tick of the ticker *)
  cn_reader : reader;
  cn_writer : writer;
  cn_closed : option Time;    (* when Close was first called *)
  (* the history of the connection *)
  cn_heard : Time;            (* the last pong, or the start *)
  cn_back : Time;             (* the last call of ReadMessage *)
  cn_ping : option Time       (* the ping written and not answered yet *)
}.

(** ** The operations *)
Definition at_time (t : Time) (c : conn) : conn :=
  mkConn t (cn_readDeadline c) (cn_writeDeadline c) (cn_tick c) (cn_reader c) (cn_writer c) (cn_closed c)
    (cn_heard c) (cn_back c) (cn_ping c).

(** The two pumps start: the first deadline, the ticker. *)
Definition pumps (t : Time) : conn :=
  mkConn t (t + pongWait) t (t + pingPeriod) Reading Selecting None t t None.

(** [conn.Close] *)
Definition Close (c : conn) : conn :=
  mkConn (cn_now c) (cn_readDeadline c) (cn_writeDeadline c) (cn_tick c) (cn_reader c) (cn_writer c)
    (Some (default (cn_now c) (cn_closed c))) (cn_heard c) (cn_back c) (cn_ping c).

(** The function given to SetPongHandler, which ReadMessage calls. *)
Definition pong_handler (c : conn) : conn :=
  mkConn (cn_now c) (cn_now c + pongWait) (cn_writeDeadline c) (cn_tick c) (cn_reader c) (cn_writer c) (cn_closed c)
    (cn_now c) (cn_back c) None.

Definition set_reader (x : reader) (c : conn) : conn :=
  mkConn (cn_now c) (cn_readDeadline c) (cn_writeDeadline c) (cn_tick c) x (cn_writer c) (cn_closed c)
    (cn_heard c) (cn_back c) (cn_ping c).
(** The next turn of the read loop. *)
Definition read_again (c : conn) : conn :=
  mkConn (cn_now c) (cn_readDeadline c) (cn_writeDeadline c) (cn_tick c) Reading (cn_writer c) (cn_closed c)
    (cn_heard c) (cn_now c) (cn_ping c).
(** readPump returns: its deferred calls. *)
Definition end_reader (c : conn) : conn := Close (set_reader ReaderDone c).

(** The ticker after the tick [cn_tick] was received: the ticks missed
    since are dropped. *)
Definition next_tick (c : conn) : Time :=
  cn_tick c + pingPeriod * (1 + (cn_now c - cn_tick c) / pingPeriod).

(** A case of the select: the deadline is set and the write begins. *)
Definition begin_write (f : frame) (c : conn) : conn :=
  mkConn (cn_now c) (cn_readDeadline c) (cn_now c + writeWait)
    (match f with PingMessage => next_tick c | TextMessage => cn_tick c end)
    (cn_reader c) (Writing f) (cn_closed c) (cn_heard c) (cn_back c) (cn_ping c).
(** WriteMessage returned without an error: the next turn of the loop. *)
Definition written (f : frame) (c : conn) : conn :=
  mkConn (cn_now c) (cn_readDeadline c) (cn_writeDeadline c) (cn_tick c) (cn_reader c) Selecting (cn_closed c)
    (cn_heard c) (cn_back c) (match f with PingMessage => Some (cn_now c) | TextMessage => cn_ping c end).
(** writePump returns. *)
Definition set_writer (x : writer) (c : conn) : conn :=
  mkConn (cn_now c) (cn_readDeadline c) (cn_writeDeadline c) (cn_tick c) (cn_reader c) x (cn_closed c)
    (cn_heard c) (cn_back c) (cn_ping c).
Definition end_writer (c : conn) : conn := Close (set_writer WriterDone c).

(** ** The steps *)
Section steps.
Variable eps : Z.

(** When the last write began. *)
Definition write_began (c : conn) : Time := cn_writeDeadline c - writeWait.

(** Whether both goroutines can still be blocked at [t]: Close wakes those
    that were blocked before it. *)
Definition closed_before (c : conn) (began t : Time) : Prop :=
  match cn_closed c with Some t0 => t ≤ Z.max t0 began + eps | None => True end.
Definition waits (c : conn) (t : Time) : Prop :=
  match cn_reader c with
  | Reading => t ≤ cn_readDeadline c + eps ∧ closed_before c (cn_back c) t
  | _ => True
  end
  ∧ match cn_writer c with
    | Selecting => t ≤ cn_tick c + eps
    | Writing _ => t ≤ cn_writeDeadline c + eps ∧ closed_before c (write_began c) t
    | WriterDone => True
    end.

(** [ok]: until when the peer and the network let time pass. *)
Variable ok : conn → Time → Prop.

Inductive step (c : conn) : conn → Prop :=
| step_time t : cn_now c < t → waits c t → ok c t → step c (at_time t c)
| step_pong : cn_reader c = Reading → step c (pong_handler c)
| step_text : cn_reader c = Reading → step c (set_reader Handling c)
| step_handled : cn_reader c = Handling → step c (read_again c)
| step_timeout : cn_reader c = Reading → cn_readDeadline c ≤ cn_now c → step c (end_reader c)
| step_broken : cn_reader c = Reading → step c (end_reader c)
| step_send : cn_writer c = Selecting → step c (begin_write TextMessage c)
| step_tick : cn_writer c = Selecting → cn_tick c ≤ cn_now c → step c (begin_write PingMessage c)
| step_written f : cn_writer c = Writing f → cn_closed c = None → step c (written f c)
| step_failed f : cn_writer c = Writing f → step c (end_writer c)
| step_shutdown : step c (Close c).
End steps.

(** No condition on the peer. *)
Definition anyone : conn → Time → Prop := λ _ _, True.

(** The tick whose ping is not written yet. *)
Definition due (c : conn) : Time :=
  match cn_writer c with Writing PingMessage => cn_tick c - pingPeriod | _ => cn_tick c end.

(** A ping is written within [lag] of its tick and its pong is read within
    [answer]. *)
Definition prompt (lag answer : Z) : conn → Time → Prop := λ c t,
  t ≤ due c + lag ∧ ∀ p, cn_ping c = Some p → t ≤ p + answer.

(** ** Invariants *)
Definition bounded (eps : Z) (c : conn) : Prop :=
  cn_readDeadline c = cn_heard c + pongWait
  ∧ cn_heard c ≤ cn_now c ∧ cn_back c ≤ cn_now c ∧ cn_tick c ≤ cn_now c + pingPeriod
  ∧ match cn_writer c with Writing _ => write_began c ≤ cn_now c ≤ cn_writeDeadline c + eps | _ => True end
  ∧ match cn_reader c with Reading => cn_now c ≤ Z.max (cn_heard c + pongWait) (cn_back c) + eps | _ => True end
  ∧ match cn_closed c with
    | None => cn_reader c ≠ ReaderDone ∧ cn_writer c ≠ WriterDone
    | Some t0 =>
        t0 ≤ cn_now c
        ∧ match cn_reader c with Reading => cn_now c ≤ Z.max t0 (cn_back c) + eps | _ => True end
        ∧ match cn_writer c with
          | Selecting => cn_tick c ≤ t0 + pingPeriod ∧ cn_now c ≤ t0 + pingPeriod + eps
          | Writing _ => write_began c ≤ t0 + pingPeriod + eps ∧ cn_now c ≤ t0 + pingPeriod + 2 * eps
          | WriterDone => True
          end
    end.

Lemma next_tick_spec c :
  cn_tick c ≤ cn_now c →
  cn_now c < next_tick c ≤ cn_now c + pingPeriod
  ∧ (cn_now c < cn_tick c + pingPeriod → next_tick c = cn_tick c + pingPeriod).
Proof.
  intros H. unfold next_tick.
  pose proof (Z.div_mod (cn_now c - cn_tick c) pingPeriod ltac:(done)) as Hd.
  pose proof (Z.mod_pos_bound (cn_now c - cn_tick c) pingPeriod ltac:(done)) as Hm.
  split; [lia|]. intros Hl. rewrite Z.div_small by lia. lia.
Qed.

Lemma periods_pos : 0 < pingPeriod ∧ 0 < pongWait ∧ 0 < writeWait.
Proof. done. Qed.

Lemma pumps_bounded eps t : 0 ≤ eps → bounded eps (pumps t).
Proof. intros He. pose proof periods_pos. repeat split; simpl; done || lia. Qed.

(** Case analysis of a step: where the goroutines are, and whether the
    connection is closed. *)
Arguments next_tick : simpl never.
Ltac step_cases Hs :=
  match type of Hs with step _ _ ?c _ =>
    pose proof periods_pos as (Hp1 & Hp2 & Hp3); pose proof (next_tick_spec c) as Hn;
    destruct Hs as [t Ht Hwait Hok|H|H|H|H Hlate|H|H|H Htick|f H Hcl|f H|];
    unfold begin_write; cbv beta iota; revert Hn; generalize (next_tick c); intros nt Hn;
    destruct c as [now rd wd tick r w cl heard back ping]; simpl in *; subst
  end.

Lemma step_bounded eps ok c c' : 0 ≤ eps → step eps ok c c' → bounded eps c → bounded eps c'.
Proof.
  intros He Hs. step_cases Hs.
  all: unfold bounded, waits, closed_before, write_began in *; simpl in *.
  all: try destruct cl as [tc|]; try destruct r; try destruct w; simpl in *.
  all: intros Hb; decompose [and] Hb; clear Hb.
  all: try (decompose [and] Hwait; clear Hwait Hok).
  all: generalize dependent pongWait; generalize dependent pingPeriod; generalize dependent writeWait; intros.
  all: split_and?; first [exact I|lia|congruence].
Qed.

(** While the peer and the network are prompt, the ping that is due and
    the last pong leave the deadline in the future. *)
Definition alive (lag answer : Z) (c : conn) : Prop :=
  match cn_closed c with
  | Some _ => True
  | None =>
      due c - pingPeriod ≤ cn_now c ≤ due c + lag
      ∧ match cn_writer c with Writing PingMessage => due c ≤ cn_now c | _ => True end
      ∧ match cn_ping c with
        | None => due c + pongWait - pingPeriod ≤ cn_readDeadline c
        | Some p =>
            p ≤ due c - pingPeriod + lag ∧ cn_now c ≤ p + answer
            ∧ due c + pongWait - 2 * pingPeriod ≤ cn_readDeadline c
        end
  end.

Lemma step_alive eps lag answer c c' :
  0 ≤ lag → 0 ≤ answer → lag + answer < pongWait - pingPeriod →
  step eps (prompt lag answer) c c' → alive lag answer c → alive lag answer c'.
Proof.
  intros Hl Ha Hla Hs. assert (pongWait - pingPeriod < pingPeriod) as Hgap by done.
  step_cases Hs.
  all: unfold alive, prompt, due in *; simpl in *.
  all: try destruct cl as [tc|]; [try exact (λ _, I)..|].
  all: try destruct f; try destruct w as [|[]|]; try destruct ping; simpl in *; try exact (λ _, I).
  all: intros Hb; decompose [and] Hb; clear Hb.
  all: try (destruct Hok as [? Hok]; try specialize (Hok _ eq_refl)).
  all: try (destruct Hn; [lia|]).
  all: generalize dependent pongWait; generalize dependent pingPeriod; generalize dependent writeWait; intros.
  all: split_and?; first [exact I|lia|congruence].
Qed.

Lemma reach_ind (P : conn → Prop) eps ok t c :
  P (pumps t) → (∀ c c', step eps ok c c' → P c → P c') → rtc (step eps ok) (pumps t) c → P c.
Proof. intros H0 Hs Hr. revert H0. induction Hr; [done|]. intros H0. eapply IHHr, Hs; eassumption. Qed.

(** A goroutine that has not returned always has a step that takes no
    time: the bounds above are not met by stopping the clock. *)
Lemma step_possible eps ok c :
  cn_reader c ≠ ReaderDone ∨ cn_writer c ≠ WriterDone →
  ∃ c', step eps ok c c' ∧ cn_now c' = cn_now c ∧ (cn_reader c' ≠ cn_reader c ∨ cn_writer c' ≠ cn_writer c).
Proof.
  intros [H|H]; [destruct (cn_reader c) eqn:E|destruct (cn_writer c) eqn:E]; try done.
  - exists (end_reader c). split; [by apply step_broken|]. split; [done|]. left. by simpl.
  - exists (read_again c). split; [by apply step_handled|]. split; [done|]. left. by simpl.
  - exists (begin_write TextMessage c). split; [by apply step_send|]. split; [done|]. right. by simpl.
  - exists (end_writer c). split; [by eapply step_failed|]. split; [done|]. right. by simpl.
Qed.

(** C7.  How long the pumps wait.  Up to [eps], whatever happens on a
    connection,
    - a call of ReadMessage waits until pongWait after the last pong, or
      the start, and no longer (a call made later than that returns at
      once);
    - when one pump returns the connection is closed; from then on a call
      of ReadMessage that waits returns at once, and the write pump returns
      within a ping period.
    While the read loop is in HandleEvent, which has no deadline of its
    own, or has frames left that it had received, nothing bounds it.
    And no live peer is dropped: if pings are written within [lag] of their
    tick and answered within [answer], and both together take less than the
    6 seconds between pingPeriod and pongWait, the read deadline is never
    reached. *)
Theorem keepalive_correct eps lag answer t c :
  0 ≤ eps → 0 ≤ lag → 0 ≤ answer → lag + answer < pongWait - pingPeriod →
  (rtc (step eps anyone) (pumps t) c →
     (cn_reader c = Reading → cn_now c ≤ Z.max (cn_heard c + pongWait) (cn_back c) + eps)
     ∧ (cn_reader c = ReaderDone ∨ cn_writer c = WriterDone → is_Some (cn_closed c))
     ∧ ∀ t0, cn_closed c = Some t0 →
         (cn_reader c = Reading → cn_now c ≤ Z.max t0 (cn_back c) + eps)
         ∧ (cn_writer c ≠ WriterDone → cn_now c ≤ t0 + pingPeriod + 2 * eps))
  ∧ (rtc (step eps (prompt lag answer)) (pumps t) c → cn_closed c = None → cn_now c < cn_readDeadline c).
Proof.
  intros He Hl Ha Hla. pose proof periods_pos as (Hp1 & Hp2 & Hp3). split.
  - intros Hr. apply (reach_ind (bounded eps)) in Hr; [|by apply pumps_bounded|intros ? ?; by apply step_bounded].
    destruct Hr as (_ & _ & _ & _ & _ & Hread & Hc). split; [by intros E; rewrite E in Hread|].
    destruct (cn_closed c) as [t1|]; [|by destruct Hc; split; [intros [?|?]|]].
    split; [eauto|]. intros t0 [= ->]. destruct Hc as (_ & Hrd & Hwr). split; [by intros E; rewrite E in Hrd|].
    intros Hw. destruct (cn_writer c); [lia|lia|done].
  - intros Hr. apply (reach_ind (alive lag answer)) in Hr; [|unfold alive, due; simpl; split_and!; done || lia|intros ? ?; by apply step_alive].
    intros Hc. unfold alive in Hr. rewrite Hc in Hr. destruct Hr as ((? & ?) & _ & Hp). destruct (cn_ping c); lia.
Qed.

(** A ping written a second late and answered in a second. *)
Example live_run :
  let ok := prompt second (2 * second) in
  ∃ c, rtc (step 0 ok) (pumps 0) c ∧ cn_now c = 100 * second ∧ cn_closed c = None.
Proof.
  intros ok. eexists. split; [|split].
  - eapply rtc_l; [apply (step_time 0 ok _ (54 * second)); [done|repeat split; done|split; done]|].
    eapply rtc_l; [by apply step_tick|].
    eapply rtc_l; [apply (step_time 0 ok _ (55 * second)); [done|repeat split; done|split; done]|].
    eapply rtc_l; [by apply (step_written 0 ok _ PingMessage)|].
    eapply rtc_l; [apply (step_time 0 ok _ (56 * second)); [done|repeat split; done|split; [done|by intros ? [= <-]]]|].
    eapply rtc_l; [by apply step_pong|].
    eapply rtc_l; [apply (step_time 0 ok _ (100 * second)); [done|repeat split; done|split; done]|].
    reflexivity.
  - done.
  - done.
Qed.

(** A silent peer: the ping of the 54th second is not answered, the read
    times out at 60 s, and the write pump returns at its tick at 108 s. *)
Example silent_run :
  ∃ c1 c2, rtc (step 0 anyone) (pumps 0) c1 ∧ cn_reader c1 = Reading ∧ cn_now c1 = 60 * second ∧ cn_heard c1 = 0 ∧ cn_back c1 = 0
    ∧ rtc (step 0 anyone) (pumps 0) c2 ∧ cn_reader c2 = ReaderDone ∧ cn_writer c2 = Selecting
    ∧ cn_closed c2 = Some (60 * second) ∧ cn_now c2 = 108 * second.
Proof.
  assert (∃ c1, rtc (step 0 anyone) (pumps 0) c1 ∧ c1 = mkConn (60 * second) (60 * second) (64 * second) (108 * second)
            Reading Selecting None 0 0 (Some (54 * second))) as (c1 & Hr & Hc1).
  { eexists. split.
    - eapply rtc_l; [apply (step_time 0 anyone _ (54 * second)); [done|repeat split; done|done]|].
      eapply rtc_l; [by apply step_tick|]. eapply rtc_l; [by apply (step_written 0 anyone _ PingMessage)|].
      eapply rtc_l; [apply (step_time 0 anyone _ (60 * second)); [done|repeat split; done|done]|]. reflexivity.
    - reflexivity. }
  exists c1, (at_time (108 * second) (end_reader c1)). subst c1. split_and!; try done.
  etransitivity; [exact Hr|]. eapply rtc_l; [by apply step_timeout|].
  eapply rtc_l; [apply (step_time 0 anyone _ (108 * second)); [done|repeat split; done|done]|]. reflexivity.
Qed.

(** The hub closes a connection whose read loop waits. *)
Example shutdown_run :
  ∃ c, rtc (step 0 anyone) (pumps 0) c ∧ cn_reader c = Reading ∧ cn_closed c = Some 0 ∧ cn_back c = 0 ∧ cn_now c = 0.
Proof. exists (Close (pumps 0)). split_and!; try done. eapply rtc_l; [apply step_shutdown|]. reflexivity. Qed.

(** Every part of the theorem on these runs. *)
Lemma keepalive_correct_witness :
  (∃ c, rtc (step 0 (prompt second (2 * second))) (pumps 0) c ∧ cn_now c = 100 * second ∧ cn_now c < cn_readDeadline c) ∧
  (∃ c1 c2, cn_reader c1 = Reading ∧ cn_now c1 ≤ 60 * second
     ∧ is_Some (cn_closed c2) ∧ cn_writer c2 = Selecting ∧ cn_now c2 ≤ 60 * second + pingPeriod) ∧
  (∃ c, cn_reader c = Reading ∧ cn_closed c = Some 0 ∧ cn_now c ≤ 0).
Proof.
  pose proof (λ t c, keepalive_correct 0 second (2 * second) t c ltac:(done) ltac:(done) ltac:(done) ltac:(done)) as H.
  split; [|split].
  - destruct live_run as (c & Hr & Hn & Hc). exists c. split; [exact Hr|]. split; [exact Hn|].
    apply (proj2 (H 0 c) Hr Hc).
  - destruct silent_run as (c1 & c2 & Hr1 & Hrd & _ & Hheard & Hback & Hr2 & Hdone & Hsel & Hcl & _).
    destruct (proj1 (H 0 c1) Hr1) as [Hread _]. destruct (proj1 (H 0 c2) Hr2) as (_ & Hclosed & Hwait).
    exists c1, c2. split; [exact Hrd|]. specialize (Hread Hrd). rewrite Hheard, Hback in Hread.
    split; [exact Hread|]. split; [apply Hclosed; left; exact Hdone|]. split; [exact Hsel|].
    destruct (Hwait _ Hcl) as [_ Hw]. rewrite Hsel in Hw. exact (Hw ltac:(discriminate)).
  - destruct shutdown_run as (c & Hr & Hrd & Hcl & Hback & _). exists c. split; [exact Hrd|]. split; [exact Hcl|].
    destruct (proj1 (H 0 c) Hr) as (_ & _ & Hwait). destruct (Hwait _ Hcl) as [Hread _].
    specialize (Hread Hrd). rewrite Hback in Hread. exact Hread.
Defined.

(** The limit on [lag] matters: a write may take up to writeWait, longer
    than the 6 seconds, and the ping waits for it.  A peer that answers at
    once is then dropped. *)
Example slow_write_drops_a_live_peer :
  ∃ c, rtc (step 0 (prompt (9 * second) 0)) (pumps 0) c ∧ cn_now c = 60 * second ∧ cn_reader c = ReaderDone.
Proof.
  set (ok := prompt (9 * second) 0). eexists. split; [|split].
  - eapply rtc_l; [apply (step_time 0 ok _ (53 * second)); [done|repeat split; done|split; done]|].
    eapply rtc_l; [by apply step_send|].
    eapply rtc_l; [apply (step_time 0 ok _ (60 * second)); [done|repeat split; done|split; done]|].
    eapply rtc_l; [by apply step_timeout|]. reflexivity.
  - done.
  - done.
Qed.
