(* ===== verification/HttpJson.v ===== *)
(** * Request bodies

    decodeJSON of transport/http/handler (and its copies decodeChatJSON,
    decodeMessageJSON, decodeUserJSON): one JSON object of at most 1 MiB
    with known fields only; the query parameters read as integers; and the
    bodies of internal/dto decoded that way. *)

From Stdlib Require Import Ascii.
From stdpp Require Import base strings list.
From S2P Require Import Prelude GoStrings Utf8 Json JsonCodec JsonStruct Errors MessageService ChatService AuthService UserService.

(** ** The scanner of encoding/json

    A decoder that reads from a limited reader reports the limit when it
    needs a byte past it, and a syntax error when one comes first:
    [incomplete s] says that no byte of [s] is a syntax error and that the
    value [s] begins does not end in [s]. *)
Inductive scan_state : Type :=
| SBegin | SBeginOrEmpty | SKey | SKeyOrEmpty
| SStr | SEsc | SU (n : nat)
| SNeg | SZero | SInt | SDot | SDot0 | SE | SESign | SE0
| SWord (rest : string)
| SEndValue.
Inductive scan_ctx : Type := PKey | PValue | PArr.
Abbreviation scanner := (scan_state * list scan_ctx)%type.

Definition end_value (stack : list scan_ctx) (c : ascii) : option scanner :=
  if is_ws c then Some (SEndValue, stack)
  else match stack with
       | [] => None
       | PKey :: st => if Ascii.eqb c ":" then Some (SBegin, PValue :: st) else None
       | PValue :: st =>
           if Ascii.eqb c "," then Some (SKey, PKey :: st)
           else if Ascii.eqb c "}" then Some (SEndValue, st) else None
       | PArr :: st =>
           if Ascii.eqb c "," then Some (SBegin, PArr :: st)
           else if Ascii.eqb c "]" then Some (SEndValue, st) else None
       end.

Definition begin_value (stack : list scan_ctx) (c : ascii) : option scanner :=
  if is_ws c then Some (SBegin, stack)
  else if Ascii.eqb c "{" then Some (SKeyOrEmpty, PKey :: stack)
  else if Ascii.eqb c "[" then Some (SBeginOrEmpty, PArr :: stack)
  else if Ascii.eqb c quote then Some (SStr, stack)
  else if Ascii.eqb c "-" then Some (SNeg, stack)
  else if Ascii.eqb c "0" then Some (SZero, stack)
  else if Ascii.eqb c "t" then Some (SWord "rue", stack)
  else if Ascii.eqb c "f" then Some (SWord "alse", stack)
  else if Ascii.eqb c "n" then Some (SWord "ull", stack)
  else if is_digit c then Some (SInt, stack)
  else None.

Definition begin_key (st : scan_state) (stack : list scan_ctx) (c : ascii) : option scanner :=
  if is_ws c then Some (st, stack) else if Ascii.eqb c quote then Some (SStr, stack) else None.

Definition is_e (c : ascii) : bool := Ascii.eqb c "e" || Ascii.eqb c "E".

(** The byte after the digits of the integer part, of the fraction. *)
Definition after_int (stack : list scan_ctx) (c : ascii) : option scanner :=
  if Ascii.eqb c "." then Some (SDot, stack) else if is_e c then Some (SE, stack) else end_value stack c.
Definition after_frac (stack : list scan_ctx) (c : ascii) : option scanner :=
  if is_e c then Some (SE, stack) else end_value stack c.

Definition scan_step (st : scan_state) (stack : list scan_ctx) (c : ascii) : option scanner :=
  match st with
  | SBegin => begin_value stack c
  | SBeginOrEmpty =>
      if is_ws c then Some (SBeginOrEmpty, stack)
      else if Ascii.eqb c "]" then end_value stack c else begin_value stack c
  | SKey => begin_key SKey stack c
  | SKeyOrEmpty => if Ascii.eqb c "}" then Some (SEndValue, tail stack) else begin_key SKeyOrEmpty stack c
  | SStr =>
      if Ascii.eqb c quote then Some (SEndValue, stack)
      else if Ascii.eqb c backslash then Some (SEsc, stack)
      else if (byte_z c <? 32)%Z then None else Some (SStr, stack)
  | SEsc =>
      if Ascii.eqb c "u" then Some (SU 3, stack)
      else match simple_escape c with Some _ => Some (SStr, stack) | None => None end
  | SU n => if is_hex c then Some (match n with O => SStr | S k => SU k end, stack) else None
  | SNeg => if Ascii.eqb c "0" then Some (SZero, stack) else if is_digit c then Some (SInt, stack) else None
  | SZero => after_int stack c
  | SInt => if is_digit c then Some (SInt, stack) else after_int stack c
  | SDot => if is_digit c then Some (SDot0, stack) else None
  | SDot0 => if is_digit c then Some (SDot0, stack) else after_frac stack c
  | SE => if Ascii.eqb c "+" || Ascii.eqb c "-" then Some (SESign, stack)
          else if is_digit c then Some (SE0, stack) else None
  | SESign => if is_digit c then Some (SE0, stack) else None
  | SE0 => if is_digit c then Some (SE0, stack) else end_value stack c
  | SWord (String a r) =>
      if Ascii.eqb a c then Some (if str_empty r then SEndValue else SWord r, stack) else None
  | SWord EmptyString => None
  | SEndValue => end_value stack c
  end.

Fixpoint scan (st : scanner) (s : string) : option scanner :=
  match s with
  | EmptyString => Some st
  | String c r => match scan_step st.1 st.2 c with Some st' => scan st' r | None => None end
  end.
Definition incomplete (s : string) : bool := bool_decide (is_Some (scan (SBegin, []) s)).

(** ** decodeJSON *)
Definition maxAuthBodyBytes : N := 1048576.
Definition maxChatBodyBytes : N := 1048576.
Definition maxMessageBodyBytes : N := 1048576.
Definition maxUserPatchBytes : N := 1048576.

(** A struct type: the names of its fields, and its decoding. *)
Record dto (T : Type) := mkDto {
  dto_fields : list string;
  dto_get : list (string * json) → T * bool
}.
Arguments mkDto {T}. Arguments dto_fields {T}. Arguments dto_get {T}.

Definition known_field {T} (d : dto T) (key : string) : bool :=
  existsb (λ f, names_field f key) (dto_fields d).

(** Decode, with DisallowUnknownFields, of a value that was read. *)
Definition decode_into {T} (d : dto T) (j : json) : option T :=
  kvs ← struct_members j;
  let '(x, fit) := dto_get d kvs in
  if forallb (λ kv, known_field d kv.1) kvs && fit then Some x else None.

Definition is_container (j : json) : bool :=
  match j with JObj _ | JArr _ => true | _ => false end.

Definition invalid_body : error := Validation "invalid json body" None.
Definition body_too_large : error := Validation "request body too large" None.
Definition not_single : error := Validation "request body must be a single json object" None.

(** One [dec.Decode]: the next value and what follows it; [EofHere] is
    [io.EOF], [LimitHere] the reader's limit.  [cut] says that the body
    goes on past the limit.  A value that is not an object or array ends
    at the byte after it. *)
Inductive decoded : Type :=
| ValueRead (j : json) (rest : string)
| SyntaxHere
| EofHere
| LimitHere.
Definition decode_next (cut : bool) (s : string) : decoded :=
  if str_empty (skip_ws s) then if cut then LimitHere else EofHere
  else match read_value (S (2 * String.length s)) s with
       | Some (j, rest) => if cut && str_empty rest && negb (is_container j) then LimitHere else ValueRead j rest
       | None => if cut && incomplete s then LimitHere else SyntaxHere
       end.

(** The decoders of the four handler files, which differ in the name of
    the limit.  The causes of the errors, which no response shows, are left
    out. *)
Definition decode_limited {T} (limit : N) (d : dto T) (body : string) : result error T :=
  let cut := (limit <? N.of_nat (String.length body))%N in
  let s := if cut then str_take (N.to_nat limit) body else body in
  match decode_next cut s with
  | LimitHere => Err body_too_large
  | SyntaxHere | EofHere => Err invalid_body
  | ValueRead j rest =>
      match decode_into d j with
      | None => Err invalid_body
      | Some x =>
          match decode_next cut rest with
          | EofHere => Ok x
          | ValueRead (JObj []) _ | ValueRead JNull _ => Err not_single
          | _ => Err invalid_body
          end
      end
  end.

Definition decodeJSON {T} : dto T → string → result error T := decode_limited maxAuthBodyBytes.
Definition decodeChatJSON {T} : dto T → string → result error T := decode_limited maxChatBodyBytes.
Definition decodeMessageJSON {T} : dto T → string → result error T := decode_limited maxMessageBodyBytes.
Definition decodeUserJSON {T} : dto T → string → result error T := decode_limited maxUserPatchBytes.

(** The integer parameters of a query. *)
Definition queryInt (raw : string) (def : Z) : Z :=
  if str_empty (TrimSpace raw) then def else default def (Atoi raw).
Definition queryIntChats : string → Z → Z := queryInt.
Definition queryIntMessages : string → Z → Z := queryInt.

(** ** internal/dto: the bodies *)
Definition RegisterRequest_dto : dto RegisterRequest :=
  mkDto ["email"; "nickname"; "password"] (λ kvs,
    let '(e, a) := string_field "email" kvs in
    let '(n, b) := string_field "nickname" kvs in
    let '(p, c) := string_field "password" kvs in (mkRegister e n p, a && b && c)).
Definition LoginRequest_dto : dto LoginRequest :=
  mkDto ["email"; "password"] (λ kvs,
    let '(e, a) := string_field "email" kvs in
    let '(p, b) := string_field "password" kvs in (mkLogin e p, a && b)).
Definition RefreshRequest_dto : dto string := mkDto ["refresh_token"] (string_field "refresh_token").
Definition LogoutRequest_dto : dto string := mkDto ["refresh_token"] (string_field "refresh_token").
Definition CreateDirectChatRequest_dto : dto string := mkDto ["user_id"] (string_field "user_id").
Definition CreateGroupChatRequest_dto : dto CreateGroupChatRequest :=
  mkDto ["title"; "avatar_url"; "member_ids"] (λ kvs,
    let '(t, a) := string_field "title" kvs in
    let '(u, b) := opt_string_field "avatar_url" kvs in
    let '(m, c) := strings_field "member_ids" kvs in (mkCreateGroup t u m, a && b && c)).
Definition AddChatMembersRequest_dto : dto (list string) := mkDto ["user_ids"] (strings_field "user_ids").
Definition CreateMessageRequest_dto : dto CreateMessageRequest :=
  mkDto ["text"; "reply_to_id"] (λ kvs,
    let '(t, a) := string_field "text" kvs in
    let '(r, b) := opt_string_field "reply_to_id" kvs in (mkCreateMessage t r, a && b)).
Definition PatchMessageRequest_dto : dto string := mkDto ["text"] (string_field "text").
Definition PatchUserRequest_dto : dto PatchUserRequest :=
  mkDto ["nickname"; "first_name"; "last_name"; "avatar_url"] (λ kvs,
    let '(n, a) := opt_string_field "nickname" kvs in
    let '(f, b) := opt_string_field "first_name" kvs in
    let '(l, c) := opt_string_field "last_name" kvs in
    let '(v, d) := opt_string_field "avatar_url" kvs in (mkPatchUser n f l v, a && b && c && d)).
