(* ===== verification/DtoJson.v ===== *)
(** * Response bodies

    internal/dto: what encoding/json writes for the values the handlers
    answer.  Marshalling fails on a time outside the years 0 to 9999; the
    members follow the declaration order of the struct. *)

From stdpp Require Import base strings list.
From S2P Require Import Prelude GoStrings Json JsonStruct Errors GoTime Domain MessageService ChatService AuthService UserService.

(** [json.Marshal] of a value: its tree, or an error. *)
Class Marshal (A : Type) := marshal : A → option json.

#[export] Instance marshal_list {A} `{!Marshal A} : Marshal (list A) := λ l, JArr <$> mapM marshal l.

(** A struct without a member that can fail. *)
#[export] Instance marshal_UserPublic : Marshal UserPublic := λ u,
  Some (JObj [("id", JStr (pub_ID u)); ("email", JStr (pub_Email u)); ("nickname", JStr (pub_Nickname u))]).

#[export] Instance marshal_TokenPair : Marshal TokenPair := λ t,
  Some (JObj [("access_token", JStr (tp_AccessToken t)); ("refresh_token", JStr (tp_RefreshToken t));
              ("expires_in", JNum (tp_ExpiresIn t)); ("token_type", JStr (tp_TokenType t))]).

#[export] Instance marshal_AuthResponse : Marshal AuthResponse := λ r,
  u ← marshal (ar_User r); t ← marshal (ar_Tokens r);
  Some (JObj [("user", u); ("tokens", t)]).

#[export] Instance marshal_Message : Marshal MessageDTO := λ m,
  c ← marshal_time (dto_CreatedAt m); u ← marshal_time (dto_UpdatedAt m);
  Some (JObj ([("id", JStr (dto_ID m)); ("chat_id", JStr (dto_ChatID m)); ("sender_id", JStr (dto_SenderID m));
               ("type", JStr (dto_Type m))]
              ++ opt_field "text" (dto_Text m) ++ opt_field "reply_to_id" (dto_ReplyToID m)
              ++ [("created_at", c); ("updated_at", u)])).

#[export] Instance marshal_MessageList : Marshal MessageListResponse := λ l,
  ms ← marshal (ml_Messages l);
  Some (JObj [("messages", ms); ("has_more", JBool (ml_HasMore l))]).

#[export] Instance marshal_MarkRead : Marshal MarkReadResponse := λ r,
  Some (JObj [("chat_id", JStr (mr_ChatID r)); ("last_read_message_id", JStr (mr_LastReadMessageID r))]).

#[export] Instance marshal_Preview : Marshal LastMessagePreview := λ p,
  c ← marshal_time (lmp_CreatedAt p);
  Some (JObj ([("id", JStr (lmp_ID p)); ("sender_id", JStr (lmp_SenderID p)); ("type", JStr (lmp_Type p))]
              ++ opt_field "text" (lmp_Text p) ++ [("created_at", c)])).

(** A pointer with omitempty. *)
Definition opt_member {A} `{!Marshal A} (k : string) (v : option A) : option (list (string * json)) :=
  match v with
  | None => Some []
  | Some x => j ← marshal x; Some [(k, j)]
  end.

#[export] Instance marshal_ChatSummary : Marshal ChatSummary := λ c,
  cr ← marshal_time (cs_CreatedAt c); up ← marshal_time (cs_UpdatedAt c);
  last ← opt_member "last_message" (cs_LastMessage c);
  Some (JObj ([("id", JStr (cs_ID c)); ("type", JStr (cs_Type c))]
              ++ opt_field "title" (cs_Title c) ++ opt_field "avatar_url" (cs_AvatarURL c)
              ++ [("created_at", cr); ("updated_at", up)] ++ last
              ++ [("unread_count", JNum (cs_UnreadCount c))])).

#[export] Instance marshal_ChatDetail : Marshal ChatDetail := λ c,
  cr ← marshal_time (cd_CreatedAt c); up ← marshal_time (cd_UpdatedAt c);
  Some (JObj ([("id", JStr (cd_ID c)); ("type", JStr (cd_Type c))]
              ++ opt_field "title" (cd_Title c) ++ opt_field "avatar_url" (cd_AvatarURL c)
              ++ [("created_at", cr); ("updated_at", up)])).

#[export] Instance marshal_ChatMember : Marshal ChatMemberDTO := λ m,
  j ← marshal_time (md_JoinedAt m);
  Some (JObj [("user_id", JStr (md_UserID m)); ("role", JStr (md_Role m)); ("joined_at", j)]).

(** ChatListResponse, ChatMembersResponse, UserSearchResponse: one member. *)
Definition marshal_under {A} `{!Marshal A} (k : string) (l : list A) : option json :=
  j ← marshal l; Some (JObj [(k, j)]).

#[export] Instance marshal_UserSelf : Marshal UserSelf := λ u,
  cr ← marshal_time (us_CreatedAt u); up ← marshal_time (us_UpdatedAt u);
  seen ← (match us_LastSeen u with
          | None => Some []
          | Some t => j ← marshal_time t; Some [("last_seen_at", j)]
          end);
  Some (JObj ([("id", JStr (us_ID u)); ("email", JStr (us_Email u)); ("nickname", JStr (us_Nickname u))]
              ++ opt_field "first_name" (us_FirstName u) ++ opt_field "last_name" (us_LastName u)
              ++ opt_field "avatar_url" (us_AvatarURL u)
              ++ [("is_active", JBool (us_IsActive u)); ("created_at", cr); ("updated_at", up)] ++ seen)).

#[export] Instance marshal_UserCard : Marshal UserCard := λ u,
  Some (JObj ([("id", JStr (uc_ID u)); ("nickname", JStr (uc_Nickname u))]
              ++ opt_field "first_name" (uc_FirstName u) ++ opt_field "last_name" (uc_LastName u)
              ++ opt_field "avatar_url" (uc_AvatarURL u) ++ [("is_active", JBool (uc_IsActive u))])).
