(* ===== verification/Http.v ===== *)
(** * HTTP requests and responses

    The part of net/http the transport layer reads and writes, the replies
    of pkg/response as a client receives them, and the middleware
    transport/http/middleware/auth.go and recovery.go.

    A request is given as net/http hands it to a handler: its path as the
    segments of the cleaned URL path, each unescaped, its query and header
    as pairs.  A handler is a computation that yields the reply; its error
    is the value of a panic. *)

From Stdlib Require Import Ascii.
From stdpp Require Import base strings list.
From S2P Require Import Prelude GoStrings Json Errors Domain Hub World Credentials DtoJson.

Record http_request := mkHttp {
  rq_Method : string;
  rq_Path : list string;
  rq_Query : list (string * string);
  rq_Header : list (string * string);
  rq_RemoteAddr : string;
  rq_Body : string;
  rq_PathValues : list (string * string);   (* set by the mux *)
  rq_Hijacker : bool                        (* the ResponseWriter implements http.Hijacker *)
}.
Definition set_path_values (v : list (string * string)) (r : http_request) : http_request :=
  mkHttp (rq_Method r) (rq_Path r) (rq_Query r) (rq_Header r) (rq_RemoteAddr r) (rq_Body r) v (rq_Hijacker r).
Definition set_hijacker (b : bool) (r : http_request) : http_request :=
  mkHttp (rq_Method r) (rq_Path r) (rq_Query r) (rq_Header r) (rq_RemoteAddr r) (rq_Body r) (rq_PathValues r) b.

(** [url.Values.Get], [http.Header.Get], [r.PathValue]: the first value. *)
Fixpoint values_get (k : string) (l : list (string * string)) : string :=
  match l with
  | [] => ""
  | (k', v) :: l => if String.eqb k k' then v else values_get k l
  end.
Definition query_get (k : string) (r : http_request) : string := values_get k (rq_Query r).
Definition header_get (k : string) (r : http_request) : string := values_get k (rq_Header r).
Definition path_value (k : string) (r : http_request) : string := values_get k (rq_PathValues r).

(** ** Replies *)
Inductive body : Type :=
| BJson (j : json)
| BText (s : string)
| BEmpty.
Record reply := mkReply { rp_Status : Z; rp_Header : list (string * string); rp_Body : body }.

Definition json_header : list (string * string) := [("Content-Type", "application/json; charset=utf-8")].
Definition text_header : list (string * string) := [("Content-Type", "text/plain; charset=utf-8")].

Definition json_reply (h : http_response) : reply := mkReply (resp_status h) json_header (BJson (resp_body h)).

(** response.WriteError *)
Definition failure (e : error) : reply := json_reply (WriteError (Some e)).

(** response.WriteSuccess; a value that cannot be marshalled leaves the
    body empty, the status having been sent. *)
Definition success (status : Z) (data : option json) : reply :=
  match data with
  | Some j => json_reply (WriteSuccess status (Some j))
  | None => mkReply (if (status =? 0)%Z then 200 else status) json_header BEmpty
  end.

(** http.Error *)
Definition http_error (status : Z) (text : string) : reply :=
  mkReply status (("X-Content-Type-Options", "nosniff") :: text_header) (BText (text +:+ String "010" "")).

(** [out, err := m; if err != nil { WriteError(err); return }; WriteSuccess(status, out)] *)
Definition respond {A} (enc : A → option json) (status : Z) (m : M A) : M reply :=
  r ← attempt m;
  mret (match r with Ok a => success status (enc a) | Err e => failure e end).

Abbreviation http_handler := (http_request → M reply).

(** ** middleware/auth.go *)
Definition bearerToken (authz : string) : string :=
  let authz := TrimSpace authz in
  if str_empty authz then ""
  else
    let p := "Bearer " in
    if (String.length authz <=? String.length p)%nat
       || negb (EqualFold (str_take (String.length p) authz) p)
    then ""
    else TrimSpace (str_drop (String.length p) authz).

(** The user id reaches the handler as an argument, where the code stores
    it in the context of the request ([middleware.UserID]). *)
Definition RequireBearerAuth {J : Jwt} (secret : string) (next : ID → http_handler) : http_handler := λ r,
  let raw := bearerToken (header_get "Authorization" r) in
  if str_empty raw then mret (failure (Unauthorized "missing bearer token"))
  else
    now ← time_now;
    match ParseAccessToken secret raw now with
    | Err _ => mret (failure (Unauthorized "invalid or expired token"))
    | Ok claims => next (cl_UserID claims) r
    end.

(** ** middleware/recovery.go

    [recover] turns a panic into a 500; the handlers write their reply
    last, so nothing was sent before it. *)
Definition Recovery {S} (next : http_request → eff S error reply) : http_request → eff S error reply := λ r,
  x ← attempt (next r);
  mret (match x with Ok reply => reply | Err _ => failure (Internal "internal server error" None) end).
