(* ===== verification/Handlers.v ===== *)
(** * HTTP handlers

    transport/http/handler: the handlers of the authentication, user,
    chat, message and ticket routes.  Each decodes its input, calls one
    operation of a service and writes its answer. *)

From stdpp Require Import base strings list gmap.
From S2P Require Import Prelude GoStrings Json Errors Domain Hub Metrics World Repository Credentials MessageService ChatService AuthService UserService Redis HttpJson DtoJson Http.

(** [if err := decodeJSON(w, r, &body); err != nil { WriteError; return }] *)
Definition with_body {T} (decode : dto T → string → result error T) (d : dto T) (r : http_request)
    (k : T → M reply) : M reply :=
  match decode d (rq_Body r) with
  | Err e => mret (failure e)
  | Ok x => k x
  end.

(** [map[string]any{key: true}] *)
Definition flag (key : string) (_ : ()) : option json := Some (JObj [(key, JBool true)]).

(** ** auth_handler.go *)
Section auth.
Context {P : Prometheus} {G : UuidGen} {B : Bcrypt} {J : Jwt} {RD : Rand} {UR : UserRepository} {SR : SessionRepository}.
Variables (cfg : JWTConfig) (met : bool).

Definition clientMeta (r : http_request) : ClientMeta := mkMeta (header_get "User-Agent" r) (rq_RemoteAddr r).

(** The handlers that count their failures. *)
Definition auth_failed (reason : string) (e : error) : M reply :=
  inc_with_if met AuthFailures [reason];; mret (failure e).
Definition counted {T A} (counter : Collector) (d : dto T) (enc : A → option json) (status : Z)
    (run : T → ClientMeta → M A) : http_handler := λ r,
  inc_if met counter;;
  match decodeJSON d (rq_Body r) with
  | Err e => auth_failed "validation" e
  | Ok x =>
      out ← attempt (run x (clientMeta r));
      match out with
      | Err e => auth_failed (AuthFailureFromErr e) e
      | Ok a => mret (success status (enc a))
      end
  end.

Definition Auth_Register : http_handler :=
  counted AuthRegister RegisterRequest_dto marshal 201 (Register cfg).
Definition Auth_Login : http_handler :=
  counted AuthLogin LoginRequest_dto marshal 200 (Login cfg).
Definition Auth_Refresh : http_handler :=
  counted AuthRefresh RefreshRequest_dto marshal 200 (Refresh cfg).
Definition Auth_Logout : http_handler := λ r,
  with_body decodeJSON LogoutRequest_dto r (λ t, respond (flag "logged_out") 200 (Logout t)).
Definition Auth_LogoutAll (uid : ID) : http_handler := λ _,
  respond (flag "logged_out_all") 200 (LogoutAll uid).
End auth.

(** ** user_handler.go *)
Section users.
Context {UR : UserRepository}.

Definition Users_Me (uid : ID) : http_handler := λ _, respond marshal 200 (Me uid).
Definition Users_PatchMe (uid : ID) : http_handler := λ r,
  with_body decodeUserJSON PatchUserRequest_dto r (λ p, respond marshal 200 (UpdateMe uid p)).
Definition Users_Search (_ : ID) : http_handler := λ r,
  let q := TrimSpace (query_get "q" r) in
  let limit := queryInt (query_get "limit" r) 0 in
  let offset := queryInt (query_get "offset" r) 0 in
  respond (marshal_under "users") 200 (Search q limit offset).
Definition Users_ByID (_ : ID) : http_handler := λ r,
  respond marshal 200 (GetUserByID (TrimSpace (path_value "id" r))).
End users.

(** ** chat_handler.go *)
Section chats.
Context {G : UuidGen} {UR : UserRepository} {CR : ChatRepository}.

Definition chat_id (r : http_request) : string := TrimSpace (path_value "chat_id" r).

Definition Chats_CreateDirect (uid : ID) : http_handler := λ r,
  with_body decodeChatJSON CreateDirectChatRequest_dto r (λ peer, respond marshal 201 (CreateDirect uid peer)).
Definition Chats_CreateGroup (uid : ID) : http_handler := λ r,
  with_body decodeChatJSON CreateGroupChatRequest_dto r (λ b, respond marshal 201 (CreateGroup uid b)).
Definition Chats_List (uid : ID) : http_handler := λ r,
  let limit := queryIntChats (query_get "limit" r) 0 in
  let offset := queryIntChats (query_get "offset" r) 0 in
  respond (marshal_under "chats") 200 (ListMine uid limit offset).
Definition Chats_Get (uid : ID) : http_handler := λ r, respond marshal 200 (GetChat uid (chat_id r)).
Definition Chats_Members (uid : ID) : http_handler := λ r,
  respond (marshal_under "members") 200 (Members uid (chat_id r)).
Definition Chats_AddMembers (uid : ID) : http_handler := λ r,
  let cid := chat_id r in
  with_body decodeChatJSON AddChatMembersRequest_dto r (λ ids,
    respond (marshal_under "members") 200 (AddMembers uid cid ids)).
Definition Chats_RemoveMember (uid : ID) : http_handler := λ r,
  let target := TrimSpace (path_value "user_id" r) in
  respond (flag "removed") 200 (RemoveMember uid (chat_id r) target).
End chats.

(** ** message_handler.go *)
Section messages.
Context {G : UuidGen} {CR : ChatRepository} {MR : MessageRepository}.
Variables (writer : option MessageWriter) (met : bool).

Definition message_id (r : http_request) : string := TrimSpace (path_value "message_id" r).

Definition Messages_ListByChat (uid : ID) : http_handler := λ r,
  let limit := queryIntMessages (query_get "limit" r) 0 in
  let before := TrimSpace (query_get "before" r) in
  respond marshal 200 (ListByChat uid (chat_id r) limit before).
Definition Messages_CreateInChat (uid : ID) : http_handler := λ r,
  let cid := chat_id r in
  with_body decodeMessageJSON CreateMessageRequest_dto r (λ b,
    respond marshal 201 (Create writer met uid cid b)).
Definition Messages_Get (uid : ID) : http_handler := λ r, respond marshal 200 (Get uid (message_id r)).
Definition Messages_Patch (uid : ID) : http_handler := λ r,
  let mid := message_id r in
  with_body decodeMessageJSON PatchMessageRequest_dto r (λ t, respond marshal 200 (Patch writer met uid mid t)).
Definition Messages_Delete (uid : ID) : http_handler := λ r,
  respond (flag "deleted") 200 (Delete writer met uid (message_id r)).
Definition Messages_MarkRead (uid : ID) : http_handler := λ r,
  respond marshal 200 (MarkRead writer met uid (message_id r)).
End messages.

(** ** ws_ticket_handler.go *)
Section ticket.
Context {R : RedisServer} {RD : Rand}.
Variables (repo : option bool) (ttl : Z).

Definition WSTicket_Issue (uid : ID) : http_handler := λ _,
  respond (λ '(tok, sec), Some (JObj [("expires_in", JNum sec); ("ticket", JStr tok)])) 200
    (IssueTicket repo ttl uid).
End ticket.
