(* ===== verification/RateLimit.v ===== *)
(** * Rate limiting

    transport/http/middleware/ratelimit.go: a token-bucket limiter per
    client address, with the eviction of idle entries.  The bucket itself
    is golang.org/x/time/rate, of which the code uses [NewLimiter] and
    [Allow]. *)

From Stdlib Require Import Ascii QArith.
From stdpp Require Import base strings gmap list.
From S2P Require Import Prelude GoStrings Json Errors GoTime Domain Http.

Local Open Scope Z_scope.

(** ** golang.org/x/time/rate *)

(** A rate is a number of events per second; the code's float64 quotient
    is the rational it rounds. *)
Class RateLimiter := {
  Limiter : Type;
  NewLimiter : Q → Z → Limiter;
  Allow : Time → Limiter → bool * Limiter
}.

Section runs.
Context {L : RateLimiter}.

(** The limiter after calls of [Allow] at the times given, and how many
    were allowed. *)
Fixpoint allow_run (ts : list Time) (l : Limiter) : nat * Limiter :=
  match ts with
  | [] => (O, l)
  | t :: ts =>
      let '(b, l) := Allow t l in
      let '(n, l) := allow_run ts l in
      ((if b then S n else n), l)
  end.
Definition allowed (ts : list Time) (l : Limiter) : nat := (allow_run ts l).1.
Definition after_run (ts : list Time) (l : Limiter) : Limiter := (allow_run ts l).2.

(** Times that do not go back. *)
Fixpoint ascending (ts : list Time) : Prop :=
  match ts with
  | t :: (t' :: _) as r => t ≤ t' ∧ ascending r
  | _ => True
  end.
Fixpoint last_time (t : Time) (ts : list Time) : Time :=
  match ts with [] => t | t' :: ts => last_time t' ts end.
End runs.

(** The documented token bucket: of size [b], initially full, refilled at
    [r] tokens per second; in any interval at most [b] events plus those
    the rate gives are allowed (and one more, for the rounding of the
    float64 the tokens are counted in). *)
Class RateLimiterLaws (L : RateLimiter) :=
  rate_window : ∀ r b pre t ts,
    0 < b → (0 < r)%Q → ascending (pre ++ t :: ts) →
    (inject_Z (Z.of_nat (allowed (t :: ts) (after_run pre (NewLimiter r b))))
     <= inject_Z (b + 1) + r * (inject_Z (last_time t ts - t) / inject_Z second))%Q.

(** ** middleware/ratelimit.go *)

(** ClientIP *)
Definition ClientIP (r : http_request) : string :=
  let addr := TrimSpace (rq_RemoteAddr r) in
  if str_empty addr then "unknown"
  else match SplitHostPort addr with
       | None => addr
       | Some (host, _) => if str_empty host then "unknown" else host
       end.

Section limiter.
Context {L : RateLimiter}.

Record ipLimiterEntry := mkEntry { en_lim : Limiter; en_last : Time }.
Record IPRateLimiter := mkIPLimiter {
  rl_name : string;
  rl_limit : Q;
  rl_burst : Z;
  rl_byIP : gmap string ipLimiterEntry
}.
Definition set_byIP (m : gmap string ipLimiterEntry) (l : IPRateLimiter) : IPRateLimiter :=
  mkIPLimiter (rl_name l) (rl_limit l) (rl_burst l) m.

(** [rpm / 3], brought between 1 and 60. *)
Definition default_burst (rpm : Z) : Z :=
  let burst := Z.quot rpm 3 in
  let burst := if burst <? 1 then 1 else burst in
  if burst >? 60 then 60 else burst.

Definition NewIPRateLimiter (name : string) (rpm burst : Z) : option IPRateLimiter :=
  if rpm <=? 0 then None
  else
    let burst := if burst <=? 0 then default_burst rpm else burst in
    Some (mkIPLimiter name (Qmake rpm 60) burst ∅).

(** The entries older than ten minutes go once there are more than 2048. *)
Definition evict (now : Time) (m : gmap string ipLimiterEntry) : gmap string ipLimiterEntry :=
  if (2048 <? size m)%nat then
    let cutoff := now - 10 * minute in
    filter (λ kv, ¬ en_last kv.2 < cutoff) m
  else m.

(** [getLimiter]; the entry is made current. *)
Definition getLimiter (now : Time) (ip : string) (l : IPRateLimiter) : Limiter * IPRateLimiter :=
  let m := evict now (rl_byIP l) in
  let lim := match m !! ip with
             | Some e => en_lim e
             | None => NewLimiter (rl_limit l) (rl_burst l)
             end in
  (lim, set_byIP (<[ip := mkEntry lim now]> m) l).

(** [l.getLimiter(ip).Allow()]: the limiter of the entry is the one that
    is asked. *)
Definition allow_ip (now : Time) (ip : string) (l : IPRateLimiter) : bool * IPRateLimiter :=
  let '(lim, l) := getLimiter now ip l in
  let '(ok, lim) := Allow now lim in
  (ok, set_byIP (<[ip := mkEntry lim now]> (rl_byIP l)) l).

(** The 429 reply. *)
Definition rate_limited (name : string) : reply :=
  json_reply (WriteJSON 429 (JObj [("error", JObj [("code", JStr "rate_limited");
    ("details", JObj [("limiter", JStr name)]); ("message", JStr "too many requests")])])).
End limiter.
