(* ===== verification/Router.v ===== *)
(** * Routing

    transport/http/router.go, transport/http/docs/docs.go, the middleware
    logging.go, the handler of ratelimit.go and HTTPMiddleware of
    observability/metrics/metrics.go: the route table, the choice of a
    route as net/http's ServeMux documents it, and the chain around it.

    A handler of the transport runs on the server: the world, the rate
    limiters by name (no entry for a nil limiter), and the WebSocket
    connections whose read loop runs. *)

From Stdlib Require Import Ascii.
From stdpp Require Import base strings gmap list sorting.
From S2P Require Import Prelude GoStrings Json Errors GoTime Domain Hub Metrics World Repository Credentials MessageService AuthService Redis WsService Http Handlers RateLimit.

Section router.
Context {L : RateLimiter}.

Record server := mkServer {
  sv_open : gmap nat ID;
  sv_limits : gmap string IPRateLimiter;
  sv_world : World
}.
Definition set_world (w : World) (s : server) : server := mkServer (sv_open s) (sv_limits s) w.
Definition set_limits (l : gmap string IPRateLimiter) (s : server) : server := mkServer (sv_open s) l (sv_world s).
Definition open_connection (p : nat) (uid : ID) (s : server) : server :=
  mkServer (<[p := uid]> (sv_open s)) (sv_limits s) (sv_world s).

Abbreviation site A := (eff server error A).
Abbreviation site_handler := (http_request → site reply).

Definition on_world {A} (m : M A) : site A := λ s,
  let '(r, w) := m (sv_world s) in (r, set_world w s).
Definition world_handler (h : http_handler) : site_handler := λ r, on_world (h r).

(** ** Rate limiting: chainLimit, WithRateLimit and ( *IPRateLimiter).Handler *)
Definition ask_limiter (name : string) (r : http_request) : site bool := λ s,
  match sv_limits s !! name with
  | None => (Ok true, s)
  | Some l =>
      let '(ok, l') := allow_ip (w_now (sv_world s)) (ClientIP r) l in
      (Ok ok, set_limits (<[name := l']> (sv_limits s)) s)
  end.
Definition chainLimit (name : string) (next : site_handler) : site_handler := λ r,
  ok ← ask_limiter name r;
  if (ok : bool) then next r else mret (rate_limited name).

(** ** http.ServeMux *)
Inductive segment : Type := Lit (s : string) | Wild (name : string).
#[export] Instance segment_eq_dec : EqDecision segment.
Proof. solve_decision. Defined.

Definition parse_segment (s : string) : segment :=
  match s with
  | String "{"%char r => Wild (str_take (String.length r - 1) r)
  | _ => Lit s
  end.
Record route := mkRoute {
  rt_Pattern : string;
  rt_Method : string;
  rt_Segments : list segment;
  rt_Handler : site_handler
}.
(** [mux.Handle(pattern, handler)], for "METHOD /path". *)
Definition handle (pattern : string) (h : site_handler) : route :=
  let '(m, p) := match index_byte " " pattern with
                 | Some i => (str_take i pattern, str_drop (S i) pattern)
                 | None => ("", pattern)
                 end in
  mkRoute pattern m (parse_segment <$> tail (Split p "/")) h.

(** A wildcard matches one segment that is not empty. *)
Fixpoint match_path (pat : list segment) (path : list string) : option (list (string * string)) :=
  match pat, path with
  | [], [] => Some []
  | Lit s :: pat, x :: path => if String.eqb s x then match_path pat path else None
  | Wild n :: pat, x :: path =>
      if str_empty x then None else vs ← match_path pat path; Some ((n, x) :: vs)
  | _, _ => None
  end.

(** GET also matches HEAD. *)
Definition match_method (m method : string) : bool :=
  String.eqb m method || (String.eqb m "GET" && String.eqb method "HEAD").

Definition match_route (r : http_request) (rt : route) : option (list (string * string)) :=
  if match_method (rt_Method rt) (rq_Method r) then match_path (rt_Segments rt) (rq_Path r) else None.

(** The first pattern matches no more paths than the second. *)
Fixpoint as_specific (p q : list segment) : bool :=
  match p, q with
  | [], [] => true
  | Lit s :: p, Lit t :: q => String.eqb s t && as_specific p q
  | _ :: p, Wild _ :: q => as_specific p q
  | _, _ => false
  end.

(** The most specific of the routes that match. *)
Definition find_route (routes : list route) (r : http_request) : option route :=
  let matching := filter (λ rt, is_Some (match_route r rt)) routes in
  head (filter (λ rt, forallb (λ rt', as_specific (rt_Segments rt) (rt_Segments rt')) matching = true) matching).

(** The methods that would match, for the Allow header of a 405. *)
Definition allowed_methods (routes : list route) (r : http_request) : list string :=
  let ms := rt_Method <$> filter (λ rt, is_Some (match_path (rt_Segments rt) (rq_Path r))) routes in
  merge_sort String.le (remove_dups (ms ++ if bool_decide ("GET" ∈ ms) then ["HEAD"] else [])).

Definition ServeMux (routes : list route) : site_handler := λ r,
  match find_route routes r with
  | Some rt => rt_Handler rt (set_path_values (default [] (match_route r rt)) r)
  | None =>
      match allowed_methods routes r with
      | [] => mret (http_error 404 "404 page not found")
      | ms =>
          let rep := http_error 405 "Method Not Allowed" in
          mret (mkReply (rp_Status rep) (("Allow", String.concat ", " ms) :: rp_Header rep) (rp_Body rep))
      end
  end.

(** ** The chain *)

(** middleware.Logging, with a logger; the random request id is the first
    8 bytes of the next random block.  Its statusRecorder hides every
    method of the ResponseWriter but those of the interface. *)
Definition Logging {RD : Rand} (next : site_handler) : site_handler := λ r,
  let given := header_get "X-Request-ID" r in
  rid ← (if str_empty given then b ← on_world rand_read; mret (hex_encode (take 8 b)) else mret given);
  reply ← next (set_hijacker false r);
  mret (mkReply (rp_Status reply) (("X-Request-ID", rid) :: rp_Header reply) (rp_Body reply)).

Definition statusClass (code : Z) : string :=
  if (500 <=? code)%Z then "5xx"
  else if (400 <=? code)%Z then "4xx"
  else if (300 <=? code)%Z then "3xx"
  else if (200 <=? code)%Z then "2xx"
  else "other".

Definition url_path (r : http_request) : string := "/" +:+ String.concat "/" (rq_Path r).
Definition routePattern (routes : list route) (r : http_request) : string :=
  match find_route routes r with
  | Some rt => let p := TrimSpace (rt_Pattern rt) in if str_empty p then "unmatched" else p
  | None => "unmatched"
  end.
Definition stripPrefixes : list string := ["/metrics"; "/health"].
Definition stripHighCardinalityPath (path : string) : string :=
  let path := TrimSpace path in
  default path (head (filter (λ p, path = p) stripPrefixes)).

(** The gauge of requests in flight is lowered by a deferred call.  A panic
    of [WithLabelValues] is outside Recovery: it ends the connection of the
    request. *)
Definition route_label (routes : list route) (r : http_request) : string :=
  let route := routePattern routes r in
  if String.eqb route "unmatched" then stripHighCardinalityPath (url_path r) else route.
Definition HTTPMiddleware {P : Prometheus} (routes : list route) (next : site_handler) : site_handler := λ r,
  on_world (inc HTTPInflight);;
  out ← attempt (
    reply ← next (set_hijacker false r);
    let labels := [rq_Method r; route_label routes r; statusClass (rp_Status reply)] in
    on_world (inc_with HTTPRequests labels);;
    on_world (inc_with HTTPDuration labels);;
    mret reply);
  on_world (sample HTTPInflight [] (-1));;
  of_result out.

Definition Chain {P : Prometheus} {RD : Rand} (met : bool) (routes : list route) : site_handler :=
  let h := Logging (Recovery (ServeMux routes)) in
  if met then HTTPMiddleware routes h else h.

(** ** The routes *)

(** The parts of the process Deps carries: nil services register no
    route. *)
Record Deps := mkDeps {
  dp_JWT : JWTConfig;                     (* Config.JWT *)
  dp_Metrics : option http_handler;       (* promhttp's handler *)
  dp_Auth : bool;
  dp_Users : bool;
  dp_Chats : bool;
  dp_Messages : option (option MessageWriter);
  dp_WS : option site_handler;
  dp_WSTicket : option site_handler
}.

Definition healthHandler : http_handler := λ _, mret (mkReply 200 text_header (BText "ok")).

(** docs.Register: the embedded openapi.yaml and the page that shows it. *)
Definition docs_Register (openAPISpec swaggerHTML : string) : list route :=
  [handle "GET /openapi.yaml" (world_handler (λ _,
     mret (mkReply 200 [("Content-Type", "application/yaml; charset=utf-8")] (BText openAPISpec))));
   handle "GET /docs" (world_handler (λ _,
     mret (mkReply 200 [("Content-Type", "text/html; charset=utf-8")] (BText swaggerHTML))))].

Section register.
Context {P : Prometheus} {G : UuidGen} {B : Bcrypt} {J : Jwt} {RD : Rand}.
Context {UR : UserRepository} {SR : SessionRepository} {CR : ChatRepository} {MR : MessageRepository}.
Variables (openAPISpec swaggerHTML : string) (deps : Deps).

Definition secret : string := TrimSpace (jwt_Secret (dp_JWT deps)).
Definition met : bool := bool_decide (is_Some (dp_Metrics deps)).
(** A route behind RequireBearerAuth. *)
Definition authed (h : ID → http_handler) : site_handler := world_handler (RequireBearerAuth secret h).

Definition auth_routes : list route :=
  let jwt := dp_JWT deps in
  [handle "POST /auth/register" (chainLimit "register" (world_handler (Auth_Register jwt met)));
   handle "POST /auth/login" (chainLimit "login" (world_handler (Auth_Login jwt met)));
   handle "POST /auth/refresh" (world_handler (Auth_Refresh jwt met));
   handle "POST /auth/logout" (world_handler Auth_Logout);
   handle "POST /auth/logout-all" (authed Auth_LogoutAll)].
Definition user_routes : list route :=
  [handle "GET /users/me" (authed Users_Me);
   handle "PATCH /users/me" (authed Users_PatchMe);
   handle "GET /users/search" (authed Users_Search);
   handle "GET /users/{id}" (authed Users_ByID)].
Definition chat_routes : list route :=
  [handle "GET /chats" (authed Chats_List);
   handle "POST /chats/direct" (authed Chats_CreateDirect);
   handle "POST /chats/group" (authed Chats_CreateGroup);
   handle "GET /chats/{chat_id}/members" (authed Chats_Members);
   handle "POST /chats/{chat_id}/members" (authed Chats_AddMembers);
   handle "DELETE /chats/{chat_id}/members/{user_id}" (authed Chats_RemoveMember);
   handle "GET /chats/{chat_id}" (authed Chats_Get)].
Definition message_routes (writer : option MessageWriter) : list route :=
  [handle "GET /chats/{chat_id}/messages" (authed Messages_ListByChat);
   handle "POST /chats/{chat_id}/messages" (chainLimit "message_send" (authed (Messages_CreateInChat writer met)));
   handle "GET /messages/{message_id}" (authed Messages_Get);
   handle "PATCH /messages/{message_id}" (authed (Messages_Patch writer met));
   handle "DELETE /messages/{message_id}" (authed (Messages_Delete writer met));
   handle "POST /messages/{message_id}/read" (authed (Messages_MarkRead writer met))].

Definition Register : list route :=
  docs_Register openAPISpec swaggerHTML
  ++ [handle "GET /health" (world_handler healthHandler)]
  ++ (match dp_Metrics deps with Some h => [handle "GET /metrics" (world_handler h)] | None => [] end)
  ++ (if dp_Auth deps then auth_routes else [])
  ++ (if dp_Users deps then user_routes else [])
  ++ (if dp_Chats deps then chat_routes else [])
  ++ (match dp_Messages deps with Some w => message_routes w | None => [] end)
  ++ (match dp_WSTicket deps with Some h => [handle "POST /ws/ticket" h] | None => [] end)
  ++ (match dp_WS deps with Some h => [handle "GET /ws/connect" (chainLimit "ws_connect" h)] | None => [] end).
End register.

(** ** GET /ws/connect

    [Upgrade] of gorilla/websocket: it answers the request itself when it
    fails, and it takes the connection over when it succeeds. *)
Class Upgrader := upgrade : http_request → option reply.
Definition hijacked : reply := mkReply 101 [] BEmpty.

Section connect.
Context {P : Prometheus} {RS : RedisServer} {U : Upgrader}.
Variables (tickets : option bool) (presence : option (option bool)) (metrics : bool) (allowed : list string).

Definition ws_connect : site_handler := λ r s,
  let failed := upgrade r in
  let '(out, w) := ServeHTTP tickets presence metrics allowed (header_get "Origin" r) (query_get "ticket" r)
                     (bool_decide (failed = None)) (sv_world s) in
  match out with
  | Ok (Refused status text) => (Ok (http_error status text), set_world w s)
  | Ok UpgradeFailed => (Ok (default hijacked failed), set_world w s)
  | Ok (Opened uid p) => (Ok hijacked, open_connection p uid (set_world w s))
  | Err e => (Err e, set_world w s)
  end.
End connect.
End router.

(** The documented condition of Upgrade: it takes the connection over
    through the http.Hijacker of the ResponseWriter. *)
Class UpgraderLaws (U : Upgrader) :=
  upgrade_needs_hijacker r : rq_Hijacker r = false → upgrade r ≠ None.

(** The abbreviations of the section, for the files that use it. *)
Abbreviation site A := (eff server error A).
Abbreviation site_handler := (http_request → eff server error reply).
