(* ===== verification/RateLimitTheorems.v ===== *)
(** * Theorems on rate limiting

    What the limiter of a route lets through, whatever the addresses and
    the evictions; and a token bucket that has the documented behaviour. *)

From Stdlib Require Import Ascii QArith.
From stdpp Require Import base strings gmap list.
From S2P Require Import Prelude GoStrings Json Errors GoTime Domain Http RateLimit.

Local Open Scope Z_scope.

(** The window law without fractions. *)
Lemma window_scaled (n b d : Z) (r : Q) :
  (inject_Z n <= inject_Z (b + 1) + r * (inject_Z d / inject_Z second))%Q
  ↔ n * (QDen r * second) ≤ (b + 1) * (QDen r * second) + Qnum r * d.
Proof.
  assert (r * (inject_Z d / inject_Z second) == Qmake (Qnum r * d) (Qden r * 1000000000))%Q as ->.
  { destruct r as [p q]. unfold Qeq, Qdiv, Qmult, Qinv, inject_Z, second, millisecond, microsecond. simpl. lia. }
  unfold Qle, Qplus, inject_Z. simpl. rewrite !Z.mul_1_r.
  replace (Z.pos (Qden r * 1000000000)) with (QDen r * second) by (unfold second, millisecond, microsecond; lia).
  done.
Qed.

Lemma default_burst_bounds rpm : 1 ≤ default_burst rpm ≤ 60.
Proof. unfold default_burst. cbv zeta. repeat case_match; lia. Qed.

Lemma default_burst_rate rpm : 0 < rpm → default_burst rpm + 1 ≤ 10 * rpm.
Proof.
  intros H. unfold default_burst. cbv zeta.
  pose proof (Z.quot_le_upper_bound rpm 3 rpm ltac:(lia) ltac:(lia)).
  repeat case_match; lia.
Qed.

Section window.
Context {L : RateLimiter} {LL : RateLimiterLaws L}.

(** The requests a limiter sees: when, and from which address. *)
Fixpoint limit_run (rs : list (Time * string)) (l : IPRateLimiter) : IPRateLimiter :=
  match rs with [] => l | (t, ip) :: rs => limit_run rs (allow_ip t ip l).2 end.
Fixpoint let_through (ip : string) (rs : list (Time * string)) (l : IPRateLimiter) : nat :=
  match rs with
  | [] => O
  | (t, ip') :: rs =>
      let '(ok, l) := allow_ip t ip' l in
      ((if ok && String.eqb ip ip' then 1 else 0) + let_through ip rs l)%nat
  end.

Lemma allow_run_cons t ts l :
  allow_run (t :: ts) l =
  let '(ok, l') := Allow t l in let '(n, l2) := allow_run ts l' in ((if ok then S n else n), l2).
Proof. done. Qed.
Lemma allow_run_app ts us l :
  allow_run (ts ++ us) l = ((allowed ts l + allowed us (after_run ts l))%nat, after_run us (after_run ts l)).
Proof.
  unfold allowed, after_run. revert l. induction ts as [|t ts IH]; intros l; [exact (surjective_pairing (allow_run us l))|].
  simpl. destruct (Allow t l) as [b l1]. rewrite IH. destruct (allow_run ts l1) as [n l2]. simpl. by destruct b.
Qed.
Lemma allow_run_one t l : allow_run [t] l = ((if (Allow t l).1 then 1 else 0)%nat, (Allow t l).2).
Proof. simpl. by destruct (Allow t l) as [[] ?]. Qed.
Lemma after_run_snoc ts t l : after_run (ts ++ [t]) l = (Allow t (after_run ts l)).2.
Proof. unfold after_run at 1. rewrite allow_run_app. simpl. unfold after_run at 1. by rewrite allow_run_one. Qed.
Lemma allowed_snoc ts t l :
  allowed (ts ++ [t]) l = (allowed ts l + if (Allow t (after_run ts l)).1 then 1 else 0)%nat.
Proof. unfold allowed at 1. rewrite allow_run_app. simpl. unfold allowed at 2. by rewrite allow_run_one. Qed.

Lemma last_time_app t ts u : last_time t (ts ++ [u]) = u.
Proof. revert t. induction ts; simpl; auto. Qed.
Lemma ascending_snoc ts t : ascending ts → (∀ u, last ts = Some u → u ≤ t) → ascending (ts ++ [t]).
Proof.
  induction ts as [|a [|b ts] IH]; intros H Hl; [done|split; [by apply Hl|done]|].
  destruct H as [Hab H]. split; [done|]. apply IH; [done|]. intros u Hu. apply Hl. by rewrite last_cons_cons.
Qed.

(** ** One address

    The limiter of an address was made by [NewLimiter] and asked at the
    times [pre ++ cur] since then, [cur] being those of the window. *)
Variables (rpm : Z) (name ip : string) (t0 : Time).
Hypothesis Hrpm : 0 < rpm.
Let b : Z := default_burst rpm.
Let fresh_limiter : Limiter := NewLimiter (Qmake rpm 60) b.
Let C : Z := 60 * second.

(** What the window law gives for a limiter of this rate. *)
Lemma epoch_bound pre s cur :
  ascending (pre ++ s :: cur) →
  C * Z.of_nat (allowed (s :: cur) (after_run pre fresh_limiter)) ≤ C * (b + 1) + rpm * (last_time s cur - s).
Proof.
  intros Ha. pose proof (rate_window (Qmake rpm 60) b pre s cur) as H.
  pose proof (default_burst_bounds rpm). rewrite window_scaled in H. simpl in H.
  assert (0 < Qmake rpm 60)%Q as Hq by (unfold Qlt; simpl; lia).
  specialize (H ltac:(unfold b; lia) Hq Ha). unfold fresh_limiter, C. lia.
Qed.

Definition known (pre cur : list Time) (m : gmap string ipLimiterEntry) : Prop :=
  match m !! ip with
  | None => pre = [] ∧ cur = []
  | Some e => en_lim e = after_run (pre ++ cur) fresh_limiter ∧ last (pre ++ cur) = Some (en_last e)
  end.

(** [n] requests were let through since [t0]: those of the limiters that
    were evicted, paid for by the time that passed, and those of [cur]. *)
Definition paid (n : nat) (now : Time) (m : gmap string ipLimiterEntry) : Prop :=
  ∃ n0 pre cur,
    n = (n0 + allowed cur (after_run pre fresh_limiter))%nat
    ∧ known pre cur m ∧ ascending (pre ++ cur)
    ∧ (∀ u, last (pre ++ cur) = Some u → u ≤ now)
    ∧ t0 ≤ now
    ∧ C * Z.of_nat n0 ≤ rpm * (match cur with [] => now | s :: _ => s end - t0).

Lemma last_time_last pre s cur : last (pre ++ s :: cur) = Some (last_time s cur).
Proof.
  rewrite last_app_cons. revert s. induction cur as [|u cur IH]; intros s; [done|].
  rewrite last_cons_cons. apply IH.
Qed.

Lemma epochs_bound n0 pre s cur :
  ascending (pre ++ s :: cur) → C * Z.of_nat n0 ≤ rpm * (s - t0) →
  C * Z.of_nat (n0 + allowed (s :: cur) (after_run pre fresh_limiter)) ≤ C * (b + 1) + rpm * (last_time s cur - t0).
Proof. intros Ha Hp. pose proof (epoch_bound pre s cur Ha). unfold C in *. nia. Qed.

Lemma paid_bound n now m : paid n now m → C * Z.of_nat n ≤ C * (b + 1) + rpm * (now - t0).
Proof.
  intros (n0 & pre & cur & -> & _ & Ha & Hl & Ht & Hp). pose proof (default_burst_bounds rpm).
  destruct cur as [|s cur]; [unfold allowed; simpl; unfold C, second, millisecond, microsecond, b in *; nia|].
  pose proof (epochs_bound n0 pre s cur Ha Hp). specialize (Hl _ (last_time_last pre s cur)). nia.
Qed.

Lemma paid_later n now t m : now ≤ t → paid n now m → paid n t m.
Proof.
  intros Ht (n0 & pre & cur & -> & Hk & Ha & Hl & H0 & Hp). exists n0, pre, cur.
  split_and!; try done; [intros u Hu; specialize (Hl u Hu); lia|lia|]. destruct cur; [nia|done].
Qed.

(** Evicting the limiter of the address: ten minutes have paid for what it
    let through. *)
Lemma paid_evict n t m : paid n t m → paid n t (evict t m).
Proof.
  intros Hpaid. unfold evict. destruct (2048 <? size m)%nat; [|done]. cbv zeta.
  destruct (m !! ip) as [e|] eqn:Em.
  - destruct (decide (en_last e < t - 10 * minute)) as [Hold|Hnew].
    + destruct Hpaid as (n0 & pre & cur & Hn & Hk & Ha & Hl & H0 & Hp).
      unfold known in Hk. rewrite Em in Hk. destruct Hk as [_ Hlast]. pose proof (Hl _ Hlast) as Hle.
      assert (C * Z.of_nat n ≤ rpm * (t - t0)) as Hn'.
      { destruct cur as [|s cur]; [rewrite Hn; unfold allowed; simpl; rewrite Nat.add_0_r; done|].
        pose proof (epochs_bound n0 pre s cur Ha Hp) as Hb. rewrite <- Hn in Hb.
        rewrite last_time_last in Hlast. injection Hlast as Hlast. rewrite Hlast in Hb.
        pose proof (default_burst_rate rpm Hrpm) as H. fold b in H.
        assert (C * (b + 1) ≤ C * (10 * rpm)) by (apply Z.mul_le_mono_nonneg_l; [done|lia]).
        assert (rpm * en_last e ≤ rpm * (t - 10 * minute)) by (apply Z.mul_le_mono_nonneg_l; lia).
        replace (C * (10 * rpm)) with (rpm * (10 * minute)) in * by (unfold C, minute; ring). lia. }
      exists n, [], []. unfold known. rewrite (proj2 (map_lookup_filter_None _ _ _)).
      * by split_and!.
      * right. intros x Hx Hnot. rewrite Em in Hx. injection Hx as <-. by apply Hnot.
    + destruct Hpaid as (n0 & pre & cur & Hn & Hk & Hrest). exists n0, pre, cur. split_and!; try done; try apply Hrest.
      unfold known in *. rewrite Em in Hk.
      by rewrite (proj2 (map_lookup_filter_Some _ _ _ e)).
  - destruct Hpaid as (n0 & pre & cur & Hn & Hk & Hrest). exists n0, pre, cur. split_and!; try done; try apply Hrest.
    unfold known in *. rewrite Em in Hk. rewrite (proj2 (map_lookup_filter_None _ _ _)); [done|by left].
Qed.

Lemma paid_other n t m ip' e : ip' ≠ ip → paid n t m → paid n t (<[ip' := e]> m).
Proof.
  intros Hne (n0 & pre & cur & Hn & Hk & Hrest). exists n0, pre, cur. split_and!; try done; try apply Hrest.
  unfold known in *. by rewrite lookup_insert_ne.
Qed.

(** The limiter of the address is asked. *)
Lemma paid_ask n t m :
  paid n t m →
  let lim := match m !! ip with Some e => en_lim e | None => fresh_limiter end in
  paid (n + (if (Allow t lim).1 then 1 else 0)) t (<[ip := mkEntry (Allow t lim).2 t]> m).
Proof.
  intros (n0 & pre & cur & -> & Hk & Ha & Hl & H0 & Hp) lim.
  assert (lim = after_run (pre ++ cur) fresh_limiter) as ->.
  { unfold lim, known in *. destruct (m !! ip); [by destruct Hk|]. by destruct Hk as [-> ->]. }
  exists n0, pre, (cur ++ [t]). unfold known. rewrite lookup_insert_eq. simpl.
  rewrite app_assoc, after_run_snoc, last_snoc, allowed_snoc.
  split_and!; try done.
  - unfold after_run. rewrite allow_run_app. unfold after_run. simpl. lia.
  - by apply ascending_snoc.
  - by intros u [= ->].
  - by destruct cur.
Qed.

Lemma paid_allow n t ip' l :
  rl_limit l = Qmake rpm 60 → rl_burst l = b → paid n t (rl_byIP l) →
  let r := allow_ip t ip' l in
  paid ((if r.1 && String.eqb ip ip' then 1 else 0) + n) t (rl_byIP r.2)
  ∧ rl_limit r.2 = Qmake rpm 60 ∧ rl_burst r.2 = b.
Proof.
  intros Hr Hb Hp%paid_evict. unfold allow_ip, getLimiter. rewrite Hr, Hb.
  destruct (String.eqb_spec ip ip') as [<-|Hne].
  - apply paid_ask in Hp. cbv zeta in Hp. unfold fresh_limiter in Hp. simpl.
    destruct (Allow t _) as [ok lim]. simpl in *. rewrite insert_insert_eq, andb_true_r, Nat.add_comm. done.
  - simpl. destruct (Allow t _) as [ok lim]. simpl. rewrite insert_insert_eq, andb_false_r.
    split_and!; try done. by apply paid_other.
Qed.

Lemma run_paid rs : ∀ n now l,
  rl_limit l = Qmake rpm 60 → rl_burst l = b → paid n now (rl_byIP l) → ascending (now :: rs.*1) →
  paid (n + let_through ip rs l) (last_time now rs.*1) (rl_byIP (limit_run rs l)).
Proof.
  induction rs as [|[t ip'] rs IH]; intros n now l Hr Hb Hp Ha; simpl; [by rewrite Nat.add_0_r|].
  destruct Ha as [Ht Ha]. simpl in Ht. apply (paid_later _ _ t) in Hp; [|done].
  destruct (paid_allow n t ip' l Hr Hb Hp) as (Hp' & Hr' & Hb'). destruct (allow_ip t ip' l) as [ok l1]. simpl in *.
  replace (n + _)%nat with ((if ok && String.eqb ip ip' then 1 else 0) + n + let_through ip rs l1)%nat by lia.
  by apply IH.
Qed.
End window.

Section limiter.
Context {L : RateLimiter} {LL : RateLimiterLaws L}.

Lemma ascending_app_l ts us : ascending (ts ++ us) → ascending ts.
Proof. induction ts as [|a [|b ts] IH]; [done|done|]. intros [? ?]. split; auto. Qed.
Lemma ascending_app_r ts us : ascending (ts ++ us) → ascending us.
Proof.
  induction ts as [|a [|b ts] IH]; [done| |intros [? ?]; auto]. by destruct us; [|intros [? ?]].
Qed.
Lemma ascending_last t ts u us : ascending ((t :: ts) ++ u :: us) → last_time t ts ≤ u.
Proof. revert t. induction ts as [|a ts IH]; intros t [H Ha]; [done|]. by apply IH. Qed.

(** The entry of the address when a window begins. *)
Lemma window_start rpm ip pre t l :
  0 < rpm → rl_limit l = Qmake rpm 60 → rl_burst l = default_burst rpm → rl_byIP l = ∅ →
  (∀ us, ascending (pre.*1 ++ t :: us) → paid rpm ip t 0 t (rl_byIP (limit_run pre l)))
  ∧ rl_limit (limit_run pre l) = Qmake rpm 60 ∧ rl_burst (limit_run pre l) = default_burst rpm.
Proof.
  intros Hrpm Hr Hb He. split_and!.
  - intros us Ha. destruct pre as [|[t1 ip1] pre].
    + simpl. rewrite He. exists 0%nat, [], []. unfold known. rewrite lookup_empty. split_and!; try done. nia.
    + assert (paid rpm ip t1 (0 + let_through ip ((t1, ip1) :: pre) l) (last_time t1 ((t1, ip1) :: pre).*1)
                (rl_byIP (limit_run ((t1, ip1) :: pre) l))) as (n0 & p & c & _ & Hk & Hc & Hl & _).
      { apply run_paid; try done.
        - rewrite He. exists 0%nat, [], []. unfold known. rewrite lookup_empty. split_and!; try done. nia.
        - split; [done|]. by apply ascending_app_l in Ha. }
      exists 0%nat, (p ++ c), []. pose proof (ascending_last t1 pre.*1 t us Ha) as Hle. unfold known in *.
      rewrite app_nil_r. split_and!; try done; [|intros u Hu; etransitivity; [by apply Hl|exact Hle]|nia].
      destruct (_ !! ip); [done|]. by destruct Hk as [-> ->].
  - clear -Hr. revert l Hr. induction pre as [|[u i] pre IH]; intros l Hr; [done|]. simpl. apply IH.
    unfold allow_ip, getLimiter. by destruct (Allow _ _).
  - clear -Hb. revert l Hb. induction pre as [|[u i] pre IH]; intros l Hb; [done|]. simpl. apply IH.
    unfold allow_ip, getLimiter. by destruct (Allow _ _).
Qed.

(** C36.  A route limited to [rpm] requests per minute lets through, from
    one address and in any window of time, at most its burst (1 to 60)
    plus what the rate gives in the window, and one more; whatever was
    asked before, from how many addresses, and whichever entries were
    evicted. *)
Theorem rate_limit_window name rpm l pre t ip' rs ip :
  NewIPRateLimiter name rpm 0 = Some l → ascending (pre.*1 ++ t :: rs.*1) →
  1 ≤ rl_burst l ≤ 60
  ∧ 60 * second * Z.of_nat (let_through ip ((t, ip') :: rs) (limit_run pre l))
    ≤ 60 * second * (rl_burst l + 1) + rpm * (last_time t rs.*1 - t).
Proof.
  unfold NewIPRateLimiter. destruct (Z.leb_spec rpm 0) as [|Hrpm]; [done|]. intros [= <-] Ha.
  split; [apply default_burst_bounds|].
  destruct (window_start rpm ip pre t (mkIPLimiter name (Qmake rpm 60) (default_burst rpm) ∅)) as (Hp & Hr & Hb); [done..|].
  specialize (Hp _ Ha). apply ascending_app_r in Ha.
  apply (run_paid rpm ip t Hrpm ((t, ip') :: rs)) in Hp; [|done..|by split].
  by apply paid_bound in Hp.
Qed.
End limiter.

(** ** A token bucket

    A bucket with the documented behaviour, its tokens counted in the unit
    of which [bk_unit] make one event: what the witness evaluates. *)
Record bucket := mkBucket { bk_rate : Q; bk_size : Z; bk_tokens : Z; bk_last : option Time }.
Definition bk_unit (r : Q) : Z := QDen r * second.
Definition refilled (t : Time) (k : bucket) : Z :=
  match bk_last k with
  | None => bk_tokens k
  | Some u => Z.min (bk_size k * bk_unit (bk_rate k)) (bk_tokens k + Qnum (bk_rate k) * Z.max 0 (t - u))
  end.
Definition bucket_allow (t : Time) (k : bucket) : bool * bucket :=
  let tok := refilled t k in
  if bk_unit (bk_rate k) <=? tok
  then (true, mkBucket (bk_rate k) (bk_size k) (tok - bk_unit (bk_rate k)) (Some t))
  else (false, mkBucket (bk_rate k) (bk_size k) tok (Some t)).
#[export] Instance toy_limiter : RateLimiter := {|
  Limiter := bucket;
  NewLimiter r b := mkBucket r b (b * bk_unit r) None;
  Allow := bucket_allow
|}.

Section bucket.
Variables (r : Q) (b : Z).
Hypotheses (Hr : (0 < r)%Q) (Hb : 0 < b).

Definition bucket_ok (k : bucket) : Prop :=
  bk_rate k = r ∧ bk_size k = b ∧ 0 ≤ bk_tokens k ≤ b * bk_unit r.

Lemma rate_pos : 0 < Qnum r ∧ 0 < bk_unit r.
Proof. destruct r as [p q]. unfold Qlt, bk_unit, second, millisecond, microsecond in *. simpl in *. lia. Qed.

Lemma allow_ok t (k : bucket) : bucket_ok k →
  let '(ok, k') := bucket_allow t k in
  bucket_ok k' ∧ bk_last k' = Some t
  ∧ (if ok then bk_unit r else 0) + bk_tokens k' = refilled t k ∧ refilled t k ≤ b * bk_unit r.
Proof.
  intros (Hr' & Hb' & Ht). pose proof rate_pos as [Hp Hu]. unfold bucket_allow. cbv zeta. rewrite Hr'.
  assert (0 ≤ refilled t k ≤ b * bk_unit r) as Hrf.
  { unfold refilled. rewrite Hr', Hb'. destruct (bk_last k); [|done]. nia. }
  destruct (Z.leb_spec (bk_unit r) (refilled t k)); unfold bucket_ok; simpl; repeat split; lia || done.
Qed.

Lemma bucket_run ts : ∀ (k : bucket) u, bucket_ok k → bk_last k = Some u → ascending (u :: ts) →
  Z.of_nat (allowed ts k) * bk_unit r ≤ bk_tokens k + Qnum r * (last_time u ts - u).
Proof.
  pose proof rate_pos as [Hp Hu].
  induction ts as [|t ts IH]; intros k u Hk Hl Ha; [destruct Hk as (_ & _ & ?); unfold allowed; simpl; lia|].
  destruct Ha as [Htu Ha]. pose proof (allow_ok t k Hk) as Hstep. unfold allowed.
  rewrite allow_run_cons. cbn [Allow toy_limiter].
  destruct (bucket_allow t k) as [ok k'] eqn:E. destruct Hstep as (Hk' & Hl' & Htok & _).
  specialize (IH k' t Hk' Hl' Ha). unfold allowed in IH. destruct (allow_run (L:=toy_limiter) ts k') as [n k2]. cbn [fst last_time] in *.
  assert (refilled t k ≤ bk_tokens k + Qnum r * (t - u)).
  { unfold refilled. rewrite Hl. destruct Hk as (-> & _). rewrite Z.max_r by lia. lia. }
  destruct ok; nia.
Qed.

Lemma after_run_ok ts (k : bucket) : bucket_ok k → bucket_ok (after_run ts k).
Proof.
  unfold after_run. revert k. induction ts as [|t ts IH]; intros k Hk; [done|].
  rewrite allow_run_cons. cbn [Allow toy_limiter].
  pose proof (allow_ok t k Hk) as Hs. destruct (bucket_allow t k) as [ok k']. destruct Hs as (Hk' & _).
  specialize (IH k' Hk'). by destruct (allow_run (L:=toy_limiter) ts k').
Qed.
End bucket.

#[export] Instance toy_limiter_laws : RateLimiterLaws toy_limiter.
Proof.
  intros r b pre t ts Hb Hr Ha. apply window_scaled. fold (bk_unit r).
  assert (bucket_ok r b (after_run pre (NewLimiter r b))) as Hk.
  { apply after_run_ok; [done..|]. split_and!; [done..| |done]. simpl. pose proof (rate_pos r Hr). nia. }
  set (k := after_run pre (NewLimiter r b)) in *. pose proof (allow_ok r b Hr Hb t k Hk) as Hs.
  unfold allowed.
  rewrite allow_run_cons. cbn [Allow toy_limiter].
  destruct (bucket_allow t k) as [ok k']. destruct Hs as (Hk' & Hl & Htok & Hcap).
  pose proof (bucket_run r b Hr Hb ts k' t Hk' Hl (ascending_app_r _ _ Ha)) as Hrun. unfold allowed in Hrun.
  destruct (allow_run (L:=toy_limiter) ts k') as [n k2]. cbn [fst] in *. pose proof (rate_pos r Hr). destruct ok; nia.
Qed.

(** Thirty requests a second apart from one address, on a route limited to
    30 requests per minute: the burst of 10 and a request every other
    second. *)
Definition demo_rate : list (Time * string) := (λ i, (Z.of_nat i * second, "10.0.0.7")) <$> seq 1 29.
Definition demo_limiter : IPRateLimiter := mkIPLimiter "ws_connect" (Qmake 30 60) 10 ∅.
Lemma rate_limit_window_witness :
  let_through "10.0.0.7" ((0, "10.0.0.7") :: demo_rate) (limit_run [(0, "10.0.0.9")] demo_limiter) = 24%nat
  ∧ 60 * second * 24 ≤ 60 * second * 11 + 30 * (29 * second).
Proof.
  assert (let_through "10.0.0.7" ((0, "10.0.0.7") :: demo_rate) (limit_run [(0, "10.0.0.9")] demo_limiter) = 24%nat) as Hn
    by (vm_compute; reflexivity).
  split; [exact Hn|].
  destruct (rate_limit_window "ws_connect" 30 demo_limiter [(0, "10.0.0.9")] 0 "10.0.0.7" demo_rate "10.0.0.7") as [_ H].
  - reflexivity.
  - vm_compute. repeat split; discriminate.
  - rewrite Hn in H. exact H.
Defined.
