(* ===== verification/Steps.v ===== *)
(** * Steps of the server

    What every computation of a goroutine keeps ([hguar]): the tables
    evolve, the hub takes steps that open and end no connection; proved
    for the parts of the server from the Redis commands to the frames. *)

From stdpp Require Import base strings gmap sets list relations.
From S2P Require Import Prelude GoStrings Json JsonCodec JsonStruct WsEvents Errors Domain Hub HubTheorems Metrics World Repository PgMessages PgChats PgUsers Guarantee Invariant Evolution Laws Calls Credentials AuthService Redis Broadcaster Kafka Relay MessageService MessageTheorems WsService.

(** What the statements of every repository but the message writer keep. *)
Class StorageLaws (R : relation DB) := {
  sl_guarantee :: Guarantee R;
  sl_chats :: ChatStatements R;
  sl_users :: UserStatements R;
  sl_sessions :: SessionStatements R;
  sl_outbox :: OutboxStatements R
}.
#[export] Instance evolves_storage : StorageLaws evolves.
Proof. split; apply _. Qed.

(** [hguar R m]: the tables take a step of [R], the schedule shrinks, the
    hub takes steps that leave the open connections as they are, and the
    samples of the HTTP middleware are left alone. *)
Definition hguar (R : relation DB) {A} (m : M A) : Prop := ∀ w r w',
  env R w → m w = (r, w') →
  R (w_db w) (w_db w') ∧ env R w'
  ∧ (∀ open, rtc hub_step (open, w_hub w) (open, w_hub w'))
  ∧ http_samples (w_metrics w') = http_samples (w_metrics w).

Create HintDb hguar.

Section hguar.
Context {G : UuidGen} {GL : UuidGenLaws G} {R : relation DB} {HR : Guarantee R}.
Abbreviation hguar := (Steps.hguar R).

Lemma hguar_guar {A} (m : M A) : guar R m → hguar m.
Proof.
  intros Hm w r w' Hw H. apply Hm in H as [He Hl]; [|done]. split_and!; [done|by eapply env_later| |by apply later_http].
  intros open. rewrite (later_hub _ _ Hl). reflexivity.
Qed.

Lemma hguar_bind {A B} (m : M A) (k : A → M B) : hguar m → (∀ a, hguar (k a)) → hguar (m ≫= k).
Proof.
  intros Hm Hk w r w' Hw [(a & w1 & H1 & H2)|(e & H1 & ->)]%bind_inv.
  - apply Hm in H1 as (E1 & Hw1 & R1 & M1); [|done]. apply Hk in H2 as (E2 & Hw2 & R2 & M2); [|done].
    split_and!; [by etransitivity|done|intros open; etransitivity; [apply R1|apply R2]|by rewrite M2].
  - by apply Hm in H1.
Qed.

Lemma hguar_attempt {A} (m : M A) : hguar m → hguar (attempt m).
Proof.
  intros Hm w r w' Hw. unfold attempt. destruct (m w) as [r1 w1] eqn:E. intros [= <- <-]. by apply Hm in E.
Qed.

Lemma hguar_map_err {A} f (m : M A) : hguar m → hguar (map_err f m).
Proof. intros Hm w r w' Hw [(a & -> & H)|(e & -> & H)]%map_err_inv; by apply Hm in H. Qed.

Lemma hguar_hub (f : Hub → Hub) : (∀ open h, hub_step (open, h) (open, f h)) → hguar (on_hub f).
Proof.
  intros Hf w r w' Hw [= _ <-]. split_and!; [reflexivity|done| |done]. intros open. apply rtc_once, Hf.
Qed.

Lemma hguar_send payload uid : hguar (hub_SendToUser payload uid).
Proof. apply (hguar_hub (SendToUser uid payload)). intros. constructor. Qed.
End hguar.

#[export] Hint Resolve hguar_bind hguar_attempt hguar_send : hguar.

(** [hguar_tac] follows the text of an operation down to its calls. *)
Ltac hguar_step :=
  match goal with
  | |- hguar _ (_ ≫= _) => apply hguar_bind
  | |- hguar _ (attempt _) => apply hguar_attempt
  | |- hguar _ (map_err _ _) => apply hguar_map_err
  | |- hguar _ (match ?x with _ => _ end) => destruct x
  | |- hguar _ (if ?b then _ else _) => destruct b
  | |- hguar _ (let _ := _ in _) => cbv zeta
  | |- ∀ _, _ => intro
  | |- hguar _ (hub_SendToUser _ _) => apply hguar_send
  | |- hguar _ (on_hub (on_client (enqueue _) _)) => apply hguar_hub; intros; constructor
  | |- hguar _ (on_hub (on_client (write_wire _) _)) => apply hguar_hub; intros; constructor
  | |- hguar _ (inc_if _ _) => apply hguar_guar, guar_inc_if; (reflexivity || by destruct (is_ok _))
  | |- hguar _ (inc_with_if _ _ _) => apply hguar_guar, guar_inc_with; reflexivity
  | |- hguar _ (mret _) => apply hguar_guar, guar_ret
  | |- hguar _ (throw _) => apply hguar_guar, guar_throw
  | |- hguar _ (fail_when _ _) => apply hguar_guar, guar_fail_when
  | |- hguar _ (remote_call _) => apply hguar_guar, guar_remote; intros; repeat case_match; done
  end.
Ltac hguar_tac := repeat hguar_step.

Section parts.
Context {R : relation DB} {SL : StorageLaws R}.
Abbreviation hguar := (Steps.hguar R).
Context {P : Prometheus} {G : UuidGen} {GL : UuidGenLaws G} {RN : Rand} {RS : RedisServer} {K : KafkaBroker}.

(** *** Redis *)
Lemma hguar_cmd_publish c p : hguar (cmd_publish c p).
Proof. unfold cmd_publish. hguar_tac. Qed.
Lemma hguar_cmd_set k v ttl : hguar (cmd_set k v ttl).
Proof. unfold cmd_set. hguar_tac. Qed.
Lemma hguar_cmd_setnx k v ttl : hguar (cmd_setnx k v ttl).
Proof. unfold cmd_setnx. apply hguar_guar, guar_remote. intros now w. by destruct (redis_setnx _ _ _ _ _). Qed.
Lemma hguar_rand_read : hguar rand_read.
Proof. intros w r w' Hw [= _ <-]. split_and!; reflexivity || done. Qed.
Lemma hguar_cmd_del k : hguar (cmd_del k).
Proof. unfold cmd_del. hguar_tac. Qed.
Lemma hguar_cmd_getdel k : hguar (cmd_getdel k).
Proof. unfold cmd_getdel. apply hguar_guar, guar_remote. intros now w. by destruct (redis_getdel _ _ _). Qed.
Lemma hguar_SetOnline rdb u : hguar (SetOnline rdb u).
Proof. unfold SetOnline. hguar_tac. apply hguar_cmd_set. Qed.
Lemma hguar_SetOffline rdb u : hguar (SetOffline rdb u).
Proof. unfold SetOffline. hguar_tac. apply hguar_cmd_del. Qed.
Lemma hguar_StartTyping rdb c u : hguar (StartTyping rdb c u).
Proof. unfold StartTyping. hguar_tac. apply hguar_cmd_set. Qed.
Lemma hguar_StopTyping rdb c u : hguar (StopTyping rdb c u).
Proof. unfold StopTyping. hguar_tac. apply hguar_cmd_del. Qed.
Lemma hguar_Activity repo u : hguar (Activity repo u).
Proof. unfold Activity, Touch, svc_SetOnline. hguar_tac. apply hguar_SetOnline. Qed.
Lemma hguar_connected p u : hguar (connected p u).
Proof. unfold connected, Connected, svc_SetOnline. hguar_tac. apply hguar_SetOnline. Qed.
Lemma hguar_disconnected p u : hguar (disconnected p u).
Proof. unfold disconnected, Disconnected, svc_SetOffline. hguar_tac. apply hguar_SetOffline. Qed.
Lemma hguar_Consume rdb t : hguar (Consume rdb t).
Proof. unfold Consume. hguar_tac. apply hguar_cmd_getdel. Qed.

(** *** Fan-out *)
Lemma hguar_send_all payload ms : hguar (send_all payload ms).
Proof. induction ms as [|m ms IH]; simpl; hguar_tac. exact IH. Qed.

Lemma hguar_deliver wired chat payload : hguar (deliverPayload wired chat payload).
Proof.
  unfold deliverPayload. hguar_tac; [|apply hguar_send_all].
  apply hguar_guar, (neutral_guar _ R). apply (law_chats_GetChatMembers evolves).
Qed.

Lemma hguar_PublishToChat wired pub chat ev d m : hguar (PublishToChat wired pub chat ev d m).
Proof. unfold PublishToChat, PublishChatEvent. hguar_tac; [apply hguar_cmd_publish|apply hguar_deliver]. Qed.

Lemma hguar_subscribe_loop h msgs : (∀ c p, hguar (h c p)) → hguar (subscribe_loop h msgs).
Proof. intros Hh. induction msgs as [|[c p] msgs IH]; simpl; hguar_tac; [apply Hh|exact IH]. Qed.

Lemma hguar_StartRedisRelay wired pub : hguar (StartRedisRelay wired pub).
Proof.
  unfold StartRedisRelay, SubscribeChatEvents. hguar_tac.
  - intros w r w' Hw [= _ <-]. split_and!; reflexivity || done.
  - apply hguar_subscribe_loop. intros. apply hguar_deliver.
Qed.

(** *** Workers *)
Lemma hguar_publish_row r row b : hguar (publish_row (DeliverEnvelopeBytes true) r row b).
Proof.
  unfold publish_row, Publish, publishLocal, DeliverEnvelopeBytes. hguar_tac; apply hguar_deliver.
Qed.

Lemma hguar_relay_rows r rows : hguar (relay_rows (DeliverEnvelopeBytes true) r rows).
Proof.
  induction rows as [|row rows IH]; simpl; [hguar_tac|]. apply hguar_bind; [|intros; exact IH].
  unfold relay_row. hguar_tac.
  - apply hguar_publish_row.
  - apply hguar_guar. apply (law_outbox_MarkPublished R).
Qed.

Lemma hguar_tick r : hguar (tick (DeliverEnvelopeBytes true) r).
Proof.
  unfold tick. hguar_tac; [|apply hguar_relay_rows].
  apply hguar_guar, (neutral_guar _ R). apply (law_outbox_FetchPending evolves).
Qed.

Lemma hguar_fanout bc raw : hguar (FanoutKafkaDomainEvent (DeliverEnvelopeBytes true) bc raw).
Proof. unfold FanoutKafkaDomainEvent, DeliverEnvelopeBytes. hguar_tac; apply hguar_deliver. Qed.

Lemma hguar_consume metrics reads : hguar (consume (DeliverEnvelopeBytes true) metrics reads).
Proof.
  induction reads as [|[[k v]|] reads IH]; cbn [consume]; [hguar_tac| |exact IH].
  hguar_tac; [apply hguar_fanout|exact IH].
Qed.

(** *** Frames *)
Variables (writer : option MessageWriter) (metrics : bool).
Hypothesis msg_ops : ∀ actor req, guar R (run_msg writer metrics actor req).

Lemma hguar_msg actor req : hguar (run_msg writer metrics actor req).
Proof. apply hguar_guar, msg_ops. Qed.

Lemma hguar_reply {A} (m : M A) : hguar (_ ← m; mret ()) → hguar m.
Proof.
  intros Hm w r w' Hw H. unfold hguar in Hm.
  destruct (Hm w (match r with Ok _ => Ok () | Err e => Err e end) w' Hw) as (? & ? & ? & ?).
  - unfold mbind, eff_bind. rewrite H. by destruct r.
  - done.
Qed.

Lemma hguar_Create actor chat req : hguar (Create writer metrics actor chat req).
Proof. apply hguar_reply. apply (hguar_msg actor (MCreate chat req)). Qed.
Lemma hguar_MarkRead actor mid : hguar (MarkRead writer metrics actor mid).
Proof. apply hguar_reply. apply (hguar_msg actor (MMarkRead mid)). Qed.

Variables (presence : option (option bool)) (typing : option bool) (wired : bool) (pub : option bool).

Lemma hguar_HandleEvent uid payload : hguar (HandleEvent writer metrics presence typing wired pub uid payload).
Proof.
  unfold HandleEvent, handleMessageSend, handleMessageRead, handleTyping, touch_presence, update_typing.
  hguar_tac.
  all: first [apply hguar_Activity|apply hguar_Create|apply hguar_MarkRead|apply hguar_PublishToChat
             |apply hguar_StopTyping|apply hguar_StartTyping
             |apply hguar_guar, (neutral_guar _ R); apply (law_chats_FindMembership evolves)].
Qed.

Lemma hguar_queue_all p outs : hguar (queue_all metrics p outs).
Proof. induction outs as [|b outs IH]; simpl; hguar_tac. exact IH. Qed.

Lemma hguar_read_frame p uid msg :
  hguar (read_frame (HandleEvent writer metrics presence typing wired pub) metrics p uid msg).
Proof. unfold read_frame, read_step. hguar_tac; [apply hguar_HandleEvent|apply hguar_queue_all]. Qed.
End parts.

