(* ===== verification/SiteTheorems.v ===== *)
(** * The HTTP layer keeps the server's invariants

    Every handler, and the chain of middleware around the routes, is a step
    of the server: the tables evolve, the hub and the open connections stay
    consistent, whatever the request. *)

From stdpp Require Import base strings gmap sets list relations.
From S2P Require Import Prelude GoStrings Utf8 Json Errors GoTime Domain Hub HubTheorems Metrics World Repository PgMessages PgChats PgUsers Guarantee Invariant Evolution Laws Calls Credentials AuthService MessageService MessageTheorems ChatService ChatTheorems AuthTheorems UserService UserTheorems Redis WsService HttpJson DtoJson Http Handlers RateLimit Router Steps.

(** ** Handlers *)
Section handlers.
Context {R : relation DB} {SL : StorageLaws R}.
Abbreviation hguar := (Steps.hguar R).
Context {P : Prometheus} {G : UuidGen} {GL : UuidGenLaws G} {B : Bcrypt} {J : Jwt} {RD : Rand} {RS : RedisServer}.

Lemma hguar_respond {A} (enc : A → option json) status (m : M A) : hguar m → hguar (respond enc status m).
Proof. intros H. unfold respond. hguar_tac. exact H. Qed.

Lemma hguar_with_body {T} decode (d : dto T) r (k : T → M reply) :
  (∀ x, hguar (k x)) → hguar (with_body decode d r k).
Proof. intros H. unfold with_body. hguar_tac. apply H. Qed.

Lemma hguar_counted {T A} met counter (d : dto T) (enc : A → option json) status run r :
  is_http counter = false → (∀ x meta, hguar (run x meta)) → hguar (counted met counter d enc status run r).
Proof.
  intros Hc H. unfold counted, auth_failed. apply hguar_bind; [by apply hguar_guar, guar_inc_if|]. hguar_tac. apply H.
Qed.

Lemma hguar_bearer secret (next : ID → http_handler) r :
  (∀ uid, hguar (next uid r)) → hguar (RequireBearerAuth secret next r).
Proof.
  intros H. unfold RequireBearerAuth. hguar_tac; [|apply H]. apply hguar_guar, guar_time_now.
Qed.

(** The operations of the services, from the theorems on requests. *)
Section ops.
Variables (jwt : JWTConfig) (writer : option MessageWriter) (met : bool).
Hypothesis msg_ops : ∀ actor req, guar R (run_msg writer met actor req).

Lemma hguar_auth_op meta req : hguar (run_auth jwt meta req).
Proof. apply hguar_guar, run_auth_guar; apply _. Qed.
Lemma hguar_chat_op actor req : hguar (run_chat actor req).
Proof. apply hguar_guar, run_chat_guar; apply _. Qed.
Lemma hguar_user_op req : hguar (run_user req).
Proof. apply hguar_guar, run_user_guar; apply _. Qed.
Lemma hguar_msg_op actor req : hguar (run_msg writer met actor req).
Proof. by apply hguar_msg. Qed.

Ltac op t := first [apply hguar_reply; apply t|apply t].

Lemma hguar_Auth_Register r : hguar (Auth_Register jwt met r).
Proof. apply hguar_counted; [done|]. intros x meta. op (hguar_auth_op meta (ARegister x)). Qed.
Lemma hguar_Auth_Login r : hguar (Auth_Login jwt met r).
Proof. apply hguar_counted; [done|]. intros x meta. op (hguar_auth_op meta (ALogin x)). Qed.
Lemma hguar_Auth_Refresh r : hguar (Auth_Refresh jwt met r).
Proof. apply hguar_counted; [done|]. intros x meta. op (hguar_auth_op meta (ARefresh x)). Qed.
Lemma hguar_Auth_Logout r : hguar (Auth_Logout r).
Proof. apply hguar_with_body. intros x. apply hguar_respond. op (hguar_auth_op (mkMeta "" "") (ALogout x)). Qed.
Lemma hguar_Auth_LogoutAll uid r : hguar (Auth_LogoutAll uid r).
Proof. apply hguar_respond. op (hguar_auth_op (mkMeta "" "") (ALogoutAll uid)). Qed.

Lemma hguar_user_handlers uid r :
  hguar (Users_Me uid r) ∧ hguar (Users_PatchMe uid r) ∧ hguar (Users_Search uid r) ∧ hguar (Users_ByID uid r).
Proof.
  split_and!; [|apply hguar_with_body; intros p| |]; apply hguar_respond.
  - op (hguar_user_op (UMe uid)).
  - op (hguar_user_op (UUpdate uid p)).
  - eapply hguar_reply, (hguar_user_op (USearch _ _ _)).
  - eapply hguar_reply, (hguar_user_op (UGet _)).
Qed.

Lemma hguar_chat_handlers uid r :
  (hguar (Chats_CreateDirect uid r) ∧ hguar (Chats_CreateGroup uid r) ∧ hguar (Chats_List uid r))
  ∧ hguar (Chats_Get uid r) ∧ hguar (Chats_Members uid r) ∧ hguar (Chats_AddMembers uid r)
  ∧ hguar (Chats_RemoveMember uid r).
Proof.
  split_and!; try (apply hguar_with_body; intros p); apply hguar_respond.
  - op (hguar_chat_op uid (CDirect p)).
  - op (hguar_chat_op uid (CGroup p)).
  - eapply hguar_reply, (hguar_chat_op uid (CList _ _)).
  - op (hguar_chat_op uid (CGet (chat_id r))).
  - op (hguar_chat_op uid (CMembers (chat_id r))).
  - op (hguar_chat_op uid (CAdd (chat_id r) p)).
  - eapply (hguar_chat_op uid (CRemove _ _)).
Qed.

Lemma hguar_message_handlers uid r :
  (hguar (Messages_ListByChat uid r) ∧ hguar (Messages_CreateInChat writer met uid r) ∧ hguar (Messages_Get uid r))
  ∧ hguar (Messages_Patch writer met uid r) ∧ hguar (Messages_Delete writer met uid r)
  ∧ hguar (Messages_MarkRead writer met uid r).
Proof.
  split_and!; try (apply hguar_with_body; intros p); apply hguar_respond.
  - eapply hguar_reply, (hguar_msg_op uid (MListByChat _ _ _)).
  - op (hguar_msg_op uid (MCreate (chat_id r) p)).
  - op (hguar_msg_op uid (MGet (message_id r))).
  - op (hguar_msg_op uid (MPatch (message_id r) p)).
  - op (hguar_msg_op uid (MDelete (message_id r))).
  - op (hguar_msg_op uid (MMarkRead (message_id r))).
Qed.
End ops.

Lemma hguar_WSTicket_Issue repo ttl uid r : hguar (WSTicket_Issue repo ttl uid r).
Proof.
  apply hguar_respond. unfold IssueTicket, Issue. hguar_tac.
  all: first [apply hguar_rand_read|apply hguar_cmd_setnx].
Qed.
End handlers.

(** ** The site *)
Section site.
Context {R : relation DB} {SL : StorageLaws R} {P : Prometheus} {L : RateLimiter}.
Abbreviation hguar := (Steps.hguar R).

(** What every step of the server keeps. *)
Definition server_ok (s0 s : server) : Prop :=
  R (w_db (sv_world s0)) (w_db (sv_world s)) ∧ env R (sv_world s)
  ∧ rtc hub_step (sv_open s0, w_hub (sv_world s0)) (sv_open s, w_hub (sv_world s)).

(** The samples of the HTTP middleware are those before. *)
Definition same_http (s s' : server) : Prop :=
  http_samples (w_metrics (sv_world s')) = http_samples (w_metrics (sv_world s)).
Definition sguar {A} (m : site A) : Prop := ∀ s r s',
  env R (sv_world s) → m s = (r, s') → server_ok s s' ∧ same_http s s'.

Lemma server_ok_refl s : env R (sv_world s) → server_ok s s.
Proof. intros ?. split_and!; reflexivity || done. Qed.
Lemma server_ok_trans s1 s2 s3 : server_ok s1 s2 → server_ok s2 s3 → server_ok s1 s3.
Proof. intros (H1 & _ & R1) (H2 & ? & R2). split_and!; [by etransitivity|done|etransitivity; [exact R1|exact R2]]. Qed.

Lemma sguar_ret {A} (a : A) : sguar (mret a).
Proof. intros s r s' ? [= _ <-]. split; [by apply server_ok_refl|done]. Qed.
Lemma sguar_bind {A B} (m : site A) (k : A → site B) : sguar m → (∀ a, sguar (k a)) → sguar (m ≫= k).
Proof.
  intros Hm Hk s r s' Hw [(a & s1 & H1 & H2)|(e & H1 & _)]%bind_inv; [|by eapply Hm].
  apply Hm in H1 as [H1 M1]; [|done]. pose proof H1 as (_ & ? & _). apply Hk in H2 as [H2 M2]; [|done].
  split; [by eapply server_ok_trans|]. unfold same_http in *. congruence.
Qed.

Lemma sguar_attempt {A} (m : site A) : sguar m → sguar (attempt m).
Proof.
  intros Hm s r s' Hw. unfold attempt. destruct (m s) as [r1 s1] eqn:E. intros [= _ <-]. by eapply Hm.
Qed.

Lemma sguar_on_world {A} (m : M A) : hguar m → sguar (on_world m).
Proof.
  intros Hm s r s' Hw. unfold on_world. destruct (m (sv_world s)) as [r1 w1] eqn:E. intros [= _ <-].
  apply Hm in E as (? & ? & ? & ?); [|done]. split; [split_and!; simpl; auto|done].
Qed.

Lemma sguar_ask_limiter name r : sguar (ask_limiter name r).
Proof.
  intros s x s' Hw. unfold ask_limiter. destruct (sv_limits s !! name); [destruct (allow_ip _ _ _)|];
    intros [= _ <-]; (split; [apply (server_ok_refl s Hw)|done]).
Qed.

Lemma sguar_chainLimit name (next : site_handler) r : (∀ r, sguar (next r)) → sguar (chainLimit name next r).
Proof.
  intros H. unfold chainLimit. apply sguar_bind; [apply sguar_ask_limiter|].
  intros []; [apply H|apply sguar_ret].
Qed.

(** A table of routes whose handlers are steps. *)
Definition routes_ok (routes : list route) : Prop := Forall (λ rt, ∀ r, sguar (rt_Handler rt r)) routes.

Lemma rt_Handler_handle p (h : site_handler) : rt_Handler (handle p h) = h.
Proof. unfold handle. by repeat case_match. Qed.

Lemma find_route_elem routes r rt : find_route routes r = Some rt → rt ∈ routes ∧ is_Some (match_route r rt).
Proof.
  unfold find_route. intros H%head_Some_elem_of.
  apply list_elem_of_filter in H as [_ H]. by apply list_elem_of_filter in H as [? ?].
Qed.

Lemma sguar_ServeMux routes r : routes_ok routes → sguar (ServeMux routes r).
Proof.
  intros H. unfold ServeMux. destruct (find_route routes r) as [rt|] eqn:E.
  - apply find_route_elem in E as [E _]. eapply Forall_forall in H; [|exact E]. apply H.
  - destruct (allowed_methods routes r); apply sguar_ret.
Qed.

Lemma sguar_Logging `{RD : Rand} routes r : routes_ok routes → sguar (Logging (Recovery (ServeMux routes)) r).
Proof.
  intros H. unfold Logging. apply sguar_bind.
  - destruct (str_empty _); [|apply sguar_ret]. apply sguar_bind; [|intros; apply sguar_ret].
    apply sguar_on_world, hguar_rand_read.
  - intros rid. apply sguar_bind; [|intros; apply sguar_ret]. unfold Recovery.
    apply sguar_bind; [|intros; apply sguar_ret]. by apply sguar_attempt, sguar_ServeMux.
Qed.

(** *** The middleware of the metrics *)
Definition bump (c : Collector) (vs : list string) (n : Z) (s : server) : server :=
  set_world (set_metrics (add_sample c vs n (w_metrics (sv_world s))) (sv_world s)) s.
Lemma server_ok_bump c vs n s0 s : server_ok s0 s → server_ok s0 (bump c vs n s).
Proof. done. Qed.

(** The labels of a request and its status. *)
Definition http_labels (routes : list route) (r : http_request) (status : Z) : list string :=
  [rq_Method r; route_label routes r; statusClass status].

Lemma HTTPMiddleware_run routes next r s x s' :
  HTTPMiddleware routes next r s = (x, s') →
  ∃ y s2, next (set_hijacker false r) (bump HTTPInflight [] 1 s) = (y, s2) ∧
    match y with
    | Err e => x = Err e ∧ s' = bump HTTPInflight [] (-1) s2
    | Ok rep =>
        let labels := http_labels routes r (rp_Status rep) in
        match WithLabelValues HTTPRequests labels, WithLabelValues HTTPDuration labels with
        | Ok _, Ok _ =>
            x = Ok rep ∧ s' = bump HTTPInflight [] (-1) (bump HTTPDuration labels 1 (bump HTTPRequests labels 1 s2))
        | Ok _, Err e => x = Err e ∧ s' = bump HTTPInflight [] (-1) (bump HTTPRequests labels 1 s2)
        | Err e, _ => x = Err e ∧ s' = bump HTTPInflight [] (-1) s2
        end
    end.
Proof.
  unfold HTTPMiddleware, mbind, eff_bind, attempt, on_world, inc, inc_with, of_result, sample. cbn [fst snd].
  destruct (next _ _) as [[rep|e] s2] eqn:E.
  - intros Hrun. exists (Ok rep), s2. split; [done|]. cbv zeta. revert Hrun. unfold http_labels.
    destruct (WithLabelValues HTTPRequests _) as [[]|e]; [|by intros [= <- <-]].
    destruct (WithLabelValues HTTPDuration _) as [[]|e]; by intros [= <- <-].
  - intros [= <- <-]. by exists (Err e), s2.
Qed.

(** [Logging] of [Recovery] always answers. *)
Lemma Logging_answers `{RD : Rand} (next : site_handler) r s : ∃ rep s', Logging (Recovery next) r s = (Ok rep, s').
Proof.
  unfold Logging, Recovery, mbind, eff_bind, attempt, on_world, rand_read.
  destruct (str_empty _); cbn; match goal with |- context [next ?r ?s] => destruct (next r s) as [[rep|e] s1] end; eauto.
Qed.

(** With the laws of the library, a request whose method and route are
    UTF-8 is counted and answered, any other one panics. *)
Lemma HTTPMiddleware_answers {PL : PrometheusLaws P} routes next r s x s' :
  ValidString (rq_Method r) = true → HTTPMiddleware routes next r s = (x, s') →
  ∃ y s2, next (set_hijacker false r) (bump HTTPInflight [] 1 s) = (y, s2) ∧
    match y with
    | Err e => x = Err e ∧ s' = bump HTTPInflight [] (-1) s2
    | Ok rep =>
        let labels := http_labels routes r (rp_Status rep) in
        if ValidString (route_label routes r)
        then x = Ok rep ∧ s' = bump HTTPInflight [] (-1) (bump HTTPDuration labels 1 (bump HTTPRequests labels 1 s2))
        else is_ok x = false ∧ s' = bump HTTPInflight [] (-1) s2
    end.
Proof.
  intros Hv (y & s2 & Hn & H)%HTTPMiddleware_run. exists y, s2. split; [exact Hn|]. destruct y as [rep|e]; [|done].
  assert (∀ c, length (cl_Labels c) = 3%nat →
    is_ok (WithLabelValues c (http_labels routes r (rp_Status rep))) = ValidString (route_label routes r)) as Hok.
  { intros c Hc. rewrite law_WithLabelValues, Hc. unfold http_labels. cbn [length forallb]. rewrite Hv.
    assert (ValidString (statusClass (rp_Status rep)) = true) as -> by (unfold statusClass; repeat case_match; reflexivity).
    rewrite bool_decide_true by done. by rewrite andb_true_r. }
  pose proof (Hok HTTPRequests eq_refl) as H1. pose proof (Hok HTTPDuration eq_refl) as H2. revert H H1 H2. cbv zeta.
  destruct (WithLabelValues HTTPRequests _), (WithLabelValues HTTPDuration _); simpl; intros H <-; try done.
  intros _. destruct H as [-> ->]. done.
Qed.

Lemma Chain_ok `{RD : Rand} met routes r s x s' :
  routes_ok routes → env R (sv_world s) → Chain met routes r s = (x, s') → server_ok s s'.
Proof.
  intros H Hw. unfold Chain. destruct met; [|intros Hl; by eapply sguar_Logging in Hl as [? _]].
  intros (y & s2 & Hl & Hs)%HTTPMiddleware_run. apply sguar_Logging in Hl as [H2 _]; [|done..].
  revert Hs. cbv zeta. destruct y; repeat case_match; intros [_ ->]; repeat apply server_ok_bump; exact H2.
Qed.
End site.
