(* ===== verification/Config.v ===== *)
(** * Configuration

    internal/config/config.go: the configuration record, the overrides
    from the environment, the defaults and the validation; and the choice
    pkg/logger.New makes.  The YAML reader is a library: what it gives is a
    parameter of [Load]. *)

From Stdlib Require Import Ascii.
From stdpp Require Import base strings list.
From S2P Require Import Prelude GoStrings JsonCodec JsonStruct Errors AuthService.

Local Open Scope Z_scope.

Record RateLimitConfig := mkRateLimits {
  rc_Login : Z;
  rc_Register : Z;
  rc_MessageSend : Z;
  rc_WSConnect : Z
}.
Record KafkaConfig := mkKafkaConfig {
  kc_Enabled : bool;
  kc_Brokers : string;
  kc_Topic : string;
  kc_ConsumerGroup : string
}.
Record WSConfig := mkWSConfig { wc_AllowedOrigins : list string; wc_TicketTTLSeconds : Z }.
Record ObservabilityConfig := mkObservability { ob_ServiceName : string; ob_Env : string; ob_LogFormat : string }.
Record Config := mkConfig {
  cf_Port : string;
  cf_DSN : string;
  cf_RedisAddr : string;
  cf_JWT : JWTConfig;
  cf_RateLimit : RateLimitConfig;
  cf_Kafka : KafkaConfig;
  cf_WS : WSConfig;
  cf_RunMigrations : bool;
  cf_Observability : ObservabilityConfig
}.
Definition zero_config : Config :=
  mkConfig "" "" "" (mkJWT "" 0 0) (mkRateLimits 0 0 0 0) (mkKafkaConfig false "" "" "")
           (mkWSConfig [] 0) false (mkObservability "" "" "").

(** ** applyEnvOverrides *)
Section env.
Variable Getenv : string → string.

Definition env_value (key : string) : string := TrimSpace (Getenv key).

(** [if s := TrimSpace(Getenv(key)); s != "" { x = s }] *)
Definition override (key old : string) : string :=
  let s := env_value key in if str_empty s then old else s.
(** The same, with [Atoi]; a text that is no integer is ignored. *)
Definition override_int (key : string) (old : Z) : Z :=
  let s := env_value key in if str_empty s then old else default old (Atoi s).
(** [strings.EqualFold(s, "true") || s == "1"] *)
Definition override_bool (key : string) (old : bool) : bool :=
  let s := env_value key in if str_empty s then old else EqualFold s "true" || String.eqb s "1".

Definition applyEnvOverrides (c : Config) : Config :=
  let j := cf_JWT c in let r := cf_RateLimit c in let k := cf_Kafka c in let o := cf_Observability c in
  mkConfig
    (override "HTTP_PORT" (cf_Port c))
    (override "POSTGRES_DSN" (cf_DSN c))
    (override "REDIS_ADDR" (cf_RedisAddr c))
    (mkJWT (override "JWT_SECRET" (jwt_Secret j))
           (override_int "JWT_ACCESS_TTL_SECONDS" (jwt_AccessTTLSeconds j))
           (override_int "JWT_REFRESH_TTL_SECONDS" (jwt_RefreshTTLSeconds j)))
    (mkRateLimits (override_int "RATE_LIMIT_LOGIN_PER_MINUTE" (rc_Login r))
                  (override_int "RATE_LIMIT_REGISTER_PER_MINUTE" (rc_Register r))
                  (override_int "RATE_LIMIT_MESSAGE_SEND_PER_MINUTE" (rc_MessageSend r))
                  (override_int "RATE_LIMIT_WS_CONNECT_PER_MINUTE" (rc_WSConnect r)))
    (mkKafkaConfig (override_bool "KAFKA_ENABLED" (kc_Enabled k))
                   (override "KAFKA_BROKERS" (kc_Brokers k))
                   (override "KAFKA_TOPIC" (kc_Topic k))
                   (override "KAFKA_CONSUMER_GROUP" (kc_ConsumerGroup k)))
    (mkWSConfig
       (wc_AllowedOrigins (cf_WS c)
        ++ (let s := env_value "WS_ALLOWED_ORIGINS" in
            if str_empty s then []
            else filter (λ t, str_empty t = false) (TrimSpace <$> Split s ","%char)))
       (wc_TicketTTLSeconds (cf_WS c)))
    (override_bool "RUN_MIGRATIONS_ON_STARTUP" (cf_RunMigrations c))
    (mkObservability (override "SERVICE_NAME" (ob_ServiceName o))
                     (override "APP_ENV" (ob_Env o))
                     (override "LOG_FORMAT" (ob_LogFormat o))).
End env.

(** ** Defaults *)
Definition positive_or (x default : Z) : Z := if x <=? 0 then default else x.
Definition text_or (x default : string) : string := if str_empty (TrimSpace x) then default else x.

Definition applyRateLimitDefaults (c : Config) : Config :=
  let r := cf_RateLimit c in
  mkConfig (cf_Port c) (cf_DSN c) (cf_RedisAddr c) (cf_JWT c)
    (mkRateLimits (positive_or (rc_Login r) 60) (positive_or (rc_Register r) 20)
                  (positive_or (rc_MessageSend r) 120) (positive_or (rc_WSConnect r) 30))
    (cf_Kafka c) (cf_WS c) (cf_RunMigrations c) (cf_Observability c).

Definition applyKafkaDefaults (c : Config) : Config :=
  let k := cf_Kafka c in
  mkConfig (cf_Port c) (cf_DSN c) (cf_RedisAddr c) (cf_JWT c) (cf_RateLimit c)
    (mkKafkaConfig (kc_Enabled k) (kc_Brokers k) (text_or (kc_Topic k) "goflow.domain.events")
                   (text_or (kc_ConsumerGroup k) "goflow-ws-fanout"))
    (mkWSConfig (wc_AllowedOrigins (cf_WS c)) (positive_or (wc_TicketTTLSeconds (cf_WS c)) 120))
    (cf_RunMigrations c) (cf_Observability c).

Definition applyObservabilityDefaults (c : Config) : Config :=
  let o := cf_Observability c in
  mkConfig (cf_Port c) (cf_DSN c) (cf_RedisAddr c) (cf_JWT c) (cf_RateLimit c) (cf_Kafka c) (cf_WS c)
    (cf_RunMigrations c)
    (mkObservability (text_or (ob_ServiceName o) "goflow-backend") (text_or (ob_Env o) "development")
                     (text_or (ob_LogFormat o) "text")).

(** ** Validate: the first check that fails *)
Fixpoint first_failing (checks : list (bool * string)) : result error () :=
  match checks with
  | [] => Ok ()
  | (bad, msg) :: checks => if bad then Err (ErrPlain msg) else first_failing checks
  end.

Definition Validate (c : Config) : result error () :=
  let j := cf_JWT c in let r := cf_RateLimit c in
  first_failing
    [(str_empty (TrimSpace (cf_Port c)), "config: app.port is required (yaml or HTTP_PORT)");
     (str_empty (TrimSpace (cf_DSN c)), "config: postgres.dsn is required (yaml or POSTGRES_DSN)");
     (str_empty (TrimSpace (cf_RedisAddr c)), "config: redis.addr is required (yaml or REDIS_ADDR)");
     (str_empty (TrimSpace (jwt_Secret j)), "config: jwt.secret is required (yaml or JWT_SECRET)");
     ((String.length (TrimSpace (jwt_Secret j)) <? 16)%nat, "config: jwt.secret must be at least 16 characters");
     (jwt_AccessTTLSeconds j <=? 0, "config: jwt.access_ttl_seconds must be positive (yaml or JWT_ACCESS_TTL_SECONDS)");
     (jwt_RefreshTTLSeconds j <=? 0, "config: jwt.refresh_ttl_seconds must be positive (yaml or JWT_REFRESH_TTL_SECONDS)");
     (jwt_RefreshTTLSeconds j <? jwt_AccessTTLSeconds j, "config: jwt.refresh_ttl_seconds must be >= access_ttl_seconds");
     (rc_Login r <? 0, "config: rate_limit.login_per_minute must be >= 0");
     (rc_Register r <? 0, "config: rate_limit.register_per_minute must be >= 0");
     (rc_MessageSend r <? 0, "config: rate_limit.message_send_per_minute must be >= 0");
     (rc_WSConnect r <? 0, "config: rate_limit.ws_connect_per_minute must be >= 0");
     (kc_Enabled (cf_Kafka c) && str_empty (TrimSpace (kc_Brokers (cf_Kafka c))),
       "config: kafka.brokers is required when kafka.enabled is true")].

(** ** Load

    [ReadFile path]: the file's bytes, [None] when it does not exist; and
    yaml.Unmarshal into an empty configuration. *)
Definition defaultConfigPath : string := "configs/local.yaml".

Definition Load (Getenv : string → string) (ReadFile : string → result error (option string))
    (Unmarshal : string → result error Config) : result error Config :=
  let path := TrimSpace (Getenv "CONFIG_PATH") in
  let path := if str_empty path then defaultConfigPath else path in
  let parsed :=
    match ReadFile path with
    | Err e => Err (ErrWrapf ("read config file " +:+ String quote (path +:+ String quote "")) e)
    | Ok None => Ok zero_config
    | Ok (Some data) => match Unmarshal data with Ok c => Ok c | Err e => Err (ErrWrapf "parse yaml" e) end
    end in
  match parsed with
  | Err e => Err e
  | Ok cfg =>
      let cfg := applyEnvOverrides Getenv cfg in
      let cfg := applyObservabilityDefaults (applyKafkaDefaults (applyRateLimitDefaults cfg)) in
      match Validate cfg with Ok _ => Ok cfg | Err e => Err e end
  end.

(** ** pkg/logger.New: the handler (JSON or text) and the service and env
    attributes of every line, for a configuration that may be missing. *)
Record Logger := mkLogger { lg_JSON : bool; lg_service : string; lg_env : string }.
Definition trimmed_or (x default : string) : string :=
  if str_empty (TrimSpace x) then default else TrimSpace x.
Definition NewLogger (cfg : option Config) : Logger :=
  let '(svc, env, format) :=
    match cfg with
    | None => ("goflow-backend", "development", "text")
    | Some c => let o := cf_Observability c in
                (trimmed_or (ob_ServiceName o) "goflow-backend", trimmed_or (ob_Env o) "development",
                 trimmed_or (ob_LogFormat o) "text")
    end in
  mkLogger (bool_decide (fold_name format = fold_name "json")) svc env.
