(* ===== verification/Wiring.v ===== *)
(** * The wiring

    app/container.go and app/app.go: the container, and what New builds of
    the parts of it that are not nil.  Main calls New; the state machine of
    Server runs what it built. *)

From Stdlib Require Import Ascii.
From stdpp Require Import base strings gmap list.
From S2P Require Import Prelude GoStrings Errors Domain Hub Metrics World Repository PgMessages PgChats PgUsers Credentials AuthService Redis Broadcaster Kafka Relay WsService RateLimit Http Handlers Router Config.

Definition splitBrokers (s : string) : list string :=
  filter (λ t, str_empty t = false) (TrimSpace <$> Split s ","%char).

(** app.kafkaWSFanoutConsumerGroup *)
Definition kafkaWSFanoutConsumerGroup {G : UuidGen} (base : string) : M string :=
  let base := TrimSpace base in
  let base := if str_empty base then "goflow-ws-fanout" else base in
  u ← NewString;
  mret (base +:+ "-" +:+ u).

Definition is_set {A} (o : option A) : bool := match o with Some _ => true | None => false end.

(** ** The container

    What may be nil is a bool or an option: the repositories of PostgreSQL
    exist with the pool, the ones of Redis with the client. *)
Record Container := mkContainer {
  ct_Config : option Config;
  ct_Logger : bool;
  ct_Metrics : bool;
  ct_Pool : bool;
  ct_Redis : bool;
  ct_Users : bool;
  ct_Chats : bool;
  ct_Messages : bool;
  ct_Sessions : bool;
  ct_MessagesWriter : option MessageWriter;
  ct_Outbox : bool;
  ct_Presence : bool;
  ct_Typing : bool;
  ct_PubSub : bool;
  ct_WSTicket : bool
}.

(** The container of NewContainer, by whether there is a client. *)
Definition container_of {G : UuidGen} (cfg : Config) (log pool redis : bool) : Container :=
  mkContainer (Some cfg) log true pool redis pool pool pool pool
    (if pool then Some (pg_message_writer pool true) else None) pool redis redis redis redis.

(** ** New

    The embedded documents and the exposition of the metrics (promhttp)
    are parameters. *)
Section wiring.
Context {P : Prometheus} {G : UuidGen} {B : Bcrypt} {J : Jwt} {RN : Rand} {RS : RedisServer} {K : KafkaBroker}.
Context {L : RateLimiter} {U : Upgrader}.
Variables (openAPISpec swaggerHTML : string) (scrape : samples → reply).

(** What a scrape sees: the samples, and the gauge the hub keeps. *)
Definition exposed (w : World) : samples := <[(cl_Name WSActive, []) := h_active (w_hub w)]> (w_metrics w).
(** [Handler] of a metrics that may be nil. *)
Definition metrics_handler (m : bool) : http_handler := λ _ w,
  if m then (Ok (scrape (exposed w)), w) else (Ok (mkReply 503 [] BEmpty), w).

Section parts.
Variables (c : Container) (cfg : Config).
Definition new_limits : gmap string IPRateLimiter :=
  let rl := cf_RateLimit cfg in
  list_to_map (omap (λ '(name, rpm), (λ l, (name, l)) <$> NewIPRateLimiter name rpm 0)
    [("register", rc_Register rl); ("login", rc_Login rl); ("message_send", rc_MessageSend rl);
     ("ws_connect", rc_WSConnect rl)]).

Definition new_metrics : bool := ct_Metrics c.
Definition new_authSvc : bool := ct_Users c && ct_Sessions c.
Definition new_userSvc : bool := ct_Users c.
Definition new_chatSvc : bool := ct_Users c && ct_Chats c.
(** msgSvc, by its writer. *)
Definition new_msgSvc : option MessageWriter :=
  if ct_Messages c && ct_Chats c then ct_MessagesWriter c else None.
Definition new_hub : bool := is_set new_msgSvc && ct_Chats c.

Definition new_pub : option bool := if ct_PubSub c then Some true else None.
Definition new_presenceHook : option (option bool) := if ct_Presence c then Some (Some true) else None.
Definition new_typing : option bool := if ct_Typing c then Some true else None.
Definition new_handle : ID → string → M (list string) :=
  HandleEvent new_msgSvc new_metrics new_presenceHook new_typing true new_pub.
Definition new_wsSvc : option (ID → string → M (list string)) := if new_hub then Some new_handle else None.

Definition new_origins : list string := NewHandler_allowed (wc_AllowedOrigins (cf_WS cfg)).
Definition new_ticket_ttl : Z := NewWSTicketService (duration_seconds (wc_TicketTTLSeconds (cf_WS cfg))).

Definition new_wsHTTP : option site_handler :=
  if new_hub && ct_WSTicket c
  then Some (ws_connect (Some true) new_presenceHook new_metrics new_origins)
  else None.
Definition new_wsTicketHTTP : option site_handler :=
  if new_hub && ct_WSTicket c
  then
    let secret := TrimSpace (jwt_Secret (cf_JWT cfg)) in
    Some (chainLimit "ws_connect"
            (world_handler (RequireBearerAuth secret (WSTicket_Issue (Some true) new_ticket_ttl))))
  else None.

Definition new_workers : bool := new_hub && ct_Outbox c.
Definition new_brokers : list string := splitBrokers (kc_Brokers (cf_Kafka cfg)).
Definition new_topic : string := TrimSpace (kc_Topic (cf_Kafka cfg)).
Definition new_kafkaProd : bool := new_workers && kc_Enabled (cf_Kafka cfg) && NewProducer new_brokers new_topic.
(** [relay.Kafka] is an interface: set, it holds the producer, nil or not. *)
Definition new_relay : option OutboxRelay :=
  if new_workers
  then Some (mkRelay (if kc_Enabled (cf_Kafka cfg) then Some (NewProducer new_brokers new_topic) else None)
                     true (kc_Enabled (cf_Kafka cfg)) new_metrics)
  else None.

Definition new_deps : Deps :=
  mkDeps (cf_JWT cfg) (if new_metrics then Some (metrics_handler new_metrics) else None)
    new_authSvc new_userSvc new_chatSvc (Some <$> new_msgSvc) new_wsHTTP new_wsTicketHTTP.
Definition new_routes : list route := Register openAPISpec swaggerHTML new_deps.
Definition new_handler : site_handler := Chain new_metrics new_routes.
End parts.
End wiring.
