(* ===== verification/Server.v ===== *)
(** * The running server

    internal/app: the server New builds (Wiring.v) as a state machine.  Its
    actions are those of the
    goroutines that share the world: HTTP requests, WebSocket connections
    with their read and write loops, the outbox relay, the Kafka consumer
    and the Redis subscription. *)

From Stdlib Require Import Ascii.
From stdpp Require Import base strings gmap list.
From S2P Require Import Prelude GoStrings Json Errors GoTime Domain Hub Metrics World Repository PgMessages PgChats PgUsers Credentials AuthService Redis Broadcaster Kafka Relay WsService RateLimit Http Handlers Router Config Wiring.

Section server.
Context {P : Prometheus} {G : UuidGen} {B : Bcrypt} {J : Jwt} {RN : Rand} {RS : RedisServer} {K : KafkaBroker}.
Context {L : RateLimiter} {U : Upgrader}.
Variable cfg : Config.

(** The container NewContainer makes with a pool, as main has it, and the
    parts New builds of it (Wiring.v).  The client of Redis is made when
    the address is set. *)
Definition app_redis : bool := negb (str_empty (TrimSpace (cf_RedisAddr cfg))).
Definition app_container : Container := container_of cfg true true app_redis.

Definition app_pub : option bool := new_pub app_container.
Definition app_presence : option (option bool) := new_presenceHook app_container.
Definition app_typing : option bool := new_typing app_container.
Definition app_tickets : option bool := if ct_WSTicket app_container then Some true else None.
Definition app_origins : list string := new_origins cfg.
Definition app_ticket_ttl : Z := new_ticket_ttl cfg.
Definition app_relay : option OutboxRelay := new_relay app_container cfg.
Definition app_deliver : ID → string → M () := DeliverEnvelopeBytes true.
Definition app_handle : ID → string → M (list string) := new_handle app_container.
Definition app_limits : gmap string IPRateLimiter := new_limits cfg.

(** The metrics and the writer of that container, whatever [cfg] is. *)
Definition app_metrics : bool := true.
Definition app_writer : option MessageWriter := Some (pg_message_writer true app_metrics).

(** ** The HTTP server *)
Variables (openAPISpec swaggerHTML : string) (scrape : samples → reply).

Definition app_deps : Deps := new_deps scrape app_container cfg.
Definition app_routes : list route := new_routes openAPISpec swaggerHTML scrape app_container cfg.
Definition app_site : site_handler := new_handler openAPISpec swaggerHTML scrape app_container cfg.

(** What these come to. *)
Lemma app_deps_eq :
  app_deps = mkDeps (cf_JWT cfg) (Some (metrics_handler scrape true)) true true true (Some app_writer)
    (if app_redis then Some (ws_connect (Some true) app_presence app_metrics app_origins) else None)
    (if app_redis
     then Some (chainLimit "ws_connect" (world_handler (RequireBearerAuth (TrimSpace (jwt_Secret (cf_JWT cfg)))
                                                          (WSTicket_Issue (Some true) app_ticket_ttl))))
     else None).
Proof.
  unfold app_deps, new_deps, new_wsHTTP, new_wsTicketHTTP, app_presence, app_container. cbn. by destruct app_redis.
Qed.
Lemma app_routes_eq : app_routes = Register openAPISpec swaggerHTML app_deps.
Proof. done. Qed.
Lemma app_site_eq : app_site = Chain app_metrics app_routes.
Proof. done. Qed.
Lemma app_handle_eq : app_handle = HandleEvent app_writer app_metrics app_presence app_typing true app_pub.
Proof. done. Qed.
Lemma app_relay_eq :
  let k := cf_Kafka cfg in
  app_relay = Some (mkRelay (if kc_Enabled k then Some (NewProducer (splitBrokers (kc_Brokers k)) (TrimSpace (kc_Topic k))) else None)
                            true (kc_Enabled k) app_metrics).
Proof. done. Qed.

(** ** The state machine *)
Definition accept (origin ticket : string) (upgraded : bool) : M ws_outcome :=
  ServeHTTP app_tickets app_presence app_metrics app_origins origin ticket upgraded.

(** [DoConnect] is the handler of GET /ws/connect behind a ResponseWriter
    that can be hijacked, which the chain of [DoHTTP] does not give it. *)
Inductive action : Type :=
| DoHTTP (r : http_request)
| DoConnect (origin ticket : string) (upgraded : bool)
| DoFrame (p : nat) (message : string)
| DoEnd (p : nat)
| DoWrite (p : nat)
| DoTick
| DoKafka (key value : string)
| DoRedis
| DoShutdown.

Definition on_site_world {A} (m : M A) (s : server) : server := set_world (m (sv_world s)).2 s.
Definition with_open (p : nat) (f : ID → M ()) (s : server) : server :=
  match sv_open s !! p with Some uid => on_site_world (f uid) s | None => s end.
Definition close_connection (p : nat) (s : server) : server :=
  mkServer (delete p (sv_open s)) (sv_limits s) (sv_world s).

(** The end of a connection: its read fails, its read loop returns or
    panics; the deferred calls run. *)
Definition end_connection (p : nat) (s : server) : server :=
  close_connection p (with_open p (λ uid, end_pump (disconnected app_presence) p uid) s).
(** One turn of the read loop. *)
Definition read_turn (p : nat) (message : string) (s : server) : server :=
  match sv_open s !! p with
  | None => s
  | Some uid =>
      match read_frame app_handle app_metrics p uid message (sv_world s) with
      | (Ok true, w') => set_world w' s
      | (_, w') => end_connection p (set_world w' s)
      end
  end.

Definition act (a : action) (s : server) : server :=
  match a with
  | DoHTTP r => (app_site r s).2
  | DoConnect origin ticket upgraded =>
      match accept origin ticket upgraded (sv_world s) with
      | (Ok (Opened uid p), w') => open_connection p uid (set_world w' s)
      | (_, w') => set_world w' s
      end
  | DoFrame p message => read_turn p message s
  | DoEnd p => end_connection p s
  | DoWrite p => on_site_world (on_hub (on_client write_next p)) s
  | DoTick => match app_relay with Some relay => on_site_world (tick app_deliver relay) s | None => s end
  | DoKafka key value => on_site_world (consume app_deliver app_metrics [Some (key, value)]) s
  | DoRedis => on_site_world (StartRedisRelay true app_pub) s
  | DoShutdown => on_site_world (on_hub CloseAll) s
  end.

Definition run_server (acts : list action) (s : server) : server := foldl (λ s a, act a s) s acts.

(** The server New starts in a world. *)
Definition start (w : World) : server := mkServer ∅ app_limits w.
End server.
