(* ===== verification/ConfigTheorems.v ===== *)
(** * Theorems on the configuration

    What a configuration that was loaded promises to the parts built from
    it, and two of its surprises. *)

From Stdlib Require Import Ascii.
From stdpp Require Import base strings gmap list.
From S2P Require Import Prelude GoStrings Errors AuthService Credentials Redis RateLimit RateLimitTheorems Kafka Relay Config Wiring Server.

Local Open Scope Z_scope.

Lemma first_failing_Ok checks u : first_failing checks = Ok u → Forall (λ c, c.1 = false) checks.
Proof.
  induction checks as [|[[] msg] checks IH]; simpl; intros H; [constructor|done|].
  constructor; [done|]. by apply IH.
Qed.

Lemma positive_or_pos x d : 0 < d → 0 < positive_or x d.
Proof. unfold positive_or. destruct (Z.leb_spec x 0); lia. Qed.

Lemma text_or_nonblank x d : TrimSpace d ≠ "" → TrimSpace (text_or x d) ≠ "".
Proof. unfold text_or. intros H. destruct (String.eqb_spec (TrimSpace x) ""); done. Qed.

Definition defaults (c : Config) : Config :=
  applyObservabilityDefaults (applyKafkaDefaults (applyRateLimitDefaults c)).

Lemma Load_inv env rd um cfg :
  Load env rd um = Ok cfg → ∃ c, cfg = defaults (applyEnvOverrides env c) ∧ Validate cfg = Ok ().
Proof.
  unfold Load. cbv zeta. intros H.
  destruct (match rd _ with Ok _ => _ | Err _ => _ end) as [c|e]; [|done]. exists c.
  unfold defaults. destruct (Validate _) as [[]|e] eqn:E; [|done]. injection H as <-. done.
Qed.

(** What the validation checks. *)
Lemma Validate_Ok c :
  Validate c = Ok () →
  (TrimSpace (cf_Port c) ≠ "" ∧ TrimSpace (cf_DSN c) ≠ "" ∧ TrimSpace (cf_RedisAddr c) ≠ ""
   ∧ (16 ≤ String.length (TrimSpace (jwt_Secret (cf_JWT c))))%nat)
  ∧ 0 < jwt_AccessTTLSeconds (cf_JWT c) ≤ jwt_RefreshTTLSeconds (cf_JWT c)
  ∧ (kc_Enabled (cf_Kafka c) = true → TrimSpace (kc_Brokers (cf_Kafka c)) ≠ "").
Proof.
  intros Hv%first_failing_Ok.
  repeat match goal with H : Forall _ (_ :: _) |- _ => apply Forall_cons in H as [? H] end. simpl in *.
  repeat match goal with H : str_empty _ = false |- _ => apply String.eqb_neq in H end.
  repeat match goal with H : (_ <=? _) = false |- _ => apply Z.leb_gt in H end.
  repeat match goal with H : (_ <? _) = false |- _ => apply Z.ltb_ge in H end.
  match goal with H : (_ <? _)%nat = false |- _ => apply Nat.ltb_ge in H end.
  match goal with H : _ && _ = false |- _ => apply andb_false_iff in H; rename H into Hkafka end.
  split_and!; try done.
  intros He. destruct Hkafka as [Hk|Hk]; [congruence|]. by apply String.eqb_neq in Hk.
Qed.

(** The limiter of a route with a positive rate. *)
Definition limited {L : RateLimiter} (name : string) (rpm : Z) (cfg : Config) : Prop :=
  ∃ l, app_limits cfg !! name = Some l ∧ NewIPRateLimiter name rpm 0 = Some l ∧ 1 ≤ rl_burst l ≤ 60.

Lemma NewIPRateLimiter_pos {L : RateLimiter} name rpm :
  0 < rpm → ∃ l, NewIPRateLimiter name rpm 0 = Some l ∧ 1 ≤ rl_burst l ≤ 60.
Proof.
  intros H. unfold NewIPRateLimiter. destruct (Z.leb_spec rpm 0); [lia|]. eexists. split; [done|].
  apply default_burst_bounds.
Qed.

Lemma app_limits_all {L : RateLimiter} cfg :
  let r := cf_RateLimit cfg in
  0 < rc_Register r → 0 < rc_Login r → 0 < rc_MessageSend r → 0 < rc_WSConnect r →
  limited "register" (rc_Register r) cfg ∧ limited "login" (rc_Login r) cfg
  ∧ limited "message_send" (rc_MessageSend r) cfg ∧ limited "ws_connect" (rc_WSConnect r) cfg.
Proof.
  intros r H1 H2 H3 H4.
  destruct (NewIPRateLimiter_pos "register" _ H1) as (l1 & E1 & ?), (NewIPRateLimiter_pos "login" _ H2) as (l2 & E2 & ?),
    (NewIPRateLimiter_pos "message_send" _ H3) as (l3 & E3 & ?), (NewIPRateLimiter_pos "ws_connect" _ H4) as (l4 & E4 & ?).
  assert (app_limits cfg = <["register" := l1]> (<["login" := l2]> (<["message_send" := l3]> (<["ws_connect" := l4]> ∅)))) as Hm.
  { unfold app_limits, new_limits. fold r. cbn [omap list_omap]. by rewrite E1, E2, E3, E4. }
  split_and!; eexists; rewrite Hm; (split; [|split; [eassumption|done]]); by simplify_map_eq.
Qed.

(** A configuration the parts can run on: the addresses and the secret are
    there, the secret has 16 bytes, the lifetimes are positive and ordered;
    every limited route has its limiter, with a burst of 1 to 60; Redis and
    with it the WebSocket parts exist; tickets have a positive lifetime;
    Kafka has a topic and a group, and brokers when it is enabled. *)
Definition sound_config {L : RateLimiter} (cfg : Config) : Prop :=
  let j := cf_JWT cfg in let r := cf_RateLimit cfg in let k := cf_Kafka cfg in
  (TrimSpace (cf_Port cfg) ≠ "" ∧ TrimSpace (cf_DSN cfg) ≠ "" ∧ (16 ≤ String.length (TrimSpace (jwt_Secret j)))%nat)
  ∧ 0 < jwt_AccessTTLSeconds j ≤ jwt_RefreshTTLSeconds j
  ∧ (limited "register" (rc_Register r) cfg ∧ limited "login" (rc_Login r) cfg
     ∧ limited "message_send" (rc_MessageSend r) cfg ∧ limited "ws_connect" (rc_WSConnect r) cfg)
  ∧ app_redis cfg = true ∧ 0 < app_ticket_ttl cfg ∧ 0 < wc_TicketTTLSeconds (cf_WS cfg)
  ∧ TrimSpace (kc_Topic k) ≠ "" ∧ TrimSpace (kc_ConsumerGroup k) ≠ ""
  ∧ (kc_Enabled k = true → TrimSpace (kc_Brokers k) ≠ "").

Theorem load_correct {L : RateLimiter} Getenv ReadFile Unmarshal cfg :
  Load Getenv ReadFile Unmarshal = Ok cfg → sound_config cfg.
Proof.
  intros (c & Hd & Hv)%Load_inv. unfold sound_config. set (j := cf_JWT cfg). set (r := cf_RateLimit cfg). set (k := cf_Kafka cfg).
  destruct (Validate_Ok _ Hv) as ((Hport & Hdsn & Hredis & Hsecret) & Httl & Hbrokers).
  split_and!; try done.
  all: try (apply (app_limits_all cfg); subst cfg; apply positive_or_pos; lia).
  - apply Httl.
  - apply Httl.
  - unfold app_redis. by rewrite (proj2 (String.eqb_neq _ _)).
  - unfold app_ticket_ttl, new_ticket_ttl, NewWSTicketService, ticket_ttl. destruct (Z.leb_spec (duration_seconds (wc_TicketTTLSeconds (cf_WS cfg))) 0); [done|lia].
  - subst cfg. apply positive_or_pos. lia.
  - unfold k. subst cfg. by apply text_or_nonblank.
  - unfold k. subst cfg. by apply text_or_nonblank.
Qed.

(** An environment that sets what is required, and [WS_ALLOWED_ORIGINS]. *)
Definition demo_env (key : string) : string :=
  if String.eqb key "HTTP_PORT" then " 8080 "
  else if String.eqb key "POSTGRES_DSN" then "postgres://db"
  else if String.eqb key "REDIS_ADDR" then "redis:6379"
  else if String.eqb key "JWT_SECRET" then "0123456789abcdef"
  else if String.eqb key "JWT_ACCESS_TTL_SECONDS" then "900"
  else if String.eqb key "JWT_REFRESH_TTL_SECONDS" then "86400"
  else if String.eqb key "RATE_LIMIT_LOGIN_PER_MINUTE" then "-5"
  else if String.eqb key "KAFKA_ENABLED" then "TRUE"
  else if String.eqb key "KAFKA_BROKERS" then " , "
  else if String.eqb key "WS_ALLOWED_ORIGINS" then "https://b.example"
  else "".
Definition demo_file : string → result error (option string) := λ _, Ok (Some "ws").
Definition demo_yaml : string → result error Config := λ _,
  Ok (mkConfig "" "" "" (mkJWT "" 0 0) (mkRateLimits 0 0 0 0) (mkKafkaConfig false "" "" "")
        (mkWSConfig ["https://a.example"] 0) false (mkObservability "" "" "")).
Definition demo_load : result error Config := Load demo_env demo_file demo_yaml.

Lemma load_correct_witness :
  is_ok demo_load = true ∧ ∀ cfg, demo_load = Ok cfg → (16 ≤ String.length (TrimSpace (jwt_Secret (cf_JWT cfg))))%nat.
Proof.
  split; [vm_compute; reflexivity|]. intros cfg H.
  apply (load_correct (L := toy_limiter) demo_env demo_file demo_yaml cfg H).
Defined.

(** A list of brokers with no broker in it passes the validation, and
    gives a producer that drops events. *)
Example no_broker_accepted :
  match demo_load with
  | Ok cfg => kc_Enabled (cf_Kafka cfg) = true ∧ splitBrokers (kc_Brokers (cf_Kafka cfg)) = []
              ∧ NewProducer (splitBrokers (kc_Brokers (cf_Kafka cfg))) (TrimSpace (kc_Topic (cf_Kafka cfg))) = false
  | Err _ => False
  end.
Proof. vm_compute. auto. Qed.

(** The environment adds to the origins of the file, where every other
    variable overrides its field. *)
Example origins_appended :
  match demo_load with
  | Ok cfg => wc_AllowedOrigins (cf_WS cfg) = ["https://a.example"; "https://b.example"]
              ∧ rc_Login (cf_RateLimit cfg) = 60
  | Err _ => False
  end.
Proof. vm_compute. auto. Qed.
