(* ===== verification/Migration.v ===== *)
(** * Migrations

    internal/migration/runner.go: the SQL files embedded in the package are
    applied in lexical order, once each.  What a file does to the schema is
    PostgreSQL's: it is a parameter. *)

From stdpp Require Import base strings gmap list sorting.
From S2P Require Import Prelude GoStrings Utf8 Errors World.

Section runner.
Context {Schema : Type} (exec_sql : string → Schema → result error Schema).

(** The table schema_migrations, once it exists, and the rest of the
    database; and what happens to the statements to come. *)
Record migration_db := mkMigDB { md_versions : option (gset string); md_schema : Schema }.
Record runner_state := mkRunner { rs_db : migration_db; rs_faults : list fault }.
Abbreviation run A := (eff runner_state error A).

Definition next_fault (s : runner_state) : fault * list fault :=
  match rs_faults s with [] => (NoFault, []) | f :: fs => (f, fs) end.

(** A statement: its answer and the database after it.  It fails before or
    after its effect, or has it and answers. *)
Definition statement {A} (f : migration_db → result error A * migration_db) : run A := λ s,
  let '(e, fs) := next_fault s in
  match e with
  | NoFault => let '(r, d) := f (rs_db s) in (r, mkRunner d fs)
  | FailBefore m => (Err (ErrPlain m), mkRunner (rs_db s) fs)
  | FailAfter m => (Err (ErrPlain m), mkRunner (f (rs_db s)).2 fs)
  end.

(** A statement of a transaction: it works on the copy [d], which a commit
    installs and a rollback drops. *)
Definition tx_statement (f : migration_db → result error migration_db) (d : migration_db) : run migration_db :=
  statement (λ now, (f d, now)).
Definition commit (d : migration_db) : run () := statement (λ _, (Ok (), d)).

(** [fmt.Errorf("migration: ...: %w", err)] *)
Definition wrapped {A} (what : string) (m : run A) : run A := map_err (ErrWrapf ("migration: " +:+ what)) m.

(** CREATE TABLE IF NOT EXISTS schema_migrations *)
Definition bootstrap (d : migration_db) : result error () * migration_db :=
  (Ok (), mkMigDB (Some (default ∅ (md_versions d))) (md_schema d)).

(** SELECT 1 FROM schema_migrations WHERE version = $1 *)
Definition undefined_table : error := PgError "42P01" "ERROR: relation schema_migrations does not exist (SQLSTATE 42P01)".
Definition select_version (name : string) (d : migration_db) : result error () * migration_db :=
  (match md_versions d with
   | None => Err undefined_table
   | Some vs => if bool_decide (name ∈ vs) then Ok () else Err ErrNoRows
   end, d).

(** INSERT INTO schema_migrations (version) VALUES ($1) *)
Definition insert_version (name : string) (d : migration_db) : result error migration_db :=
  match md_versions d with
  | None => Err undefined_table
  | Some vs =>
      if bool_decide (name ∈ vs) then Err (unique_violation "schema_migrations_pkey")
      else Ok (mkMigDB (Some ({[name]} ∪ vs)) (md_schema d))
  end.

Definition exec_body (body : string) (d : migration_db) : result error migration_db :=
  match exec_sql body (md_schema d) with
  | Ok s => Ok (mkMigDB (md_versions d) s)
  | Err e => Err e
  end.

(** ** The embedded files *)
Record dir_entry := mkEntryF { de_Name : string; de_IsDir : bool; de_Body : string }.
Variable SQL : list dir_entry.

Definition sql_names : list string :=
  merge_sort String.le
    (de_Name <$> filter (λ e, de_IsDir e = false ∧ HasSuffix (ToLower (de_Name e)) ".sql" = true) SQL).

Definition ReadFile (name : string) : result error string :=
  match head (filter (λ e, de_Name e = name) SQL) with
  | Some e => Ok (de_Body e)
  | None => Err (ErrPlain ("open " +:+ name +:+ ": file does not exist"))
  end.

(** ** Up *)

(** One file: applied and stamped in one transaction. *)
Definition apply_file (name : string) : run () :=
  body ← wrapped ("read " +:+ name) (of_result (ReadFile name));
  d ← wrapped ("begin " +:+ name) (statement (λ d, (Ok d, d)));
  d ← wrapped ("exec " +:+ name) (tx_statement (exec_body body) d);
  d ← wrapped ("stamp " +:+ name) (tx_statement (insert_version name) d);
  wrapped ("commit " +:+ name) (commit d).

Fixpoint apply_files (names : list string) : run () :=
  match names with
  | [] => mret ()
  | name :: names =>
      r ← attempt (statement (select_version name));
      match r with
      | Ok _ => apply_files names
      | Err e =>
          if is_no_rows e then apply_file name;; apply_files names
          else throw (ErrWrapf ("migration: check " +:+ name) e)
      end
  end.

Definition Up (pool : bool) : run () :=
  fail_when (negb pool) (ErrPlain "migration: nil pool");;
  wrapped "bootstrap" (statement bootstrap);;
  apply_files sql_names.
End runner.
