(* ===== verification/Main.v ===== *)
(** * The process

    cmd/app/main.go with repository/postgres/pool.go, app/container.go and
    app/app.go: what is built of what is there, what is started and in
    which order, and how it ends.
    The libraries' answers (the pool, the ping of Redis, the end of the
    HTTP server) are parameters. *)

From stdpp Require Import base strings gmap list.
From S2P Require Import Prelude GoStrings Errors Domain Hub Metrics World Repository PgMessages PgChats PgUsers Credentials AuthService Redis Broadcaster Kafka Relay WsService RateLimit Http Handlers Router Config Wiring Server Migration.

(** [http.ErrServerClosed], and what the goroutine of Run sends when
    ListenAndServe has returned [e]. *)
Definition ErrServerClosed : string := "http: Server closed".
Fixpoint is_server_closed (e : error) : bool :=
  match e with
  | ErrPlain msg => String.eqb msg ErrServerClosed
  | ErrWrapf _ cause => is_server_closed cause
  | EApp (AppError _ _ _ (Some cause)) => is_server_closed cause
  | _ => false
  end.
Definition serve_answer (e : error) : result error () := if is_server_closed e then Ok () else Err e.

Section main.
Context {P : Prometheus} {G : UuidGen} {B : Bcrypt} {J : Jwt} {RN : Rand} {RS : RedisServer} {K : KafkaBroker}.
Context {L : RateLimiter} {U : Upgrader}.
Variables (openAPISpec swaggerHTML : string) (scrape : samples → reply).

(** The state of the process: the database the migrations run on, what is
    open, and the server with its world. *)
Context {Schema : Type} (exec_sql : string → Schema → result error Schema) (SQL : list dir_entry).
Record process := mkProcess {
  pr_runner : runner_state (Schema := Schema);
  pr_pool : bool;      (* the connection pool is open *)
  pr_redis : bool;     (* the Redis client is open *)
  pr_writer : bool;    (* the Kafka writer is open *)
  pr_serving : bool;   (* ListenAndServe was called *)
  pr_server : server
}.
Definition set_runner r (p : process) : process :=
  mkProcess r (pr_pool p) (pr_redis p) (pr_writer p) (pr_serving p) (pr_server p).
Definition set_pool b (p : process) : process :=
  mkProcess (pr_runner p) b (pr_redis p) (pr_writer p) (pr_serving p) (pr_server p).
Definition set_client b (p : process) : process :=
  mkProcess (pr_runner p) (pr_pool p) b (pr_writer p) (pr_serving p) (pr_server p).
Definition set_writer b (p : process) : process :=
  mkProcess (pr_runner p) (pr_pool p) (pr_redis p) b (pr_serving p) (pr_server p).
Definition set_serving (p : process) : process :=
  mkProcess (pr_runner p) (pr_pool p) (pr_redis p) (pr_writer p) true (pr_server p).
Definition on_server (f : server → server) (p : process) : process :=
  mkProcess (pr_runner p) (pr_pool p) (pr_redis p) (pr_writer p) (pr_serving p) (f (pr_server p)).
Abbreviation proc A := (eff process error A).

(** ** postgres.NewPool: pgxpool's ParseConfig and NewWithConfig *)
Context {PoolConfig : Type} (ParseConfig : string → result error PoolConfig).
Variable NewWithConfig : PoolConfig → result error ().

Definition NewPool (dsn : string) : proc () :=
  cfg ← of_result (ParseConfig dsn);
  of_result (NewWithConfig cfg);;
  modify_state (set_pool true).

(** ** The container *)
Variable ping : string → result error ().   (* what the server at an address answers *)

Definition NewContainer (cfg : Config) (log pool : bool) : proc Container :=
  _ ← of_result Metrics.New;
  let c := container_of cfg log pool in
  let addr := TrimSpace (cf_RedisAddr cfg) in
  if str_empty addr then mret (c false)
  else
    map_err (ErrWrapf "redis ping") (of_result (ping addr));;
    modify_state (set_client true);;
    mret (c true).

Definition Container_Close (c : option Container) : proc () :=
  match c with
  | Some c => if ct_Redis c then modify_state (set_client false) else mret ()
  | None => mret ()
  end.

(** ** New *)
Record App := mkApp {
  ap_Config : Config;
  ap_limits : gmap string IPRateLimiter;
  ap_handler : site_handler;                           (* server.Handler *)
  ap_Addr : string;                                    (* server.Addr *)
  ap_hub : bool;
  ap_wsSvc : option (ID → string → M (list string));   (* HandleEvent *)
  ap_relay : option OutboxRelay;
  ap_kafkaProd : bool;
  ap_consumer : option (list string * string * string);  (* brokers, topic, group *)
  ap_redisRelay : bool
}.

Definition on_world {A} (m : M A) : proc A := λ p,
  let '(r, w) := m (sv_world (pr_server p)) in (r, on_server (set_world w) p).

Definition New (c : option Container) : proc App :=
  match c with
  | Some c =>
      match ct_Config c, ct_Logger c with
      | Some cfg, true =>
          modify_state (set_writer (new_kafkaProd c cfg));;
          consumer ←
            (if new_kafkaProd c cfg
             then wsGroup ← on_world (kafkaWSFanoutConsumerGroup (kc_ConsumerGroup (cf_Kafka cfg)));
                  mret (Some (new_brokers cfg, new_topic cfg, wsGroup))
             else mret None);
          modify_state (on_server (λ s, mkServer ∅ (new_limits cfg) (sv_world s)));;
          mret (mkApp cfg (new_limits cfg) (new_handler openAPISpec swaggerHTML scrape c cfg) (":" +:+ cf_Port cfg) (new_hub c) (new_wsSvc c)
                  (new_relay c cfg) (new_kafkaProd c cfg) consumer (new_hub c && ct_PubSub c))
      | _, _ => throw (ErrPlain "app: invalid container")
      end
  | None => throw (ErrPlain "app: invalid container")
  end.

(** ( *Producer).Close *)
Variable close_writer : result error ().
Definition Producer_Close (producer : bool) : proc () :=
  if negb producer then mret ()
  else modify_state (set_writer false);; of_result close_writer.

(** ** Run

    What happens around it: the actions of the server until the [select]
    fires, the error ListenAndServe returned with if that is what fired it
    (otherwise a signal); then the actions while the workers are waited
    for, whether they ended in 12 seconds, the actions until Shutdown has
    returned, its error, and the error ListenAndServe returns with. *)
Record plan := mkPlan {
  pl_serving : list action;
  pl_failed : option error;
  pl_waiting : list action;
  pl_stopped : bool;
  pl_closing : list action;
  pl_shutdown : result error ();
  pl_listen : error
}.

(** The actions of the workers: those New starts, as long as they run. *)
Definition is_worker (a : action) : bool :=
  match a with DoTick | DoKafka _ _ | DoRedis => true | _ => false end.
Definition started (app : App) (a : action) : bool :=
  match a with
  | DoTick => is_set (ap_relay app)
  | DoKafka _ _ => is_set (ap_consumer app)
  | DoRedis => ap_redisRelay app
  | DoShutdown => false
  | _ => true
  end.
Definition live (app : App) (workers : bool) (acts : list action) : list action :=
  filter (λ a, started app a && (workers || negb (is_worker a)) = true) acts.
Definition run_actions (app : App) (workers : bool) (acts : list action) : proc () :=
  modify_state (on_server (run_server (ap_Config app) openAPISpec swaggerHTML scrape (live app workers acts))).

Definition Run (app : App) (p : plan) : proc () :=
  modify_state set_serving;;
  run_actions app true (pl_serving p);;
  match pl_failed p with
  | Some e => of_result (serve_answer e)
  | None =>
      run_actions app true (pl_waiting p);;
      attempt (Producer_Close (ap_kafkaProd app));;
      (if ap_hub app
       then modify_state (on_server (Server.act (ap_Config app) openAPISpec swaggerHTML scrape DoShutdown))
       else mret ());;
      run_actions app (negb (pl_stopped p)) (pl_closing p);;
      map_err (ErrWrapf "http shutdown") (of_result (pl_shutdown p));;
      of_result (serve_answer (pl_listen p))
  end.

(** ** main: an error is the exit code 1 and runs no deferred call *)
Variables (Getenv : string → string) (ReadFile : string → result error (option string)).
Variable Unmarshal : string → result error Config.

Definition migrate : proc () := λ p,
  let '(r, s) := Up exec_sql SQL true (pr_runner p) in (r, set_runner s p).

Definition main (p : plan) : proc () :=
  cfg ← of_result (Load Getenv ReadFile Unmarshal);
  NewPool (cf_DSN cfg);;
  (if cf_RunMigrations cfg then migrate else mret ());;
  c ← NewContainer cfg true true;
  app ← New (Some c);
  Run app p;;
  Container_Close (Some c);;
  modify_state (set_pool false).

Definition exit_code (r : result error ()) : Z := match r with Ok _ => 0%Z | Err _ => 1%Z end.
End main.
