(* ===== verification/MigrationTheorems.v ===== *)
(** * Theorems on the migrations

    Whatever fails and however often the process is restarted, the files
    applied are the first ones of the order, each executed once; and a run
    that nothing disturbs applies them all. *)

From stdpp Require Import base strings gmap sets list sorting.
From S2P Require Import Prelude GoStrings Utf8 Errors World Migration.

Section runner.
Context {Schema : Type} (exec_sql : string → Schema → result error Schema) (SQL : list dir_entry).
Implicit Types (d : migration_db (Schema := Schema)).
Abbreviation names := (sql_names SQL).
Abbreviation ReadFile := (Migration.ReadFile SQL).
Abbreviation apply_file := (Migration.apply_file exec_sql SQL).
Abbreviation apply_files := (Migration.apply_files exec_sql SQL).
Abbreviation Up := (Migration.Up exec_sql SQL).

(** ** What a run keeps

    The files applied are the first ones of the order, each executed once,
    in that order. *)
Fixpoint exec_all (names : list string) (s : Schema) : result error Schema :=
  match names with
  | [] => Ok s
  | name :: names =>
      match ReadFile name with
      | Ok body => match exec_sql body s with Ok s => exec_all names s | Err e => Err e end
      | Err e => Err e
      end
  end.

Definition applied (s0 : Schema) (k : nat) (d : migration_db) : Prop :=
  default ∅ (md_versions d) = list_to_set (take k names) ∧ exec_all (take k names) s0 = Ok (md_schema d).

Lemma exec_all_app ns ms s :
  exec_all (ns ++ ms) s = match exec_all ns s with Ok s' => exec_all ms s' | Err e => Err e end.
Proof.
  revert s. induction ns as [|n ns IH]; intros s; [done|]. simpl.
  destruct (ReadFile n) as [b|e]; [|done]. by destruct (exec_sql b s).
Qed.

Lemma sql_names_NoDup : NoDup (de_Name <$> SQL) → NoDup names.
Proof.
  intros H. unfold sql_names. rewrite merge_sort_Permutation. clear -H.
  induction SQL as [|e l IH]; [constructor|]. apply NoDup_cons in H as [Hn H].
  rewrite filter_cons. destruct (decide _); [|by apply IH]. apply NoDup_cons. split; [|by apply IH].
  intros (e' & He & Hin)%list_elem_of_fmap. apply list_elem_of_filter in Hin as [_ Hin].
  apply Hn. rewrite He. by apply list_elem_of_fmap_2.
Qed.

(** What a statement can do. *)
Lemma statement_Ok {A} (f : migration_db (Schema := Schema) → result error A * migration_db) s a s' :
  statement f s = (Ok a, s') → f (rs_db s) = (Ok a, rs_db s').
Proof.
  unfold statement. destruct (next_fault s) as [[|m|m] fs]; [|done..].
  destruct (f (rs_db s)) as [r' d]. by intros [= -> <-].
Qed.
Lemma statement_Err {A} (f : migration_db (Schema := Schema) → result error A * migration_db) s e s' :
  statement f s = (Err e, s') → (f (rs_db s)).1 = Err e ∨ (∃ m, e = ErrPlain m).
Proof.
  unfold statement. destruct (next_fault s) as [[|m|m] fs]; [|intros [= <- _]; eauto..].
  destruct (f (rs_db s)) as [r' d]. intros [= -> <-]. by left.
Qed.
Lemma statement_db {A} (f : migration_db (Schema := Schema) → result error A * migration_db) s r s' :
  statement f s = (r, s') → rs_db s' = rs_db s ∨ rs_db s' = (f (rs_db s)).2.
Proof.
  unfold statement. destruct (next_fault s) as [[|m|m] fs]; [|intros [= <- <-]; auto..].
  destruct (f (rs_db s)) as [r' d]. intros [= _ <-]. by right.
Qed.
Lemma statement_read {A} (f : migration_db (Schema := Schema) → result error A * migration_db) s r s' :
  statement f s = (r, s') → (∀ d, (f d).2 = d) → rs_db s' = rs_db s.
Proof. intros [?|H]%statement_db Hf; [done|by rewrite H, Hf]. Qed.

Lemma names_lookup k name : NoDup names → names !! k = Some name → name ∉ take k names.
Proof.
  intros Hnd Hk Hin. apply list_elem_of_lookup in Hin as [i Hi]. apply lookup_take_Some in Hi as [Hi Hlt].
  pose proof (NoDup_lookup _ _ _ _ Hnd Hi Hk). lia.
Qed.

Lemma applied_step s0 k name body d (s1 : Schema) vs :
  names !! k = Some name → ReadFile name = Ok body → applied s0 k d →
  md_versions d = Some vs → exec_sql body (md_schema d) = Ok s1 →
  applied s0 (S k) (mkMigDB (Some ({[name]} ∪ vs)) s1).
Proof.
  intros Hk Hb [Hv Hs] Hvs He. rewrite Hvs in Hv. simpl in Hv. unfold applied. simpl.
  rewrite (take_S_r _ _ _ Hk), exec_all_app, Hs. simpl. rewrite Hb, He. split; [|done]. set_solver.
Qed.

Lemma bind_wrapped {A B} what (m : eff (runner_state (Schema := Schema)) error A) (h : A → eff runner_state error B) s r s' :
  (wrapped what m ≫= h) s = (r, s') →
  (∃ a s1, m s = (Ok a, s1) ∧ h a s1 = (r, s')) ∨ (∃ e, m s = (Err e, s') ∧ ∃ x, r = Err x).
Proof.
  unfold wrapped. intros [(a & s1 & H & ?)|(e & H & ->)]%bind_inv;
    apply map_err_inv in H as [(? & ? & ?)|(? & ? & ?)]; simplify_eq; eauto 10.
Qed.

(** One file, from the state where it is the next one. *)
Lemma apply_file_inv s0 k name s r s' :
  names !! k = Some name → applied s0 k (rs_db s) → apply_file name s = (r, s') →
  applied s0 (S k) (rs_db s') ∨ (r ≠ Ok () ∧ applied s0 k (rs_db s')).
Proof.
  intros Hk Ha. unfold Migration.apply_file.
  intros [(body & s1 & [= Hb <-] & H)|(e & [= _ <-] & ? & ->)]%bind_wrapped; [|by right].
  apply bind_wrapped in H as [(d & s2 & Hd & H)|(e & Hd & ? & ->)];
    pose proof (statement_read _ _ _ _ Hd (λ _, eq_refl)) as Hs2; [|right; by rewrite Hs2].
  apply statement_Ok in Hd as [= <- _].
  apply bind_wrapped in H as [(d1 & s3 & Hd & H)|(e & Hd & ? & ->)];
    pose proof (statement_read _ _ _ _ Hd (λ _, eq_refl)) as Hs3; [|right; by rewrite Hs3, Hs2].
  apply statement_Ok in Hd as [= He _]. unfold exec_body in He.
  destruct (exec_sql body (md_schema (rs_db s))) as [sc|e] eqn:Esc; [|done]. injection He as <-.
  apply bind_wrapped in H as [(d2 & s4 & Hd & H)|(e & Hd & ? & ->)];
    pose proof (statement_read _ _ _ _ Hd (λ _, eq_refl)) as Hs4; [|right; by rewrite Hs4, Hs3, Hs2].
  apply statement_Ok in Hd as [= Hi _]. unfold insert_version in Hi. simpl in Hi.
  destruct (md_versions (rs_db s)) as [vs|] eqn:Ev; [|done]. destruct (bool_decide (name ∈ vs)); [done|].
  injection Hi as <-. pose proof (applied_step s0 k name body _ sc vs Hk Hb Ha Ev Esc) as Hnew.
  apply map_err_inv in H as [([] & -> & Hc)|(e & -> & Hc)].
  - left. by apply statement_Ok in Hc as [= <-].
  - apply statement_db in Hc as [Hc|Hc]; simpl in Hc; rewrite Hc; [|by left].
    right. by rewrite Hs4, Hs3, Hs2.
Qed.

(** The files of the end of the list, from a state where the ones before
    are applied. *)
Lemma apply_files_inv s0 rest : ∀ pre k s r s',
  NoDup names → names = pre ++ rest → (length pre ≤ k ≤ length names)%nat → applied s0 k (rs_db s) →
  apply_files rest s = (r, s') →
  ∃ k', (k ≤ k' ≤ length names)%nat ∧ applied s0 k' (rs_db s') ∧ (r = Ok () → k' = length names).
Proof.
  induction rest as [|name rest IH]; intros pre k s r s' Hnd Hn Hk Ha H.
  - injection H as <- <-. exists k. rewrite app_nil_r in Hn. subst pre. split_and!; [lia..|done|lia].
  - assert (names !! length pre = Some name) as Hname by (rewrite Hn; apply list_lookup_middle; done).
    assert (names = (pre ++ [name]) ++ rest) as Hn' by (by rewrite <- app_assoc).
    assert (length (pre ++ [name]) = S (length pre)) as Hlen by (rewrite length_app; simpl; lia).
    pose proof (lookup_lt_Some _ _ _ Hname) as Hlt.
    unfold Migration.apply_files in H. fold (Migration.apply_files exec_sql SQL) in H.
    apply bind_inv in H as [(x & s1 & Hx & H)|(e & Hx & _)]; [|by unfold attempt in Hx; destruct (statement _ _)].
    unfold attempt in Hx. destruct (statement (select_version name) s) as [y s2] eqn:Es. injection Hx as <- <-.
    pose proof (statement_read _ _ _ _ Es (λ _, eq_refl)) as Hd. rewrite <- Hd in Ha.
    destruct y as [u|e].
    + apply statement_Ok in Es. unfold select_version in Es. injection Es as Es _.
      destruct (md_versions (rs_db s)) as [vs|] eqn:Ev; [|done]. case_bool_decide as Hin; [|done].
      destruct Ha as [Hv Hs]. rewrite Hd, Ev in Hv. simpl in Hv. rewrite Hv in Hin.
      apply elem_of_list_to_set in Hin.
      assert (length pre ≠ k) as Hne by (intros <-; by apply (names_lookup (length pre) name Hnd Hname)).
      apply (IH (pre ++ [name]) k s2 r s'); [done|done|lia| |done]. split; [|done]. by rewrite Hd, Ev.
    + destruct (is_no_rows e) eqn:Ee; [|injection H as <- <-; exists k; split_and!; [lia..|done|done]].
      apply statement_Err in Es as [Es|[m ->]]; [|done]. unfold select_version in Es. simpl in Es.
      destruct (md_versions (rs_db s)) as [vs|] eqn:Ev; [|by injection Es as <-].
      case_bool_decide as Hin; [done|].
      assert (length pre = k) as <-.
      { destruct (decide (length pre = k)); [done|]. exfalso. apply Hin.
        destruct Ha as [Hv _]. rewrite Hd, Ev in Hv. simpl in Hv. rewrite Hv.
        apply elem_of_list_to_set, list_elem_of_lookup. exists (length pre). apply lookup_take_Some. split; [done|lia]. }
      apply bind_inv in H as [([] & s3 & Hf & H)|(e' & Hf & ->)]; apply (apply_file_inv s0 (length pre)) in Hf; try done.
      * destruct Hf as [Hf|[? _]]; [|done].
        destruct (IH (pre ++ [name]) (S (length pre)) s3 r s') as (k' & ? & ? & ?); [done|done|lia|done|done|].
        exists k'. split_and!; [lia..|done|done].
      * destruct Hf as [Hf|[_ Hf]]; [exists (S (length pre))|exists (length pre)]; split_and!; (lia || done).
Qed.

(** ** Runs that nothing disturbs *)
Lemma statement_quiet {A} (f : migration_db (Schema := Schema) → result error A * migration_db) d :
  statement f (mkRunner d []) = ((f d).1, mkRunner (f d).2 []).
Proof. unfold statement. simpl. by destruct (f d). Qed.

Lemma exec_next s0 k name sc sn :
  names !! k = Some name → exec_all names s0 = Ok sn → exec_all (take k names) s0 = Ok sc →
  ∃ body sc', ReadFile name = Ok body ∧ exec_sql body sc = Ok sc'.
Proof.
  intros Hk Hall Hpre. rewrite <- (take_drop_middle _ _ _ Hk), exec_all_app, Hpre in Hall. simpl in Hall.
  destruct (ReadFile name) as [b|e]; [|done]. destruct (exec_sql b sc) eqn:E; [eauto|done].
Qed.

Lemma apply_file_quiet k name s0 sn d vs :
  NoDup names → names !! k = Some name → exec_all names s0 = Ok sn → applied s0 k d → md_versions d = Some vs →
  ∃ d', apply_file name (mkRunner d []) = (Ok (), mkRunner d' []) ∧ is_Some (md_versions d').
Proof.
  intros Hnd Hk Hall [Hv Hs] Ev. destruct (exec_next _ _ _ _ _ Hk Hall Hs) as (body & sc & Hb & Hsc).
  assert (name ∉ vs) as Hnew.
  { rewrite Ev in Hv. simpl in Hv. subst vs. rewrite elem_of_list_to_set. by apply names_lookup. }
  unfold Migration.apply_file, wrapped, map_err, mbind, eff_bind, of_result, tx_statement, commit. rewrite Hb.
  repeat (rewrite statement_quiet; simpl). unfold exec_body. rewrite Hsc.
  repeat (rewrite statement_quiet; simpl). unfold insert_version. simpl. rewrite Ev, bool_decide_false by done.
  repeat (rewrite statement_quiet; simpl). eauto.
Qed.

Lemma apply_files_quiet s0 sn rest : ∀ pre k d,
  NoDup names → exec_all names s0 = Ok sn → names = pre ++ rest → (length pre ≤ k ≤ length names)%nat →
  applied s0 k d → is_Some (md_versions d) → (apply_files rest (mkRunner d [])).1 = Ok ().
Proof.
  induction rest as [|name rest IH]; intros pre k d Hnd Hall Hn Hk Ha [vs Ev]; [done|].
  assert (names !! length pre = Some name) as Hname by (rewrite Hn; apply list_lookup_middle; done).
  assert (names = (pre ++ [name]) ++ rest) as Hn' by (by rewrite <- app_assoc).
  assert (length (pre ++ [name]) = S (length pre)) as Hlen by (rewrite length_app; simpl; lia).
  pose proof (lookup_lt_Some _ _ _ Hname) as Hlt.
  cbn [Migration.apply_files]. unfold mbind, eff_bind, attempt. rewrite statement_quiet.
  unfold select_version. rewrite Ev. simpl. destruct (decide (name ∈ vs)) as [Hin|Hin].
  - rewrite bool_decide_true by done.
    assert (length pre ≠ k) as Hne.
    { intros <-. destruct Ha as [Hv _]. rewrite Ev in Hv. simpl in Hv. rewrite Hv in Hin.
      apply elem_of_list_to_set in Hin. by apply (names_lookup (length pre) name Hnd Hname). }
    apply (IH (pre ++ [name]) k); [done..|lia|done|by eexists].
  - rewrite bool_decide_false by done. simpl.
    assert (length pre = k) as <-.
    { destruct (decide (length pre = k)); [done|]. exfalso. apply Hin.
      destruct Ha as [Hv _]. rewrite Ev in Hv. simpl in Hv. rewrite Hv.
      apply elem_of_list_to_set, list_elem_of_lookup. exists (length pre). apply lookup_take_Some. split; [done|lia]. }
    destruct (apply_file_quiet _ _ _ _ _ _ Hnd Hname Hall Ha Ev) as (d' & Hf & Hd').
    pose proof (apply_file_inv s0 _ _ (mkRunner d []) _ _ Hname Ha Hf) as [Ha'|[? _]]; [|done]. rewrite Hf.
    apply (IH (pre ++ [name]) (S (length pre))); [done..|lia|done|done].
Qed.

(** ** Restarts *)
Fixpoint restarts (faults : list (list fault)) (d : migration_db (Schema := Schema)) : migration_db :=
  match faults with
  | [] => d
  | fs :: faults => restarts faults (rs_db (Up true (mkRunner d fs)).2)
  end.

Lemma bootstrap_applied s0 k d : applied s0 k d → applied s0 k (bootstrap d).2.
Proof. intros [Hv Hs]. by split. Qed.

Lemma Up_inv s0 k s r s' :
  NoDup names → (k ≤ length names)%nat → applied s0 k (rs_db s) → Up true s = (r, s') →
  ∃ k', (k' ≤ length names)%nat ∧ applied s0 k' (rs_db s') ∧ (r = Ok () → k' = length names).
Proof.
  intros Hnd Hk Ha. unfold Migration.Up, fail_when. simpl.
  intros [([] & s1 & [= <-] & H)|(e & [= ] & _)]%bind_inv.
  apply bind_wrapped in H as [([] & s1 & Hb & H)|(e & Hb & x & ->)].
  - apply statement_Ok in Hb. injection Hb as Hb. assert (applied s0 k (rs_db s1)) as Ha1
      by (rewrite <- Hb; apply (bootstrap_applied s0 k _ Ha)).
    destruct (apply_files_inv s0 names [] k s1 r s') as (k' & ? & ? & ?); [done|done|simpl; lia|done|done|].
    exists k'. split_and!; [lia|done|done].
  - exists k. split; [done|]. split; [|done]. apply statement_db in Hb as [-> | ->]; [done|by apply bootstrap_applied].
Qed.

Lemma restarts_inv s0 faults : ∀ k d,
  NoDup names → (k ≤ length names)%nat → applied s0 k d → ∃ k', (k' ≤ length names)%nat ∧ applied s0 k' (restarts faults d).
Proof.
  induction faults as [|fs faults IH]; intros k d Hnd Hk Ha; [eauto|]. simpl.
  destruct (Up true (mkRunner d fs)) as [r s1] eqn:E.
  apply (Up_inv s0 k) in E as (k' & ? & ? & _); [|done..]. by apply (IH k').
Qed.

(** C40.  Migrations: starting from an empty database, after any number of
    runs with any failures, the files recorded are the first ones in
    lexical order, and the schema is what executing each of them once, in
    that order, gives; a run that reports success leaves all of them
    applied; and a run that nothing disturbs terminates with success,
    provided the files execute. *)
Theorem migrations_once s0 faults fs r s' :
  NoDup (de_Name <$> SQL) →
  let d := restarts faults (mkMigDB None s0) in
  Up true (mkRunner d fs) = (r, s') →
  (∃ k, applied s0 k d)
  ∧ (r = Ok () → applied s0 (length names) (rs_db s'))
  ∧ (fs = [] → is_ok (exec_all names s0) = true → r = Ok ()).
Proof.
  intros Hnd%sql_names_NoDup d H.
  destruct (restarts_inv s0 faults 0 (mkMigDB None s0)) as (k & Hk & Ha); [done|lia|by split|].
  fold d in Ha. split; [eauto|].
  pose proof H as H2. apply (Up_inv s0 k) in H2 as (k' & _ & Ha' & Hr); [|done..].
  split; [intros Hok; by rewrite <- (Hr Hok)|]. intros -> Hall.
  destruct (exec_all names s0) as [sn|e] eqn:Eall; [|done].
  pose proof (apply_files_quiet s0 sn names [] k (bootstrap d).2 Hnd Eall eq_refl) as Hq.
  unfold Migration.Up, fail_when, wrapped, map_err, mbind, eff_bind in H. simpl in H.
  simpl in Hq. specialize (Hq ltac:(lia) Ha ltac:(by eexists)).
  rewrite H in Hq. done.
Qed.
End runner.

(** The five files of the package; a schema that is the list of the bodies
    executed.  The first run dies at the commit of the second file, the
    next one finishes. *)
Definition demo_files : list dir_entry :=
  [mkEntryF "005_outbox_events.sql" false "e"; mkEntryF "002_init_chats.sql" false "b";
   mkEntryF "001_init_users.sql" false "a"; mkEntryF "fs.go" false "package"; mkEntryF "old.sql" true "";
   mkEntryF "004_init_sessions.SQL" false "d"; mkEntryF "003_init_messages.sql" false "c"].
Lemma demo_files_NoDup : NoDup (de_Name <$> demo_files).
Proof. apply (bool_decide_unpack _). vm_compute. exact I. Qed.
Definition demo_exec (body : string) (s : list string) : result error (list string) := Ok (s ++ [body]).
Definition demo_faults : list (list fault) :=
  [[NoFault; NoFault; NoFault; NoFault; NoFault; NoFault; NoFault; NoFault; NoFault; NoFault; FailAfter "connection reset"]].

Lemma migrations_once_witness :
  let d := restarts demo_exec demo_files demo_faults (mkMigDB None []) in
  md_schema d = ["a"; "b"]
  ∧ applied demo_exec demo_files [] 5 (rs_db (Up demo_exec demo_files true (mkRunner d [])).2).
Proof.
  intros d. split; [vm_compute; reflexivity|].
  destruct (Up demo_exec demo_files true (mkRunner d [])) as [r s'] eqn:E.
  destruct (migrations_once demo_exec demo_files [] demo_faults [] r s') as (_ & H & Hok).
  - apply demo_files_NoDup.
  - exact E.
  - apply H, Hok; vm_compute; reflexivity.
Defined.
