(* ===== verification/Validator.v ===== *)
(** * Field violations

    pkg/validator/validator.go: the list of violations of a request and the
    details object made of it. *)

From stdpp Require Import base strings list.
From S2P Require Import Prelude GoStrings Json.

Record Violation := mkViolation { vi_Field : string; vi_Message : string }.

Definition violation_json (v : Violation) : json :=
  JObj [("field", JStr (vi_Field v)); ("message", JStr (vi_Message v))].

(** FieldViolations and Details: an object in either case. *)
Definition Details (violations : list Violation) : json :=
  if (length violations =? 0)%nat then JObj [("fields", JArr [])]
  else JObj [("fields", JArr (violation_json <$> violations))].

Definition Add (v : list Violation) (field message : string) (cond : bool) : list Violation :=
  if negb cond then v else v ++ [mkViolation field message].

Definition NonEmpty (v : list Violation) (field value : string) : list Violation :=
  if str_empty (TrimSpace value) then v ++ [mkViolation field "is required"] else v.

(** The empty list needs no case of its own. *)
Lemma Details_fields vs : Details vs = JObj [("fields", JArr (violation_json <$> vs))].
Proof. by destruct vs. Qed.

Lemma NonEmpty_Add v field value : NonEmpty v field value = Add v field "is required" (str_empty (TrimSpace value)).
Proof. unfold NonEmpty, Add. by destruct (str_empty _). Qed.
