(* ===== verification/ServerTheorems.v ===== *)
(** * What the server promises

    The invariants of the whole process: whatever clients, workers and
    other servers do and whatever fails, the tables stay well formed and
    evolve as they should, and the hub stays consistent. *)

From stdpp Require Import base strings gmap sets list relations.
From S2P Require Import Prelude GoStrings Json JsonCodec JsonStruct WsEvents Errors GoTime Domain Hub HubTheorems Metrics World Repository PgMessages PgChats PgUsers Guarantee Invariant Evolution Laws Calls Scenario WriterTheorems Journal Credentials AuthService Redis RedisTheorems Broadcaster BroadcastTheorems Kafka Relay RelayTheorems MessageService MessageTheorems ChatTheorems AuthTheorems WsService Toys UserTheorems RateLimit RateLimitTheorems Http Handlers Router Config Wiring Server Steps SiteTheorems.

(** ** The server *)
Class ServerLaws {G : UuidGen} (R : relation DB) := {
  sv_storage :: StorageLaws R;
  sv_msgs actor req : guar R (run_msg app_writer app_metrics actor req)
}.

Section server.
Context {P : Prometheus} {G : UuidGen} {GL : UuidGenLaws G} {R : relation DB} {SVL : ServerLaws R} {B : Bcrypt} {J : Jwt} {RN : Rand} {RS : RedisServer} {K : KafkaBroker}.
Context {L : RateLimiter} {U : Upgrader}.
Variables (cfg : Config) (openAPISpec swaggerHTML : string) (scrape : samples → reply).

Abbreviation sguar := (SiteTheorems.sguar (R := R)).
Abbreviation server_ok := (SiteTheorems.server_ok (R := R)).
Abbreviation routes_ok := (SiteTheorems.routes_ok (R := R)).

(** Opening a connection is a step of the hub. *)
Definition accepted (open : gmap nat ID) (w : World) (r : result error ws_outcome) (w' : World) : Prop :=
  R (w_db w) (w_db w') ∧ env R w'
  ∧ rtc hub_step (open, w_hub w) (match r with Ok (Opened uid p) => <[p := uid]> open | _ => open end, w_hub w')
  ∧ http_samples (w_metrics w') = http_samples (w_metrics w).

Lemma accepted_plain open (m : M ws_outcome) w r w' :
  hguar R m → (∀ w1 o w2, m w1 = (Ok o, w2) → ∀ uid p, o ≠ Opened uid p) →
  env R w → m w = (r, w') → accepted open w r w'.
Proof.
  intros Hm Hne Hw H. pose proof (Hm _ _ _ Hw H) as (? & ? & Hreach & ?). split_and!; [done..| |done].
  destruct r as [[| |uid p]|e]; try by apply Hreach. by destruct (Hne _ _ _ H uid p).
Qed.

Lemma accepted_after {A} open (m : M A) w a w1 r w' :
  hguar R m → env R w → m w = (a, w1) → (env R w1 → accepted open w1 r w') → accepted open w r w'.
Proof.
  intros Hm Hw H Hk. apply Hm in H as (He & Hw1 & Hr & Hs); [|done]. destruct (Hk Hw1) as (He' & ? & Hr' & Hs').
  split_and!; [by etransitivity|done|etransitivity; [apply Hr|exact Hr']|by rewrite Hs'].
Qed.

Lemma accept_step tickets origin ticket upgraded w r w' open :
  env R w → ServeHTTP tickets (app_presence cfg) app_metrics (app_origins cfg) origin ticket upgraded w = (r, w') →
  accepted open w r w'.
Proof.
  intros Hw. unfold ServeHTTP.
  assert (∀ o w r w', (∀ uid p, o ≠ Opened uid p) → env R w → mret (M := eff World error) o w = (r, w') →
            accepted open w r w') as Hret
    by (intros o w1 r1 w2 Ho ? ?; eapply (accepted_plain open (mret o)); [hguar_tac|by intros ??? [= <- _]|done..]).
  destruct (originOK _ _); cbn [negb]; [|by apply Hret].
  destruct tickets as [rdb|]; [|by apply Hret]. cbv zeta.
  destruct (str_empty (TrimSpace ticket)); [by apply Hret|].
  intros [(x & w1 & Hc & Hrun)|(e & Hc & _)]%bind_inv; [|by apply attempt_inv in Hc as (? & ? & _)].
  eapply accepted_after; [exact (hguar_attempt _ (hguar_Consume (R:=R) rdb (TrimSpace ticket)))|exact Hw|exact Hc|intros Hw1].
  destruct x as [uid|e]; [|by eapply Hret; [|exact Hw1|exact Hrun]].
  destruct (str_empty uid); [by eapply Hret; [|exact Hw1|exact Hrun]|].
  destruct upgraded; cbn [negb] in Hrun.
  - apply bind_inv in Hrun as [(u & w2 & Hc' & Hrun)|(e & Hc' & ->)];
      (eapply accepted_after; [apply (hguar_connected (R:=R))|exact Hw1|exact Hc'|intros Hw2]); [|by split_and!].
    unfold mbind, eff_bind, register_client in Hrun. injection Hrun as <- <-. split_and!; [reflexivity|done| |done].
    apply rtc_once, step_open, not_elem_of_dom. exact (is_fresh (dom (h_heap (w_hub w2)) : gset nat)).
  - apply bind_inv in Hrun as [(u & w2 & Hc' & Hrun)|(e & Hc' & ->)];
      (eapply accepted_after; [exact (hguar_guar (R:=R) _ (guar_inc_with app_metrics WSErrors ["upgrade"] eq_refl))|exact Hw1|exact Hc'|intros Hw2]);
      [by eapply Hret; [|exact Hw2|exact Hrun]|by split_and!].
Qed.

(** *** The routes *)
Lemma sguar_world_handler (h : http_handler) r : (∀ r, hguar R (h r)) → sguar (world_handler h r).
Proof. intros H. apply sguar_on_world, H. Qed.

Lemma sguar_authed deps (h : ID → http_handler) r :
  (∀ uid r, hguar R (h uid r)) → sguar (authed deps h r).
Proof. intros H. apply sguar_world_handler. intros r'. apply hguar_bearer. intros uid. apply H. Qed.

Lemma sguar_ws_connect r : sguar (ws_connect (Some true) (app_presence cfg) app_metrics (app_origins cfg) r).
Proof.
  intros s x s' Hw. unfold ws_connect.
  destruct (ServeHTTP _ _ _ _ _ _ _ (sv_world s)) as [out w] eqn:E.
  pose proof (accept_step _ _ _ _ _ _ _ (sv_open s) Hw E) as (He & Hw' & Hreach & ?).
  destruct out as [[| |uid p]|e]; intros [= _ <-]; by split_and!.
Qed.

Lemma routes_ok_app ts ts' : routes_ok ts → routes_ok ts' → routes_ok (ts ++ ts').
Proof. apply Forall_app_2. Qed.

Ltac route_tac := apply Forall_cons; split; [intros r; rewrite rt_Handler_handle|].

Lemma app_routes_ok : routes_ok (app_routes cfg openAPISpec swaggerHTML scrape).
Proof.
  rewrite app_routes_eq, app_deps_eq. unfold Register, docs_Register, healthHandler.
  repeat apply routes_ok_app.
  - route_tac; [apply sguar_world_handler; intros; hguar_tac|].
    route_tac; [apply sguar_world_handler; intros; hguar_tac|apply Forall_nil_2].
  - route_tac; [apply sguar_world_handler; intros; hguar_tac|apply Forall_nil_2].
  - route_tac; [|apply Forall_nil_2]. apply sguar_world_handler.
    intros r' w x w' Hw [= _ <-]. split_and!; reflexivity || done.
  - cbn [dp_Auth]. unfold auth_routes. cbv zeta.
    route_tac; [apply sguar_chainLimit; intros; apply sguar_world_handler; apply hguar_Auth_Register|].
    route_tac; [apply sguar_chainLimit; intros; apply sguar_world_handler; apply hguar_Auth_Login|].
    route_tac; [apply sguar_world_handler; apply hguar_Auth_Refresh|].
    route_tac; [apply sguar_world_handler; apply (hguar_Auth_Logout (cf_JWT cfg))|].
    route_tac; [apply sguar_authed; apply (hguar_Auth_LogoutAll (cf_JWT cfg))|apply Forall_nil_2].
  - cbn [dp_Users]. unfold user_routes.
    repeat (route_tac; [apply sguar_authed; intros; apply hguar_user_handlers|]). apply Forall_nil_2.
  - cbn [dp_Chats]. unfold chat_routes.
    repeat (route_tac; [apply sguar_authed; intros; apply hguar_chat_handlers|]). apply Forall_nil_2.
  - cbn [dp_Messages]. unfold message_routes.
    repeat (route_tac; [first [apply sguar_chainLimit; intros|idtac]; apply sguar_authed; intros;
                        eapply (hguar_message_handlers app_writer true sv_msgs)|]). apply Forall_nil_2.
  - cbn [dp_WSTicket]. destruct (app_redis cfg); [|apply Forall_nil_2].
    route_tac; [|apply Forall_nil_2]. apply sguar_chainLimit. intros. apply sguar_world_handler.
    intros. apply hguar_bearer. intros. apply hguar_WSTicket_Issue.
  - cbn [dp_WS]. generalize sguar_ws_connect. destruct (app_redis cfg); intros Hws; [|apply Forall_nil_2].
    route_tac; [|apply Forall_nil_2]. apply sguar_chainLimit. intros. apply Hws.
Qed.

Lemma site_ok r s x s' :
  env R (sv_world s) → app_site cfg openAPISpec swaggerHTML scrape r s = (x, s') → server_ok s s'.
Proof. apply Chain_ok, app_routes_ok. Qed.

(** *** The actions *)
Lemma act_world {A} (m : M A) s :
  hguar R m → env R (sv_world s) → server_ok s (on_site_world m s).
Proof.
  intros Hm Hw. unfold on_site_world. destruct (m (sv_world s)) as [r w'] eqn:E. apply Hm in E as (? & ? & ? & _); [|done].
  split_and!; simpl; auto.
Qed.

Abbreviation act := (Server.act cfg openAPISpec swaggerHTML scrape).
Abbreviation run_server := (Server.run_server cfg openAPISpec swaggerHTML scrape).

Lemma end_connection_ok p s : env R (sv_world s) → server_ok s (end_connection cfg p s).
Proof.
  intros Hw. unfold end_connection, with_open, close_connection, on_site_world, end_pump.
  destruct (sv_open s !! p) as [uid|] eqn:Ep; [|rewrite delete_id by done; by apply (server_ok_refl s)].
  destruct ((disconnected (app_presence cfg) uid;; on_hub (Unregister p)) (sv_world s)) as [r w'] eqn:E. simpl.
  apply bind_inv in E as [(u & w1 & Hd & Hrun)|(e & Hd & ->)].
  - apply (hguar_disconnected (R:=R)) in Hd as (He & Hw1 & Hr1 & _); [|done]. injection Hrun as _ <-.
    split_and!; simpl; [done|done|]. eapply rtc_r; [apply Hr1|]. by eapply step_end.
  - exfalso. revert Hd. unfold disconnected, Disconnected. destruct (app_presence cfg); [|done].
    intros [(x & w1 & _ & [= ])|(e' & H & _)]%bind_inv. by apply attempt_inv in H as (? & ? & _).
Qed.

Lemma act_ok a s : env R (sv_world s) → server_ok s (act a s).
Proof.
  intros Hw. pose proof (server_ok_refl s Hw) as Hid.
  destruct a as [r|origin ticket upgraded|p msg|p|p| |key value| |]; cbn [Server.act].
  - destruct (app_site _ _ _ _ r s) as [x s'] eqn:E. by eapply site_ok.
  - destruct (accept cfg origin ticket upgraded (sv_world s)) as [r w'] eqn:E.
    pose proof (accept_step _ _ _ _ _ _ _ (sv_open s) Hw E) as (? & ? & ? & _).
    destruct r as [[| |uid p]|e]; by split_and!.
  - unfold read_turn. rewrite app_handle_eq. destruct (sv_open s !! p) as [uid|]; [|done].
    destruct (read_frame _ _ p uid msg (sv_world s)) as [r w'] eqn:E.
    apply (hguar_read_frame (R:=R)) in E; [|apply sv_msgs|done].
    assert (server_ok s (set_world w' s)) as H1 by (destruct E as (? & ? & ? & _); by split_and!).
    assert (server_ok s (end_connection cfg p (set_world w' s))) as H2
      by (eapply server_ok_trans; [exact H1|apply end_connection_ok; apply H1]).
    by destruct r as [[]|].
  - by apply end_connection_ok.
  - apply act_world; [|done..]. apply (hguar_hub (on_client write_next p)). intros. constructor.
  - rewrite app_relay_eq. apply act_world; [|done..]. apply hguar_tick.
  - apply act_world; [|done..]. apply hguar_consume.
  - apply act_world; [|done..]. apply hguar_StartRedisRelay.
  - apply act_world; [|done..]. apply (hguar_hub CloseAll). intros. constructor.
Qed.

Lemma run_ok acts s :
  env R (sv_world s) → server_ok s (run_server acts s).
Proof.
  revert s. induction acts as [|a acts IH]; intros s Hw; [by apply server_ok_refl|].
  pose proof (act_ok a s Hw) as Ha. pose proof Ha as (_ & Hw1 & _).
  eapply server_ok_trans; [exact Ha|]. by apply IH.
Qed.

End server.

(** *** The guarantees of the server *)
Section laws.
Context {P : Prometheus} {G : UuidGen} {GL : UuidGenLaws G}.

#[export] Instance evolves_server : ServerLaws evolves.
Proof.
  split; [apply _|]. intros. eapply run_msg_guar; try apply _. intros W [= <-]. apply _.
Qed.
#[export] Instance journaled_storage : StorageLaws journaled.
Proof. split; apply _. Qed.
#[export] Instance journaled_server : ServerLaws journaled.
Proof. split; [apply _|]. intros. apply msg_journaled. Qed.
End laws.

Section invariants.
Context {P : Prometheus} {G : UuidGen} {GL : UuidGenLaws G} {B : Bcrypt} {J : Jwt} {RN : Rand} {RS : RedisServer} {K : KafkaBroker}.
Context {L : RateLimiter} {U : Upgrader}.
Variables (cfg : Config) (openAPISpec swaggerHTML : string) (scrape : samples → reply).
Abbreviation run_server := (Server.run_server cfg openAPISpec swaggerHTML scrape).

(** C33.  The whole server, started with no connection, keeps its
    invariants whatever happens: any interleaving of HTTP requests,
    WebSocket connections, frames, disconnections and writes, relay ticks,
    Kafka and Redis messages and a shutdown, under any failures and any
    well-behaved activity of other servers on the database.  The tables
    stay well formed and only evolve; the hub holds exactly the
    connections whose read loop runs, under the users their tickets named,
    and its gauge counts them. *)
Theorem server_invariant acts w s :
  w_hub w = NewHub → wf (w_db w) → env evolves w →
  run_server acts (start cfg w) = s →
  wf (w_db (sv_world s)) ∧ evolves (w_db w) (w_db (sv_world s)) ∧
  (∀ p uid, p ∈ user_set uid (w_hub (sv_world s)) ↔ sv_open s !! p = Some uid) ∧
  h_active (w_hub (sv_world s)) = Z.of_nat (size (sv_open s)) ∧
  (∀ p c, h_heap (w_hub (sv_world s)) !! p = Some c → (length (c_send c) ≤ send_cap)%nat).
Proof.
  intros Hh Hwf Hw Hrun. destruct (run_ok (R := evolves) cfg openAPISpec swaggerHTML scrape acts (start cfg w)) as (He & _ & Hr); [done|].
  rewrite Hrun in He, Hr. simpl in He, Hr. rewrite Hh in Hr. split; [by apply (ev_wf _ _ He)|]. split; [done|].
  destruct (reachable_inv _ Hr) as [[_ _ _ Hq] Hu _ Hc]. done.
Qed.

(** C14.  The outbox is a faithful journal of the messages: whatever the
    server does and whatever fails, as long as the other processes keep to
    it too, no event is lost or altered, and the events that appeared since
    any moment, applied in the order of their ids to the live messages of
    that moment, give the live messages of now.  Events of different
    messages may appear out of the order of their ids; one that appears
    about a message has a larger id than every earlier one about it, and
    names that message both as its aggregate and in its payload. *)
Theorem outbox_journal acts w s :
  wf (w_db w) → env journaled w → run_server acts (start cfg w) = s →
  let d := w_db w in let d' := w_db (sv_world s) in
  log d ⊆ log d'
  ∧ live_view d' = replay (new_events d d') (live_view d)
  ∧ ∀ k r, new_events d d' !! k = Some r →
      about r = event_message (ob_event_type r) (ob_aggregate_id r)
      ∧ ∀ k' r', log d !! k' = Some r' → about_same (ob_event_type r) (ob_aggregate_id r) r' → (k' < k)%Z.
Proof.
  intros Hwf Hw Hrun. destruct (run_ok (R := journaled) cfg openAPISpec swaggerHTML scrape acts (start cfg w))
    as (He & _ & _); [done|]. rewrite Hrun in He. destruct He as [He Ha Ho Hv].
  split; [by apply log_le|]. split; [by apply Hv|]. intros k r Hr. split; [by eapply Ha|]. intros k' r'. by eapply Ho.
Qed.
End invariants.

(** A session: a connection with a ticket, a frame that posts a message, a
    relay tick, a write, a request that is refused and the end. *)
Definition demo_app : Config :=
  mkConfig "8080" "postgres://db" "redis:6379" demo_cfg (mkRateLimits 60 20 120 30)
    (mkKafkaConfig true "kafka:9092, " "goflow.events" "ws") (mkWSConfig [] 120) false
    (mkObservability "goflow" "test" "json").
#[export] Instance toy_upgrader : Upgrader := λ r,
  if rq_Hijacker r then None else Some (http_error 500 "Internal Server Error").
Definition post_frame : string :=
  json_write (JObj [("event", JStr EventMessageSend);
                    ("data", JObj [("chat_id", JStr chat1); ("text", JStr "hello over ws")])]).
Definition demo_get : http_request := mkHttp "GET" ["users"; "me"] [] [] "10.0.0.7:4711" "" [] true.
Definition demo_session : list action :=
  [DoConnect "" demo_ticket true; DoFrame 0 post_frame; DoTick; DoWrite 0;
   DoHTTP demo_get; DoKafka "k" "not json"; DoRedis; DoEnd 0].
Definition demo_scrape : samples → reply := λ _, mkReply 200 [] (BText "").
Definition demo_run : server := Server.run_server demo_app "" "" demo_scrape demo_session (start demo_app demo_issued).

Lemma server_invariant_witness :
  wf (w_db (sv_world demo_run)) ∧ h_active (w_hub (sv_world demo_run)) = Z.of_nat (size (sv_open demo_run))
  ∧ length (w_kafka (sv_world demo_run)) = 1%nat.
Proof.
  destruct (server_invariant demo_app "" "" demo_scrape demo_session demo_issued demo_run) as (Hwf & _ & _ & Hc & _).
  - vm_compute. reflexivity.
  - apply demo_wf.
  - apply undisturbed_guar; [apply _|]. apply quiet_undisturbed. vm_compute. reflexivity.
  - reflexivity.
  - split; [exact Hwf|]. split; [exact Hc|]. vm_compute. reflexivity.
Defined.

Definition demo_access : string :=
  match GenerateAccessToken (TrimSpace (jwt_Secret demo_cfg)) alice (60 * minute) (t0 + minute) with Ok tok => tok | Err _ => "" end.
Definition demo_delete : http_request :=
  mkHttp "DELETE" ["messages"; msg1] [] [("Authorization", "Bearer " +:+ demo_access)] "10.0.0.7:4711" "" [] true.
(** Another server, whose post takes the number after the next one: the
    next was drawn by a transaction that has not committed. *)
Definition other_world (d : DB) : World :=
  mkWorld (set_outbox_seq (db_outbox_seq d + 1) d) t0 [] 100 0 ∅ ∅ [] [] NewHub.
Definition other_post (d : DB) : DB := w_db (run_write (pg_message_writer true true) demo_post (other_world d)).2.

Lemma other_post_journaled d : journaled d (other_post d).
Proof.
  assert (journaled d (set_outbox_seq (db_outbox_seq d + 1) d)) as Hseq.
  { apply journaled_same; [|done..]. apply (evolves_outbox d (db_outbox d)); [by apply grows_refl; apply _|lia|].
    intros Hwf. apply wf_put_outbox; [done|lia| |apply Hwf].
    intros k r Hr. destruct (wf_outbox _ Hwf _ _ Hr). split; simpl; [done|lia]. }
  etransitivity; [exact Hseq|]. unfold other_post.
  destruct (run_write (pg_message_writer true true) demo_post (other_world d)) as [r w'] eqn:E.
  eapply (writer_journaled true true demo_post) in E as [E _]; [exact E|done|by constructor].
Qed.

(** The author's deletion draws the number 1, the other server's post takes
    the number 2 and commits first; a post follows. *)
Definition demo_late : World :=
  set_sched [idle; idle; mkEvent 1 other_post NoFault None; idle; mkEvent 0 id NoFault (Some 1%Z)] demo_issued.
Definition demo_run2 : server :=
  Server.run_server demo_app "" "" demo_scrape (DoHTTP demo_delete :: demo_session) (start demo_app demo_late).

Lemma outbox_journal_witness :
  let d := w_db demo_late in let d' := w_db (sv_world demo_run2) in
  live_view d' = replay (new_events d d') (live_view d)
  ∧ map (λ '(k, r), (k, ob_event_type r)) (map_to_list (db_outbox (other_post d))) = [(2%Z, EventMessageCreated)]
  ∧ map (λ k, ob_event_type <$> new_events d d' !! k) [1; 2; 3; 4]%Z
    = [Some EventMessageDeleted; Some EventMessageCreated; Some EventMessageCreated; None]
  ∧ dom (live_view d) = {[msg1; msg2]} ∧ dom (live_view d') = {[msg2; gen_uuid 100; gen_uuid 7]}.
Proof.
  destruct (outbox_journal demo_app "" "" demo_scrape (DoHTTP demo_delete :: demo_session) demo_late demo_run2) as (_ & H & _).
  - apply demo_wf.
  - change (Forall (λ e, ∀ d, journaled d (ev_step e d)) (w_sched demo_late)). simpl.
    repeat (apply Forall_cons_2; [intros d; first [reflexivity|apply other_post_journaled]|]). apply Forall_nil_2.
  - exact eq_refl.
  - split; [exact H|]. split_and!; vm_compute; reflexivity.
Defined.
