(* ===== verification/Delivery.v ===== *)
(** * From a post to the connections of the chat

    The message service, the outbox, the relay, the broadcaster and the hub
    together, in the configuration without Kafka: what a client receives of
    the events the services wrote. *)

From stdpp Require Import base strings gmap sets list sorting.
From S2P Require Import Prelude GoStrings Uuid Json JsonCodec WsEvents Errors GoTime Domain Hub HubTheorems Metrics World Repository PgMessages PgChats Guarantee Invariant Evolution Laws Calls Scenario WriterTheorems MessageService MessageTheorems Credentials Redis Broadcaster BroadcastTheorems Kafka Relay RelayTheorems AuthService AuthTheorems Toys RateLimit RateLimitTheorems Http Router Config Wiring Server Steps ServerTheorems.

Local Open Scope Z_scope.

(** ** What a client is sent *)
Definition rec_envelope (rec : OutboxRec) : string := local_envelope (ob_event_type rec) (ob_payload rec).

(** The event is of a chat the user is a member of. *)
Definition addressed (d : DB) (u : ID) (rec : OutboxRec) : Prop :=
  match ob_chat_id rec with Some c => is_Some (db_members d !! (c, u)) | None => False end.
#[export] Instance addressed_dec d u rec : Decision (addressed d u rec).
Proof. unfold addressed. destruct (ob_chat_id rec); apply _. Defined.

Definition inbox (d : DB) (u : ID) (recs : list OutboxRec) : list string :=
  rec_envelope <$> filter (addressed d u) recs.

Definition enqueue_all (payloads : list string) (c : Client) : Client := foldl (λ c b, enqueue b c) c payloads.

(** A registered connection receives the events of its user's chats. *)
Definition receive (d : DB) (h : Hub) (recs : list OutboxRec) (p : nat) (c : Client) : Client :=
  if decide (p ∈ user_set (c_userID c) h) then enqueue_all (inbox d (c_userID c) recs) c else c.

(** What the columns of an event allow: its time has a year of four digits,
    its chat is a uuid. *)
Definition deliverable (rec : OutboxRec) : Prop :=
  sendable rec ∧ ∀ c, ob_chat_id rec = Some c → canonical c.

Record delivered (recs rest : list OutboxRec) (w w' : World) : Prop := mkDelivered {
  dl_quiet : quiet w';
  dl_wf : wf (w_db w');
  dl_tables : set_outbox ∅ (w_db w') = set_outbox ∅ (w_db w);
  dl_rest : pending_events (w_db w') = rest;
  dl_hub : hub_ok (w_hub w');
  dl_clients : h_clients (w_hub w') = h_clients (w_hub w);
  dl_heap p c : h_heap (w_hub w) !! p = Some c →
    h_heap (w_hub w') !! p = Some (receive (w_db w) (w_hub w) recs p c)
}.

Lemma enqueue_all_user l c : c_userID (enqueue_all l c) = c_userID c.
Proof. revert c. induction l as [|b l IH]; intros c; [done|]. simpl. by rewrite IH, enqueue_user. Qed.

Lemma receive_user d h recs p c : c_userID (receive d h recs p c) = c_userID c.
Proof. unfold receive. case_decide; [apply enqueue_all_user|done]. Qed.

Lemma receive_app d h recs1 recs2 p c :
  receive d h (recs1 ++ recs2) p c = receive d h recs2 p (receive d h recs1 p c).
Proof.
  unfold receive at 2. rewrite receive_user. unfold receive. case_decide; [|done].
  unfold inbox, enqueue_all. by rewrite filter_app, fmap_app, foldl_app.
Qed.

Lemma receive_ext d d' h h' recs p c :
  db_members d' = db_members d → h_clients h' = h_clients h → receive d' h' recs p c = receive d h recs p c.
Proof.
  intros Hm Hc. unfold receive, user_set. rewrite Hc. case_decide; [|done]. unfold inbox. do 2 f_equal.
  apply list_filter_iff. intros rec. unfold addressed. by rewrite Hm.
Qed.

Lemma tables_members d d' : set_outbox ∅ d' = set_outbox ∅ d → db_members d' = db_members d.
Proof. intros H. by apply (f_equal db_members) in H. Qed.

Lemma delivered_trans recs1 recs2 rest1 rest2 w w1 w2 :
  delivered recs1 rest1 w w1 → delivered recs2 rest2 w1 w2 → delivered (recs1 ++ recs2) rest2 w w2.
Proof.
  intros [_ _ Ht1 _ _ Hc1 Hp1] [? ? Ht2 ? ? Hc2 Hp2]. split; [done|done|congruence|done|done|congruence|].
  intros p c Hc. rewrite (Hp2 p _ (Hp1 p c Hc)), receive_app. f_equal.
  apply receive_ext; [by apply tables_members|done].
Qed.

(** ** The relay without Kafka *)
Section local.
Context {G : UuidGen} {GL : UuidGenLaws G} {K : KafkaBroker}.

Definition local_relay (k : option bool) (metrics : bool) : OutboxRelay := mkRelay k true false metrics.
Abbreviation deliver := (DeliverEnvelopeBytes true).

(** Delivering in a quiet world succeeds. *)
Lemma deliver_quiet chat payload w :
  quiet w → canonical chat →
  deliver chat payload w
  = (Ok (), set_hub (fan_out payload (cm_UserID <$> members_of (w_db w) chat) (w_hub w)) (bump_ids w)).
Proof.
  intros Hq Hc. unfold DeliverEnvelopeBytes, deliverPayload. cbn [negb].
  assert (chats_GetChatMembers chat w = (Ok (members_of (w_db w) chat), bump_ids w)) as Hcall.
  { unfold chats_GetChatMembers, pg_chat_repository, pg_GetChatMembers. rewrite call_quiet by done.
    unfold select_members, cast_uuid, mbind, eff_bind, of_result, get_state, mret, eff_ret.
    rewrite uuid_in_canonical by done. by destruct w. }
  rewrite (bind_ok _ _ _ _ _ Hcall). by rewrite send_all_run.
Qed.

Lemma receive_one d h rec chat p c :
  ob_chat_id rec = Some chat → wf d →
  receive d h [rec] p c
  = if decide (reached (cm_UserID <$> members_of d chat) h p c) then enqueue (rec_envelope rec) c else c.
Proof.
  intros Hc Hwf. unfold receive, inbox, reached.
  assert (addressed d (c_userID c) rec ↔ c_userID c ∈ cm_UserID <$> members_of d chat) as Ha
    by (unfold addressed; rewrite Hc; symmetry; by apply elem_of_members_of).
  destruct (decide (addressed d (c_userID c) rec)) as [Hin|Hout].
  - rewrite filter_cons_True by done. repeat case_decide; tauto || done.
  - rewrite filter_cons_False by done. repeat case_decide; tauto || done.
Qed.

Lemma publish_local k b rec msg w :
  quiet w → wf (w_db w) → hub_ok (w_hub w) → deliverable rec →
  ∃ w1, publish_row deliver (local_relay k b) (outbox_row rec) msg w = (Ok (), w1)
    ∧ quiet w1 ∧ w_db w1 = w_db w ∧ hub_ok (w_hub w1) ∧ h_clients (w_hub w1) = h_clients (w_hub w)
    ∧ ∀ p c, h_heap (w_hub w) !! p = Some c →
        h_heap (w_hub w1) !! p = Some (receive (w_db w) (w_hub w) [rec] p c).
Proof.
  intros Hq Hwf Hh [_ Hcan]. unfold publish_row. cbn [local_relay rl_UseKafka rl_Fallback outbox_row row_ChatID].
  destruct (ob_chat_id rec) as [chat|] eqn:Ec.
  - specialize (Hcan chat eq_refl). eexists. split; [by apply deliver_quiet|].
    destruct (fan_out_spec (rec_envelope rec) (cm_UserID <$> members_of (w_db w) chat) (w_hub w)) as (H1 & H2 & H3);
      [by apply NoDup_members_of|done|]. split_and!; [done..|].
    intros p c Hc. rewrite (receive_one _ _ _ chat) by done. by apply H3.
  - exists w. split_and!; [done..|]. intros p c Hc. rewrite Hc. f_equal. unfold receive, inbox.
    rewrite filter_cons_False; [by case_decide|]. unfold addressed. rewrite Ec. tauto.
Qed.

Lemma inc_if_quiet b c w :
  ∃ w', inc_if b c w = (Ok (), w') ∧ w_db w' = w_db w ∧ w_sched w' = w_sched w ∧ w_hub w' = w_hub w.
Proof. destruct b; eexists; split; done. Qed.

Lemma relay_row_wf r row w x w' :
  quiet w → wf (w_db w) → relay_row deliver r row w = (x, w') → wf (w_db w').
Proof.
  intros Hq Hwf Hrun. assert (env evolves w) as He by (unfold env; rewrite Hq; constructor).
  destruct (hguar_relay_rows (R := evolves) r [row] w x w' He) as [Hev _]; [|by apply (ev_wf _ _ Hev)].
  cbn [relay_rows]. unfold mbind, eff_bind. rewrite Hrun. by destruct x as [[]|].
Qed.

Lemma relay_row_local k b rec rest w :
  quiet w → wf (w_db w) → hub_ok (w_hub w) → pending_events (w_db w) = rec :: rest → deliverable rec →
  ∃ w', relay_row deliver (local_relay k b) (outbox_row rec) w = (Ok (), w') ∧ delivered [rec] rest w w'.
Proof.
  intros Hq Hwf Hh Hp Hd. pose proof (wf_outbox _ Hwf) as Hok.
  destruct (pending_mark _ _ _ (pg_time (w_now w)) Hok Hp) as (_ & Hrec & Hpend).
  destruct (relay_row deliver (local_relay k b) (outbox_row rec) w) as [r w'] eqn:Hrun.
  pose proof (relay_row_wf _ _ _ _ _ Hq Hwf Hrun) as Hwf'. unfold relay_row in Hrun. fold (rec_event rec) in Hrun.
  pose proof (proj1 Hd) as Hs. unfold sendable in Hs. destruct (event_Marshal (rec_event rec)) as [msg|e]; [|done].
  destruct (publish_local k b rec msg w Hq Hwf Hh Hd) as (w1 & Hpub & Hq1 & Hd1 & Hh1 & Hc1 & Hp1).
  erewrite bind_ok in Hrun by (unfold attempt; rewrite Hpub; reflexivity). cbv beta iota in Hrun.
  destruct (inc_if_quiet b RelayPubOK w1) as (w2 & Hinc & Hd2 & Hs2 & Hh2).
  erewrite bind_ok in Hrun by exact Hinc.
  assert (quiet w2) as Hq2 by (unfold quiet; by rewrite Hs2).
  assert (w_db w2 = w_db w) as Hdb by (by rewrite Hd2).
  assert (pg_MarkPublished (ob_id rec) w2
          = (Ok (), set_db (set_outbox (<[ob_id rec := set_published (pg_time (w_now w2)) rec]> (db_outbox (w_db w2))) (w_db w2))
                           (bump_ids w2))) as Hmark.
  { unfold pg_MarkPublished. rewrite call_quiet by done. unfold update_published, mbind, eff_bind, get_state.
    by rewrite Hdb, Hrec, Hpend. }
  erewrite bind_ok in Hrun by (unfold attempt, outbox_MarkPublished, pg_outbox_repository; cbn [row_ID outbox_row]; rewrite Hmark; reflexivity).
  injection Hrun as <- <-. eexists. split; [reflexivity|].
  destruct (pending_mark _ _ _ (pg_time (w_now w2)) Hok Hp) as (Hrest & _ & _).
  split; simpl; rewrite ?Hdb, ?Hh2; try done.
  simpl in Hwf'. by rewrite Hdb in Hwf'.
Qed.

Lemma delivered_nil rest w :
  quiet w → wf (w_db w) → hub_ok (w_hub w) → pending_events (w_db w) = rest → delivered [] rest w w.
Proof. intros. split; try done. intros p c Hc. rewrite Hc. f_equal. unfold receive. by case_decide. Qed.

Lemma relay_rows_local k b recs rest w :
  quiet w → wf (w_db w) → hub_ok (w_hub w) → pending_events (w_db w) = recs ++ rest → Forall deliverable recs →
  ∃ w', relay_rows deliver (local_relay k b) (outbox_row <$> recs) w = (Ok (), w') ∧ delivered recs rest w w'.
Proof.
  revert w. induction recs as [|rec recs IH]; intros w Hq Hwf Hh Hp Hall.
  - exists w. split; [done|]. by apply delivered_nil.
  - apply Forall_cons in Hall as [Hd Hall].
    destruct (relay_row_local k b rec (recs ++ rest) w Hq Hwf Hh Hp Hd) as (w1 & Hrun & Hd1).
    destruct (IH w1) as (w2 & Hrun2 & Hd2); [by destruct Hd1..|].
    exists w2. cbn [fmap list_fmap relay_rows]. split; [by rewrite (bind_ok _ _ _ _ _ Hrun)|].
    by apply (delivered_trans [rec] recs (recs ++ rest) rest w w1 w2).
Qed.

Lemma tick_local k b w :
  quiet w → wf (w_db w) → hub_ok (w_hub w) → Forall deliverable (pending_events (w_db w)) →
  ∃ w', tick deliver (local_relay k b) w = (Ok (), w')
        ∧ delivered (take 100 (pending_events (w_db w))) (drop 100 (pending_events (w_db w))) w w'.
Proof.
  intros Hq Hwf Hh Hall. unfold tick.
  destruct (inc_if_quiet b RelayIter w) as (w1 & Hinc & Hd1 & Hs1 & Hh1).
  erewrite bind_ok by exact Hinc. assert (quiet w1) as Hq1 by (unfold quiet; by rewrite Hs1).
  assert (attempt (outbox_FetchPending relay_batch) w1
          = (Ok (Ok (outbox_row <$> take 100 (pending_events (w_db w)))), bump_ids w1)) as Hf.
  { unfold attempt, outbox_FetchPending, pg_outbox_repository, pg_FetchPending. rewrite call_quiet by done.
    unfold select_pending, mbind, eff_bind, get_state, mret, eff_ret. rewrite <- Hd1. by destruct w1. }
  erewrite bind_ok by exact Hf. cbv beta iota.
  destruct (relay_rows_local k b (take 100 (pending_events (w_db w))) (drop 100 (pending_events (w_db w)))
              (bump_ids w1)) as (w2 & Hrun & Hd2).
  - done.
  - simpl. by rewrite Hd1.
  - simpl. by rewrite Hh1.
  - simpl. by rewrite Hd1, take_drop.
  - by apply Forall_take.
  - exists w2. split; [exact Hrun|]. destruct Hd2 as [? ? Ht ? ? Hc Hp]. simpl in Ht, Hc, Hp.
    rewrite Hd1, Hh1 in *. by split.
Qed.
End local.

(** The event a writer appends is the last of the pending ones. *)
Lemma pending_appended d d' ev :
  wf d → appended d d' ev → ob_published_at ev = None → pending_events d' = pending_events d ++ [ev].
Proof.
  intros Hwf (Hnew & Hd' & Hid & _) Hpub.
  assert (pending ev = true) as Hpend by (unfold pending; by rewrite Hpub).
  assert (pending_events d' ≡ₚ pending_events d ++ [ev]) as Hperm.
  { unfold pending_events. rewrite Hd', !merge_sort_Permutation, map_to_list_insert by done.
    cbn [fmap list_fmap snd]. rewrite filter_cons_True by done. by rewrite Permutation_app_comm. }
  assert (∀ rec, rec ∈ pending_events d → ob_id rec < ob_id ev) as Hlt.
  { intros rec (_ & k & Hk)%elem_of_pending. destruct (wf_outbox _ Hwf k rec Hk) as [<- ?]. lia. }
  apply (StronglySorted_unique_strong by_id).
  - intros r1 r2 H1 H2 Hle1 Hle2. unfold by_id in *. rewrite Hperm, elem_of_app in H1. rewrite elem_of_app in H2.
    rewrite list_elem_of_singleton in H1, H2. destruct H1 as [H1| ->], H2 as [H2| ->]; [|apply Hlt in H1; lia|apply Hlt in H2; lia|done].
    apply elem_of_pending in H1 as (_ & k1 & H1). apply elem_of_pending in H2 as (_ & k2 & H2).
    destruct (wf_outbox _ Hwf _ _ H1) as [<- _]. destruct (wf_outbox _ Hwf _ _ H2) as [<- _].
    assert (ob_id r1 = ob_id r2) as He by lia. congruence.
  - apply StronglySorted_merge_sort; apply _.
  - apply StronglySorted_app. split_and!; [|apply StronglySorted_merge_sort; apply _|repeat constructor].
    intros r1 r2 H1%Hlt ->%list_elem_of_singleton. unfold by_id. lia.
  - done.
Qed.

(** ** The server without Kafka *)
Section server.
Context {P : Prometheus} {G : UuidGen} {GL : UuidGenLaws G} {B : Bcrypt} {J : Jwt} {RN : Rand} {RS : RedisServer} {K : KafkaBroker}.
Context {L : RateLimiter} {U : Upgrader}.
Variables (cfg : Config) (openAPISpec swaggerHTML : string) (scrape : samples → reply).
Abbreviation run_server := (Server.run_server cfg openAPISpec swaggerHTML scrape).

(** [n] ticks deliver any 100 * n pending events. *)
Lemma ticks_local n s :
  let w := sv_world s in
  kc_Enabled (cf_Kafka cfg) = false → quiet w → wf (w_db w) → hub_ok (w_hub w) →
  Forall deliverable (pending_events (w_db w)) →
  delivered (take (n * 100) (pending_events (w_db w))) (drop (n * 100) (pending_events (w_db w)))
    w (sv_world (run_server (replicate n DoTick) s)).
Proof.
  intros w Hk. subst w. revert s. induction n as [|n IH]; intros s Hq Hwf Hh Hall; [by apply delivered_nil|].
  cbn [replicate]. unfold Server.run_server. cbn [foldl]. fold (run_server (replicate n DoTick)).
  destruct (tick_local None app_metrics (sv_world s) Hq Hwf Hh Hall) as (w1 & Hrun & Hd1).
  assert (Server.act cfg openAPISpec swaggerHTML scrape DoTick s = set_world w1 s) as ->.
  { cbn [Server.act]. rewrite app_relay_eq, Hk. unfold on_site_world, app_deliver. unfold local_relay in Hrun. by rewrite Hrun. }
  specialize (IH (set_world w1 s)). cbn [set_world sv_world] in IH. rewrite (dl_rest _ _ _ _ Hd1) in IH.
  rewrite <- (take_take_drop _ 100 (n * 100)). replace (S n * 100)%nat with (100 + n * 100)%nat by lia.
  rewrite <- drop_drop. eapply delivered_trans; [exact Hd1|].
  apply IH; [by destruct Hd1..|]. by apply Forall_drop.
Qed.

(** A post leaves the hub and the schedule alone. *)
Lemma Create_world actor raw req w dto w1 :
  quiet w → wf (w_db w) → Create app_writer app_metrics actor raw req w = (Ok dto, w1) →
  quiet w1 ∧ wf (w_db w1) ∧ w_hub w1 = w_hub w.
Proof.
  intros Hq Hwf Hrun. assert (env evolves w) as He by (unfold env; rewrite Hq; constructor).
  destruct (sv_msgs (R := evolves) actor (MCreate raw req) w (Ok ()) w1 He) as [Hev Hl].
  { cbn [run_msg]. by rewrite (bind_ok _ _ _ _ _ Hrun). }
  split_and!; [|by apply (ev_wf _ _ Hev)|by apply later_hub].
  assert (Forall (λ _, False) (w_sched w1)) as Hno by (apply (later_sched _ _ _ Hl); rewrite Hq; constructor).
  unfold quiet. destruct (w_sched w1); [done|]. by apply Forall_cons in Hno as [[] _].
Qed.

(** C32.  End to end: a message posted (over HTTP or a WebSocket) while
    nothing fails, on a server without Kafka, is delivered by the next
    ticks of the relay.  After enough of them to drain what was pending, the
    message is in the tables, nothing is pending, and every connection
    registered for a member of the chat has been queued (as far as its queue
    has room) first the earlier events of its chats, in their order, and
    then, once, the envelope message.created with the row stored; a
    connection of anyone else is queued nothing of this message. *)
Theorem message_delivered actor raw req s dto w1 n :
  let w := sv_world s in
  kc_Enabled (cf_Kafka cfg) = false → wf (w_db w) → quiet w → hub_ok (w_hub w) →
  Create app_writer app_metrics actor raw req w = (Ok dto, w1) →
  Forall deliverable (pending_events (w_db w)) → Forall sendable (pending_events (w_db w1)) →
  (length (pending_events (w_db w)) < n * 100)%nat →
  let w2 := sv_world (run_server (replicate n DoTick) (set_world w1 s)) in
  let before := receive (w_db w) (w_hub w) (pending_events (w_db w)) in
  ∃ row j,
    dto = toMessageDTO row ∧ db_messages (w_db w2) !! msg_ID row = Some row ∧ encodeMessageWireJSON row = Ok j
    ∧ pending_events (w_db w2) = []
    ∧ ∀ p c, h_heap (w_hub w) !! p = Some c →
        h_heap (w_hub w2) !! p
        = Some (if decide (p ∈ user_set (c_userID c) (w_hub w)
                           ∧ is_Some (db_members (w_db w) !! (msg_ChatID row, c_userID c)))
                then enqueue (local_envelope EventMessageCreated (to_jsonb j)) (before p c) else before p c).
Proof.
  intros w Hk Hwf Hq Hh Hrun Hback Hsend Hn w2 before.
  destruct (Create_world _ _ _ _ _ _ Hq Hwf Hrun) as (Hq1 & Hwf1 & Hhub).
  apply Create_Ok in Hrun as (_ & _ & reply & row & eid & at_ & _ & Hc & ->); [|by apply quiet_undisturbed].
  destruct Hc as (c0 & ev & j & (Hchat & _) & _ & Hmsgs & _ & _ & Happ & Hev & Hj & _ & _ & Hmem & _).
  apply (recorded_appended False) in Happ; [|tauto].
  destruct Hev as (_ & Htype & _ & Hevchat & _ & Hload & Hpub). simpl in Hchat, Htype, Hevchat, Hj.
  assert (ob_chat_id ev = Some (msg_ChatID row)) as Hec.
  { unfold cast_uuid_opt, cast_uuid in Hevchat. rewrite Hchat in Hevchat. by injection Hevchat as <-. }
  assert (pending_events (w_db w1) = pending_events (w_db w) ++ [ev]) as Hpend by (by apply pending_appended).
  assert (Forall deliverable (pending_events (w_db w1))) as Hall.
  { rewrite Hpend in *. apply Forall_app in Hsend as [_ Hs]. rewrite Forall_singleton in Hs. apply Forall_app. split; [done|].
    apply Forall_singleton. split; [exact Hs|]. rewrite Hec. intros c [= <-]. exact (uuid_in_is_canonical _ _ Hchat). }
  destruct (ticks_local n (set_world w1 s) Hk Hq1 Hwf1) as [_ _ Ht Hrest _ _ Hheap]; [cbn [set_world sv_world]; by rewrite Hhub|done|].
  cbn [set_world sv_world] in Ht, Hrest, Hheap. fold w2 in Ht, Hrest, Hheap.
  assert (length (pending_events (w_db w1)) ≤ n * 100)%nat as Hlen by (rewrite Hpend, length_app; simpl; lia).
  rewrite take_ge in Hheap by done. rewrite drop_ge in Hrest by done.
  exists row, j. split; [done|]. split.
  { pose proof (f_equal db_messages Ht) as Hm. simpl in Hm. rewrite Hm, Hmsgs. apply lookup_insert_eq. }
  split_and!; [done..|]. intros p c Hc. rewrite Hhub in Hheap. rewrite (Hheap p c Hc), Hpend, receive_app.
  rewrite !(receive_ext (w_db w) (w_db w1) (w_hub w)) by done. f_equal. fold (before p c).
  assert (c_userID (before p c) = c_userID c) as Hu by apply receive_user.
  unfold receive. rewrite Hu. unfold inbox.
  assert (rec_envelope ev = local_envelope EventMessageCreated (to_jsonb j)) as Henv by (unfold rec_envelope; by rewrite Htype, Hload).
  destruct (decide (addressed (w_db w) (c_userID c) ev)) as [Hin|Hout]; unfold addressed in *; rewrite Hec in *.
  - rewrite filter_cons_True by (by rewrite Hec). cbn [fmap list_fmap filter list_filter enqueue_all foldl].
    rewrite Henv. repeat case_decide; tauto || done.
  - rewrite filter_cons_False by (by rewrite Hec). repeat case_decide; tauto || done.
Qed.
End server.

(** ** Witness: two events are pending when alice posts; bob is a member of
    the chat, carol is not. *)
Definition local_app : Config :=
  mkConfig "8080" "postgres://db" "redis:6379" demo_cfg (mkRateLimits 60 20 120 30)
    (mkKafkaConfig false "" "" "") (mkWSConfig [] 120) false (mkObservability "goflow" "test" "json").
Definition local_start : server := start local_app (set_hub demo_hub (demo_world outbox_db [])).

Lemma outbox_db_deliverable : Forall deliverable (pending_events outbox_db).
Proof.
  apply Forall_forall. intros rec Hrec. split.
  - pose proof outbox_db_sendable as H. rewrite Forall_forall in H. by apply H.
  - apply elem_of_pending in Hrec as (_ & k & Hk). unfold outbox_db in Hk. simpl in Hk.
    intros c Hc. assert (rec = demo_rec 1 alice "one" ∨ rec = demo_rec 2 bob "two") as Hrec.
    { apply lookup_insert_Some in Hk as [[_ <-]|[_ [_ <-]%lookup_singleton_Some]]; auto. }
    destruct Hrec as [-> | ->]; injection Hc as <-; apply demo_canonical.
Qed.

Lemma message_delivered_witness :
  let w2 := sv_world (Server.run_server local_app "" "" demo_scrape [DoTick]
              (set_world (Create app_writer app_metrics alice chat1 demo_text (sv_world local_start)).2 local_start)) in
  pending_events (w_db w2) = []
  ∧ (length ∘ c_send <$> h_heap (w_hub w2) !! 3%nat) = Some 3%nat
  ∧ (c_send <$> h_heap (w_hub w2) !! 4%nat) = Some [].
Proof.
  assert (is_ok (Create app_writer app_metrics alice chat1 demo_text (sv_world local_start)).1 = true) as Hok
    by (vm_compute; reflexivity).
  destruct (Create app_writer app_metrics alice chat1 demo_text (sv_world local_start)) as [[dto|e] w1] eqn:E;
    [|discriminate Hok].
  assert (forallb (λ r, is_ok (event_Marshal (rec_event r)))
            (pending_events (w_db (Create app_writer app_metrics alice chat1 demo_text (sv_world local_start)).2)) = true) as Hs
    by (vm_compute; reflexivity).
  rewrite E in Hs. cbn [snd] in *.
  destruct (message_delivered local_app "" "" demo_scrape alice chat1 demo_text local_start dto w1 1)
    as (row & j & _ & _ & _ & Hp & _).
  - reflexivity.
  - exact outbox_db_wf.
  - reflexivity.
  - exact demo_hub_ok.
  - exact E.
  - exact outbox_db_deliverable.
  - apply Forall_forall. intros r Hr. rewrite forallb_forall in Hs. exact (Hs r (proj1 (list_elem_of_In _ r) Hr)).
  - vm_compute. lia.
  - split; [exact Hp|].
    replace w1 with (Create app_writer app_metrics alice chat1 demo_text (sv_world local_start)).2 by (by rewrite E).
    split; vm_compute; reflexivity.
Defined.
