(* ===== verification/HttpTheorems.v ===== *)
(** * Theorems on the HTTP layer

    What decodeJSON accepts, which requests get past the authentication,
    and what the middleware does to a WebSocket upgrade. *)

From stdpp Require Import base strings gmap list.
From S2P Require Import Prelude GoStrings Utf8 Json JsonCodec JsonRoundtrip JsonStruct Errors GoTime Domain Hub Metrics World Repository PgMessages PgChats PgUsers Guarantee Invariant Scenario Credentials AuthService Redis RedisTheorems WsTheorems Kafka RelayTheorems WsService Toys HttpJson DtoJson Http Handlers RateLimit RateLimitTheorems Router Steps SiteTheorems Config Wiring Server ServerTheorems.

(** ** Bodies *)
Lemma read_value_blank fuel s : skip_ws s = "" → read_value fuel s = None.
Proof. intros H. destruct fuel; [done|]. simpl. by rewrite H. Qed.

Lemma decode_next_uncut s :
  decode_next false s =
  if str_empty (skip_ws s) then EofHere
  else match read_value (S (2 * String.length s)) s with Some (j, rest) => ValueRead j rest | None => SyntaxHere end.
Proof. done. Qed.

Lemma decode_next_cut s : decode_next true s ≠ EofHere.
Proof. unfold decode_next. repeat case_match; done. Qed.

Lemma decode_next_eof s : decode_next false s = EofHere ↔ str_empty (skip_ws s) = true.
Proof. rewrite decode_next_uncut. repeat case_match; done. Qed.

Lemma decode_limited_Ok {T} limit (d : dto T) body x :
  decode_limited limit d body = Ok x ↔
  (N.of_nat (String.length body) ≤ limit)%N ∧ ∃ j, json_read body = Some j ∧ decode_into d j = Some x.
Proof.
  unfold decode_limited. destruct (N.ltb_spec limit (N.of_nat (String.length body))) as [Hcut|Hcut].
  - split; [|intros [? _]; lia].
    destruct (decode_next true _) as [j rest| | |]; try done. destruct (decode_into d j); [|done].
    pose proof (decode_next_cut rest). repeat case_match; done.
  - rewrite decode_next_uncut. unfold json_read.
    destruct (String.eqb_spec (skip_ws body) "") as [Hb|Hb].
    + rewrite read_value_blank by done. split; [done|]. by intros (_ & j & ? & _).
    + destruct (read_value _ body) as [[j rest]|]; [|split; [done|by intros (_ & j & ? & _)]]. cbn -[decode_next].
      destruct (str_empty (skip_ws rest)) eqn:Er.
      * rewrite (proj2 (decode_next_eof rest)) by done.
        destruct (decode_into d j) as [y|] eqn:Ed.
        -- split; [intros [= <-]; eauto|]. intros (_ & j' & [= <-] & Hd). by rewrite Ed in Hd; injection Hd as ->.
        -- split; [done|]. intros (_ & j' & [= <-] & Hd). by rewrite Ed in Hd.
      * assert (decode_next false rest ≠ EofHere) as Hne by (rewrite decode_next_eof, Er; done).
        split; [|by intros (_ & ? & ? & _)]. destruct (decode_into d j); [|done].
        destruct (decode_next false rest); repeat case_match; done.
Qed.

(** Every key names a field of the struct. *)
Definition keys_known {T} (d : dto T) (kvs : list (string * json)) : Prop :=
  ∀ key v, (key, v) ∈ kvs → ∃ f, f ∈ dto_fields d ∧ names_field f key = true.
Lemma keys_known_iff {T} (d : dto T) kvs : forallb (λ kv, known_field d kv.1) kvs = true ↔ keys_known d kvs.
Proof.
  unfold known_field, keys_known. rewrite forallb_forall. split.
  - intros Hk key v Hin%list_elem_of_In%Hk. apply existsb_exists in Hin as (f & Hf & Hn).
    exists f. split; [by apply list_elem_of_In|done].
  - intros Hk [key v] (f & Hf & Hn)%list_elem_of_In%Hk.
    apply existsb_exists. exists f. split; [by apply list_elem_of_In|done].
Qed.

(** Decoding a value into a struct. *)
Lemma decode_into_Some {T} (d : dto T) j x :
  decode_into d j = Some x ↔
  ∃ kvs, struct_members j = Some kvs ∧ keys_known d kvs ∧ dto_get d kvs = (x, true).
Proof.
  unfold decode_into. setoid_rewrite <- keys_known_iff.
  destruct (struct_members j) as [kvs|]; [|by split; [|intros (? & ? & _)]]. simpl.
  destruct (dto_get d kvs) as [y fit] eqn:Eg.
  split.
  - destruct (forallb _ kvs) eqn:Ek; [|done]. destruct fit; [|done]. intros [= <-]. eauto.
  - intros (kvs' & [= <-] & -> & Hg). assert (y = x ∧ fit = true) as [-> ->] by (split; congruence). done.
Qed.

(** C38.  The decoders accept a body exactly when it is within their limit
    and is one JSON document, an object (or null) each of whose keys names
    a field of the struct and whose values fit the fields; the result is
    the struct of these values.  Every other body, in particular one with a
    key that is no field's, is a validation error (HTTP 422). *)
Theorem decodeJSON_correct {T} limit (d : dto T) body :
  (∀ x, decode_limited limit d body = Ok x ↔
     (N.of_nat (String.length body) ≤ limit)%N ∧
     ∃ j kvs, json_read body = Some j ∧ struct_members j = Some kvs
       ∧ keys_known d kvs ∧ dto_get d kvs = (x, true))
  ∧ match decode_limited limit d body with Ok _ => True | Err e => HTTPStatus (Some e) = 422%Z end.
Proof.
  split.
  - intros x. rewrite decode_limited_Ok. setoid_rewrite decode_into_Some. naive_solver.
  - unfold decode_limited. cbv zeta. repeat case_match; simplify_eq; done.
Qed.

Definition register_members : list (string * json) :=
  [("email", JStr "dave@example.com"); ("nickname", JStr "dave"); ("password", JStr "correct horse")].
Definition register_json : json := JObj register_members.
Definition register_body : string := json_write register_json.
Definition register_body_admin : string := json_write (JObj (register_members ++ [("admin", JBool true)])).
Example decode_register :
  decodeJSON RegisterRequest_dto register_body = Ok (mkRegister "dave@example.com" "dave" "correct horse")
  ∧ decodeJSON RegisterRequest_dto (register_body +:+ " {}") = Err not_single
  ∧ decodeJSON LoginRequest_dto register_body = Err invalid_body
  ∧ decodeJSON LoginRequest_dto "null" = Ok (mkLogin "" "")
  ∧ decode_limited 20 RegisterRequest_dto register_body = Err body_too_large.
Proof. vm_compute. auto. Qed.

(** The registration is accepted; with a member the struct does not have
    it is refused. *)
Lemma decodeJSON_correct_witness :
  decode_limited maxAuthBodyBytes RegisterRequest_dto register_body
    = Ok (mkRegister "dave@example.com" "dave" "correct horse") ∧
  ¬ ∃ x, decode_limited maxAuthBodyBytes RegisterRequest_dto register_body_admin = Ok x.
Proof.
  split.
  - destruct (decodeJSON_correct maxAuthBodyBytes RegisterRequest_dto register_body) as [Hiff _]. apply Hiff.
    split; [apply N.leb_le; vm_compute; reflexivity|].
    exists register_json, register_members. split; [vm_compute; reflexivity|]. split; [reflexivity|].
    split; [apply keys_known_iff; vm_compute; reflexivity|reflexivity].
  - intros [x Hx].
    destruct (decodeJSON_correct maxAuthBodyBytes RegisterRequest_dto register_body_admin) as [Hiff _].
    apply Hiff in Hx. destruct Hx as (_ & j & kvs & Hj & Hk & Hf & _).
    vm_compute in Hj. injection Hj as <-. injection Hk as <-. apply keys_known_iff in Hf.
    vm_compute in Hf. discriminate Hf.
Defined.

(** ** The choice of a route *)
Example most_specific :
  let routes := [handle "GET /users/{id}" (L := toy_limiter) (λ _, mret (http_error 200 "id"));
                 handle "GET /users/me" (λ _, mret (http_error 200 "me"))] in
  let req m path := mkHttp m path [] [] "" "" [] true in
  (rt_Pattern <$> find_route routes (req "HEAD" ["users"; "me"])) = Some "GET /users/me"
  ∧ (rt_Pattern <$> find_route routes (req "GET" ["users"; "17"])) = Some "GET /users/{id}"
  ∧ find_route routes (req "GET" ["users"; ""]) = None
  ∧ allowed_methods routes (req "POST" ["users"; "me"]) = ["GET"; "HEAD"].
Proof. split_and!; vm_compute; reflexivity. Qed.

Section requests.
Context {L : RateLimiter}.

(** The server apart from its limiters, counters and random source. *)
Definition untouched (s s' : server) : Prop :=
  sv_open s' = sv_open s
  ∧ w_db (sv_world s') = w_db (sv_world s) ∧ w_hub (sv_world s') = w_hub (sv_world s)
  ∧ w_redis (sv_world s') = w_redis (sv_world s) ∧ w_kafka (sv_world s') = w_kafka (sv_world s)
  ∧ w_pubsub (sv_world s') = w_pubsub (sv_world s) ∧ w_now (sv_world s') = w_now (sv_world s)
  ∧ w_sched (sv_world s') = w_sched (sv_world s).
#[export] Instance untouched_preorder : PreOrder untouched.
Proof.
  split; [done|]. intros s1 s2 s3 H1 H2. unfold untouched in *. intuition congruence.
Qed.

Definition quietly {A} (m : site A) : Prop := ∀ s, untouched s (m s).2.
Lemma quietly_ask name r : quietly (ask_limiter name r).
Proof. intros s. unfold ask_limiter. destruct (_ !! _); [destruct (allow_ip _ _ _)|]; done. Qed.

Lemma ask_limiter_Ok name r s : ∃ ok s', ask_limiter name r s = (Ok ok, s') ∧ untouched s s'.
Proof.
  pose proof (quietly_ask name r s) as H. revert H. unfold ask_limiter.
  destruct (_ !! _); [destruct (allow_ip _ _ _)|]; intros H; eauto.
Qed.

(** ** Routes behind RequireBearerAuth *)
Context {J : Jwt}.
Inductive guarded (secret : string) : site_handler → Prop :=
| guarded_auth h : guarded secret (world_handler (RequireBearerAuth secret h))
| guarded_limit name h : guarded secret h → guarded secret (chainLimit name h).

Definition unauthenticated (secret : string) (r : http_request) (now : Time) : Prop :=
  let raw := bearerToken (header_get "Authorization" r) in
  raw = "" ∨ ∃ e, ParseAccessToken secret raw now = Err e.

Definition refused (x : result error reply) (s s' : server) : Prop :=
  untouched s s' ∧ ∃ rep, x = Ok rep ∧ (rp_Status rep = 401 ∨ rp_Status rep = 429)%Z.

Lemma guarded_refuses secret h r s x s' :
  guarded secret h → unauthenticated secret r (w_now (sv_world s)) → h r s = (x, s') → refused x s s'.
Proof.
  intros Hg. revert s. induction Hg as [h|name h _ IH]; intros s Hu Hrun.
  - unfold world_handler, on_world, RequireBearerAuth in Hrun.
    destruct (String.eqb_spec (bearerToken (header_get "Authorization" r)) "") as [He|He].
    + injection Hrun as <- <-. split; [done|]. eexists. split; [done|]. by left.
    + destruct Hu as [?|[e Hp]]; [done|]. unfold mbind, eff_bind, time_now in Hrun. rewrite Hp in Hrun.
      injection Hrun as <- <-. split; [done|]. eexists. split; [done|]. by left.
  - unfold chainLimit, mbind, eff_bind in Hrun.
    destruct (ask_limiter_Ok name r s) as (ok & s1 & E & Hs1). rewrite E in Hrun. destruct ok.
    + apply IH in Hrun as [? ?]; [|by destruct Hs1 as (_ & _ & _ & _ & _ & _ & -> & _)].
      split; [by etransitivity|done].
    + injection Hrun as <- <-. split; [done|]. eexists. split; [done|]. by right.
Qed.

(** The chain keeps the refusal of a request whose labels are UTF-8. *)
Lemma chain_refuses {P : Prometheus} {PL : PrometheusLaws P} `{RD : Rand} met routes r s x s' :
  ValidString (rq_Method r) = true → ValidString (route_label routes r) = true →
  (∀ r' s1 y s2, rq_Header r' = rq_Header r → find_route routes r' = find_route routes r →
     w_now (sv_world s1) = w_now (sv_world s) → ServeMux routes r' s1 = (y, s2) → refused y s1 s2) →
  Chain met routes r s = (x, s') → refused x s s'.
Proof.
  intros Hm Hl Hmux. unfold Chain.
  assert (∀ r' s1 y s2, rq_Header r' = rq_Header r → find_route routes r' = find_route routes r →
     w_now (sv_world s1) = w_now (sv_world s) → Logging (Recovery (ServeMux routes)) r' s1 = (y, s2) →
     refused y s1 s2) as Hlog.
  { intros r' s1 y s2 Hh Hf Hn. unfold Logging.
    assert (∃ rid s3, (if str_empty (header_get "X-Request-ID" r')
                       then b ← on_world rand_read; mret (hex_encode (take 8 b))
                       else mret (header_get "X-Request-ID" r')) s1 = (Ok rid, s3) ∧ untouched s1 s3)
      as (rid & s3 & Hrid & Hs3) by (destruct (str_empty _); do 2 eexists; (split; [reflexivity|done])).
    intros Hrun. unfold mbind at 1, eff_bind at 1 in Hrun. cbv zeta in Hrun. rewrite Hrid in Hrun.
    unfold Recovery, mbind, eff_bind, attempt in Hrun.
    destruct (ServeMux routes (set_hijacker false r') s3) as [z s4] eqn:Em.
    apply Hmux in Em as [Hu (rep & -> & Hst)]; [|done|done|].
    - injection Hrun as <- <-. split; [by etransitivity|]. eexists. split; [done|]. exact Hst.
    - destruct Hs3 as (_ & _ & _ & _ & _ & _ & -> & _). done. }
  destruct met; [|intros H; by eapply Hlog].
  intros (y & s2 & Hrun & H)%HTTPMiddleware_answers; [|done].
  apply Hlog in Hrun as [Hu (rep & -> & Hst)]; [|done..]. revert H. cbv zeta. rewrite Hl. intros [-> ->].
  split; [|eauto]. etransitivity; [|etransitivity; [exact Hu|]]; done.
Qed.
End requests.

Section app.
Context {P : Prometheus} {PL : PrometheusLaws P} {G : UuidGen} {B : Bcrypt} {J : Jwt} {RN : Rand} {RS : RedisServer} {K : KafkaBroker}.
Context {L : RateLimiter} {U : Upgrader}.
Variables (cfg : Config) (openAPISpec swaggerHTML : string) (scrape : samples → reply).
Abbreviation routes := (app_routes cfg openAPISpec swaggerHTML scrape).
Abbreviation site := (app_site cfg openAPISpec swaggerHTML scrape).

(** The routes that need no access token. *)
Definition public_routes : list string :=
  ["GET /openapi.yaml"; "GET /docs"; "GET /health"; "GET /metrics"; "POST /auth/register"; "POST /auth/login";
   "POST /auth/refresh"; "POST /auth/logout"; "GET /ws/connect"].

Definition access_secret : string := TrimSpace (jwt_Secret (cf_JWT cfg)).

Lemma rt_Pattern_handle p (h : site_handler) : rt_Pattern (handle p h) = p.
Proof. unfold handle. by repeat case_match. Qed.

(** The patterns of the routes are labels of their own. *)
Lemma app_routes_labels :
  Forall (λ rt, ValidString (rt_Method rt) && ValidString (TrimSpace (rt_Pattern rt))
                && negb (String.eqb (TrimSpace (rt_Pattern rt)) "unmatched") && negb (str_empty (TrimSpace (rt_Pattern rt)))
                = true) routes.
Proof.
  rewrite app_routes_eq, app_deps_eq. unfold Register, docs_Register, auth_routes, user_routes, chat_routes, message_routes.
  cbn [dp_Metrics dp_Auth dp_Users dp_Chats dp_Messages dp_WS dp_WSTicket dp_JWT app_metrics].
  destruct (app_redis cfg); cbn [app]; repeat (apply Forall_cons; split; [vm_compute; reflexivity|]); apply Forall_nil_2.
Qed.

Lemma matched_labels r rt :
  find_route routes r = Some rt → ValidString (rq_Method r) = true ∧ ValidString (route_label routes r) = true.
Proof.
  intros Hf. pose proof Hf as [Hin [vs Hmatch]]%find_route_elem.
  pose proof (proj1 (Forall_forall _ _) app_routes_labels rt Hin) as H.
  repeat (apply andb_true_iff in H as [H ?]). split.
  - revert Hmatch. unfold match_route, match_method.
    destruct (String.eqb_spec (rt_Method rt) (rq_Method r)) as [<-|]; [done|].
    destruct (String.eqb_spec (rt_Method rt) "GET"); [|done].
    by destruct (String.eqb_spec (rq_Method r) "HEAD") as [->|].
  - unfold route_label, routePattern. rewrite Hf. cbv zeta.
    destruct (str_empty _); [done|]. by destruct (String.eqb _ _).
Qed.

Lemma app_routes_guarded :
  Forall (λ rt, rt_Pattern rt ∈ public_routes ∨ guarded access_secret (rt_Handler rt)) routes.
Proof.
  rewrite app_routes_eq, app_deps_eq. unfold Register, docs_Register, auth_routes, user_routes, chat_routes, message_routes.
  cbn [dp_Metrics dp_Auth dp_Users dp_Chats dp_Messages dp_WS dp_WSTicket dp_JWT app_metrics].
  destruct (app_redis cfg); cbn [app];
    repeat (apply Forall_cons; split; [rewrite rt_Pattern_handle, rt_Handler_handle|]); try apply Forall_nil_2.
  all: first [ solve [right; unfold authed; cbn [dp_JWT]; repeat constructor]
             | left; unfold public_routes; set_solver ].
Qed.

(** C37.  Authentication: a request to any route but the public ones,
    without a bearer token or with one that is not a valid access token at
    that time, is answered 401 (or 429 when the route is rate limited) and
    changes nothing: not the tables, not the hub or the open connections,
    nothing in Redis or Kafka. *)
Theorem protected_routes r s rt x s' :
  find_route routes r = Some rt → rt_Pattern rt ∉ public_routes →
  unauthenticated access_secret r (w_now (sv_world s)) →
  site r s = (x, s') →
  untouched s s' ∧ ∃ rep, x = Ok rep ∧ (rp_Status rep = 401 ∨ rp_Status rep = 429)%Z.
Proof.
  intros Hfind Hpriv Hun. destruct (matched_labels _ _ Hfind). rewrite app_site_eq. apply chain_refuses; [done..|]. intros r' s1 y s2 Hh Hf Hn Hrun.
  unfold ServeMux in Hrun. rewrite Hf, Hfind in Hrun.
  apply find_route_elem in Hfind as [Hin _].
  pose proof (proj1 (Forall_forall _ _) app_routes_guarded rt Hin) as [?|Hg]; [done|].
  eapply guarded_refuses; [exact Hg| |exact Hrun].
  unfold unauthenticated, header_get. cbn [rq_Header set_path_values]. rewrite Hh, Hn. exact Hun.
Qed.

(** ** The samples of a request *)
Definition value (c : Collector) (vs : list string) (m : samples) : Z := default 0%Z (m !! (cl_Name c, vs)).
Lemma value_add c vs c' vs' n m :
  value c vs (add_sample c' vs' n m)
  = (value c vs m + if bool_decide (cl_Name c' = cl_Name c ∧ vs' = vs) then n else 0)%Z.
Proof.
  unfold value, add_sample. case_bool_decide as H.
  - destruct H as [<- <-]. by rewrite lookup_insert_eq.
  - rewrite lookup_insert_ne by (intros [= ? ?]; tauto). lia.
Qed.
Lemma value_http c vs m m' : is_http c = true → http_samples m' = http_samples m → value c vs m' = value c vs m.
Proof.
  intros Hc H. unfold value.
  by rewrite <- (http_samples_lookup c vs m'), <- (http_samples_lookup c vs m), H by done.
Qed.

(** C9.  Every request is answered and counted: whatever its handler does
    and whatever fails, exactly the samples of http_requests_total and of
    http_request_duration_seconds under its method, route and status class
    go up, by one, and the gauge of requests in flight is back at its
    value.  The exception is a request that matches no route and whose
    path is not UTF-8: the middleware panics on it, outside Recovery, so
    it gets no answer and is not counted, but leaves the gauge alone too. *)
Theorem request_counted {GL : UuidGenLaws G} r s x s' :
  ValidString (rq_Method r) = true → env evolves (sv_world s) → site r s = (x, s') →
  (is_ok x = false ↔ find_route routes r = None ∧ ValidString (stripHighCardinalityPath (url_path r)) = false)
  ∧ ∀ c vs, is_http c = true →
      value c vs (w_metrics (sv_world s'))
      = (value c vs (w_metrics (sv_world s)) +
         match x with
         | Ok rep => if bool_decide (cl_Name c ≠ cl_Name HTTPInflight ∧ vs = http_labels routes r (rp_Status rep)) then 1 else 0
         | Err _ => 0
         end)%Z.
Proof.
  intros Hm Hw. rewrite app_site_eq. unfold Chain, app_metrics. cbv iota. intros (y & s2 & Hrun & H)%HTTPMiddleware_answers; [|done].
  pose proof (Logging_answers (ServeMux routes) (set_hijacker false r) (bump HTTPInflight [] 1 s)) as (rep & s3 & Hans).
  rewrite Hans in Hrun. injection Hrun as <- <-.
  apply (sguar_Logging (R := evolves)) in Hans as [_ Hs]; [|apply app_routes_ok|done]. unfold same_http in Hs. simpl in Hs.
  assert (ValidString (route_label routes r) = false ↔
          find_route routes r = None ∧ ValidString (stripHighCardinalityPath (url_path r)) = false) as Hlab.
  { destruct (find_route routes r) as [rt|] eqn:Ef.
    - destruct (matched_labels _ _ Ef) as [_ ->]. split; [done|by intros [? _]].
    - unfold route_label, routePattern. rewrite Ef. cbn -[stripHighCardinalityPath]. split; [done|by intros [_ ?]]. }
  rewrite <- Hlab. revert H. cbv zeta. destruct (ValidString (route_label routes r)).
  - intros [-> ->]. split; [done|]. intros c vs Hc. cbn [bump sv_world set_world set_metrics w_metrics].
    rewrite !value_add, (value_http c vs _ _ Hc Hs), value_add.
    assert (cl_Name c ∈ cl_Name <$> http_collectors) as Hin by by apply is_http_spec.
    simpl in Hin. repeat (apply elem_of_cons in Hin as [->|Hin]); [..|by apply elem_of_nil in Hin].
    all: repeat case_bool_decide; simpl in *; try lia; naive_solver.
  - intros [Hx ->]. split; [done|]. intros c vs Hc. destruct x as [?|e]; [done|].
    cbn [bump sv_world set_world set_metrics w_metrics].
    rewrite value_add, (value_http c vs _ _ Hc Hs), value_add. repeat case_bool_decide; lia.
Qed.

(** ** WebSocket upgrades

    Both statusRecorders hide the http.Hijacker of the ResponseWriter, so
    that behind the chain no upgrade succeeds. *)
Context {UL : UpgraderLaws U}.

Definition opens_nothing {A} (m : eff server error A) : Prop := ∀ s, sv_open (m s).2 = sv_open s.
Definition plain (h : site_handler) : Prop := ∀ r, rq_Hijacker r = false → opens_nothing (h r).

Lemma opens_nothing_bind {A A'} (m : eff server error A) (k : A → eff server error A') :
  opens_nothing m → (∀ a, opens_nothing (k a)) → opens_nothing (m ≫= k).
Proof.
  intros Hm Hk s. specialize (Hm s). unfold mbind, eff_bind. destruct (m s) as [[a|e] s1]; [|done].
  simpl in Hm. by rewrite Hk.
Qed.
Lemma opens_nothing_world {A} (m : M A) : opens_nothing (on_world m).
Proof. intros s. unfold on_world. by destruct (m _). Qed.
Lemma opens_nothing_attempt {A} (m : eff server error A) : opens_nothing m → opens_nothing (attempt m).
Proof. intros H s. specialize (H s). unfold attempt. by destruct (m s). Qed.

Lemma plain_world h : plain (world_handler h).
Proof. intros r _. apply opens_nothing_world. Qed.
Lemma plain_limit name h : plain h → plain (chainLimit name h).
Proof.
  intros H r Hr. apply opens_nothing_bind; [intros s; apply (quietly_ask name r s)|].
  intros []; [by apply H|done].
Qed.
Lemma plain_connect t p m a : plain (ws_connect t p m a).
Proof.
  intros r Hr s. unfold ws_connect. destruct (upgrade r) as [rep|] eqn:E; [|by apply upgrade_needs_hijacker in E].
  rewrite bool_decide_false by done.
  destruct (ServeHTTP t p m a _ _ false (sv_world s)) as [[[| |uid q]|e] w] eqn:Eo; try done.
  exfalso. revert Eo. unfold ServeHTTP. destruct (negb _); [done|]. destruct t; [|done]. cbv zeta.
  destruct (str_empty _); [done|]. intros (x & w1 & _ & Hrun)%bind_Ok_inv. destruct x; [|done].
  destruct (str_empty _); [done|]. by apply bind_Ok_inv in Hrun as (? & ? & _ & [= ]).
Qed.

Lemma app_routes_plain : Forall (λ rt, plain (rt_Handler rt)) routes.
Proof.
  rewrite app_routes_eq, app_deps_eq. unfold Register, docs_Register, auth_routes, user_routes, chat_routes, message_routes.
  cbn [dp_Metrics dp_Auth dp_Users dp_Chats dp_Messages dp_WS dp_WSTicket dp_JWT app_metrics].
  destruct (app_redis cfg); cbn [app];
    repeat (apply Forall_cons; split; [rewrite rt_Handler_handle|]); try apply Forall_nil_2.
  all: unfold authed.
  all: repeat first [apply plain_limit|apply plain_world|apply plain_connect].
Qed.

(** No request the server receives opens a WebSocket. *)
Lemma no_upgrade_through_chain r s : sv_open (site r s).2 = sv_open s.
Proof.
  assert (∀ r, opens_nothing (Logging (Recovery (ServeMux routes)) r)) as Hl.
  { intros r'. unfold Logging. apply opens_nothing_bind.
    - destruct (str_empty _); [|by intros ?]. apply opens_nothing_bind; [apply opens_nothing_world|by intros ? ?].
    - intros rid. apply opens_nothing_bind; [|by intros ? ?]. unfold Recovery.
      apply opens_nothing_bind; [|by intros ? ?]. apply opens_nothing_attempt.
      unfold ServeMux. destruct (find_route routes _) as [rt|] eqn:E; [|by destruct (allowed_methods _ _)].
      apply find_route_elem in E as [Hin _].
      by apply (proj1 (Forall_forall _ _) app_routes_plain rt Hin). }
  revert s. fold (opens_nothing (site r)). rewrite app_site_eq. unfold Chain, app_metrics. cbv iota.
  unfold HTTPMiddleware. cbv zeta.
  repeat first [apply Hl|apply opens_nothing_bind; [|intros ?]|apply opens_nothing_attempt|apply opens_nothing_world
               |by intros ?].
Qed.
End app.

#[export] Instance toy_upgrader_laws : UpgraderLaws toy_upgrader.
Proof. intros r H. unfold upgrade, toy_upgrader. by rewrite H. Qed.

(** A ticket is used up by the attempt that cannot succeed. *)
Definition connect_request : http_request :=
  mkHttp "GET" ["ws"; "connect"] [("ticket", demo_ticket)] [] "10.0.0.7:4711" "" [] true.
Example ticket_spent_for_nothing :
  let s := start demo_app demo_issued in
  let '(x, s') := app_site demo_app "" "" demo_scrape connect_request s in
  (match x with Ok rep => rp_Status rep = 500%Z | Err _ => False end)
  ∧ sv_open s' = ∅ ∧ size (w_redis (sv_world s')) = 0%nat ∧ size (w_redis (sv_world s)) = 1%nat.
Proof. vm_compute. split_and!; reflexivity. Qed.

Definition bad_get : http_request :=
  mkHttp "GET" ["users"; "me"] [] [("Authorization", "Bearer not.a.token")] "10.0.0.7:4711" "" [] true.
Lemma protected_routes_witness :
  let s := start demo_app demo in
  untouched s (app_site demo_app "" "" demo_scrape bad_get s).2.
Proof.
  intros s. destruct (app_site demo_app "" "" demo_scrape bad_get s) as [x s'] eqn:E.
  assert (rt_Pattern <$> find_route (app_routes demo_app "" "" demo_scrape) bad_get = Some "GET /users/me") as Hp
    by (vm_compute; reflexivity).
  destruct (find_route (app_routes demo_app "" "" demo_scrape) bad_get) as [rt|] eqn:Ef; [|discriminate Hp].
  injection Hp as Hp.
  apply (protected_routes demo_app "" "" demo_scrape bad_get s rt x s').
  - exact Ef.
  - rewrite Hp. vm_compute. intros H. inversion_clear H as [|? ? ? H1]. repeat (inversion_clear H1 as [|? ? ? H]; inversion_clear H as [|? ? ? H1]).
  - right. assert (is_ok (ParseAccessToken (access_secret demo_app) "not.a.token" (w_now (sv_world s))) = false) as H
      by (vm_compute; reflexivity).
    change (bearerToken _) with "not.a.token" .
    destruct (ParseAccessToken _ _ _) as [c|e]; [discriminate H|]. by exists e.
  - exact E.
Defined.

(** The refused request is counted as a 4xx. *)
Lemma request_counted_witness :
  let labels := ["GET"; "GET /users/me"; "4xx"] in
  ∃ s', (app_site demo_app "" "" demo_scrape bad_get (start demo_app demo)).2 = s'
        ∧ value HTTPRequests labels (w_metrics (sv_world s')) = 1%Z
        ∧ value HTTPInflight [] (w_metrics (sv_world s')) = 0%Z.
Proof.
  intros labels. eexists. split; [reflexivity|].
  assert (match (app_site demo_app "" "" demo_scrape bad_get (start demo_app demo)).1 with
          | Ok rep => http_labels (app_routes demo_app "" "" demo_scrape) bad_get (rp_Status rep) = labels
          | Err _ => False end) as Hx by (vm_compute; reflexivity).
  destruct (app_site demo_app "" "" demo_scrape bad_get (start demo_app demo)) as [x s'] eqn:E.
  destruct (request_counted demo_app "" "" demo_scrape bad_get (start demo_app demo) x s') as [_ H].
  - reflexivity.
  - apply undisturbed_guar; [apply _|]. apply quiet_undisturbed. vm_compute. reflexivity.
  - exact E.
  - destruct x as [rep|]; [|destruct Hx]. simpl in Hx.
    split; rewrite H by reflexivity; rewrite Hx; vm_compute; reflexivity.
Defined.

(** GET /%FF: the request of an unknown path that is not UTF-8 panics in
    the middleware, and the client gets no 404. *)
Example unknown_path_panics :
  let r := mkHttp "GET" [String (Ascii.ascii_of_nat 255) ""] [] [] "10.0.0.7:4711" "" [] true in
  is_ok (app_site demo_app "" "" demo_scrape r (start demo_app demo)).1 = false
  ∧ is_ok (Chain true [] (RD := toy_rand) (set_hijacker false r) (start demo_app demo)).1 = false
  ∧ is_ok (Chain false [] (RD := toy_rand) r (start demo_app demo)).1 = true.
Proof. vm_compute. auto. Qed.
