(* ===== verification/MainTheorems.v ===== *)
(** * What the process promises

    It serves only when everything it needs is there, and when a signal
    ends it no WebSocket connection stays open. *)

From stdpp Require Import base strings gmap sets list relations.
From S2P Require Import Prelude GoStrings Errors GoTime Domain Hub HubTheorems Metrics World Repository PgMessages PgChats PgUsers Guarantee Invariant Evolution Laws Calls Scenario Credentials AuthService Redis RedisTheorems Broadcaster Kafka Relay RelayTheorems WsService Toys RateLimit RateLimitTheorems Http Handlers Router Config Wiring Server ConfigTheorems Migration MigrationTheorems Steps SiteTheorems ServerTheorems HttpTheorems Main.

(** ** Connections stay closed *)
Definition closed_at (p : nat) (h : Hub) : Prop := ∃ c, h_heap h !! p = Some c ∧ c_closed c = true.

Lemma closed_alter (f : Client → Client) p q h :
  (∀ c, c_closed c = true → c_closed (f c) = true) → closed_at q h → closed_at q (on_client f p h).
Proof.
  intros Hf (c & Hc & Hcl). unfold closed_at, on_client. simpl. rewrite lookup_alter. case_decide as Hp; [|eauto].
  rewrite Hp, Hc. simpl. eauto.
Qed.

Lemma closed_enqueue payload c : c_closed c = true → c_closed (enqueue payload c) = true.
Proof. unfold enqueue. by destruct (_ <? _)%nat. Qed.

(** The marks [CloseAll] sets, and the ones it keeps. *)
Lemma close_all_fold (m : gmap ID (gset nat)) (heap : gmap nat Client) p :
  let heap' := map_fold (λ _ set heap, set_fold (λ p heap, alter close_client p heap) heap set) heap m in
  heap' !! p = heap !! p ∧ (∀ uid s, m !! uid = Some s → p ∉ s)
  ∨ heap' !! p = close_client <$> heap !! p.
Proof.
  simpl. apply (map_fold_weak_ind (λ heap' m,
    heap' !! p = heap !! p ∧ (∀ uid s, m !! uid = Some s → p ∉ s) ∨ heap' !! p = close_client <$> heap !! p)).
  - left. split; [done|]. intros uid s. by rewrite lookup_empty.
  - intros uid s m' heap' Hm IH. rewrite fold_alter_lookup. case_decide as Hp.
    + right. destruct IH as [[-> _]| ->]; [done|]. by destruct (heap !! p).
    + destruct IH as [[-> Hn]| ->]; [left|by right]. split; [done|]. intros u t.
      rewrite lookup_insert_Some. intros [[_ <-]|[_ ?]]; [done|by eapply Hn].
Qed.

Lemma closed_CloseAll p h :
  closed_at p h ∨ (is_Some (h_heap h !! p) ∧ ∃ uid, p ∈ user_set uid h) → closed_at p (CloseAll h).
Proof.
  intros H. pose proof (close_all_fold (h_clients h) (h_heap h) p) as Hf. simpl in Hf.
  unfold closed_at, CloseAll. simpl. destruct Hf as [[-> Hn]| ->].
  - destruct H as [?|[_ [uid Hu]]]; [done|]. exfalso. unfold user_set in Hu.
    destruct (h_clients h !! uid) as [s|] eqn:E; simpl in Hu; [|set_solver]. by apply (Hn uid s E).
  - assert (is_Some (h_heap h !! p)) as [c Hc] by (destruct H as [(c & -> & _)|[? _]]; eauto).
    rewrite Hc. simpl. eauto.
Qed.

Lemma hub_step_closed s s' p : hub_step s s' → closed_at p s.2 → closed_at p s'.2.
Proof.
  intros [q uid open h Hq|q uid open h Hq|uid payload open h|q payload open h|q payload open h|q open h|open h] H; simpl in *.
  - destruct H as (c & Hc & ?). exists c. split; [|done]. change (h_heap (Hub.Register q (newClient q uid h)) !! p = Some c).
    assert (h_heap (Hub.Register q (newClient q uid h)) = h_heap (newClient q uid h)) as -> by (unfold Hub.Register; by case_match).
    simpl. rewrite lookup_insert_ne; [done|]. intros ->. congruence.
  - destruct H as (c & Hc & ?). exists c. split; [|done]. unfold Unregister. by repeat case_match.
  - destruct H as (c & Hc & ?). unfold closed_at. rewrite SendToUser_lookup, Hc. case_decide; simpl; [|eauto].
    eexists. split; [done|]. by apply closed_enqueue.
  - apply closed_alter; [|done]. intros c. apply closed_enqueue.
  - by apply closed_alter.
  - apply closed_alter; [|done]. intros [u [|f l] wr b]; done.
  - apply closed_CloseAll. by left.
Qed.

Lemma hub_steps_closed s s' p : rtc hub_step s s' → closed_at p s.2 → closed_at p s'.2.
Proof. induction 1 as [|s1 s2 s3 H _ IH]; [done|]. intros Hc. by apply IH, (hub_step_closed _ _ _ H). Qed.

(** ** The phases of the process *)
Section process.
Context {P : Prometheus} {PL : PrometheusLaws P} {G : UuidGen} {GL : UuidGenLaws G} {B : Bcrypt} {J : Jwt} {RN : Rand} {RS : RedisServer} {K : KafkaBroker}.
Context {L : RateLimiter} {U : Upgrader} {UL : UpgraderLaws U}.
Variables (openAPISpec swaggerHTML : string) (scrape : samples → reply).
Context {Schema : Type} (exec_sql : string → Schema → result error Schema) (SQL : list dir_entry).
Context {PoolConfig : Type} (ParseConfig : string → result error PoolConfig).
Variable NewWithConfig : PoolConfig → result error ().
Variables (ping : string → result error ()) (close_writer : result error ()).
Variables (Getenv : string → string) (ReadFile : string → result error (option string)).
Variable Unmarshal : string → result error Config.
Abbreviation run_server cfg := (Server.run_server cfg openAPISpec swaggerHTML scrape).
Abbreviation act cfg := (Server.act cfg openAPISpec swaggerHTML scrape).
Abbreviation process := (Main.process (Schema := Schema)).
Abbreviation Run := (Main.Run openAPISpec swaggerHTML scrape close_writer).
Abbreviation main := (Main.main openAPISpec swaggerHTML scrape exec_sql SQL ParseConfig NewWithConfig ping
                        close_writer Getenv ReadFile Unmarshal).
Abbreviation server_ok := (server_ok (R := evolves)).
Implicit Types p : process.

(** All connections whose read loop runs are closed. *)
Definition all_closed (s : server) : Prop := ∀ q uid, sv_open s !! q = Some uid → closed_at q (w_hub (sv_world s)).
Definition opens (a : action) : Prop := match a with DoConnect _ _ _ => True | _ => False end.

Lemma end_opens_nothing cfg q s : sv_open (end_connection cfg q s) ⊆ sv_open s.
Proof.
  unfold end_connection, close_connection. simpl. etransitivity; [apply delete_subseteq|].
  unfold with_open. by destruct (sv_open s !! q).
Qed.
Lemma act_opens_nothing cfg a s : ¬ opens a → sv_open (act cfg a s) ⊆ sv_open s.
Proof.
  intros Hn. destruct a; try done; cbn [Server.act].
  - by rewrite no_upgrade_through_chain.
  - unfold read_turn. destruct (sv_open s !! p) as [uid|]; [|done].
    destruct (read_frame _ _ _ _ _ _) as [r w'].
    pose proof (end_opens_nothing cfg p (set_world w' s)) as Hend. by destruct r as [[]|].
  - apply end_opens_nothing.
Qed.

Lemma run_all_closed cfg acts s :
  env evolves (sv_world s) → Forall (λ a, ¬ opens a) acts → all_closed s → all_closed (run_server cfg acts s).
Proof.
  revert s. induction acts as [|a acts IH]; intros s Hw Hacts Hs; [done|]. apply Forall_cons in Hacts as [Ha Hacts].
  pose proof (act_ok (R := evolves) cfg openAPISpec swaggerHTML scrape a s Hw) as (_ & Hw1 & Hr). simpl. apply IH; [done..|].
  intros q uid Hq. eapply (hub_steps_closed _ _ q Hr). simpl. apply (Hs q uid).
  eapply lookup_weaken; [exact Hq|]. by apply act_opens_nothing.
Qed.

Lemma shutdown_closes cfg s : hub_inv (sv_open s, w_hub (sv_world s)) → all_closed (act cfg DoShutdown s).
Proof.
  intros [_ Hu Hh _] q uid Hq. simpl in *. apply closed_CloseAll. right. split; [by eapply Hh|].
  exists uid. by apply Hu.
Qed.

Abbreviation world p := (sv_world (pr_server p)).
Abbreviation hub_of s := (sv_open s, w_hub (sv_world s)).

Lemma run_ok' cfg acts s : env evolves (sv_world s) → server_ok s (run_server cfg acts s).
Proof. apply (run_ok cfg openAPISpec swaggerHTML scrape). Qed.

(** The server when Run closes the hub: after what happened until the
    signal and while the workers were waited for. *)
Definition when_closed (app : App) (pl : plan) (s : server) : server :=
  run_server (ap_Config app) (live app true (pl_waiting pl))
    (run_server (ap_Config app) (live app true (pl_serving pl)) s).
(** Every connection that was open in [s] is closed in [s']. *)
Definition closed_since (s s' : server) : Prop :=
  ∀ q uid, sv_open s !! q = Some uid → closed_at q (w_hub (sv_world s')).

(** The end of Run, from the closing of the hub. *)
Lemma closing_phase cfg acts s :
  env evolves (sv_world s) →
  let s' := run_server cfg acts (act cfg DoShutdown s) in
  server_ok s s' ∧ (hub_inv (hub_of s) → closed_since s s' ∧ (Forall (λ a, ¬ opens a) acts → all_closed s')).
Proof.
  intros Hw s'. pose proof (act_ok (R := evolves) cfg openAPISpec swaggerHTML scrape DoShutdown s Hw) as H1.
  pose proof H1 as (_ & Hw1 & _). split; [eapply server_ok_trans; [exact H1|by apply run_ok']|].
  intros Hi. split; [|intros Hacts; apply run_all_closed; [done..|by apply shutdown_closes]].
  pose proof (run_ok' cfg acts _ Hw1) as (_ & _ & Hr). intros q uid Hq.
  apply (hub_steps_closed _ _ q Hr). simpl. exact (shutdown_closes cfg s Hi q uid Hq).
Qed.

Lemma hub_inv_steps s s' : server_ok s s' → hub_inv (hub_of s) → hub_inv (hub_of s').
Proof.
  intros (_ & _ & Hr) Hi. revert Hr. generalize (hub_of s'). intros x Hr. revert Hi.
  induction Hr as [|x y z H _ IH]; [done|]. intros Hi. by apply IH, (hub_step_inv _ _ H).
Qed.

Lemma opens_live app w acts : Forall (λ a, ¬ opens a) acts → Forall (λ a, ¬ opens a) (live app w acts).
Proof.
  rewrite !Forall_forall. intros H a Ha. unfold live in Ha. apply list_elem_of_filter in Ha as [_ Ha]. by apply H.
Qed.

(** Run: it serves, keeps the server's invariants, and when a signal ends
    it the producer and every connection open by then are closed. *)
Lemma Run_inv app pl p r p' :
  env evolves (world p) → pr_writer p = ap_kafkaProd app → Run app pl p = (r, p') →
  pr_serving p' = true ∧ pr_runner p' = pr_runner p ∧ server_ok (pr_server p) (pr_server p')
  ∧ (pl_failed pl = None → pr_writer p' = false
     ∧ (ap_hub app = true → hub_inv (hub_of (pr_server p)) →
        closed_since (when_closed app pl (pr_server p)) (pr_server p')
        ∧ (Forall (λ a, ¬ opens a) (pl_closing pl) → all_closed (pr_server p')))).
Proof.
  intros Hw Hprod. unfold Main.Run, run_actions, attempt, Producer_Close, of_result, map_err, modify_state, mbind, eff_bind.
  cbv beta iota. cbn [set_serving on_server pr_server].
  pose proof (run_ok' (ap_Config app) (live app true (pl_serving pl)) _ Hw) as H1. pose proof H1 as (_ & Hw1 & _).
  destruct (pl_failed pl) as [e|] eqn:Ef; [intros [= <- <-]; done|].
  pose proof (run_ok' (ap_Config app) (live app true (pl_waiting pl)) _ Hw1) as H2. pose proof H2 as (_ & Hw2 & _).
  pose proof (server_ok_trans _ _ _ H1 H2) as H12.
  pose proof (closing_phase (ap_Config app) (live app (negb (pl_stopped pl)) (pl_closing pl)) _ Hw2) as [H3 Hcl].
  pose proof (run_ok' (ap_Config app) (live app (negb (pl_stopped pl)) (pl_closing pl)) _ Hw2) as H4.
  pose proof (hub_inv_steps _ _ H12) as Hinv. pose proof (opens_live app (negb (pl_stopped pl)) (pl_closing pl)) as Hlive.
  destruct (ap_kafkaProd app) eqn:Ek, (ap_hub app) eqn:Eh, (pl_shutdown pl) as [[]|e]; cbn [negb];
    intros [= _ <-]; cbn [pr_serving pr_runner pr_server pr_writer set_writer set_serving on_server] in *.
  all: split; [reflexivity|]; split; [reflexivity|]; split; [eapply server_ok_trans; eassumption|].
  all: intros _; split; [first [reflexivity|exact Hprod]|]; try (intros [=]).
  all: intros Hi; apply Hinv, Hcl in Hi as [Hsince Hall]; split; [exact Hsince|auto].
Qed.

(** ** main *)
Definition migrated (p p' : process) (r : result error ()) : Prop :=
  Up exec_sql SQL true (pr_runner p) = (r, pr_runner p').

(** What main needs before it serves. *)
Definition ready (cfg : Config) : Prop :=
  Load Getenv ReadFile Unmarshal = Ok cfg
  ∧ (∃ pc, ParseConfig (cf_DSN cfg) = Ok pc ∧ NewWithConfig pc = Ok ())
  ∧ ping (TrimSpace (cf_RedisAddr cfg)) = Ok ().

(** ** The wiring *)
Lemma app_container_eq cfg : TrimSpace (cf_RedisAddr cfg) ≠ "" → app_container cfg = container_of cfg true true true.
Proof. intros H. unfold app_container, app_redis. by rewrite (proj2 (String.eqb_neq _ _) H). Qed.

Lemma NewContainer_eq cfg p :
  TrimSpace (cf_RedisAddr cfg) ≠ "" →
  NewContainer ping cfg true true p
  = match ping (TrimSpace (cf_RedisAddr cfg)) with
    | Ok _ => (Ok (app_container cfg), set_client true p)
    | Err e => (Err (ErrWrapf "redis ping" e), p)
    end.
Proof.
  intros H. rewrite app_container_eq by done. destruct New_registers as (m & Hm & _).
  unfold NewContainer, mbind, eff_bind, of_result. rewrite Hm, (proj2 (String.eqb_neq _ _) H).
  by destruct (ping _) as [[]|e].
Qed.

(** The producer exists: Kafka is enabled, with brokers and a topic. *)
Definition has_producer (cfg : Config) : bool :=
  let k := cf_Kafka cfg in
  kc_Enabled k && bool_decide (splitBrokers (kc_Brokers k) ≠ []) && bool_decide (TrimSpace (kc_Topic k) ≠ "").
(** The base of the consumer group. *)
Definition group_base (cfg : Config) : string :=
  let g := TrimSpace (kc_ConsumerGroup (cf_Kafka cfg)) in if decide (g = "") then "goflow-ws-fanout" else g.

(** The patterns the complete server answers. *)
Definition all_patterns : list string :=
  ["GET /openapi.yaml"; "GET /docs"; "GET /health"; "GET /metrics";
   "POST /auth/register"; "POST /auth/login"; "POST /auth/refresh"; "POST /auth/logout"; "POST /auth/logout-all";
   "GET /users/me"; "PATCH /users/me"; "GET /users/search"; "GET /users/{id}";
   "GET /chats"; "POST /chats/direct"; "POST /chats/group"; "GET /chats/{chat_id}/members";
   "POST /chats/{chat_id}/members"; "DELETE /chats/{chat_id}/members/{user_id}"; "GET /chats/{chat_id}";
   "GET /chats/{chat_id}/messages"; "POST /chats/{chat_id}/messages"; "GET /messages/{message_id}";
   "PATCH /messages/{message_id}"; "DELETE /messages/{message_id}"; "POST /messages/{message_id}/read";
   "POST /ws/ticket"; "GET /ws/connect"].

(** What New makes, part by part; [n] UUIDs were generated before. *)
Record built (cfg : Config) (n : nat) (app : App) : Prop := mkBuilt {
  bt_Config : ap_Config app = cfg;
  bt_Addr : ap_Addr app = ":" +:+ cf_Port cfg;
  (** Each limited route has the limiter of its configured rate. *)
  bt_limits name :
    ap_limits app !! name
    = if decide (name = "register") then NewIPRateLimiter name (rc_Register (cf_RateLimit cfg)) 0
      else if decide (name = "login") then NewIPRateLimiter name (rc_Login (cf_RateLimit cfg)) 0
      else if decide (name = "message_send") then NewIPRateLimiter name (rc_MessageSend (cf_RateLimit cfg)) 0
      else if decide (name = "ws_connect") then NewIPRateLimiter name (rc_WSConnect (cf_RateLimit cfg)) 0
      else None;
  (** The handler: the chain, with metrics, around every route. *)
  bt_handler : ∃ routes, ap_handler app = Chain true routes ∧ rt_Pattern <$> routes = all_patterns
    ∧ handle "GET /ws/connect" (chainLimit "ws_connect"
        (ws_connect (Some true) (Some (Some true)) true (NewHandler_allowed (wc_AllowedOrigins (cf_WS cfg))))) ∈ routes
    ∧ handle "POST /ws/ticket" (chainLimit "ws_connect" (world_handler
        (RequireBearerAuth (TrimSpace (jwt_Secret (cf_JWT cfg)))
           (WSTicket_Issue (Some true)
              (let ttl := duration_seconds (wc_TicketTTLSeconds (cf_WS cfg)) in
               if (ttl <=? 0)%Z then 2 * minute else ttl)%Z)))) ∈ routes;
  (** The WebSocket service, with presence, typing and Pub/Sub. *)
  bt_hub : ap_hub app = true;
  bt_wsSvc : ap_wsSvc app
    = Some (HandleEvent (Some (pg_message_writer true true)) true (Some (Some true)) (Some true) true (Some true));
  bt_redisRelay : ap_redisRelay app = true;
  (** The relay publishes to Kafka when that is enabled; the producer and
      the consumer exist when there is something to publish to, and each
      process has a consumer group of its own. *)
  bt_relay : ap_relay app
    = Some (mkRelay (if kc_Enabled (cf_Kafka cfg) then Some (has_producer cfg) else None) true (kc_Enabled (cf_Kafka cfg)) true);
  bt_kafkaProd : ap_kafkaProd app = has_producer cfg;
  bt_consumer : ap_consumer app
    = if has_producer cfg
      then Some (splitBrokers (kc_Brokers (cf_Kafka cfg)), TrimSpace (kc_Topic (cf_Kafka cfg)),
                 group_base cfg +:+ "-" +:+ gen_uuid n)
      else None
}.

Abbreviation New := (Main.New openAPISpec swaggerHTML scrape).

Lemma has_producer_eq cfg :
  has_producer cfg
  = kc_Enabled (cf_Kafka cfg) && NewProducer (splitBrokers (kc_Brokers (cf_Kafka cfg))) (TrimSpace (kc_Topic (cf_Kafka cfg))).
Proof.
  unfold has_producer, NewProducer. rewrite <- andb_assoc. f_equal. rewrite negb_orb. f_equal.
  - destruct (splitBrokers _); [reflexivity|by rewrite bool_decide_true].
  - destruct (String.eqb_spec (TrimSpace (kc_Topic (cf_Kafka cfg))) "") as [->|]; [done|by rewrite bool_decide_true].
Qed.

Lemma new_limits_lookup cfg name :
  new_limits cfg !! name
  = if decide (name = "register") then NewIPRateLimiter name (rc_Register (cf_RateLimit cfg)) 0
    else if decide (name = "login") then NewIPRateLimiter name (rc_Login (cf_RateLimit cfg)) 0
    else if decide (name = "message_send") then NewIPRateLimiter name (rc_MessageSend (cf_RateLimit cfg)) 0
    else if decide (name = "ws_connect") then NewIPRateLimiter name (rc_WSConnect (cf_RateLimit cfg)) 0
    else None.
Proof.
  unfold new_limits. cbn [omap list_omap].
  destruct (NewIPRateLimiter "register" _ 0) eqn:E1, (NewIPRateLimiter "login" _ 0) eqn:E2,
    (NewIPRateLimiter "message_send" _ 0) eqn:E3, (NewIPRateLimiter "ws_connect" _ 0) eqn:E4; cbn;
  repeat case_decide; subst; simplify_map_eq; congruence.
Qed.

Lemma new_routes_of cfg :
  let routes := new_routes openAPISpec swaggerHTML scrape (container_of cfg true true true) cfg in
  rt_Pattern <$> routes = all_patterns
  ∧ Forall (λ rt, rt ∈ routes)
      [handle "GET /ws/connect" (chainLimit "ws_connect"
         (ws_connect (Some true) (Some (Some true)) true (NewHandler_allowed (wc_AllowedOrigins (cf_WS cfg)))));
       handle "POST /ws/ticket" (chainLimit "ws_connect" (world_handler
         (RequireBearerAuth (TrimSpace (jwt_Secret (cf_JWT cfg)))
            (WSTicket_Issue (Some true) (new_ticket_ttl cfg)))))].
Proof.
  unfold new_routes, Register, docs_Register, auth_routes, user_routes, chat_routes, message_routes.
  cbn [new_deps dp_Metrics dp_Auth dp_Users dp_Chats dp_Messages dp_WS dp_WSTicket new_metrics new_authSvc new_userSvc new_chatSvc
       new_msgSvc new_wsHTTP new_wsTicketHTTP new_hub container_of ct_Metrics ct_Users ct_Sessions ct_Chats ct_Messages
       ct_MessagesWriter ct_WSTicket is_set andb app fmap option_fmap option_map list_fmap].
  split; [by rewrite !rt_Pattern_handle|].
  apply Forall_cons; split; [do 27 right; left|]. apply Forall_cons; split; [do 26 right; left|apply Forall_nil_2].
Qed.

Lemma New_builds cfg p :
  TrimSpace (cf_RedisAddr cfg) ≠ "" →
  ∃ app w, (w = world p ∨ w = bump_ids (world p))
    ∧ New (Some (app_container cfg)) p = (Ok app, on_server (λ _, start cfg w) (set_writer (ap_kafkaProd app) p))
    ∧ built cfg (w_ids (world p)) app ∧ ap_limits app = app_limits cfg
    ∧ ap_handler app = app_site cfg openAPISpec swaggerHTML scrape.
Proof.
  intros Haddr. rewrite app_container_eq by done.
  assert (new_kafkaProd (container_of cfg true true true) cfg = has_producer cfg) as Hk by (symmetry; apply has_producer_eq).
  assert (new_relay (container_of cfg true true true) cfg
    = Some (mkRelay (if kc_Enabled (cf_Kafka cfg) then Some (has_producer cfg) else None) true (kc_Enabled (cf_Kafka cfg)) true))
    as Hrelay.
  { rewrite has_producer_eq. unfold new_relay, new_brokers, new_topic. simpl. by destruct (kc_Enabled (cf_Kafka cfg)). }
  assert (app_site cfg openAPISpec swaggerHTML scrape
          = Chain true (new_routes openAPISpec swaggerHTML scrape (container_of cfg true true true) cfg)) as Hsite
    by (unfold app_site; by rewrite app_container_eq).
  destruct (new_routes_of cfg) as [Hpat Hin]. rewrite !Forall_cons in Hin. destruct Hin as (Hconn & Hticket & _).
  assert (∀ consumer, consumer = (if has_producer cfg
      then Some (splitBrokers (kc_Brokers (cf_Kafka cfg)), TrimSpace (kc_Topic (cf_Kafka cfg)),
                 group_base cfg +:+ "-" +:+ gen_uuid (w_ids (world p))) else None) →
    built cfg (w_ids (world p))
      (mkApp cfg (new_limits cfg) (Chain true (new_routes openAPISpec swaggerHTML scrape (container_of cfg true true true) cfg))
         (":" +:+ cf_Port cfg) true (new_wsSvc (container_of cfg true true true))
         (new_relay (container_of cfg true true true) cfg) (has_producer cfg) consumer true)) as Hbuilt.
  { intros consumer ->. split; cbn [ap_Config ap_Addr ap_limits ap_handler ap_hub ap_wsSvc ap_redisRelay ap_relay ap_kafkaProd ap_consumer];
      [reflexivity|reflexivity|apply new_limits_lookup|eexists; split_and!; [reflexivity|exact Hpat|exact Hconn|exact Hticket]
      |reflexivity|reflexivity|reflexivity|exact Hrelay|reflexivity|reflexivity]. }
  eexists (mkApp cfg (new_limits cfg) _ (":" +:+ cf_Port cfg) true (new_wsSvc (container_of cfg true true true))
      (new_relay (container_of cfg true true true) cfg) (has_producer cfg) _ true),
    (if has_producer cfg then bump_ids (world p) else world p).
  split; [destruct (has_producer cfg); auto|]. split; [|split; [by apply Hbuilt|by split]].
  unfold Main.New. cbn [ct_Config ct_Logger container_of]. fold (container_of cfg true true true). rewrite Hk.
  assert ((if str_empty (TrimSpace (kc_ConsumerGroup (cf_Kafka cfg))) then "goflow-ws-fanout"
           else TrimSpace (kc_ConsumerGroup (cf_Kafka cfg))) = group_base cfg) as Hg.
  { unfold group_base. destruct (String.eqb_spec (TrimSpace (kc_ConsumerGroup (cf_Kafka cfg))) "") as [->|]; [done|]. by rewrite decide_False. }
  destruct (has_producer cfg); [|by destruct p as [? ? ? ? ? []]].
  unfold mbind, eff_bind, modify_state, on_world, kafkaWSFanoutConsumerGroup. rewrite Hg. by destruct p as [? ? ? ? ? []].
Qed.

(** C39.  A configuration that Load accepts is sound, and on it the server
    is complete: with a pool and a Redis that answers, NewContainer and New
    succeed; the server listens on the configured port, has every route,
    each limited one with the limiter of its configured rate, the WebSocket
    service with presence, typing and Pub/Sub, the outbox relay and the
    Redis subscription; and it publishes to Kafka, and consumes the same
    topic from the same brokers in a consumer group of this process alone,
    exactly when Kafka is enabled with at least one broker and a topic. *)
Theorem configured_server cfg p :
  Load Getenv ReadFile Unmarshal = Ok cfg → ping (TrimSpace (cf_RedisAddr cfg)) = Ok () →
  sound_config cfg
  ∧ ∃ c app p1 p2,
      NewContainer ping cfg true true p = (Ok c, p1) ∧ New (Some c) p1 = (Ok app, p2)
      ∧ built cfg (w_ids (world p)) app
      ∧ sv_limits (pr_server p2) = ap_limits app ∧ sv_open (pr_server p2) = ∅
      ∧ pr_redis p2 = true ∧ pr_writer p2 = has_producer cfg.
Proof.
  intros Hload Hping. split; [by eapply load_correct|].
  apply Load_inv in Hload as (c0 & _ & Hvalid). apply Validate_Ok in Hvalid as ((_ & _ & Haddr & _) & _).
  pose proof (NewContainer_eq cfg p Haddr) as Hc. rewrite Hping in Hc.
  destruct (New_builds cfg (set_client true p) Haddr) as (app & w & _ & Hn & Hb & Hlim & _).
  exists (app_container cfg), app. do 2 eexists. split; [exact Hc|]. split; [exact Hn|]. split; [done|].
  cbn. split_and!; [done..|]. apply (bt_kafkaProd _ _ _ Hb).
Qed.

Lemma main_inv pl p r p' :
  main pl p = (r, p') →
  (∃ e, r = Err e ∧ pr_server p' = pr_server p ∧ pr_serving p' = pr_serving p
        ∧ (pr_runner p' = pr_runner p ∨ ∃ r0, migrated p p' r0))
  ∨ (∃ cfg app w p1 r1 p2, ready cfg ∧ built cfg (w_ids (world p)) app ∧ (w = world p ∨ w = bump_ids (world p))
       ∧ (if cf_RunMigrations cfg then migrated p p1 (Ok ()) else pr_runner p1 = pr_runner p)
       ∧ pr_server p1 = start cfg w ∧ pr_writer p1 = ap_kafkaProd app
       ∧ Run app pl p1 = (r1, p2) ∧ r = r1
       ∧ p' = if r1 is Ok _ then set_pool false (set_client false p2) else p2).
Proof.
  unfold Main.main.
  intros [(cfg & q & [= Hload <-] & H)|(e & [= Hload <-] & ->)]%bind_inv; [|left; eauto 10].
  apply bind_inv in H as [(u & q & Hp & H)|(e & Hp & ->)]; revert Hp; unfold NewPool, of_result, modify_state, mbind, eff_bind;
    destruct (ParseConfig (cf_DSN cfg)) as [pc|e'] eqn:Epc; try destruct (NewWithConfig pc) as [[]|e'] eqn:Enc;
    intros [= <-]; [subst q|left; subst; eauto 10..].
  apply bind_inv in H as [(u' & q & Hm & H)|(e & Hm & ->)].
  2: { left. exists e. destruct (cf_RunMigrations cfg); [|done]. revert Hm. unfold migrate.
       destruct (Up _ _ _ _) as [r0 s0] eqn:Eup. intros [= -> <-]. split_and!; [done..|]. right. exists (Err e). exact Eup. }
  assert (pr_server q = pr_server p ∧ pr_serving q = pr_serving p ∧
          if cf_RunMigrations cfg then migrated p q (Ok ()) else pr_runner q = pr_runner p) as (Hs & Hv & Hr).
  { revert Hm. destruct (cf_RunMigrations cfg); [|by intros [= _ <-]]. unfold migrate, migrated. simpl.
    destruct (Up _ _ _ _) as [[[]|e] s0]; [|done]. by intros [= _ <-]. }
  assert (pr_runner q = pr_runner p ∨ ∃ r0, migrated p q r0) as Hr' by (destruct (cf_RunMigrations cfg); eauto).
  clear Hm u'. pose proof Hload as (c0 & _ & Hvalid)%Load_inv. apply Validate_Ok in Hvalid as ((_ & _ & Haddr & _) & _).
  apply bind_inv in H as [(c & q1 & Hc & H)|(e & Hc & ->)]; rewrite (NewContainer_eq cfg q Haddr) in Hc;
    destruct (ping (TrimSpace (cf_RedisAddr cfg))) as [[]|e'] eqn:Eping; try discriminate Hc; injection Hc as <- <-; [|by left; eauto 10].
  destruct (New_builds cfg (set_client true q) Haddr) as (app & w & Hw & Hn & Hb & _).
  rewrite (bind_ok _ _ _ _ _ Hn) in H. cbn [set_client pr_server] in Hw, Hb. rewrite Hs in Hw, Hb. right.
  apply bind_inv in H as [([] & p2 & Hrun & H)|(e & Hrun & ->)]; [rewrite app_container_eq in H by done; injection H as <- <-|];
    match type of Hrun with Main.Run _ _ _ _ ?a _ ?b = (?r1, ?p3) => exists cfg, a, w, b, r1, p3 end.
  all: split; [split_and!; eauto|]; split; [exact Hb|]; split; [exact Hw|]; split; [exact Hr|]; done.
Qed.

Abbreviation names := (sql_names SQL).
Abbreviation applied := (MigrationTheorems.applied exec_sql SQL).

(** C24.  The process, started on a database the same files were applied
    to in part, whatever fails and whatever its clients do:
    - the migrations applied stay the first ones, and the tables evolve;
    - it serves only with a configuration Load accepted, a pool, a Redis
      that answers, and, when they are asked for, all migrations applied;
      otherwise it exits with an error, migrations possibly applied, but
      the tables, the connections, Redis and Kafka as they were;
    - when a signal ends it, the Kafka writer is closed and so is every
      WebSocket connection open when the hub was closed; all are, unless
      one opens between that and the end of the HTTP server (which can
      happen: [late_connection]);
    - when it exits with success, the pool and the Redis client are
      closed. *)
Theorem process_correct pl p r p' s0 k :
  NoDup (de_Name <$> SQL) → (k ≤ length names)%nat → applied s0 k (rs_db (pr_runner p)) →
  pr_serving p = false → w_hub (world p) = NewHub → wf (w_db (world p)) → env evolves (world p) →
  main pl p = (r, p') →
  (∃ k', applied s0 k' (rs_db (pr_runner p')))
  ∧ wf (w_db (world p')) ∧ evolves (w_db (world p)) (w_db (world p'))
  ∧ (if pr_serving p'
     then ∃ cfg app w, ready cfg ∧ (cf_RunMigrations cfg = true → applied s0 (length names) (rs_db (pr_runner p')))
       ∧ built cfg (w_ids (world p)) app ∧ (w = world p ∨ w = bump_ids (world p))
       ∧ (pl_failed pl = None →
          pr_writer p' = false ∧ closed_since (when_closed app pl (start cfg w)) (pr_server p')
          ∧ (Forall (λ a, ¬ opens a) (pl_closing pl) → all_closed (pr_server p')))
     else exit_code r = 1%Z ∧ world p' = world p)
  ∧ (exit_code r = 0%Z → pr_pool p' = false ∧ pr_redis p' = false).
Proof.
  intros Hnd%sql_names_NoDup Hk Ha Hserv Hhub Hwf Hw [(e & -> & Hs & Hv & Hm)|H]%main_inv.
  - rewrite Hv, Hserv, Hs. split_and!; try done.
    destruct Hm as [-> |[r0 Hm]]; [eauto|]. by apply (Up_inv exec_sql SQL s0 k) in Hm as (k' & _ & ? & _); eauto.
  - destruct H as (cfg & app & w & p1 & r1 & p2 & Hready & Hb & Hids & Hm & Hs & Hprod & Hrun & -> & Hp').
    assert (w_db w = w_db (world p) ∧ w_hub w = w_hub (world p) ∧ env evolves w) as (Hdb & Hhubw & Hw1)
      by (destruct Hids as [-> | ->]; done).
    apply Run_inv in Hrun as (Hv & Hr & Hok & Hend); [|by rewrite Hs|done].
    rewrite Hs in Hok, Hend. pose proof Hok as (He & _ & _). simpl in He. rewrite Hdb in He.
    assert (pr_server p' = pr_server p2 ∧ pr_runner p' = pr_runner p1 ∧ pr_serving p' = true ∧ pr_writer p' = pr_writer p2)
      as (-> & -> & -> & ->) by (subst p'; by destruct r1).
    assert (∃ k', applied s0 k' (rs_db (pr_runner p1)) ∧ (cf_RunMigrations cfg = true → k' = length names)) as (k' & Ha' & Hk').
    { destruct (cf_RunMigrations cfg); [|rewrite Hm; by exists k].
      apply (Up_inv exec_sql SQL s0 k) in Hm as (k' & _ & ? & Hk'); [|done..]. exists k'. auto. }
    split_and!; [eauto|by apply (ev_wf _ _ He)|done| |destruct r1; [intros _; by subst p'|done]].
    exists cfg, app, w. split_and!; [done|intros Hc; by rewrite <- Hk'|done|done|].
    intros Hf. destruct (Hend Hf) as [? Hcl]. split; [done|]. apply Hcl; [apply Hb|].
    simpl. rewrite Hhubw, Hhub. apply hub_init_inv.
Qed.
End process.

(** A start on the five migration files, a connection, a signal. *)
Definition demo_getenv (key : string) : string :=
  if String.eqb key "WS_ALLOWED_ORIGINS" then ""
  else if String.eqb key "RUN_MIGRATIONS_ON_STARTUP" then "true"
  else demo_env key.
Definition demo_plan : plan :=
  mkPlan [DoConnect "" demo_ticket true; DoTick] None [DoHTTP demo_get] true [DoWrite 0; DoTick]
    (Ok ()) (ErrPlain ErrServerClosed).
Definition demo_process : process (Schema := list string) :=
  mkProcess (mkRunner (mkMigDB None []) []) false false false false (mkServer ∅ ∅ demo_issued).
Definition demo_main : result error () * process :=
  main "" "" demo_scrape demo_exec demo_files (λ dsn, Ok dsn) (λ _, Ok ()) (λ _, Ok ()) (Ok ())
    demo_getenv (λ _, Ok None) demo_yaml demo_plan demo_process.

Lemma process_correct_witness :
  exit_code demo_main.1 = 0%Z ∧ sv_open (pr_server demo_main.2) = {[0%nat := alice]}
  ∧ all_closed (pr_server demo_main.2) ∧ md_schema (rs_db (pr_runner demo_main.2)) = ["a"; "b"; "c"; "d"; "e"].
Proof.
  assert (exit_code demo_main.1 = 0%Z ∧ pr_serving demo_main.2 = true) as [Hx Hv] by (vm_compute; auto).
  split; [exact Hx|]. split; [vm_compute; reflexivity|]. split; [|vm_compute; reflexivity].
  destruct demo_main as [r p'] eqn:E. cbn [fst snd] in *.
  destruct (process_correct "" "" demo_scrape demo_exec demo_files (λ dsn, Ok dsn) (λ _, Ok ()) (λ _, Ok ()) (Ok ())
    demo_getenv (λ _, Ok None) demo_yaml demo_plan demo_process r p' [] 0) as (_ & _ & _ & Hcl & _).
  - apply demo_files_NoDup.
  - lia.
  - by split.
  - reflexivity.
  - vm_compute. reflexivity.
  - apply demo_wf.
  - apply undisturbed_guar; [apply _|]. apply quiet_undisturbed. vm_compute. reflexivity.
  - exact E.
  - rewrite Hv in Hcl. destruct Hcl as (cfg & app & w & _ & _ & _ & _ & Hcl).
    destruct (Hcl eq_refl) as (_ & _ & Hall). apply Hall. repeat constructor; intros [].
Defined.

(** A connection that opens after the hub was closed, while the HTTP server
    is shut down, is not closed by anybody. *)
Definition late_plan : plan :=
  mkPlan [] None [] true [DoConnect "" demo_ticket true] (Ok ()) (ErrPlain ErrServerClosed).
Example late_connection :
  let p' := (main "" "" demo_scrape demo_exec demo_files (λ dsn, Ok dsn) (λ _, Ok ()) (λ _, Ok ()) (Ok ())
               demo_getenv (λ _, Ok None) demo_yaml late_plan demo_process).2 in
  sv_open (pr_server p') = {[0%nat := alice]}
  ∧ (c_closed <$> h_heap (w_hub (sv_world (pr_server p'))) !! 0%nat) = Some false.
Proof. vm_compute. auto. Qed.

Definition kafka_env (key : string) : string :=
  if String.eqb key "KAFKA_BROKERS" then "k1:9092, k2:9092 ," else demo_env key.

Lemma configured_server_witness :
  ∃ cfg c app p1 p2, Load kafka_env demo_file demo_yaml = Ok cfg
    ∧ NewContainer (λ _, Ok ()) cfg true true demo_process = (Ok c, p1)
    ∧ Main.New "" "" demo_scrape (Some c) p1 = (Ok app, p2)
    ∧ ap_Addr app = ":8080"
    ∧ ap_consumer app = Some (["k1:9092"; "k2:9092"], "goflow.domain.events", "goflow-ws-fanout-" +:+ gen_uuid 0).
Proof.
  assert (match Load kafka_env demo_file demo_yaml with
          | Ok cfg => cf_Port cfg = "8080"
              ∧ (if has_producer cfg
                 then Some (splitBrokers (kc_Brokers (cf_Kafka cfg)), TrimSpace (kc_Topic (cf_Kafka cfg)), group_base cfg)
                 else None) = Some (["k1:9092"; "k2:9092"], "goflow.domain.events", "goflow-ws-fanout")
          | Err _ => False
          end) as Hd by (vm_compute; auto).
  destruct (Load kafka_env demo_file demo_yaml) as [cfg|e] eqn:E; [|destruct Hd]. destruct Hd as [Hport Hkafka].
  destruct (configured_server "" "" demo_scrape (λ _, Ok ()) kafka_env demo_file demo_yaml cfg demo_process)
    as (_ & c & app & p1 & p2 & Hc & Hn & Hb & _).
  - exact E.
  - reflexivity.
  - exists cfg, c, app, p1, p2. split; [reflexivity|]. split; [exact Hc|]. split; [exact Hn|].
    rewrite (bt_Addr _ _ _ Hb), (bt_consumer _ _ _ Hb), Hport. split; [reflexivity|].
    destruct (has_producer cfg); [|discriminate Hkafka]. injection Hkafka as -> -> ->. reflexivity.
Defined.
